(* ===== verification/_CoqProject ===== *)
-Q . S2P
Prelude.v
GoString.v
Httpx.v
Types.v
Db.v
Store.v
StoreFacts.v
Broadcaster.v
Service.v
ServiceFacts.v
Runs.v
Samples.v
Order.v
Access.v
RoomsProps.v
CreateProps.v
Transfer.v
TextProps.v
RouteProps.v
MarkerProps.v
RoomMachine.v
RoomView.v
Steps.v
Requests.v
RequestFacts.v
Isolation.v
RequestProps.v
ChatProps.v
ListProps.v
Messages.v
Client.v
ClientProps.v
Hub.v
HubFacts.v
Presence.v
HubProps.v
HubBroadcaster.v
Providers.v
Auth.v
AuthFacts.v
AuthProps.v
Livekit.v
Handlers.v
HandlersProps.v
Session.v
SessionProps.v
Threads.v
ThreadFacts.v
ThreadRules.v
ThreadProps.v
Push.v
PushProps.v
Feedback.v
FeedbackProps.v
GoText.v
Sha256.v
AppConfig.v
ConfigProps.v
Admin.v
AdminFacts.v
AdminProps.v
AdminPages.v
Overlap.v
ServerFacts.v
Server.v
ServerProps.v
Migrations.v
MigrationProps.v
Boot.v
Lifecycle.v
