(* ===== verification/Prelude.v ===== *)
(** * The Convoy backend, verified

    Convoy is a Go server for groups that travel together: rooms with an
    owner, members, a destination, stops, a chat and personal markers, kept in
    PostgreSQL; a WebSocket hub that tells the members of a room what changes
    and where everybody is; accounts with guest, Google and Apple sign-in; push
    notifications; feedback; and a dashboard for operators.  This library
    models the packages under [src/internal] and [src/cmd/server] and proves
    what they promise.

    ** How the code is modelled

    - [Db]: the tables of [internal/db/migrations] as finite maps from primary
      keys to rows, and the error and state monad [M H] in which every handler
      runs.  The world holds the tables, the clock, the environment and the
      state [H] of the realtime side.  A statement of the source is a function
      on the tables with the constraints it can violate; the environment
      decides for each statement whether it runs, fails before it has an
      effect, or has its effect and loses its answer, how much time passes and
      which identifier is generated.  [in_tx] is a transaction.  Theorems
      without the hypothesis [fault_free] hold under every pattern of failures.
    - [GoString], [GoText], [Sha256], [Types]: Go strings as bytes, UTF-8 and
      the functions of [strings], [utf8], [strconv], [fmt], [crypto/sha256],
      [crypto/hmac] and [encoding/base64] the source uses; [float64] as binary64
      of [SpecFloat]; identifiers and times.
    - Code outside of the repository is a parameter: JWT libraries and key
      sets, the UUID package, LiveKit's token, Expo's answers, Unicode case
      mapping beyond ASCII, [ILIKE] and the input function of [timestamptz],
      and the order in which a table without [ORDER BY] is scanned.

    ** The components

    - [Httpx] ([internal/httpx]): typed API errors, replies, decoding.
    - [Store], [Service], [Handlers] ([internal/rooms]): one definition per
      method and handler.  [Broadcaster] is the interface through which the
      service speaks to the realtime side, a record of operations with a class
      of laws; [trace_broadcaster] records the calls and [HubBroadcaster] shows
      that the hub is an instance.  [StoreFacts] has the schema invariant
      [db_wf], [ServiceFacts] what every operation keeps, [Runs] the operations
      as functions of the tables when nothing fails, [Order] what an [ORDER BY]
      promises, [Samples] a concrete convoy.
    - [RoomMachine] is the abstract service: a room as its users know it, the
      events that change it, where each can happen and which request may cause
      it; [RoomView] reads a room off the tables.
    - [Steps], [Requests], [RequestFacts] (the service when requests overlap):
      each operation of the service as a program of statements, derived from
      its definition by instance resolution ([Stepwise], and [steps_run] says
      that the program run alone is the operation); the statements the service
      can send; a system of tables, realtime side and requests in flight that
      a scheduler advances one statement at a time, while the rest of the
      server registers users and moves sockets ([elsewhere]); and what each
      request relies on and guarantees.  [Overlap] adds the statements of the
      other packages that end rooms and remove members and users
      ([server_step]).
    - [Messages], [Client], [Hub], [Session] ([internal/realtime]): frames, a
      socket with its queue of 32 frames and its write pump as a step function,
      the hub with its shared room states as a store of locations and each
      critical section as a step of its own, and the life of a socket.
      [Presence] is the abstract hub: who is present where, with which alarms
      and locations.
    - [Providers], [Auth] ([internal/auth]): the checks on ID tokens, sign-in,
      session tokens, the middleware, account deletion.
    - [Threads], [ThreadFacts], [ThreadRules] (the concurrency of [hub.go]):
      each hub operation as a program of critical sections and channel
      operations, a system as a pool of goroutines on one hub that a scheduler
      advances one section at a time, and rules for what a program establishes
      whatever the others do in between: what every section keeps
      ([hub_safe]), how the hub evolves under other goroutines ([evolves]), and
      preconditions that hold against them ([wp]).
    - [Livekit] ([internal/livekit]): voice tokens.
    - [Push] ([internal/push]): tokens, registration and the Expo client.
    - [Feedback] ([internal/feedback]).
    - [AppConfig] ([internal/config]): the environment variables, with
      [time.ParseDuration], and the settings changed at run time.
    - [Admin] ([internal/admin]): sessions, the pages and their statements, with
      what the foreign keys do when a user row is deleted, in the rounds in which
      PostgreSQL fires their triggers: the actions on the user's own rows, the
      checks of the keys without an action, then the actions on the rows of the
      rooms that went; [AdminPages]: the templates parsed at the start, the set
      each page is executed with, and what reaches the browser when one fails.
    - [Server] ([cmd/server/main.go], [internal/policy]): what [main] builds,
      CORS, the route table, and the whole server over the hub.
    - [Migrations] ([internal/db]): the connection pool, the runner of the
      migrations, and the nine scripts as the statements they consist of, with
      what these do to a schema; [Boot]: the process from the environment to a
      server that listens or an exit; [Lifecycle]: the request logger, and the
      process from there to its end, [shutdown_spec].

    ** What is shown

    - Invariants: [service_keeps_schema], [auth_keeps_schema] and, for every
      route of the server and every event on the sockets, [server_invariant].
      [migrations_converge]: every deployment, whatever runs of the migrations
      it went through, comes to the same schema; [migrate_spec] is what one run
      runs and reports; [boot_spec] is what a start of the process comes to,
      whatever calls of the migrations fail.
    - What an operation can touch, whatever fails: [service_footprint] bounds
      the rows of each service operation, [end_is_final] says that nothing
      changes the row of an ended room.
    - The service under every schedule of overlapping requests:
      [service_refines_rooms] (the tables implement [RoomMachine], statement by
      statement, while the rest of the server keeps to [elsewhere]),
      [requests_keep_schema] (the schema, whatever statements of the rest of the
      server come in between), both as long as two transfers of one room do not
      overlap; [no_authority_no_effect] (no check can be raced past),
      [end_stands] (an ended room's row is final at once, its membership once
      the requests under way are done).
    - The hub under every schedule of its goroutines: [presence_backed] (a user
      shown as present has a socket whose goroutine has yet to leave) and
      [frames_typed] (every frame queued for a socket is one the protocol has).
      [run_call] and [run_socket] check the model on itself: a program of
      [Threads] that nothing interrupts is the operation of [Hub] and [Session].
    - Who may do what: [owner_ops_refused], [outsider_refused],
      [middleware_gate], [websocket_gate], [kicked_is_out], [admin_gate],
      [id_tokens_checked], [markers_private].
    - All or nothing: [transfer_all_or_nothing], [account_deletion].
    - What an operation stores, answers and announces, branch by branch:
      [RoomsProps], [CreateProps], [RouteProps], [ListProps], [AuthProps],
      [FeedbackProps], [PushProps], [AdminProps]; texts in [TextProps].
    - Refinement of [Presence] by the hub ([hub_refines]); the order, bound and
      last frames of a socket ([ClientProps], [terminal_frames_delivered]).
    - Reading the history once, to its end ([history_read_once]); [send_spec]
      relates the batches of a notification to a reference account of them.
    - Round trips: [issued_token_admits], [admin_session],
      [settings_round_trip], [csv_round_trip], [soft_delete_restored].
    - Where the code falls short of what it means to do:
      [transfer_race_two_owners], [kick_outlives_transfer], [join_outlives_end],
      [body_email_overwrites],
      [message_outlives_kick], [failed_transfer_moves_marker],
      [deleted_account_locked_out], [guest_name_cut], [feedback_cut_refused],
      [broadcast_cut_unrecorded], [absent_target_is_500],
      [superseded_socket_raises_alarm], [join_leave_race_orphans],
      [broadcasts_cross],
      [getDuration_wraps], [soft_delete_partial], [send_short_answer],
      [failed_listener_exits_0].

    ** Fuel

    [Create] makes the eight attempts of the source.  [Send] has as fuel the
    number of tokens, and [send_spec] shows that it always suffices;
    [duration_loop] has the length of the text, of which each round takes at
    least one byte; [format_nat] has the binary length of the number, at least
    its number of digits; [history_read_once] says how many pages are enough.

    ** Not modelled

    The text of the HTML templates (a page is its name and its data, and
    executing a template is a parameter); log lines other than those of the
    requests; timeouts other than as failing statements and the ten seconds of
    the shutdown; the HTTP server, the router and the pool, which are libraries.
    PostgreSQL runs a migration script as one transaction, which may fail for
    want of a connection, before it or with its answer lost; a schema is its
    extensions, tables, columns, indexes and the rows of [app_config].

    Three kinds of interleaving are modelled: the sections of the hub's
    goroutines ([Threads]), the statements of the rooms service's requests
    ([Requests]) and those of two transfers of ownership ([Transfer]).  A
    transaction is one step of [Requests]; PostgreSQL would let other
    statements commit between the four of a transfer.  Among one another,
    requests to the other packages run one at a time; in between requests to the
    rooms service their statements are in [requests_keep_schema] only, where an
    operator does not remove a user for good while a room of that user is being
    handed over.  [server_invariant] and [alarms_of_present] suppose that frames come from
    the current socket of a user, and [superseded_socket_raises_alarm] shows
    what happens otherwise. *)
From stdpp Require Import base gmap sets list strings sorting.
From Stdlib Require Import ZArith Lia.

(** ** Notations and tactics of the development *)

Declare Scope convoy_scope.
Delimit Scope convoy_scope with convoy.

(** Case analysis on the scrutinee of the first [match] of the goal. *)
Ltac case_goal :=
  match goal with
  | |- context [match ?x with _ => _ end] =>
      lazymatch x with
      | context [match _ with _ => _ end] => fail
      | _ => let E := fresh "E" in destruct x eqn:E
      end
  end.

(** Case analysis on the scrutinee of a [match] in hypothesis [H]. *)
Ltac case_in H :=
  match type of H with
  | context [match ?x with _ => _ end] =>
      lazymatch x with
      | context [match _ with _ => _ end] => fail
      | _ => let E := fresh "E" in destruct x eqn:E
      end
  end.

Create HintDb convoy.
Create Rewrite HintDb convoy_rw.

(** ** Generic lemmas on options and lists *)

Section lists.
Context {A : Type}.
Implicit Types l : list A.

Lemma foldl_ext_in {B} (f g : B -> A -> B) l b :
  (forall b x, x ∈ l -> f b x = g b x) -> foldl f b l = foldl g b l.
Proof.
  revert b; induction l as [|x l IH]; intros b Hfg; [done|]. simpl.
  rewrite Hfg by set_solver. apply IH. set_solver.
Qed.

Lemma length_filter_le (P : A -> Prop) `{forall x, Decision (P x)} l :
  length (filter P l) <= length l.
Proof. induction l as [|x l IH]; [done|]. rewrite filter_cons. case_decide; simpl; lia. Qed.

Lemma NoDup_omap_inj {B} (f : A -> option B) l :
  (forall x y z, x ∈ l -> y ∈ l -> f x = Some z -> f y = Some z -> x = y) ->
  NoDup l -> NoDup (omap f l).
Proof.
  intros Hinj. induction 1 as [|x l Hx Hnd IH]; simpl; [constructor|].
  assert (NoDup (omap f l)) as Hl by (apply IH; intros; eapply Hinj; eauto; set_solver).
  destruct (f x) as [z|] eqn:Hz; [|done]. apply NoDup_cons. split; [|done].
  intros (y & Hy & Hfy)%list_elem_of_omap. destruct Hx.
  by rewrite (Hinj x y z); [| set_solver..| |].
Qed.

Lemma omap_filter_comm {B} (f : A -> option B) (P : A -> Prop) (Q : B -> Prop)
    `{forall x, Decision (P x)} `{forall y, Decision (Q y)} l :
  (forall x y, f x = Some y -> P x <-> Q y) -> omap f (filter P l) = filter Q (omap f l).
Proof.
  intros Hf. induction l as [|x l IH]; [done|]. rewrite filter_cons. simpl.
  destruct (f x) as [y|] eqn:Hx.
  - pose proof (Hf x y Hx). rewrite filter_cons.
    destruct (decide (P x)) as [HP|HP], (decide (Q y)) as [HQ|HQ]; simpl; rewrite ?Hx;
      try (exfalso; tauto); [|exact IH]. f_equal. exact IH.
  - destruct (decide (P x)); simpl; rewrite ?Hx; done.
Qed.

Lemma omap_fmap_comm {B} (f : A -> option B) (g : A -> A) (h : B -> B) l :
  (forall x, f (g x) = h <$> f x) -> omap f (g <$> l) = h <$> omap f l.
Proof.
  intros Hf. induction l as [|x l IH]; [done|]. simpl. rewrite Hf. destruct (f x); simpl; [f_equal|]; exact IH.
Qed.

Lemma last_take_Some l n x :
  last (take n l) = Some x -> exists k, k < n /\ l !! k = Some x.
Proof.
  rewrite last_lookup. intros Hl.
  apply lookup_take_Some in Hl as [Hl Hk]. eauto.
Qed.
End lists.

(** ** Sorted lists

    Two sorted permutations of each other are equal when the order is
    antisymmetric on their elements; the [ORDER BY] lists of the store are
    compared this way. *)
Section sorted.
Context {A : Type} (R : A -> A -> Prop).

Lemma StronglySorted_perm_eq l1 l2 :
  StronglySorted R l1 -> StronglySorted R l2 -> l1 ≡ₚ l2 ->
  (forall x y, x ∈ l1 -> y ∈ l1 -> R x y -> R y x -> x = y) -> l1 = l2.
Proof.
  intros Hs1. revert l2. induction Hs1 as [|x l1 Hs1 IH Hx]; intros l2 Hs2 Hp Hanti.
  { symmetry. by apply Permutation_nil_l in Hp. }
  destruct l2 as [|y l2]; [by apply Permutation_nil_r in Hp|].
  apply StronglySorted_inv in Hs2 as [Hs2 Hy].
  assert (x = y) as <-.
  { assert (x ∈ y :: l2) as Hxin by (rewrite <-Hp; apply list_elem_of_here).
    assert (y ∈ x :: l1) as Hyin by (rewrite Hp; apply list_elem_of_here).
    apply elem_of_cons in Hxin as [->|Hxin]; [done|].
    apply elem_of_cons in Hyin as [->|Hyin]; [done|].
    rewrite Forall_forall in Hx, Hy. apply Hanti; [set_solver..| |]; auto. }
  f_equal. apply IH; [done|by apply Permutation_cons_inv in Hp|].
  intros a b Ha Hb. apply Hanti; set_solver.
Qed.

Lemma StronglySorted_snoc l x :
  StronglySorted R l -> (forall y, y ∈ l -> R y x) -> StronglySorted R (l ++ [x]).
Proof.
  induction 1 as [|y l Hs IH Hy]; intros Hx; simpl; [by repeat constructor|].
  constructor; [apply IH; set_solver|]. apply Forall_app. split; [done|].
  apply Forall_singleton, Hx. set_solver.
Qed.

Lemma StronglySorted_filter (P : A -> Prop) `{forall x, Decision (P x)} l :
  StronglySorted R l -> StronglySorted R (filter P l).
Proof.
  induction 1 as [|y l Hs IH Hy]; [constructor|]. rewrite filter_cons. case_decide; [|done].
  constructor; [done|]. apply Forall_forall. intros z Hz.
  rewrite Forall_forall in Hy. apply Hy. apply list_elem_of_filter in Hz. tauto.
Qed.

(** What comes after the [k]-th element of a strictly sorted list. *)
Lemma StronglySorted_filter_after (P : A -> Prop) `{forall x, Decision (P x)} l k x :
  StronglySorted R l -> l !! k = Some x ->
  (forall y, y ∈ l -> R x y -> y = x \/ P y) -> (forall y, y ∈ l -> R y x -> ~ P y) -> ~ P x ->
  NoDup l -> filter P l = drop (S k) l.
Proof.
  intros Hs. revert k. induction Hs as [|y l Hs IH Hy]; intros k Hk Hafter Hbefore Hx Hnd; [done|].
  rewrite Forall_forall in Hy. apply NoDup_cons in Hnd as [Hny Hnd].
  destruct k as [|k]; simpl in Hk.
  - injection Hk as ->. rewrite filter_cons_False by done. simpl. rewrite drop_0.
    assert (forall z, z ∈ l -> P z) as Hall.
    { intros z Hz. destruct (Hafter z) as [->|]; [set_solver|by apply Hy| |done]. done. }
    clear -Hall. induction l as [|z l IH]; [done|].
    rewrite filter_cons_True by (apply Hall; set_solver). f_equal.
    apply IH. intros w Hw. apply Hall. set_solver.
  - assert (x ∈ l) as Hxl by (eapply list_elem_of_lookup_2; eauto).
    rewrite filter_cons_False by (apply Hbefore; [set_solver|auto]). simpl.
    apply IH; try done.
    + intros w Hw. apply Hafter. set_solver.
    + intros w Hw. apply Hbefore. set_solver.
Qed.
End sorted.
