(* ===== verification/GoString.v ===== *)
(** * Go strings: bytes, UTF-8 and the functions of [strings] and [utf8]

    The source stores every text in a Go [string], a sequence of bytes, and
    uses [strings.TrimSpace], [strings.ToUpper], [utf8.RuneCountInString] and
    the conversions [[]rune(s)] and [string(runes)] on it.  This file holds
    those functions of the Go standard library on the bytes of a
    [String.string] and the facts the components need: decoding what was
    encoded, what truncation by rune preserves, and what truncation by byte
    does not. *)
From stdpp Require Import base gmap sets list strings.
From Stdlib Require Import ZArith Lia Ascii.
From Stdlib Require String.
From S2P Require Import Prelude.

Abbreviation bytes := (list ascii).
Abbreviation rune := N.

Definition to_bytes (s : string) : bytes := String.list_ascii_of_string s.
Definition of_bytes (b : bytes) : string := String.string_of_list_ascii b.

Definition byte_val (c : ascii) : N := N_of_ascii c.

(** [len(s)] and [s[:n]], the byte length and the byte prefix. *)
Definition go_len (s : string) : nat := length (to_bytes s).
Definition byte_prefix (n : nat) (s : string) : string := of_bytes (take n (to_bytes s)).

(** ** UTF-8 decoding, [utf8.DecodeRune] *)

Definition RuneError : rune := 65533.
Definition RuneSelf : N := 128.
Definition MaxRune : rune := 1114111.

Definition in_range (lo hi b : N) : bool := (lo <=? b)%N && (b <=? hi)%N.

Definition is_cont (b : N) : bool := in_range 128 191 b.

(** The rune at the head of the bytes and its width; a byte sequence that is
    not the shortest encoding of a scalar value decodes to [RuneError] of
    width 1, the empty sequence to [RuneError] of width 0. *)
Definition decode_rune (s : bytes) : rune * nat :=
  match s with
  | [] => (RuneError, 0)
  | c0 :: s0 =>
      let b0 := byte_val c0 in
      if (b0 <? 128)%N then (b0, 1)
      else if in_range 194 223 b0 then
        match s0 with
        | c1 :: _ =>
            let b1 := byte_val c1 in
            if is_cont b1 then (((b0 - 192) * 64 + (b1 - 128))%N, 2) else (RuneError, 1)
        | _ => (RuneError, 1)
        end
      else if in_range 224 239 b0 then
        match s0 with
        | c1 :: c2 :: _ =>
            let b1 := byte_val c1 in
            let b2 := byte_val c2 in
            let lo := if (b0 =? 224)%N then 160%N else 128%N in
            let hi := if (b0 =? 237)%N then 159%N else 191%N in
            if in_range lo hi b1 && is_cont b2
            then (((b0 - 224) * 4096 + (b1 - 128) * 64 + (b2 - 128))%N, 3)
            else (RuneError, 1)
        | _ => (RuneError, 1)
        end
      else if in_range 240 244 b0 then
        match s0 with
        | c1 :: c2 :: c3 :: _ =>
            let b1 := byte_val c1 in
            let b2 := byte_val c2 in
            let b3 := byte_val c3 in
            let lo := if (b0 =? 240)%N then 144%N else 128%N in
            let hi := if (b0 =? 244)%N then 143%N else 191%N in
            if in_range lo hi b1 && is_cont b2 && is_cont b3
            then (((b0 - 240) * 262144 + (b1 - 128) * 4096 + (b2 - 128) * 64 + (b3 - 128))%N, 4)
            else (RuneError, 1)
        | _ => (RuneError, 1)
        end
      else (RuneError, 1)
  end.

(** ** UTF-8 encoding, [utf8.AppendRune] *)

Definition is_surrogate (r : rune) : bool := in_range 55296 57343 r.

Definition valid_rune (r : rune) : bool := (r <=? MaxRune)%N && negb (is_surrogate r).

Definition byte_of (n : N) : ascii := ascii_of_N n.

Definition encode_valid (r : rune) : bytes :=
  if (r <? 128)%N then [byte_of r]
  else if (r <? 2048)%N then
    [byte_of (192 + r / 64); byte_of (128 + r mod 64)]
  else if (r <? 65536)%N then
    [byte_of (224 + r / 4096); byte_of (128 + (r / 64) mod 64); byte_of (128 + r mod 64)]
  else
    [byte_of (240 + r / 262144); byte_of (128 + (r / 4096) mod 64);
     byte_of (128 + (r / 64) mod 64); byte_of (128 + r mod 64)].

Definition encode_rune (r : rune) : bytes :=
  encode_valid (if valid_rune r then r else RuneError).

Definition encode_runes (rs : list rune) : bytes := concat (encode_rune <$> rs).

(** [[]rune(s)]: the runes met by ranging over the string.  [skip] counts the
    bytes of the current rune still to be passed. *)
Fixpoint runes_skip (skip : nat) (s : bytes) : list rune :=
  match s with
  | [] => []
  | _ :: s' =>
      match skip with
      | S k => runes_skip k s'
      | 0 => let rw := decode_rune s in rw.1 :: runes_skip (rw.2 - 1) s'
      end
  end.

Definition runes (s : bytes) : list rune := runes_skip 0 s.

(** [utf8.ValidString]: no position decodes to an error of width 1. *)
Fixpoint valid_skip (skip : nat) (s : bytes) : bool :=
  match s with
  | [] => true
  | _ :: s' =>
      match skip with
      | S k => valid_skip k s'
      | 0 =>
          let rw := decode_rune s in
          negb ((rw.1 =? RuneError)%N && (rw.2 =? 1)) && valid_skip (rw.2 - 1) s'
      end
  end.

Definition valid_utf8 (s : bytes) : bool := valid_skip 0 s.

(** ** [unicode.IsSpace] and [strings.TrimSpace] *)

Definition IsSpace (r : rune) : bool :=
  in_range 9 13 r || (r =? 32)%N || (r =? 133)%N || (r =? 160)%N || (r =? 5760)%N
  || in_range 8192 8202 r || (r =? 8232)%N || (r =? 8233)%N || (r =? 8239)%N
  || (r =? 8287)%N || (r =? 12288)%N.

Fixpoint trim_left_skip (skip : nat) (s : bytes) : bytes :=
  match s with
  | [] => []
  | _ :: s' =>
      match skip with
      | S k => trim_left_skip k s'
      | 0 =>
          let rw := decode_rune s in
          if IsSpace rw.1 then trim_left_skip (rw.2 - 1) s' else s
      end
  end.

(** [strings.TrimLeftFunc(s, unicode.IsSpace)]. *)
Definition trim_left (s : bytes) : bytes := trim_left_skip 0 s.

(** [utf8.RuneStart]. *)
Definition rune_start (c : ascii) : bool := negb (is_cont (byte_val c)).

(** The scan of [utf8.DecodeLastRune] for the first byte of the last rune: how
    many bytes before the last one it looks at, on the reversed bytes and at
    most [lim] of them. *)
Fixpoint last_start (lim : nat) (rb : bytes) : nat :=
  match lim, rb with
  | S l, c :: rb' => if rune_start c then 0 else S (last_start l rb')
  | _, _ => 0
  end.

(** [utf8.DecodeLastRune] on the reversed bytes. *)
Definition decode_last (rb : bytes) : rune * nat :=
  match rb with
  | [] => (RuneError, 0)
  | c :: rb' =>
      if (byte_val c <? RuneSelf)%N then (byte_val c, 1)
      else
        let back := S (last_start 3 rb') in
        let w := min (S back) (length rb) in
        let rw := decode_rune (reverse (take w rb)) in
        if rw.2 =? w then rw else (RuneError, 1)
  end.

Fixpoint trim_right_skip (skip : nat) (rb : bytes) : bytes :=
  match rb with
  | [] => []
  | _ :: rb' =>
      match skip with
      | S k => trim_right_skip k rb'
      | 0 =>
          let rw := decode_last rb in
          if IsSpace rw.1 then trim_right_skip (rw.2 - 1) rb' else rb
      end
  end.

(** [strings.TrimRightFunc(s, unicode.IsSpace)]. *)
Definition trim_right (s : bytes) : bytes := reverse (trim_right_skip 0 (reverse s)).

Definition trim_space (s : bytes) : bytes := trim_right (trim_left s).

Definition TrimSpace (s : string) : string := of_bytes (trim_space (to_bytes s)).

Definition RuneCountInString (s : string) : nat := length (runes (to_bytes s)).

(** [string([]rune(s)[:n])]. *)
Definition rune_prefix (n : nat) (s : string) : string :=
  of_bytes (encode_runes (take n (runes (to_bytes s)))).

Definition ValidString (s : string) : bool := valid_utf8 (to_bytes s).

(** ** [strings.ToUpper] and [strings.ToLower]

    On ASCII bytes the case tables are here; beyond ASCII they are the tables
    of the [unicode] package, a parameter. *)
Definition upper_ascii (r : rune) : rune := if in_range 97 122 r then (r - 32)%N else r.
Definition lower_ascii (r : rune) : rune := if in_range 65 90 r then (r + 32)%N else r.

Definition map_runes (f : rune -> rune) (s : string) : string :=
  of_bytes (encode_runes (f <$> runes (to_bytes s))).

Definition ToUpper (unicode_upper : rune -> rune) (s : string) : string :=
  map_runes (fun r => if (r <? 128)%N then upper_ascii r else unicode_upper r) s.
Definition ToLower (unicode_lower : rune -> rune) (s : string) : string :=
  map_runes (fun r => if (r <? 128)%N then lower_ascii r else unicode_lower r) s.

Definition HasPrefix (s pre : string) : bool :=
  bool_decide (take (length (to_bytes pre)) (to_bytes s) = to_bytes pre).
Definition TrimPrefix (s pre : string) : string :=
  if HasPrefix s pre then of_bytes (drop (length (to_bytes pre)) (to_bytes s)) else s.

(** ** Bytes and ranges *)

#[local] Ltac Zify.zify_post_hook ::= Z.to_euclidean_division_equations.

Lemma in_range_spec lo hi b : reflect (lo <= b /\ b <= hi)%N (in_range lo hi b).
Proof.
  unfold in_range. apply iff_reflect. rewrite andb_true_iff, !N.leb_le. done.
Qed.

Lemma byte_val_lt c : (byte_val c < 256)%N.
Proof. apply N_ascii_bounded. Qed.

Lemma byte_val_of n : (n < 256)%N -> byte_val (byte_of n) = n.
Proof. apply N_ascii_embedding. Qed.

Lemma byte_of_val c : byte_of (byte_val c) = c.
Proof. apply ascii_N_embedding. Qed.

Lemma byte_of_eq c n : byte_val c = n -> byte_of n = c.
Proof. intros <-. apply byte_of_val. Qed.

Lemma to_of_bytes b : to_bytes (of_bytes b) = b.
Proof. apply String.list_ascii_of_string_of_list_ascii. Qed.

Lemma of_to_bytes s : of_bytes (to_bytes s) = s.
Proof. apply String.string_of_list_ascii_of_string. Qed.

#[export] Hint Rewrite to_of_bytes of_to_bytes : convoy_rw.

(** Decide every comparison of bytes in the goal that the context settles,
    splitting on the others. *)
Ltac byte_cases :=
  repeat match goal with
  | |- context [(?a =? ?b)%N] =>
      destruct (N.eqb_spec a b); try lia; cbn [andb orb negb]
  | |- context [(?a <? ?b)%N] =>
      destruct (N.ltb_spec a b); try lia; cbn [andb orb negb]
  | |- context [(?a <=? ?b)%N] =>
      destruct (N.leb_spec a b); try lia; cbn [andb orb negb]
  | |- context [in_range ?lo ?hi ?b] =>
      destruct (in_range_spec lo hi b); try lia; cbn [andb orb negb]
  end.

Lemma valid_rune_spec r :
  valid_rune r = true <-> (r < 55296 \/ 57343 < r /\ r <= 1114111)%N.
Proof. unfold valid_rune, is_surrogate, MaxRune. byte_cases; simpl; split; intros; try done; lia. Qed.

Lemma valid_RuneError : valid_rune RuneError = true.
Proof. reflexivity. Qed.

Lemma encode_rune_valid r : valid_rune r = true -> encode_rune r = encode_valid r.
Proof. unfold encode_rune. by intros ->. Qed.

Lemma encode_valid_decode r s :
  valid_rune r = true ->
  decode_rune (encode_valid r ++ s) = (r, length (encode_valid r)).
Proof.
  rewrite valid_rune_spec. intros Hr. unfold encode_valid.
  destruct (N.ltb_spec r 128); [|destruct (N.ltb_spec r 2048); [|destruct (N.ltb_spec r 65536)]];
    cbn -[N.add N.sub N.mul N.div N.modulo]; unfold is_cont; rewrite !byte_val_of by lia; byte_cases;
    cbn -[N.add N.sub N.mul N.div N.modulo]; f_equal; lia.
Qed.

(** Decoding inverts encoding at the head of any byte sequence. *)
Lemma encode_rune_decode r s :
  valid_rune r = true ->
  decode_rune (encode_rune r ++ s) = (r, length (encode_rune r)).
Proof. intros Hr. rewrite encode_rune_valid by done. by apply encode_valid_decode. Qed.

Lemma decode_rune_valid s : valid_rune (decode_rune s).1 = true.
Proof.
  destruct s as [|c0 s0]; [done|]. unfold decode_rune, is_cont. simpl.
  pose proof (byte_val_lt c0).
  byte_cases; try (apply valid_rune_spec; simpl; lia).
  all: destruct s0 as [|c1 [|c2 [|c3 s0]]]; simpl; try done; byte_cases; try done;
    apply valid_rune_spec; simpl; lia.
Qed.

(** A decoding that is not an error of width 1 is the encoding of its rune. *)
Lemma decode_rune_encode s r w :
  decode_rune s = (r, w) -> s <> [] -> (r =? RuneError)%N && (w =? 1) = false ->
  s = encode_valid r ++ drop w s /\ w = length (encode_valid r).
Proof.
  destruct s as [|c0 s0]; [done|]. intros Hd _ Hne. revert Hd.
  unfold decode_rune, is_cont. pose proof byte_val_lt as Hlt. pose proof (Hlt c0).
  destruct (N.ltb_spec (byte_val c0) 128).
  { intros [= <- <-]. unfold encode_valid. byte_cases. simpl. by rewrite byte_of_val. }
  destruct s0 as [|c1 [|c2 [|c3 s0]]];
    byte_cases; intros [= <- <-]; try discriminate Hne; clear Hne;
    unfold encode_valid; byte_cases; cbn -[N.add N.sub N.mul N.div N.modulo]; (split; [|done]);
    repeat (f_equal; try (symmetry; apply byte_of_eq; lia)).
Qed.

Lemma encode_rune_length r : 1 <= length (encode_rune r) <= 4.
Proof. unfold encode_rune, encode_valid. repeat case_match; simpl; lia. Qed.

Lemma decode_rune_width s : s <> [] -> 1 <= (decode_rune s).2 <= 4.
Proof.
  destruct s as [|c0 s]; [done|]. intros _. unfold decode_rune.
  repeat case_match; simpl; lia.
Qed.

(** ** The passes over the runes of a string *)

Lemma runes_skip_drop k s : runes_skip k s = runes (drop k s).
Proof. revert k; induction s as [|c s IH]; intros [|k]; try done. apply IH. Qed.

Lemma valid_skip_drop k s : valid_skip k s = valid_utf8 (drop k s).
Proof. revert k; induction s as [|c s IH]; intros [|k]; try done. apply IH. Qed.

Lemma trim_left_skip_drop k s : trim_left_skip k s = trim_left (drop k s).
Proof. revert k; induction s as [|c s IH]; intros [|k]; try done. apply IH. Qed.

Lemma trim_right_skip_drop k rb : trim_right_skip k rb = trim_right_skip 0 (drop k rb).
Proof. revert k; induction rb as [|c s IH]; intros [|k]; try done. apply IH. Qed.

Lemma drop_pred_tail (c : ascii) (s : bytes) w : 1 <= w -> drop (w - 1) s = drop w (c :: s).
Proof. intros. destruct w as [|w]; [lia|]. simpl. by rewrite Nat.sub_0_r. Qed.

Lemma runes_unfold s :
  s <> [] -> runes s = (decode_rune s).1 :: runes (drop (decode_rune s).2 s).
Proof.
  intros Hs. pose proof (decode_rune_width s Hs) as [Hw _]. destruct s as [|c s]; [done|].
  change (runes (c :: s)) with
    ((decode_rune (c :: s)).1 :: runes_skip ((decode_rune (c :: s)).2 - 1) s).
  by rewrite runes_skip_drop, (drop_pred_tail c).
Qed.

Lemma valid_unfold s :
  s <> [] ->
  valid_utf8 s =
    negb (((decode_rune s).1 =? RuneError)%N && ((decode_rune s).2 =? 1))
    && valid_utf8 (drop (decode_rune s).2 s).
Proof.
  intros Hs. pose proof (decode_rune_width s Hs) as [Hw _]. destruct s as [|c s]; [done|].
  rewrite <-(drop_pred_tail c), <-valid_skip_drop by done. done.
Qed.

Lemma trim_left_unfold s :
  s <> [] ->
  trim_left s =
    if IsSpace (decode_rune s).1 then trim_left (drop (decode_rune s).2 s) else s.
Proof.
  intros Hs. pose proof (decode_rune_width s Hs) as [Hw _]. destruct s as [|c s]; [done|].
  rewrite <-(drop_pred_tail c), <-trim_left_skip_drop by done. done.
Qed.

(** Induction on a byte sequence, one rune at a time. *)
Lemma bytes_rune_ind (P : bytes -> Prop) :
  P [] ->
  (forall s, s <> [] -> P (drop (decode_rune s).2 s) -> P s) ->
  forall s, P s.
Proof.
  intros Hnil Hstep s. remember (length s) as n eqn:Hn. revert s Hn.
  induction n as [n IH] using lt_wf_ind. intros s ->.
  destruct (decide (s = [])) as [->|Hs]; [done|]. apply Hstep; [done|].
  apply (IH (length (drop (decode_rune s).2 s))); [|done].
  pose proof (decode_rune_width s Hs). rewrite length_drop.
  assert (length s <> 0) by (by destruct s). lia.
Qed.

Lemma runes_valid s : Forall (fun r => valid_rune r = true) (runes s).
Proof.
  unfold runes. generalize 0. induction s as [|c s IH]; intros [|k]; [done..| |apply IH].
  simpl runes_skip. constructor; [apply (decode_rune_valid (c :: s))|apply IH].
Qed.

Lemma encode_rune_nonempty r s : encode_rune r ++ s <> [].
Proof. pose proof (encode_rune_length r). destruct (encode_rune r); simpl in *; [lia|done]. Qed.

Lemma runes_encode_app r s :
  valid_rune r = true -> runes (encode_rune r ++ s) = r :: runes s.
Proof.
  intros Hr. rewrite runes_unfold by apply encode_rune_nonempty.
  rewrite encode_rune_decode by done. simpl. by rewrite drop_app_length.
Qed.

Lemma encode_runes_cons r rs : encode_runes (r :: rs) = encode_rune r ++ encode_runes rs.
Proof. done. Qed.

Lemma encode_runes_app rs1 rs2 :
  encode_runes (rs1 ++ rs2) = encode_runes rs1 ++ encode_runes rs2.
Proof. unfold encode_runes. by rewrite fmap_app, concat_app. Qed.

Lemma runes_encode_runes_app rs s :
  Forall (fun r => valid_rune r = true) rs -> runes (encode_runes rs ++ s) = rs ++ runes s.
Proof.
  induction 1 as [|r rs Hr _ IH]; [done|].
  rewrite encode_runes_cons, <-app_assoc, runes_encode_app by done. simpl. by rewrite IH.
Qed.

(** Decoding a sequence of encoded scalar values gives them back. *)
Lemma runes_encode_runes rs :
  Forall (fun r => valid_rune r = true) rs -> runes (encode_runes rs) = rs.
Proof.
  intros Hrs. rewrite <-(app_nil_r (encode_runes rs)), runes_encode_runes_app by done.
  apply app_nil_r.
Qed.

Lemma decode_not_error r :
  valid_rune r = true -> (r =? RuneError)%N && (length (encode_rune r) =? 1) = false.
Proof. intros _. destruct (N.eqb_spec r RuneError) as [->|]; done. Qed.

Lemma valid_encode_app r s :
  valid_rune r = true -> valid_utf8 (encode_rune r ++ s) = valid_utf8 s.
Proof.
  intros Hr. rewrite valid_unfold by apply encode_rune_nonempty.
  rewrite encode_rune_decode by done. simpl.
  by rewrite drop_app_length, decode_not_error.
Qed.

Lemma encode_rune_error r : valid_rune r = false -> encode_rune r = encode_rune RuneError.
Proof. unfold encode_rune. by intros ->. Qed.

Lemma valid_encode_runes_app rs s : valid_utf8 (encode_runes rs ++ s) = valid_utf8 s.
Proof.
  induction rs as [|r rs IH]; [done|]. rewrite encode_runes_cons, <-app_assoc.
  destruct (valid_rune r) eqn:Hr; [by rewrite valid_encode_app|].
  by rewrite encode_rune_error, valid_encode_app.
Qed.

(** What [string(runes)] makes is always valid UTF-8. *)
Lemma valid_encode_runes rs : valid_utf8 (encode_runes rs) = true.
Proof. rewrite <-(app_nil_r (encode_runes rs)). by rewrite valid_encode_runes_app. Qed.

(** Encoding the runes of a valid string gives the string back. *)
Lemma encode_runes_runes s : valid_utf8 s = true -> encode_runes (runes s) = s.
Proof.
  induction s as [|s Hs IH] using bytes_rune_ind; [done|].
  rewrite valid_unfold, runes_unfold by done.
  destruct (decode_rune s) as [r w] eqn:Hd. simpl in *.
  rewrite andb_true_iff, negb_true_iff. intros [Hne Hv].
  pose proof (decode_rune_valid s) as Hr. rewrite Hd in Hr. simpl in Hr.
  apply decode_rune_encode in Hd as [Hd _]; [|done..].
  rewrite encode_runes_cons, IH, encode_rune_valid by done. by symmetry.
Qed.

Lemma valid_utf8_spec s :
  valid_utf8 s = true <->
  exists rs, Forall (fun r => valid_rune r = true) rs /\ s = encode_runes rs.
Proof.
  split.
  - intros Hs. exists (runes s). split; [apply runes_valid|]. by rewrite encode_runes_runes.
  - intros (rs & _ & ->). apply valid_encode_runes.
Qed.

(** ** Trimming, on valid strings *)

Fixpoint drop_spaces (rs : list rune) : list rune :=
  match rs with
  | [] => []
  | r :: rs' => if IsSpace r then drop_spaces rs' else rs
  end.

Definition trim_runes (rs : list rune) : list rune :=
  reverse (drop_spaces (reverse (drop_spaces rs))).

Lemma drop_spaces_valid rs :
  Forall (fun r => valid_rune r = true) rs ->
  Forall (fun r => valid_rune r = true) (drop_spaces rs).
Proof. induction 1 as [|r rs Hr Hrs IH]; simpl; [done|]. by destruct (IsSpace r); [|constructor]. Qed.

Lemma trim_runes_valid rs :
  Forall (fun r => valid_rune r = true) rs ->
  Forall (fun r => valid_rune r = true) (trim_runes rs).
Proof.
  intros Hrs. unfold trim_runes. apply Forall_reverse, drop_spaces_valid, Forall_reverse.
  by apply drop_spaces_valid.
Qed.

Lemma trim_left_encode rs :
  Forall (fun r => valid_rune r = true) rs ->
  trim_left (encode_runes rs) = encode_runes (drop_spaces rs).
Proof.
  induction 1 as [|r rs Hr _ IH]; [done|]. rewrite encode_runes_cons.
  rewrite trim_left_unfold by apply encode_rune_nonempty.
  rewrite encode_rune_decode by done. simpl. rewrite drop_app_length.
  by destruct (IsSpace r).
Qed.


Lemma in_range_true lo hi b : in_range lo hi b = true <-> (lo <= b /\ b <= hi)%N.
Proof. by destruct (in_range_spec lo hi b). Qed.

Lemma is_cont_true b : is_cont b = true <-> (128 <= b /\ b <= 191)%N.
Proof. apply in_range_true. Qed.

(** The scan stops at the first byte that starts a rune. *)
Lemma last_start_app lim ks c q :
  Forall (fun k => is_cont (byte_val k) = true) ks -> length ks < lim ->
  is_cont (byte_val c) = false -> last_start lim (ks ++ c :: q) = length ks.
Proof.
  intros Hks. revert lim. induction Hks as [|k ks Hk _ IH]; intros [|lim] Hlim Hc; simpl in *; try lia.
  - unfold rune_start. by rewrite Hc.
  - unfold rune_start. rewrite Hk. simpl. by rewrite IH by (done || lia).
Qed.

Lemma decode_last_multibyte p c ks r :
  is_cont (byte_val c) = false -> ks <> [] -> length ks <= 3 ->
  Forall (fun k => is_cont (byte_val k) = true) ks ->
  decode_rune (c :: ks) = (r, S (length ks)) ->
  decode_last (reverse (p ++ c :: ks)) = (r, S (length ks)).
Proof.
  intros Hc Hks Hlen Hcont Hd. destruct ks as [|k ks _] using rev_ind; [done|].
  rewrite length_app in *. simpl in Hlen. apply Forall_app in Hcont as [Hcont Hk].
  rewrite Forall_singleton in Hk.
  rewrite reverse_app, reverse_cons, reverse_app, reverse_singleton, <-!app_assoc.
  cbn [app]. unfold decode_last.
  apply is_cont_true in Hk. unfold RuneSelf.
  destruct (N.ltb_spec (byte_val k) 128); [lia|]. cbv zeta.
  rewrite last_start_app; rewrite ?length_reverse; [|by apply Forall_reverse|lia|done].
  assert (take (S (S (length ks)) `min` length (k :: reverse ks ++ c :: reverse p))
            (k :: reverse ks ++ c :: reverse p) = k :: reverse ks ++ [c]) as Htake.
  { cbn [length]. rewrite length_app, length_reverse. cbn [length].
    rewrite Nat.min_l by lia. cbn [take]. f_equal.
    rewrite take_app, length_reverse, take_ge by (rewrite length_reverse; lia).
    by replace (S (length ks) - length ks) with 1 by lia. }
  rewrite Htake. rewrite reverse_cons, reverse_app, reverse_involutive. cbn [app reverse].
  rewrite reverse_singleton. cbn [app]. rewrite Hd. cbn [snd].
  cbn [length]. rewrite length_app, length_reverse. cbn [length].
  by rewrite Nat.min_l, (proj2 (Nat.eqb_eq _ _)) by lia.
Qed.

(** The scan from the end finds the last encoded rune, whatever precedes it. *)
Lemma decode_last_encode p r :
  valid_rune r = true ->
  decode_last (reverse (p ++ encode_rune r)) = (r, length (encode_rune r)).
Proof.
  intros Hr. pose proof (encode_rune_decode r [] Hr) as Hd. rewrite app_nil_r in Hd.
  rewrite encode_rune_valid in Hd |- * by done.
  rewrite valid_rune_spec in Hr. revert Hd. unfold encode_valid.
  destruct (N.ltb_spec r 128).
  { intros _. rewrite reverse_app, reverse_singleton. cbn -[N.ltb].
    unfold RuneSelf. rewrite byte_val_of by lia. by destruct (N.ltb_spec r 128); [|lia]. }
  assert (forall n, is_cont (byte_val (byte_of (128 + n mod 64))) = true) as Hcont.
  { intros n. apply is_cont_true. rewrite byte_val_of; lia. }
  destruct (N.ltb_spec r 2048); [|destruct (N.ltb_spec r 65536)]; intros Hd;
    apply decode_last_multibyte; (done || (repeat constructor; done) || (simpl; lia) || idtac).
  all: unfold is_cont; rewrite byte_val_of by lia; by byte_cases.
Qed.

Lemma trim_right_skip_encode rs :
  Forall (fun r => valid_rune r = true) rs ->
  trim_right_skip 0 (reverse (encode_runes rs)) =
  reverse (encode_runes (reverse (drop_spaces (reverse rs)))).
Proof.
  induction rs as [|r rs IH] using rev_ind; [done|].
  intros [Hrs Hr]%Forall_app. rewrite Forall_singleton in Hr.
  rewrite reverse_app, reverse_singleton. cbn [app drop_spaces].
  rewrite encode_runes_app. unfold encode_runes at 2. cbn [fmap list_fmap concat].
  rewrite app_nil_r.
  pose proof (decode_last_encode (encode_runes rs) r Hr) as Hd.
  pose proof (encode_rune_length r) as Hlen.
  remember (reverse (encode_runes rs ++ encode_rune r)) as rb eqn:Hrb.
  assert (drop (length (encode_rune r)) rb = reverse (encode_runes rs)) as Hdrop.
  { by rewrite Hrb, reverse_app, <-length_reverse, drop_app_length. }
  destruct rb as [|c rb].
  { apply (f_equal length) in Hrb. rewrite length_reverse, length_app in Hrb. simpl in Hrb. lia. }
  cbn [trim_right_skip]. rewrite Hd. cbn [fst snd]. destruct (IsSpace r).
  - rewrite trim_right_skip_drop, (drop_pred_tail c), Hdrop by lia. by apply IH.
  - rewrite Hrb, reverse_cons, reverse_involutive, encode_runes_app.
    f_equal. f_equal. unfold encode_runes. cbn [fmap list_fmap concat]. by rewrite app_nil_r.
Qed.

(** On a valid string [strings.TrimSpace] drops the space runes at both ends. *)
Lemma trim_space_encode rs :
  Forall (fun r => valid_rune r = true) rs ->
  trim_space (encode_runes rs) = encode_runes (trim_runes rs).
Proof.
  intros Hrs. unfold trim_space, trim_right. rewrite trim_left_encode by done.
  by rewrite trim_right_skip_encode, reverse_involutive by (by apply drop_spaces_valid).
Qed.

Lemma drop_spaces_length rs : length (drop_spaces rs) <= length rs.
Proof. induction rs as [|r rs IH]; simpl; [lia|]. destruct (IsSpace r); simpl; lia. Qed.

Lemma drop_spaces_head rs r rs' : drop_spaces rs = r :: rs' -> IsSpace r = false.
Proof.
  induction rs as [|q rs IH]; simpl; [done|]. destruct (IsSpace q) eqn:Hq; [done|].
  by intros [= <- <-].
Qed.

Lemma drop_spaces_fix rs : (forall r, head rs = Some r -> IsSpace r = false) -> drop_spaces rs = rs.
Proof. destruct rs as [|r rs]; [done|]. simpl. intros Hr. by rewrite Hr. Qed.

Lemma drop_spaces_suffix rs : exists pre, rs = pre ++ drop_spaces rs.
Proof.
  induction rs as [|r rs [pre IH]]; [by exists []|]. simpl. destruct (IsSpace r).
  - exists (r :: pre). simpl. by rewrite <-IH.
  - by exists [].
Qed.

Lemma trim_runes_head rs r : head (trim_runes rs) = Some r -> IsSpace r = false.
Proof.
  unfold trim_runes. destruct (drop_spaces rs) as [|q qs] eqn:Hq; [done|].
  apply drop_spaces_head in Hq. rewrite reverse_cons.
  destruct (drop_spaces_suffix (reverse qs ++ [q])) as [pre Hpre].
  destruct (drop_spaces (reverse qs ++ [q])) as [|z zs _] using rev_ind; [done|].
  rewrite app_assoc in Hpre. apply app_inj_2 in Hpre as [_ [= ->]]; [|done].
  rewrite reverse_app, reverse_singleton. simpl. congruence.
Qed.

Lemma trim_runes_last rs r : last (trim_runes rs) = Some r -> IsSpace r = false.
Proof.
  unfold trim_runes. rewrite last_reverse.
  destruct (drop_spaces (reverse (drop_spaces rs))) eqn:Hz; [done|].
  simpl. intros [= <-]. by eapply drop_spaces_head.
Qed.

Lemma trim_runes_idemp rs : trim_runes (trim_runes rs) = trim_runes rs.
Proof.
  unfold trim_runes at 1. rewrite (drop_spaces_fix (trim_runes rs)) by apply trim_runes_head.
  rewrite drop_spaces_fix; [apply reverse_involutive|]. intros r Hr.
  apply (trim_runes_last rs). by rewrite <-Hr, <-last_reverse, reverse_involutive.
Qed.

Lemma trim_runes_length rs : length (trim_runes rs) <= length rs.
Proof.
  unfold trim_runes. rewrite length_reverse.
  etrans; [apply drop_spaces_length|]. rewrite length_reverse. apply drop_spaces_length.
Qed.

(** ** The string-level facts the components use *)

Lemma ValidString_runes s :
  ValidString s = true -> to_bytes s = encode_runes (runes (to_bytes s)).
Proof. intros Hs. by rewrite encode_runes_runes. Qed.

Lemma TrimSpace_runes s :
  ValidString s = true -> runes (to_bytes (TrimSpace s)) = trim_runes (runes (to_bytes s)).
Proof.
  intros Hs. unfold TrimSpace. rewrite to_of_bytes, (ValidString_runes s) at 1 by done.
  rewrite trim_space_encode by apply runes_valid.
  by rewrite runes_encode_runes by apply trim_runes_valid, runes_valid.
Qed.

Lemma TrimSpace_valid s : ValidString s = true -> ValidString (TrimSpace s) = true.
Proof.
  intros Hs. unfold ValidString, TrimSpace. rewrite to_of_bytes, (ValidString_runes s) by done.
  rewrite trim_space_encode by apply runes_valid. apply valid_encode_runes.
Qed.

Lemma TrimSpace_idemp s : ValidString s = true -> TrimSpace (TrimSpace s) = TrimSpace s.
Proof.
  intros Hs. unfold TrimSpace. rewrite to_of_bytes, (ValidString_runes s) by done.
  rewrite trim_space_encode by apply runes_valid.
  rewrite trim_space_encode by apply trim_runes_valid, runes_valid.
  by rewrite trim_runes_idemp.
Qed.

Lemma RuneCount_TrimSpace s :
  ValidString s = true -> RuneCountInString (TrimSpace s) <= RuneCountInString s.
Proof.
  intros Hs. unfold RuneCountInString. rewrite TrimSpace_runes by done. apply trim_runes_length.
Qed.

Lemma rune_prefix_valid n s : ValidString (rune_prefix n s) = true.
Proof. unfold ValidString, rune_prefix. rewrite to_of_bytes. apply valid_encode_runes. Qed.

Lemma rune_prefix_runes n s :
  runes (to_bytes (rune_prefix n s)) = take n (runes (to_bytes s)).
Proof.
  unfold rune_prefix. rewrite to_of_bytes, runes_encode_runes; [done|].
  apply Forall_take, runes_valid.
Qed.

Lemma rune_prefix_count n s :
  RuneCountInString (rune_prefix n s) = min n (RuneCountInString s).
Proof. unfold RuneCountInString. by rewrite rune_prefix_runes, length_take. Qed.

Lemma RuneCount_zero s : RuneCountInString s = 0 <-> s = "".
Proof.
  unfold RuneCountInString. split; [|by intros ->]. intros Hs.
  rewrite <-(of_to_bytes s). destruct (to_bytes s) as [|c b] eqn:Hb; [done|].
  rewrite runes_unfold in Hs by done. done.
Qed.

Lemma to_bytes_inj s1 s2 : to_bytes s1 = to_bytes s2 -> s1 = s2.
Proof. intros H. by rewrite <-(of_to_bytes s1), H, of_to_bytes. Qed.
