(* ===== verification/Httpx.v ===== *)
(** * [internal/httpx]: typed API errors and replies

    [response.go] of package [httpx], with the errors of the packages below it
    as one type: the source tells them apart with [errors.Is] and
    [errors.As]. *)
From stdpp Require Import base strings.
From Stdlib Require Import ZArith.
From S2P Require Import Prelude.

Record APIError := mkAPIError { Status : Z; Code : string; Message : string }.

#[export] Instance APIError_eq_dec : EqDecision APIError.
Proof. solve_decision. Defined.

Definition Err (status : Z) (code msg : string) : APIError := mkAPIError status code msg.

(** Every error value a handler can meet.  [RoomsErrNotFound] is
    [rooms.ErrNotFound], [ErrNoRows] is [pgx.ErrNoRows], [ErrPg code] a server
    error with its SQLSTATE, [ErrConn] any transport or cancellation error,
    [ErrScan] a column that does not fit its Go variable, [ErrText] an
    [errors.New] or [fmt.Errorf] value. *)
Inductive error :=
| ErrAPI (e : APIError)
| RoomsErrNotFound
| ErrNoRows
| ErrPg (code : string)
| ErrConn
| ErrScan
| ErrText (msg : string).

#[export] Instance error_eq_dec : EqDecision error.
Proof. solve_decision. Defined.

Definition ErrUnauthorized : APIError := Err 401 "unauthorized" "unauthorized".
Definition ErrForbidden : APIError := Err 403 "forbidden" "forbidden".
Definition ErrNotFound : APIError := Err 404 "not_found" "not found".
Definition ErrBadRequest : APIError := Err 400 "bad_request" "bad request".
Definition ErrConflict : APIError := Err 409 "conflict" "conflict".
Definition ErrInternal : APIError := Err 500 "internal" "internal error".

(** A reply: the status line and the JSON body, if any. *)
Inductive body (B : Type) :=
| NoBody
| JSONBody (b : B)
| ErrorBody (e : APIError).
Arguments NoBody {B}.
Arguments JSONBody {B} b.
Arguments ErrorBody {B} e.

Record reply (B : Type) := mkReply { reply_status : Z; reply_body : body B }.
Arguments mkReply {B} _ _.
Arguments reply_status {B} _.
Arguments reply_body {B} _.

(** [httpx.JSON]. *)
Definition JSON {B} (status : Z) (b : B) : reply B := mkReply status (JSONBody b).

(** [httpx.WriteErr]: an [*APIError] in the chain decides the status, anything
    else is logged and answered with 500. *)
Definition WriteErr {B} (err : error) : reply B :=
  match err with
  | ErrAPI e => mkReply (Status e) (ErrorBody e)
  | _ => mkReply 500 (ErrorBody ErrInternal)
  end.

(** What [encoding/json] leaves of a body that it reads into a struct: the
    struct, which keeps the fields read before an error, and the error. *)
Record decoded (A : Type) := mkDecoded { dec_value : A; dec_error : option string }.
Arguments mkDecoded {A} _ _.
Arguments dec_value {A} _.
Arguments dec_error {A} _.

(** [httpx.Decode]: the decoder's error wrapped as a 400. *)
Definition Decode {A} (d : decoded A) : option error :=
  (fun msg => ErrAPI (Err 400 "invalid_body" msg)) <$> dec_error d.
