(* ===== verification/Types.v ===== *)
(** * [internal/rooms/types.go]: the data of the rooms package

    Identifiers are 128-bit values ordered as Postgres orders them, times are
    microseconds since the epoch, and a [float64] is a binary64 value of
    [SpecFloat]. *)
From stdpp Require Import base gmap strings list.
From Stdlib Require Import ZArith.
From Stdlib Require Export SpecFloat.
From S2P Require Import Prelude.

Abbreviation uuid := N (only parsing).
Abbreviation time := Z (only parsing).
Abbreviation float64 := spec_float.

#[export] Instance spec_float_eq_dec : EqDecision spec_float.
Proof. solve_decision. Defined.

Definition RoleOwner : string := "owner".
Definition RoleMember : string := "member".

Record Room := mkRoom {
  Room_ID : uuid;
  Room_Code : string;
  Room_Name : option string;
  Room_OwnerID : uuid;
  Room_CreatedAt : time;
  Room_EndedAt : option time;
}.

Record Member := mkMember {
  Member_UserID : uuid;
  Member_DisplayName : string;
  Member_AvatarURL : option string;
  Member_Role : string;
  Member_Muted : bool;
  Member_JoinedAt : time;
}.

Record Destination := mkDestination {
  Dest_Lat : float64;
  Dest_Lng : float64;
  Dest_Name : option string;
  Dest_Notes : option string;
  Dest_SetAt : time;
  Dest_SetBy : uuid;
}.

Record PersonalMarker := mkPersonalMarker {
  PM_Lat : float64;
  PM_Lng : float64;
  PM_Label : option string;
  PM_UpdatedAt : time;
}.

Record Stop := mkStop {
  Stop_ID : uuid;
  Stop_RoomID : uuid;
  Stop_Lat : float64;
  Stop_Lng : float64;
  Stop_Label : option string;
  Stop_Position : Z;
  Stop_CreatedBy : uuid;
  Stop_CreatedAt : time;
}.

Record ChatMessage := mkMessage {
  Msg_ID : uuid;
  Msg_RoomID : uuid;
  Msg_UserID : uuid;
  Msg_DisplayName : string;
  Msg_AvatarURL : option string;
  Msg_Body : string;
  Msg_CreatedAt : time;
}.

Record RoomDetail := mkRoomDetail {
  RD_Room : Room;
  RD_Members : list Member;
  RD_Destination : option Destination;
  RD_PersonalMarker : option PersonalMarker;
  RD_Stops : list Stop;
  RD_PresentUserIDs : list uuid;
  RD_EmergencyUserIDs : list uuid;
}.

Record ActiveRoom := mkActiveRoom {
  AR_ID : uuid;
  AR_Code : string;
  AR_Name : option string;
  AR_Role : string;
  AR_MemberCount : nat;
  AR_JoinedAt : time;
}.

#[export] Instance Room_eq_dec : EqDecision Room.
Proof. solve_decision. Defined.
#[export] Instance Member_eq_dec : EqDecision Member.
Proof. solve_decision. Defined.
#[export] Instance Destination_eq_dec : EqDecision Destination.
Proof. solve_decision. Defined.
#[export] Instance PersonalMarker_eq_dec : EqDecision PersonalMarker.
Proof. solve_decision. Defined.
#[export] Instance Stop_eq_dec : EqDecision Stop.
Proof. solve_decision. Defined.
#[export] Instance ChatMessage_eq_dec : EqDecision ChatMessage.
Proof. solve_decision. Defined.

(** A JSON value as [encoding/json] reads it into an [any]. *)
Inductive json :=
| JNull
| JBool (b : bool)
| JNum (x : float64)
| JStr (s : string)
| JArr (l : list json)
| JObj (fields : list (string * json)).

(** ** binary64 values *)

(** The binary64 values of the integer constants [n] and [-n] the source
    compares coordinates with: significand shifted to 53 bits. *)
Definition float_of_pos (sign : bool) (m : positive) (e : Z) : float64 := S754_finite sign m e.

Definition f90 : float64 := float_of_pos false 6333186975989760 (-46).
Definition fneg90 : float64 := float_of_pos true 6333186975989760 (-46).
Definition f180 : float64 := float_of_pos false 6333186975989760 (-45).
Definition fneg180 : float64 := float_of_pos true 6333186975989760 (-45).

(** Go's [<] and [>] on [float64]: false when either side is a NaN. *)
Definition float_lt (x y : float64) : bool := SFltb x y.
Definition float_gt (x y : float64) : bool := SFltb y x.

Definition is_nan (x : float64) : bool :=
  match x with S754_nan => true | _ => false end.

(** What [encoding/json] can write: neither a NaN nor an infinity. *)
Definition json_float (x : float64) : bool :=
  match x with S754_nan | S754_infinity _ => false | _ => true end.
