(* ===== verification/Db.v ===== *)
(** * The database: tables, statements, transactions

    The tables are those of [internal/db/migrations]; a row is a record of its
    columns, a table a finite map from its primary key.  A statement of the
    source is a function on the tables, run by [exec] against an environment
    that supplies, statement by statement, what the process does not control:
    the clock, the identifier [gen_random_uuid()] makes, and whether the
    connection fails, before the statement took effect or after it. *)
From stdpp Require Import base gmap sets list strings.
From Stdlib Require Import ZArith Lia Ascii.
From S2P Require Import Prelude.
From S2P Require Import GoString.
From S2P Require Import Httpx.
From S2P Require Import Types.

(** ** Rows *)

Record UserRow := mkUserRow {
  u_display_name : string;
  u_avatar_url : option string;
  u_created_at : time;
  u_email : option string;
  u_entitlements : json;
  u_deleted_at : option time;
}.

Record RoomRow := mkRoomRow {
  r_code : string;
  r_name : option string;
  r_owner_id : uuid;
  r_created_at : time;
  r_ended_at : option time;
  r_dest_lat : option float64;
  r_dest_lng : option float64;
  r_dest_name : option string;
  r_dest_notes : option string;
  r_dest_set_at : option time;
  r_dest_set_by : option uuid;
}.

Record MemberRow := mkMemberRow {
  m_role : string;
  m_muted : bool;
  m_kicked : bool;
  m_joined_at : time;
  m_left_at : option time;
}.

Record MarkerRow := mkMarkerRow {
  k_lat : float64;
  k_lng : float64;
  k_label : option string;
  k_updated_at : time;
}.

Record StopRow := mkStopRow {
  s_room_id : uuid;
  s_lat : float64;
  s_lng : float64;
  s_label : option string;
  s_position : Z;
  s_created_by : option uuid;
  s_created_at : time;
}.

Record MessageRow := mkMessageRow {
  g_room_id : uuid;
  g_user_id : uuid;
  g_body : string;
  g_created_at : time;
}.

Record IdentityRow := mkIdentityRow {
  i_user_id : uuid;
  i_provider : string;
  i_subject : string;
  i_email : option string;
  i_created_at : time;
}.

Record PushTokenRow := mkPushTokenRow {
  p_user_id : uuid;
  p_platform : string;
  p_updated_at : time;
}.

Record FeedbackRow := mkFeedbackRow {
  f_user_id : option uuid;
  f_message : string;
  f_created_at : time;
}.

Record BroadcastRow := mkBroadcastRow {
  b_title : string;
  b_body : string;
  b_sent_at : time;
  b_recipients : Z;
  b_delivered : Z;
  b_failed : Z;
}.

Record ConfigRow := mkConfigRow {
  cfg_value : string;
  cfg_updated_at : time;
}.

(** ** Tables; [room_members] and [personal_markers] have (room, user) keys *)

Record Tables := mkTables {
  t_users : gmap uuid UserRow;
  t_rooms : gmap uuid RoomRow;
  t_members : gmap (uuid * uuid) MemberRow;
  t_markers : gmap (uuid * uuid) MarkerRow;
  t_stops : gmap uuid StopRow;
  t_messages : gmap uuid MessageRow;
  t_identities : gmap uuid IdentityRow;
  t_push_tokens : gmap string PushTokenRow;
  t_feedback : gmap uuid FeedbackRow;
  t_broadcasts : gmap uuid BroadcastRow;
  t_app_config : gmap string ConfigRow;
}.

Definition empty_tables : Tables := mkTables ∅ ∅ ∅ ∅ ∅ ∅ ∅ ∅ ∅ ∅ ∅.

Definition set_users (f : gmap uuid UserRow -> gmap uuid UserRow) (t : Tables) : Tables :=
  mkTables (f (t_users t)) (t_rooms t) (t_members t) (t_markers t) (t_stops t) (t_messages t)
    (t_identities t) (t_push_tokens t) (t_feedback t) (t_broadcasts t) (t_app_config t).
Definition set_rooms (f : gmap uuid RoomRow -> gmap uuid RoomRow) (t : Tables) : Tables :=
  mkTables (t_users t) (f (t_rooms t)) (t_members t) (t_markers t) (t_stops t) (t_messages t)
    (t_identities t) (t_push_tokens t) (t_feedback t) (t_broadcasts t) (t_app_config t).
Definition set_members (f : gmap (uuid * uuid) MemberRow -> gmap (uuid * uuid) MemberRow) (t : Tables) : Tables :=
  mkTables (t_users t) (t_rooms t) (f (t_members t)) (t_markers t) (t_stops t) (t_messages t)
    (t_identities t) (t_push_tokens t) (t_feedback t) (t_broadcasts t) (t_app_config t).
Definition set_markers (f : gmap (uuid * uuid) MarkerRow -> gmap (uuid * uuid) MarkerRow) (t : Tables) : Tables :=
  mkTables (t_users t) (t_rooms t) (t_members t) (f (t_markers t)) (t_stops t) (t_messages t)
    (t_identities t) (t_push_tokens t) (t_feedback t) (t_broadcasts t) (t_app_config t).
Definition set_stops (f : gmap uuid StopRow -> gmap uuid StopRow) (t : Tables) : Tables :=
  mkTables (t_users t) (t_rooms t) (t_members t) (t_markers t) (f (t_stops t)) (t_messages t)
    (t_identities t) (t_push_tokens t) (t_feedback t) (t_broadcasts t) (t_app_config t).
Definition set_messages (f : gmap uuid MessageRow -> gmap uuid MessageRow) (t : Tables) : Tables :=
  mkTables (t_users t) (t_rooms t) (t_members t) (t_markers t) (t_stops t) (f (t_messages t))
    (t_identities t) (t_push_tokens t) (t_feedback t) (t_broadcasts t) (t_app_config t).
Definition set_identities (f : gmap uuid IdentityRow -> gmap uuid IdentityRow) (t : Tables) : Tables :=
  mkTables (t_users t) (t_rooms t) (t_members t) (t_markers t) (t_stops t) (t_messages t)
    (f (t_identities t)) (t_push_tokens t) (t_feedback t) (t_broadcasts t) (t_app_config t).
Definition set_push_tokens (f : gmap string PushTokenRow -> gmap string PushTokenRow) (t : Tables) : Tables :=
  mkTables (t_users t) (t_rooms t) (t_members t) (t_markers t) (t_stops t) (t_messages t)
    (t_identities t) (f (t_push_tokens t)) (t_feedback t) (t_broadcasts t) (t_app_config t).
Definition set_feedback (f : gmap uuid FeedbackRow -> gmap uuid FeedbackRow) (t : Tables) : Tables :=
  mkTables (t_users t) (t_rooms t) (t_members t) (t_markers t) (t_stops t) (t_messages t)
    (t_identities t) (t_push_tokens t) (f (t_feedback t)) (t_broadcasts t) (t_app_config t).
Definition set_broadcasts (f : gmap uuid BroadcastRow -> gmap uuid BroadcastRow) (t : Tables) : Tables :=
  mkTables (t_users t) (t_rooms t) (t_members t) (t_markers t) (t_stops t) (t_messages t)
    (t_identities t) (t_push_tokens t) (t_feedback t) (f (t_broadcasts t)) (t_app_config t).
Definition set_app_config (f : gmap string ConfigRow -> gmap string ConfigRow) (t : Tables) : Tables :=
  mkTables (t_users t) (t_rooms t) (t_members t) (t_markers t) (t_stops t) (t_messages t)
    (t_identities t) (t_push_tokens t) (t_feedback t) (t_broadcasts t) (f (t_app_config t)).

(** ** The environment and the world *)

Inductive fault := NoFault | FailBefore | FailAfter.

#[export] Instance fault_eq_dec : EqDecision fault.
Proof. solve_decision. Defined.

Record StmtIn := mkStmtIn {
  si_fault : fault;
  si_tick : N;
  si_uuid : uuid;
}.

(** What the process reads from outside: one [StmtIn] per statement and one
    answer per call of [crypto/rand]. *)
Record Env := mkEnv {
  env_stmt : nat -> StmtIn;
  env_rand : nat -> option N;
}.

(** The world of a run: the tables, the clock, how much of the environment is
    consumed, and the state [H] of the realtime side. *)
Record World (H : Type) := mkWorld {
  w_db : Tables;
  w_now : time;
  w_env : Env;
  w_pos : nat;
  w_rpos : nat;
  w_rt : H;
}.
Arguments mkWorld {H} _ _ _ _ _ _.
Arguments w_db {H} _.
Arguments w_now {H} _.
Arguments w_env {H} _.
Arguments w_pos {H} _.
Arguments w_rpos {H} _.
Arguments w_rt {H} _.

(** ** The error and state monad of a handler *)

Inductive result (A : Type) := Ok (a : A) | Fail (e : error).
Arguments Ok {A} a.
Arguments Fail {A} e.

Definition M (H A : Type) : Type := World H -> result A * World H.

Section monad.
Context {H : Type}.

Definition ret {A} (a : A) : M H A := fun w => (Ok a, w).
Definition throw {A} (e : error) : M H A := fun w => (Fail e, w).
Definition bind {A B} (m : M H A) (k : A -> M H B) : M H B :=
  fun w => match m w with
           | (Ok a, w') => k a w'
           | (Fail e, w') => (Fail e, w')
           end.
(** [if err != nil { ... }]: run [h] on the error. *)
Definition catch {A} (m : M H A) (h : error -> M H A) : M H A :=
  fun w => match m w with
           | (Ok a, w') => (Ok a, w')
           | (Fail e, w') => h e w'
           end.
(** The outcome as a value, for code that looks at [err] and goes on. *)
Definition try {A} (m : M H A) : M H (result A) :=
  fun w => let rw := m w in (Ok rw.1, rw.2).
Definition on_error {A} (f : error -> error) (m : M H A) : M H A :=
  catch m (fun e => throw (f e)).
Definition check (b : bool) (e : error) : M H unit := if b then throw e else ret tt.
(** A call into the realtime side that returns nothing. *)
Definition rt_do (f : H -> H) : M H unit :=
  fun w => (Ok tt, mkWorld (w_db w) (w_now w) (w_env w) (w_pos w) (w_rpos w) (f (w_rt w))).
Definition rt_get {A} (f : H -> A) : M H A := fun w => (Ok (f (w_rt w)), w).
End monad.

Notation "x <- m ;; k" := (bind m (fun x => k))
  (at level 100, m at next level, right associativity) : convoy_scope.
Notation "m ;;; k" := (bind m (fun _ => k))
  (at level 100, right associativity) : convoy_scope.

Open Scope convoy_scope.

(** ** Statements *)

(** Postgres refuses a text parameter that is not valid UTF-8 or holds a zero
    byte, with SQLSTATE 22021. *)
Definition pg_text_ok (s : string) : bool :=
  ValidString s && bool_decide ((ascii_of_N 0) ∉ to_bytes s).

Definition bad_text : string := "22021".
Definition unique_violation : string := "23505".
Definition foreign_key_violation : string := "23503".
Definition out_of_range : string := "22003".

(** What a statement does once it runs: an SQLSTATE, or an answer and the
    tables after it; [now] and the generated identifier are its inputs. *)
Definition Sql (A : Type) : Type := time -> uuid -> Tables -> string + A * Tables.

Section statements.
Context {H : Type}.

Definition set_db (t : Tables) (w : World H) : World H :=
  mkWorld t (w_now w) (w_env w) (w_pos w) (w_rpos w) (w_rt w).

(** Consume one environment input; outside a transaction [now()] moves. *)
Definition advance (tick : bool) (w : World H) : World H :=
  mkWorld (w_db w)
    (if tick then w_now w + Z.of_N (si_tick (env_stmt (w_env w) (w_pos w))) else w_now w)%Z
    (w_env w) (S (w_pos w)) (w_rpos w) (w_rt w).

Definition run_sql {A} (params : list string) (f : Sql A) (id : uuid) (w : World H) :
    result A * World H :=
  if forallb pg_text_ok params then
    match f (w_now w) id (w_db w) with
    | inl code => (Fail (ErrPg code), w)
    | inr (a, t) => (Ok a, set_db t w)
    end
  else (Fail (ErrPg bad_text), w).

Definition stmt {A} (tick : bool) (params : list string) (f : Sql A) : M H A :=
  fun w =>
    let i := env_stmt (w_env w) (w_pos w) in
    let w1 := advance tick w in
    match si_fault i with
    | FailBefore => (Fail ErrConn, w1)
    | NoFault => run_sql params f (si_uuid i) w1
    | FailAfter => (Fail ErrConn, (run_sql params f (si_uuid i) w1).2)
    end.

(** [pool.Exec], [pool.QueryRow], [pool.Query]: a statement on its own. *)
Definition exec {A} (params : list string) (f : Sql A) : M H A := stmt true params f.
(** The same on a [pgx.Tx]: [now()] is the transaction's start. *)
Definition tx_exec {A} (params : list string) (f : Sql A) : M H A := stmt false params f.

(** A row that may be missing: [Scan] answers [pgx.ErrNoRows]. *)
Definition scan_row {A} (m : M H (option A)) : M H A :=
  o <- m ;; match o with Some a => ret a | None => throw ErrNoRows end.

(** A [SELECT]: the tables stay. *)
Definition select {A} (f : Tables -> A) : Sql A := fun _ _ t => inr (f t, t).

(** [pool.Begin] ... [tx.Commit] with the deferred [tx.Rollback]: an error on
    the way out, and a commit that did not reach the server, leave the tables
    as they were at [Begin]; a commit whose answer is lost took effect. *)
Definition in_tx {A} (body : M H A) : M H A :=
  fun w =>
    match stmt true [] (select (fun _ => tt)) w with
    | (Fail e, w1) => (Fail e, w1)
    | (Ok _, w1) =>
        match body w1 with
        | (Fail e, w2) => (Fail e, set_db (w_db w1) w2)
        | (Ok a, w2) =>
            let i := env_stmt (w_env w2) (w_pos w2) in
            let w3 := advance false w2 in
            match si_fault i with
            | NoFault => (Ok a, w3)
            | FailAfter => (Fail ErrConn, w3)
            | FailBefore => (Fail ErrConn, set_db (w_db w1) w3)
            end
        end
    end.
End statements.

(** [rand.Int(rand.Reader, max)]: a value in [0, max), or a read error. *)
Definition rand_int {H} (max : N) : M H N :=
  fun w =>
    let w' := mkWorld (w_db w) (w_now w) (w_env w) (w_pos w) (S (w_rpos w)) (w_rt w) in
    match env_rand (w_env w) (w_rpos w) with
    | Some v => (Ok (v mod max)%N, w')
    | None => (Fail (ErrText "crypto/rand"), w')
    end.

(** ** What holds of every statement and transaction *)

(** [m] keeps a relation between the tables before and after, whatever it
    answers and whatever fails. *)
Definition db_rel {H A} (R : Tables -> Tables -> Prop) (m : M H A) : Prop :=
  forall w, R (w_db w) (w_db (m w).2).

(** [m] preserves an invariant of the tables. *)
Definition preserves {H A} (P : Tables -> Prop) (m : M H A) : Prop :=
  forall w, P (w_db w) -> P (w_db (m w).2).

(** [m] only reads the tables and leaves the realtime side alone. *)
Definition read_only {H A} (m : M H A) : Prop :=
  forall w, w_db (m w).2 = w_db w /\ w_rt (m w).2 = w_rt w.

(** [m] leaves the realtime side alone. *)
Definition rt_silent {H A} (m : M H A) : Prop := forall w, w_rt (m w).2 = w_rt w.

Section facts.
Context {H : Type}.
Implicit Types P : Tables -> Prop.

Lemma run_sql_db {A} params (f : Sql A) id (w : World H) :
  w_db (run_sql params f id w).2 = w_db w \/
  exists a t, f (w_now w) id (w_db w) = inr (a, t) /\ w_db (run_sql params f id w).2 = t.
Proof.
  unfold run_sql. destruct (forallb _ _); [|by left].
  destruct (f _ _ _) as [c|[a t]] eqn:E; [by left|]. right. by exists a, t.
Qed.

Lemma run_sql_rt {A} params (f : Sql A) id (w : World H) :
  w_rt (run_sql params f id w).2 = w_rt w.
Proof. unfold run_sql. by repeat case_match. Qed.

(** A statement leaves the tables or does what its SQL says. *)
Lemma stmt_db {A} tick params (f : Sql A) (w : World H) :
  w_db (stmt tick params f w).2 = w_db w \/
  exists now id a t, f now id (w_db w) = inr (a, t) /\ w_db (stmt tick params f w).2 = t.
Proof.
  unfold stmt. destruct (si_fault _).
  - destruct (run_sql_db params f (si_uuid (env_stmt (w_env w) (w_pos w))) (advance tick w))
      as [Hd|(a & t & Hf & Ht)]; [by left|]. right. by eexists _, _, a, t.
  - by left.
  - simpl. destruct (run_sql_db params f (si_uuid (env_stmt (w_env w) (w_pos w))) (advance tick w))
      as [Hd|(a & t & Hf & Ht)]; [by left|]. right. by eexists _, _, a, t.
Qed.

Lemma stmt_rt {A} tick params (f : Sql A) : rt_silent (H:=H) (stmt tick params f).
Proof.
  intros w. unfold stmt. destruct (si_fault _); [|done|]; simpl; by rewrite run_sql_rt.
Qed.

Lemma stmt_ok {A} tick params (f : Sql A) (w w' : World H) a :
  stmt tick params f w = (Ok a, w') ->
  exists now id, f now id (w_db w) = inr (a, w_db w') /\ forallb pg_text_ok params = true /\
  now = w_now w' /\ id = si_uuid (env_stmt (w_env w) (w_pos w)).
Proof.
  unfold stmt. destruct (si_fault _); [|done..]. unfold run_sql.
  destruct (forallb _ _) eqn:Hp; [|done].
  destruct (f _ _ _) as [c|[a' t]] eqn:E; intros [= <- <-]. by eexists _, _.
Qed.

Lemma stmt_preserves {A} P tick params (f : Sql A) :
  (forall now id t a t', P t -> f now id t = inr (a, t') -> P t') ->
  preserves (H:=H) P (stmt tick params f).
Proof.
  intros Hf w HP. destruct (stmt_db tick params f w) as [->|(now & id & a & t & E & ->)]; eauto.
Qed.

Lemma select_read_only {A} tick params (f : Tables -> A) :
  read_only (H:=H) (stmt tick params (select f)).
Proof.
  intros w. split; [|apply stmt_rt].
  destruct (stmt_db tick params (select f) w) as [->|(?&?&?&?& [= <- <-] &->)]; done.
Qed.

Lemma ret_read_only {A} (a : A) : read_only (H:=H) (ret a).
Proof. done. Qed.
Lemma throw_read_only {A} e : read_only (H:=H) (throw (A:=A) e).
Proof. done. Qed.

Lemma bind_read_only {A B} (m : M H A) (k : A -> M H B) :
  read_only m -> (forall a, read_only (k a)) -> read_only (bind m k).
Proof.
  intros Hm Hk w. unfold bind. specialize (Hm w).
  destruct (m w) as [[a|e] w']; simpl in *; [|done].
  destruct (Hk a w') as [-> ->]. done.
Qed.

Lemma catch_read_only {A} (m : M H A) h :
  read_only m -> (forall e, read_only (h e)) -> read_only (catch m h).
Proof.
  intros Hm Hh w. unfold catch. specialize (Hm w).
  destruct (m w) as [[a|e] w']; simpl in *; [done|].
  destruct (Hh e w') as [-> ->]. done.
Qed.

Lemma try_read_only {A} (m : M H A) : read_only m -> read_only (try m).
Proof. intros Hm w. apply (Hm w). Qed.

Lemma on_error_read_only {A} f (m : M H A) : read_only m -> read_only (on_error f m).
Proof. intros Hm. apply catch_read_only; [done|]. intros e. apply throw_read_only. Qed.

Lemma scan_row_read_only {A} (m : M H (option A)) : read_only m -> read_only (scan_row m).
Proof. intros Hm. apply bind_read_only; [done|]. by intros []. Qed.

Lemma read_only_preserves {A} P (m : M H A) : read_only m -> preserves P m.
Proof. intros Hm w HP. by destruct (Hm w) as [-> _]. Qed.

Lemma read_only_rt_silent {A} (m : M H A) : read_only m -> rt_silent m.
Proof. intros Hm w. apply (Hm w). Qed.

Lemma bind_preserves {A B} P (m : M H A) (k : A -> M H B) :
  preserves P m -> (forall a, preserves P (k a)) -> preserves P (bind m k).
Proof.
  intros Hm Hk w HP. unfold bind. specialize (Hm w HP).
  destruct (m w) as [[a|e] w']; simpl in *; [by apply Hk|done].
Qed.

Lemma catch_preserves {A} P (m : M H A) h :
  preserves P m -> (forall e, preserves P (h e)) -> preserves P (catch m h).
Proof.
  intros Hm Hh w HP. unfold catch. specialize (Hm w HP).
  destruct (m w) as [[a|e] w']; simpl in *; [done|by apply Hh].
Qed.

Lemma on_error_preserves {A} P f (m : M H A) : preserves P m -> preserves P (on_error f m).
Proof. intros Hm. apply catch_preserves; [done|]. by intros e w. Qed.

Lemma try_preserves {A} P (m : M H A) : preserves P m -> preserves P (try m).
Proof. intros Hm w HP. by apply (Hm w). Qed.

Lemma rt_do_preserves P f : preserves (H:=H) P (rt_do f).
Proof. by intros w HP. Qed.
Lemma rt_get_read_only {A} (f : H -> A) : read_only (rt_get f).
Proof. done. Qed.

Lemma scan_row_preserves {A} P (m : M H (option A)) : preserves P m -> preserves P (scan_row m).
Proof. intros Hm. apply bind_preserves; [done|]. intros []; by intros w HP. Qed.

Lemma rand_int_read_only max : read_only (H:=H) (rand_int max).
Proof. intros w. unfold rand_int. destruct (env_rand _ _); done. Qed.

Lemma bind_rt_silent {A B} (m : M H A) (k : A -> M H B) :
  rt_silent m -> (forall a, rt_silent (k a)) -> rt_silent (bind m k).
Proof.
  intros Hm Hk w. unfold bind. specialize (Hm w).
  destruct (m w) as [[a|e] w']; simpl in *; [by rewrite Hk|done].
Qed.

Lemma on_error_rt_silent {A} f (m : M H A) : rt_silent m -> rt_silent (on_error f m).
Proof. intros Hm w. specialize (Hm w). unfold on_error, catch. by destruct (m w) as [[]]. Qed.

Lemma scan_row_rt_silent {A} (m : M H (option A)) : rt_silent m -> rt_silent (scan_row m).
Proof. intros Hm. apply bind_rt_silent; [done|]. by intros []. Qed.
End facts.

(** ** The environment is only read *)

Definition env_kept {H A} (m : M H A) : Prop := forall w, w_env (m w).2 = w_env w.

Section env.
Context {H : Type}.

Lemma stmt_env {A} tick params (f : Sql A) : env_kept (H:=H) (stmt tick params f).
Proof.
  intros w. unfold stmt, run_sql. by repeat case_match.
Qed.

Lemma bind_env {A B} (m : M H A) (k : A -> M H B) :
  env_kept m -> (forall a, env_kept (k a)) -> env_kept (bind m k).
Proof.
  intros Hm Hk w. unfold bind. specialize (Hm w).
  destruct (m w) as [[a|e] w']; simpl in *; [by rewrite Hk|done].
Qed.

Lemma try_env {A} (m : M H A) : env_kept m -> env_kept (try m).
Proof. intros Hm w. apply (Hm w). Qed.
End env.

(** ** Triples over the tables

    [hoare P m Q E]: from tables in [P], an answer [a] leaves tables in [Q a]
    and an error tables in [E]. *)
Definition hoare {H A} (P : Tables -> Prop) (m : M H A) (Q : A -> Tables -> Prop)
    (E : Tables -> Prop) : Prop :=
  forall w, P (w_db w) ->
    match m w with
    | (Ok a, w') => Q a (w_db w')
    | (Fail _, w') => E (w_db w')
    end.

Section triples.
Context {H : Type}.

Lemma hoare_bind {A B} P (m : M H A) Q (k : A -> M H B) R E :
  hoare P m Q E -> (forall a, hoare (Q a) (k a) R E) -> hoare P (bind m k) R E.
Proof.
  intros Hm Hk w HP. unfold bind. specialize (Hm w HP).
  destruct (m w) as [[a|e] w']; [by apply Hk|done].
Qed.

Lemma hoare_conseq {A} (P P' : Tables -> Prop) (m : M H A) (Q Q' : A -> Tables -> Prop)
    (E E' : Tables -> Prop) :
  hoare P' m Q' E' -> (forall t, P t -> P' t) -> (forall a t, Q' a t -> Q a t) ->
  (forall t, E' t -> E t) -> hoare P m Q E.
Proof.
  intros Hm HP HQ HE w Hw. specialize (Hm w (HP _ Hw)). destruct (m w) as [[a|e] w']; auto.
Qed.

Lemma hoare_preserves {A} P (m : M H A) : hoare P m (fun _ => P) P <-> preserves P m.
Proof.
  split; intros Hm w HP; specialize (Hm w HP); destruct (m w) as [[a|e] w']; done.
Qed.

Lemma hoare_read_only {A} (P E : Tables -> Prop) (m : M H A) :
  read_only m -> (forall t, P t -> E t) -> hoare P m (fun _ => P) E.
Proof.
  intros Hm HE w HP. destruct (Hm w) as [Hd _].
  destruct (m w) as [[a|e] w']; simpl in Hd; rewrite Hd; auto.
Qed.

Lemma hoare_check (P E : Tables -> Prop) b e :
  (forall t, P t -> E t) -> hoare (H:=H) P (check b e) (fun _ t => P t /\ b = false) E.
Proof. intros HE w HP. unfold check. destruct b; simpl; auto. Qed.
End triples.
