(* ===== verification/Store.v ===== *)
(** * [internal/rooms/store.go]: the rooms store

    One definition per method of [rooms.Store], its SQL as a function on the
    tables.  Where an [ORDER BY] leaves ties open the model breaks them by
    primary key. *)
From stdpp Require Import base gmap sets list strings sorting.
From Stdlib Require Import ZArith Lia.
From S2P Require Import Prelude.
From S2P Require Import GoString.
From S2P Require Import Httpx.
From S2P Require Import Types.
From S2P Require Import Db.

Open Scope convoy_scope.

(** ** SQL building blocks *)

Definition opt_text (o : option string) : list string :=
  match o with Some s => [s] | None => [] end.

Definition has {V} (m : gmap uuid V) (k : uuid) : bool := bool_decide (is_Some (m !! k)).

(** [rows ORDER BY ...], [le] the comparison of two rows. *)
Definition order_by {A} (le : A -> A -> bool) (rows : list A) : list A :=
  merge_sort (fun x y => Is_true (le x y)) rows.

(** A comparison of [(t, id)] pairs, and its strict form. *)
Definition key_le (t1 : time) (i1 : uuid) (t2 : time) (i2 : uuid) : bool :=
  (t1 <? t2)%Z || ((t1 =? t2)%Z && (i1 <=? i2)%N).
Definition key_lt (t1 : time) (i1 : uuid) (t2 : time) (i2 : uuid) : bool :=
  (t1 <? t2)%Z || ((t1 =? t2)%Z && (i1 <? i2)%N).

Definition room_of_row (id : uuid) (r : RoomRow) : Room :=
  mkRoom id (r_code r) (r_name r) (r_owner_id r) (r_created_at r) (r_ended_at r).

Definition room_active (r : RoomRow) : bool := bool_decide (r_ended_at r = None).
Definition member_present (m : MemberRow) : bool := bool_decide (m_left_at m = None).

(** [UPDATE rooms SET ... WHERE id = $1 AND cond]: the row after it, if any. *)
Definition update_room (id : uuid) (cond : RoomRow -> bool) (f : time -> RoomRow -> RoomRow) :
    Sql (option RoomRow) :=
  fun now _ t =>
    match t_rooms t !! id with
    | Some r =>
        if cond r then inr (Some (f now r), set_rooms <[id := f now r]> t) else inr (None, t)
    | None => inr (None, t)
    end.

(** [UPDATE room_members SET ... WHERE room_id = $1 AND user_id = $2 AND cond]:
    the number of rows affected. *)
Definition update_member (rid uid : uuid) (cond : MemberRow -> bool)
    (f : time -> MemberRow -> MemberRow) : Sql nat :=
  fun now _ t =>
    match t_members t !! (rid, uid) with
    | Some m => if cond m then inr (1, set_members <[(rid, uid) := f now m]> t) else inr (0, t)
    | None => inr (0, t)
    end.

(** [if tag.RowsAffected() == 0 { return ErrNotFound }]. *)
Definition affected {H} (n : nat) : M H unit := check (n =? 0) RoomsErrNotFound.

(** [errors.Is(err, pgx.ErrNoRows)]: [ErrNotFound]. *)
Definition no_rows_not_found (e : error) : error :=
  match e with ErrNoRows => RoomsErrNotFound | _ => e end.

(** ** Rooms *)

Definition new_room_row (code : string) (name : option string) (owner : uuid) (now : time) : RoomRow :=
  mkRoomRow code name owner now None None None None None None None.

Definition code_taken (code : string) (rooms : gmap uuid RoomRow) : bool :=
  existsb (fun p => bool_decide (r_code p.2 = code) && room_active p.2) (map_to_list rooms).

Definition insert_room (owner : uuid) (code : string) (name : option string) : Sql Room :=
  fun now id t =>
    let r := new_room_row code name owner now in
    if has (t_rooms t) id || code_taken code (t_rooms t) then inl unique_violation
    else if negb (has (t_users t) owner) then inl foreign_key_violation
    else inr (room_of_row id r, set_rooms <[id := r]> t).

Definition insert_member (rid uid : uuid) (role : string) : Sql unit :=
  fun now _ t =>
    if bool_decide (is_Some (t_members t !! (rid, uid))) then inl unique_violation
    else if negb (has (t_rooms t) rid) || negb (has (t_users t) uid) then inl foreign_key_violation
    else inr (tt, set_members <[(rid, uid) := mkMemberRow role false false now None]> t).

Section store.
Context {H : Type}.

Definition CreateRoom (ownerID : uuid) (code : string) (name : option string) : M H Room :=
  in_tx (
    r <- tx_exec (code :: opt_text name) (insert_room ownerID code name) ;;
    tx_exec [] (insert_member (Room_ID r) ownerID RoleOwner) ;;;
    ret r).

Definition GetByID (id : uuid) : M H Room :=
  on_error no_rows_not_found
    (scan_row (exec [] (select (fun t => room_of_row id <$> t_rooms t !! id)))).

Definition GetActiveByCode (code : string) : M H Room :=
  on_error no_rows_not_found
    (scan_row (exec [code] (select (fun t =>
       p ← head (filter (fun p => r_code p.2 = code /\ r_ended_at p.2 = None)
                        (map_to_list (t_rooms t)));
       Some (room_of_row p.1 p.2))))).

(** ** Memberships *)

Definition upsert_member_sql (rid uid : uuid) : Sql unit :=
  fun now id t =>
    match t_members t !! (rid, uid) with
    | Some m =>
        inr (tt, set_members
          <[(rid, uid) := mkMemberRow (m_role m) (m_muted m) false (m_joined_at m) None]> t)
    | None => insert_member rid uid RoleMember now id t
    end.

Definition UpsertMember (roomID userID : uuid) : M H unit :=
  exec [] (upsert_member_sql roomID userID).

Definition mark_left (now : time) (m : MemberRow) : MemberRow :=
  mkMemberRow (m_role m) (m_muted m) (m_kicked m) (m_joined_at m) (Some now).

Definition MarkLeft (roomID userID : uuid) : M H unit :=
  exec [] (update_member roomID userID member_present mark_left) ;;; ret tt.

Definition set_muted (muted : bool) (now : time) (m : MemberRow) : MemberRow :=
  mkMemberRow (m_role m) muted (m_kicked m) (m_joined_at m) (m_left_at m).

Definition SetMuted (roomID userID : uuid) (muted : bool) : M H unit :=
  n <- exec [] (update_member roomID userID member_present (set_muted muted)) ;;
  affected n.

Definition mark_kicked (now : time) (m : MemberRow) : MemberRow :=
  mkMemberRow (m_role m) (m_muted m) true (m_joined_at m) (Some now).

Definition StoreKick (roomID userID : uuid) : M H unit :=
  n <- exec [] (update_member roomID userID member_present mark_kicked) ;;
  affected n.

Definition set_ended (now : time) (r : RoomRow) : RoomRow :=
  mkRoomRow (r_code r) (r_name r) (r_owner_id r) (r_created_at r) (Some now)
    (r_dest_lat r) (r_dest_lng r) (r_dest_name r) (r_dest_notes r) (r_dest_set_at r)
    (r_dest_set_by r).

Definition EndRoom (roomID : uuid) : M H unit :=
  o <- exec [] (update_room roomID room_active set_ended) ;;
  affected (match o with Some _ => 1 | None => 0 end).

Definition member_of_row (uid : uuid) (m : MemberRow) (u : UserRow) : Member :=
  mkMember uid (u_display_name u) (u_avatar_url u) (m_role m) (m_muted m) (m_joined_at m).

Definition GetMember (roomID userID : uuid) : M H Member :=
  on_error no_rows_not_found
    (scan_row (exec [] (select (fun t =>
       m ← t_members t !! (roomID, userID);
       u ← t_users t !! userID;
       if member_present m then Some (member_of_row userID m u) else None)))).

Definition member_rows (roomID : uuid) (t : Tables) : list Member :=
  omap (fun p =>
    u ← t_users t !! p.1.2;
    if bool_decide (p.1.1 = roomID) && member_present p.2
    then Some (member_of_row p.1.2 p.2 u) else None)
    (map_to_list (t_members t)).

Definition joined_le (a b : Member) : bool :=
  key_le (Member_JoinedAt a) (Member_UserID a) (Member_JoinedAt b) (Member_UserID b).

Definition ListMembers (roomID : uuid) : M H (list Member) :=
  exec [] (select (fun t => order_by joined_le (member_rows roomID t))).

(** ** The destination *)

(** [Scan] of the destination columns: a NULL does not fit [d.SetAt] or
    [d.SetBy]. *)
Definition scan_dest (r : RoomRow) : M H Destination :=
  match r_dest_lat r, r_dest_lng r, r_dest_set_at r, r_dest_set_by r with
  | Some lat, Some lng, Some at_, Some by_ =>
      ret (mkDestination lat lng (r_dest_name r) (r_dest_notes r) at_ by_)
  | _, _, _, _ => throw ErrScan
  end.

Definition dest_set (r : RoomRow) : bool :=
  bool_decide (is_Some (r_dest_lat r)) && bool_decide (is_Some (r_dest_lng r)).

Definition GetDestination (roomID : uuid) : M H (option Destination) :=
  o <- exec [] (select (fun t =>
         r ← t_rooms t !! roomID; if dest_set r then Some r else None)) ;;
  match o with
  | None => ret None
  | Some r => d <- scan_dest r ;; ret (Some d)
  end.

Definition set_dest (lat lng : float64) (name notes : option string) (by_ : uuid)
    (now : time) (r : RoomRow) : RoomRow :=
  mkRoomRow (r_code r) (r_name r) (r_owner_id r) (r_created_at r) (r_ended_at r)
    (Some lat) (Some lng) name notes (Some now) (Some by_).

(** The same update under the foreign key of [dest_set_by]. *)
Definition set_dest_sql (roomID setBy : uuid) (lat lng : float64) (name notes : option string) :
    Sql (option RoomRow) :=
  fun now id t =>
    match update_room roomID room_active (set_dest lat lng name notes setBy) now id t with
    | inr (Some r, t') => if has (t_users t) setBy then inr (Some r, t') else inl foreign_key_violation
    | o => o
    end.

Definition StoreSetDestination (roomID setBy : uuid) (lat lng : float64)
    (name notes : option string) : M H Destination :=
  r <- on_error no_rows_not_found
         (scan_row (exec (opt_text name ++ opt_text notes)
            (set_dest_sql roomID setBy lat lng name notes))) ;;
  scan_dest r.

Definition set_dest_meta (name notes : option string) (now : time) (r : RoomRow) : RoomRow :=
  mkRoomRow (r_code r) (r_name r) (r_owner_id r) (r_created_at r) (r_ended_at r)
    (r_dest_lat r) (r_dest_lng r) name notes (r_dest_set_at r) (r_dest_set_by r).

Definition StoreUpdateDestinationMeta (roomID : uuid) (name notes : option string) :
    M H Destination :=
  r <- on_error no_rows_not_found
         (scan_row (exec (opt_text name ++ opt_text notes)
            (update_room roomID (fun r => room_active r && dest_set r) (set_dest_meta name notes)))) ;;
  scan_dest r.

Definition set_name (name : option string) (now : time) (r : RoomRow) : RoomRow :=
  mkRoomRow (r_code r) name (r_owner_id r) (r_created_at r) (r_ended_at r)
    (r_dest_lat r) (r_dest_lng r) (r_dest_name r) (r_dest_notes r) (r_dest_set_at r)
    (r_dest_set_by r).

Definition UpdateName (roomID : uuid) (name : option string) : M H Room :=
  r <- on_error no_rows_not_found
         (scan_row (exec (opt_text name) (update_room roomID room_active (set_name name)))) ;;
  ret (room_of_row roomID r).

Definition clear_dest (now : time) (r : RoomRow) : RoomRow :=
  mkRoomRow (r_code r) (r_name r) (r_owner_id r) (r_created_at r) (r_ended_at r)
    None None (r_dest_name r) (r_dest_notes r) None None.

Definition StoreClearDestination (roomID : uuid) : M H unit :=
  o <- exec [] (update_room roomID room_active clear_dest) ;;
  affected (match o with Some _ => 1 | None => 0 end).

(** ** Personal markers *)

Definition marker_of_row (k : MarkerRow) : PersonalMarker :=
  mkPersonalMarker (k_lat k) (k_lng k) (k_label k) (k_updated_at k).

Definition GetPersonalMarker (roomID userID : uuid) : M H (option PersonalMarker) :=
  exec [] (select (fun t => marker_of_row <$> t_markers t !! (roomID, userID))).

Definition upsert_marker_sql (roomID userID : uuid) (lat lng : float64) (label : option string) :
    Sql PersonalMarker :=
  fun now _ t =>
    let k := mkMarkerRow lat lng label now in
    if bool_decide (is_Some (t_markers t !! (roomID, userID)))
       || (has (t_rooms t) roomID && has (t_users t) userID)
    then inr (marker_of_row k, set_markers <[(roomID, userID) := k]> t)
    else inl foreign_key_violation.

Definition UpsertPersonalMarker (roomID userID : uuid) (lat lng : float64)
    (label : option string) : M H PersonalMarker :=
  exec (opt_text label) (upsert_marker_sql roomID userID lat lng label).

Definition DeletePersonalMarker (roomID userID : uuid) : M H unit :=
  exec [] (fun _ _ t => inr (tt, set_markers (delete (roomID, userID)) t)).

(** ** Stops *)

Definition stops_of (roomID : uuid) (t : Tables) : list (uuid * StopRow) :=
  filter (fun p => s_room_id p.2 = roomID) (map_to_list (t_stops t)).

Definition stop_le (a b : uuid * StopRow) : bool :=
  (s_position a.2 <? s_position b.2)%Z
  || ((s_position a.2 =? s_position b.2)%Z
      && key_le (s_created_at a.2) a.1 (s_created_at b.2) b.1).

(** [Scan] of a stop row: a NULL does not fit [st.CreatedBy]. *)
Definition stop_of_row (p : uuid * StopRow) : option Stop :=
  by_ ← s_created_by p.2;
  Some (mkStop p.1 (s_room_id p.2) (s_lat p.2) (s_lng p.2) (s_label p.2) (s_position p.2) by_
          (s_created_at p.2)).

Definition scan_stop (p : uuid * StopRow) : M H Stop :=
  match stop_of_row p with Some st => ret st | None => throw ErrScan end.

Definition ListStops (roomID : uuid) : M H (list Stop) :=
  rows <- exec [] (select (fun t => order_by stop_le (stops_of roomID t))) ;;
  match mapM stop_of_row rows with Some l => ret l | None => throw ErrScan end.

(** [COALESCE((SELECT MAX(position) + 1 ...), 0)]. *)
Definition next_position (roomID : uuid) (t : Tables) : Z :=
  match stops_of roomID t with
  | [] => 0
  | p :: ps => foldr (fun q acc => Z.max (s_position q.2) acc) (s_position p.2) ps + 1
  end%Z.

Definition max_int32 : Z := 2147483647.

Definition add_stop_sql (roomID createdBy : uuid) (lat lng : float64) (label : option string) :
    Sql (uuid * StopRow) :=
  fun now id t =>
    let pos := next_position roomID t in
    let s := mkStopRow roomID lat lng label pos (Some createdBy) now in
    if (max_int32 <? pos)%Z then inl out_of_range
    else if has (t_stops t) id then inl unique_violation
    else if negb (has (t_rooms t) roomID) || negb (has (t_users t) createdBy)
    then inl foreign_key_violation
    else inr ((id, s), set_stops <[id := s]> t).

Definition StoreAddStop (roomID createdBy : uuid) (lat lng : float64) (label : option string) :
    M H Stop :=
  p <- exec (opt_text label) (add_stop_sql roomID createdBy lat lng label) ;;
  scan_stop p.

Definition StoreClearStops (roomID : uuid) : M H unit :=
  exec [] (fun _ _ t => inr (tt, set_stops (filter (fun p => s_room_id p.2 <> roomID)) t)).

Definition remove_stop_sql (roomID stopID : uuid) : Sql nat :=
  fun _ _ t =>
    match t_stops t !! stopID with
    | Some s =>
        if bool_decide (s_room_id s = roomID) then inr (1, set_stops (delete stopID) t)
        else inr (0, t)
    | None => inr (0, t)
    end.

Definition StoreRemoveStop (roomID stopID : uuid) : M H unit :=
  n <- exec [] (remove_stop_sql roomID stopID) ;; affected n.

Definition set_label (label : option string) (s : StopRow) : StopRow :=
  mkStopRow (s_room_id s) (s_lat s) (s_lng s) label (s_position s) (s_created_by s)
    (s_created_at s).

Definition update_label_sql (roomID stopID : uuid) (label : option string) :
    Sql (option (uuid * StopRow)) :=
  fun _ _ t =>
    match t_stops t !! stopID with
    | Some s =>
        if bool_decide (s_room_id s = roomID)
        then inr (Some (stopID, set_label label s), set_stops <[stopID := set_label label s]> t)
        else inr (None, t)
    | None => inr (None, t)
    end.

Definition StoreUpdateStopLabel (roomID stopID : uuid) (label : option string) : M H Stop :=
  p <- on_error no_rows_not_found
         (scan_row (exec (opt_text label) (update_label_sql roomID stopID label))) ;;
  scan_stop p.

(** ** Ownership *)

Definition member_active (m : MemberRow) : bool := member_present m && negb (m_kicked m).

Definition set_owner (owner : uuid) (now : time) (r : RoomRow) : RoomRow :=
  mkRoomRow (r_code r) (r_name r) owner (r_created_at r) (r_ended_at r)
    (r_dest_lat r) (r_dest_lng r) (r_dest_name r) (r_dest_notes r) (r_dest_set_at r)
    (r_dest_set_by r).

Definition set_owner_sql (roomID newOwnerID : uuid) : Sql (option RoomRow) :=
  fun now id t =>
    match update_room roomID room_active (set_owner newOwnerID) now id t with
    | inr (Some r, t') =>
        if has (t_users t) newOwnerID then inr (Some r, t') else inl foreign_key_violation
    | o => o
    end.

Definition set_role (role : string) (now : time) (m : MemberRow) : MemberRow :=
  mkMemberRow role (m_muted m) (m_kicked m) (m_joined_at m) (m_left_at m).

Definition StoreTransferOwnership (roomID oldOwnerID newOwnerID : uuid) : M H unit :=
  in_tx (
    exists_ <- tx_exec [] (select (fun t =>
                 match t_members t !! (roomID, newOwnerID) with
                 | Some m => member_active m
                 | None => false
                 end)) ;;
    check (negb exists_) RoomsErrNotFound ;;;
    o <- tx_exec [] (set_owner_sql roomID newOwnerID) ;;
    affected (match o with Some _ => 1 | None => 0 end) ;;;
    tx_exec [] (update_member roomID newOwnerID (fun _ => true) (set_role RoleOwner)) ;;;
    tx_exec [] (update_member roomID oldOwnerID (fun _ => true) (set_role RoleMember)) ;;;
    ret tt).

Definition ActiveMembership (roomID userID : uuid) : M H (string * bool) :=
  on_error no_rows_not_found
    (scan_row (exec [] (select (fun t =>
       m ← t_members t !! (roomID, userID);
       if member_active m then Some (m_role m, m_muted m) else None)))).

(** ** Lists of rooms and messages *)

Definition active_room_rows (userID : uuid) (t : Tables) : list ActiveRoom :=
  omap (fun p =>
    r ← t_rooms t !! p.1.1;
    if bool_decide (p.1.2 = userID) && member_active p.2 && room_active r
    then Some (mkActiveRoom p.1.1 (r_code r) (r_name r) (m_role p.2) 0 (m_joined_at p.2))
    else None)
    (map_to_list (t_members t)).

Definition joined_ge (a b : ActiveRoom) : bool :=
  key_le (AR_JoinedAt b) (AR_ID b) (AR_JoinedAt a) (AR_ID a).

Definition ListActiveRoomsForUser (userID : uuid) : M H (list ActiveRoom) :=
  exec [] (select (fun t => order_by joined_ge (active_room_rows userID t))).

Definition message_of_row (id : uuid) (g : MessageRow) (u : UserRow) : ChatMessage :=
  mkMessage id (g_room_id g) (g_user_id g) (u_display_name u) (u_avatar_url u) (g_body g)
    (g_created_at g).

Definition create_message_sql (roomID userID : uuid) (body : string) :
    Sql (option ChatMessage) :=
  fun now id t =>
    let g := mkMessageRow roomID userID body now in
    if has (t_messages t) id then inl unique_violation
    else if negb (has (t_rooms t) roomID) || negb (has (t_users t) userID)
    then inl foreign_key_violation
    else inr (message_of_row id g <$> t_users t !! userID, set_messages <[id := g]> t).

Definition CreateMessage (roomID userID : uuid) (body : string) : M H ChatMessage :=
  scan_row (exec [body] (create_message_sql roomID userID body)).

(** [$2 IS NULL OR (m.created_at, m.id) < (SELECT created_at, id ...)]: a
    cursor that names no message compares with NULL and selects nothing. *)
Definition before_cursor (before : option uuid) (t : Tables) (id : uuid) (g : MessageRow) : bool :=
  match before with
  | None => true
  | Some b =>
      match t_messages t !! b with
      | Some c => key_lt (g_created_at g) id (g_created_at c) b
      | None => false
      end
  end.

Definition message_rows (roomID : uuid) (before : option uuid) (t : Tables) : list ChatMessage :=
  omap (fun p =>
    u ← t_users t !! g_user_id p.2;
    if bool_decide (g_room_id p.2 = roomID) && before_cursor before t p.1 p.2
    then Some (message_of_row p.1 p.2 u) else None)
    (map_to_list (t_messages t)).

Definition newest_first (a b : ChatMessage) : bool :=
  key_le (Msg_CreatedAt b) (Msg_ID b) (Msg_CreatedAt a) (Msg_ID a).

Definition list_messages_rows (roomID : uuid) (before : option uuid) (limit : nat) (t : Tables) :
    list ChatMessage :=
  take limit (order_by newest_first (message_rows roomID before t)).

Definition invalid_limit : string := "2201W".

Definition StoreListMessages (roomID : uuid) (before : option uuid) (limit : Z) :
    M H (list ChatMessage) :=
  exec [] (fun now id t =>
    if (limit <? 0)%Z then inl invalid_limit
    else select (list_messages_rows roomID before (Z.to_nat limit)) now id t).
End store.
