(* ===== verification/StoreFacts.v ===== *)
(** * Facts about the store: the schema invariant and what preserves it

    [db_wf] collects what the schema and the store promise of the tables: the
    foreign keys, one active room per code, one owner per room who holds the
    only [owner] membership, no kicked member that has not left, destination
    columns set and cleared together, stop positions distinct within a room.
    The lemmas say which row updates keep it; the store operations are then
    instances. *)
From stdpp Require Import base gmap sets list strings sorting.
From Stdlib Require Import ZArith Lia.
From S2P Require Import Prelude.
From S2P Require Import GoString.
From S2P Require Import Httpx.
From S2P Require Import Types.
From S2P Require Import Db.
From S2P Require Import Store.

Open Scope convoy_scope.

(** ** The invariant *)

Definition dest_ok (r : RoomRow) : Prop :=
  match r_dest_lat r, r_dest_lng r, r_dest_set_at r, r_dest_set_by r with
  | Some _, Some _, Some _, Some _ => True
  | None, None, None, None => True
  | _, _, _, _ => False
  end.

Record room_row_wf (users : gmap uuid UserRow) (r : RoomRow) : Prop := {
  rw_owner : is_Some (users !! r_owner_id r);
  rw_set_by : forall u, r_dest_set_by r = Some u -> is_Some (users !! u);
  rw_dest : dest_ok r;
}.

Record member_row_wf (users : gmap uuid UserRow) (rooms : gmap uuid RoomRow) (rid uid : uuid)
    (m : MemberRow) : Prop := {
  mw_user : is_Some (users !! uid);
  mw_kicked : m_kicked m = true -> is_Some (m_left_at m);
  mw_role : exists r, rooms !! rid = Some r /\
            (uid = r_owner_id r -> m_role m = RoleOwner) /\
            (uid <> r_owner_id r -> m_role m = RoleMember);
}.

Record db_wf (t : Tables) : Prop := {
  wf_rooms : forall rid r, t_rooms t !! rid = Some r -> room_row_wf (t_users t) r;
  wf_codes : forall i1 i2 r1 r2, t_rooms t !! i1 = Some r1 -> t_rooms t !! i2 = Some r2 ->
             r_ended_at r1 = None -> r_ended_at r2 = None -> r_code r1 = r_code r2 -> i1 = i2;
  wf_members : forall rid uid m, t_members t !! (rid, uid) = Some m ->
               member_row_wf (t_users t) (t_rooms t) rid uid m;
  wf_owner : forall rid r, t_rooms t !! rid = Some r ->
             is_Some (t_members t !! (rid, r_owner_id r));
  wf_markers : forall rid uid k, t_markers t !! (rid, uid) = Some k ->
               is_Some (t_rooms t !! rid) /\ is_Some (t_users t !! uid);
  wf_stops : forall sid s, t_stops t !! sid = Some s ->
             is_Some (t_rooms t !! s_room_id s) /\
             (exists u, s_created_by s = Some u /\ is_Some (t_users t !! u)) /\
             (0 <= s_position s <= max_int32)%Z;
  wf_positions : forall i1 i2 s1 s2, t_stops t !! i1 = Some s1 -> t_stops t !! i2 = Some s2 ->
                 s_room_id s1 = s_room_id s2 -> s_position s1 = s_position s2 -> i1 = i2;
  wf_messages : forall gid g, t_messages t !! gid = Some g ->
                is_Some (t_rooms t !! g_room_id g) /\ is_Some (t_users t !! g_user_id g);
}.

Lemma has_spec {V} (m : gmap uuid V) k : has m k = true <-> is_Some (m !! k).
Proof. apply bool_decide_eq_true. Qed.

Lemma has_false {V} (m : gmap uuid V) k : has m k = false <-> m !! k = None.
Proof. unfold has. rewrite bool_decide_eq_false. symmetry. apply eq_None_not_Some. Qed.

Lemma roles_differ : RoleOwner <> RoleMember.
Proof. discriminate. Qed.

(** The owner's role is held by the room's owner and by nobody else. *)
Lemma owner_role t rid uid m r :
  db_wf t -> t_members t !! (rid, uid) = Some m -> t_rooms t !! rid = Some r ->
  m_role m = RoleOwner <-> uid = r_owner_id r.
Proof.
  intros Hwf Hm Hr. destruct (wf_members _ Hwf _ _ _ Hm) as [_ _ (r' & Hr' & Ho & Hn)].
  simplify_eq. split; [|done]. intros Hrole.
  destruct (decide (uid = r_owner_id r)) as [|Hne]; [done|].
  pose proof roles_differ. specialize (Hn Hne). congruence.
Qed.

Lemma empty_wf : db_wf empty_tables.
Proof. split; simpl; intros *; rewrite lookup_empty; done. Qed.

(** ** Row updates that keep the invariant *)

(** Replacing a room row by one with the same code and owner. *)
Lemma wf_update_room t rid r r' :
  db_wf t -> t_rooms t !! rid = Some r ->
  r_code r' = r_code r -> r_owner_id r' = r_owner_id r ->
  (r_ended_at r' = None -> r_ended_at r = None) ->
  room_row_wf (t_users t) r' ->
  db_wf (set_rooms <[rid := r']> t).
Proof.
  intros [Hr Hc Hm Ho Hk Hs Hp Hg] Hrid Hcode Howner Hended Hrow.
  assert (forall i, is_Some (t_rooms t !! i) -> is_Some (<[rid := r']> (t_rooms t) !! i)) as Hdom.
  { intros i Hi. rewrite lookup_insert. by case_decide. }
  assert (forall i x, <[rid := r']> (t_rooms t) !! i = Some x -> exists y, t_rooms t !! i = Some y /\
    r_code x = r_code y /\ r_owner_id x = r_owner_id y /\ (r_ended_at x = None -> r_ended_at y = None))
    as Hback.
  { intros i x. rewrite lookup_insert. case_decide; [subst|intros Hx; by exists x].
    intros [= <-]. by exists r. }
  split; simpl; try done.
  - intros i x. rewrite lookup_insert. case_decide; [by intros [= <-]|by apply Hr].
  - intros i1 i2 x1 x2 (y1 & H1 & E1 & _ & D1)%Hback (y2 & H2 & E2 & _ & D2)%Hback A1 A2 E.
    apply (Hc i1 i2 y1 y2); auto. congruence.
  - intros i u m Him. destruct (Hm i u m Him) as [Hu Hkick (y & Hy & Hrole)]. split; try done.
    rewrite lookup_insert. case_decide; subst; [|by exists y].
    exists r'. split; [done|]. rewrite Howner. by simplify_eq.
  - intros i x (y & Hy & _ & -> & _)%Hback. by apply (Ho i).
  - intros i u k Hi. destruct (Hk i u k Hi). auto.
  - intros i s Hi. destruct (Hs i s Hi) as (? & ? & ?). auto.
  - intros i g Hi. destruct (Hg i g Hi). auto.
Qed.

(** Replacing a membership row by one with the same role. *)
Lemma wf_update_member t rid uid m m' :
  db_wf t -> t_members t !! (rid, uid) = Some m ->
  m_role m' = m_role m -> (m_kicked m' = true -> is_Some (m_left_at m')) ->
  db_wf (set_members <[(rid, uid) := m']> t).
Proof.
  intros [Hr Hc Hm Ho Hk Hs Hp Hg] Hmem Hrole Hkick. split; simpl; try done.
  - intros i u x. rewrite lookup_insert. case_decide as Hd; [|by apply Hm].
    simplify_eq. intros [= <-]. destruct (Hm _ _ _ Hmem) as [Hu _ (y & Hy & Hyr)].
    split; [done|done|]. exists y. split; [done|]. by rewrite Hrole.
  - intros i r Hi. rewrite lookup_insert. case_decide; [done|]. by apply Ho.
Qed.

(** A new member who is not the room's owner. *)
Lemma wf_insert_member t rid uid now :
  db_wf t -> is_Some (t_rooms t !! rid) -> is_Some (t_users t !! uid) ->
  t_members t !! (rid, uid) = None ->
  db_wf (set_members <[(rid, uid) := mkMemberRow RoleMember false false now None]> t).
Proof.
  intros [Hr Hc Hm Ho Hk Hs Hp Hg] [r Hroom] Huser Hnone. split; simpl; try done.
  - intros i u x. rewrite lookup_insert. case_decide as Hd; [|by apply Hm].
    simplify_eq. intros [= <-]. split; [done|done|]. exists r. split; [done|].
    split; [|done]. intros ->. destruct (Ho _ _ Hroom). congruence.
  - intros i x Hi. rewrite lookup_insert. case_decide; [done|]. by apply Ho.
Qed.

(** A new room together with its owner's membership. *)
Lemma wf_create_room t rid owner code name now now' :
  db_wf t -> t_rooms t !! rid = None -> is_Some (t_users t !! owner) ->
  code_taken code (t_rooms t) = false -> t_members t !! (rid, owner) = None ->
  db_wf (set_members <[(rid, owner) := mkMemberRow RoleOwner false false now' None]>
          (set_rooms <[rid := new_room_row code name owner now]> t)).
Proof.
  intros [Hr Hc Hm Ho Hk Hs Hp Hg] Hnew Huser Hcode Hnone.
  assert (forall i, is_Some (t_rooms t !! i) ->
    is_Some (<[rid := new_room_row code name owner now]> (t_rooms t) !! i)) as Hdom.
  { intros i Hi. rewrite lookup_insert. by case_decide. }
  assert (forall i r, t_rooms t !! i = Some r -> r_ended_at r = None -> r_code r <> code) as Hfresh.
  { intros i r Hi Hend Heq. apply eq_true_false_abs with (2 := Hcode).
    apply existsb_exists. exists (i, r). split.
    - by apply list_elem_of_In, elem_of_map_to_list.
    - unfold room_active. simpl. by rewrite !bool_decide_eq_true_2. }
  split; simpl; try done.
  - intros i r. rewrite lookup_insert. case_decide; [|by apply Hr]. intros [= <-].
    split; [done|by intros ?|done].
  - intros i1 i2 r1 r2. rewrite !lookup_insert. repeat case_decide; subst; try done.
    + intros [= <-] H2 _ A2 E. simpl in E. by destruct (Hfresh _ _ H2 A2).
    + intros H1 [= <-] A1 _ E. simpl in E. by destruct (Hfresh _ _ H1 A1).
    + apply Hc.
  - intros i u m. rewrite lookup_insert. case_decide as Hd.
    + simplify_eq. intros [= <-]. split; [done|done|].
      rewrite lookup_insert_eq. by eexists.
    + intros Him. destruct (Hm i u m Him) as [Hu Hkick (y & Hy & Hrole)]. split; try done.
      exists y. split; [|done]. rewrite lookup_insert_ne; [done|]. congruence.
  - intros i r. rewrite !lookup_insert. repeat case_decide; simplify_eq/=; try done; [|by intros; apply Ho].
    intros [= <-]. simpl in *. congruence.
  - intros i u k Hi. destruct (Hk i u k Hi). auto.
  - intros i s Hi. destruct (Hs i s Hi) as (? & ? & ?). auto.
  - intros i g Hi. destruct (Hg i g Hi). auto.
Qed.

(** Handing a room from its owner to another member. *)
Lemma wf_transfer t rid r old new mo mn :
  db_wf t -> t_rooms t !! rid = Some r -> r_owner_id r = old -> old <> new ->
  t_members t !! (rid, old) = Some mo -> t_members t !! (rid, new) = Some mn ->
  db_wf (set_members (fun ms => <[(rid, old) := set_role RoleMember 0 mo]>
                                (<[(rid, new) := set_role RoleOwner 0 mn]> ms))
          (set_rooms <[rid := set_owner new 0 r]> t)).
Proof.
  intros [Hr Hc Hm Ho Hk Hs Hp Hg] Hroom Hold Hne Hmo Hmn.
  assert (forall i, is_Some (t_rooms t !! i) ->
    is_Some (<[rid := set_owner new 0 r]> (t_rooms t) !! i)) as Hdom.
  { intros i Hi. rewrite lookup_insert. by case_decide. }
  pose proof (Hm _ _ _ Hmo) as [Huo Hkko _]. pose proof (Hm _ _ _ Hmn) as [Hun Hkkn _].
  split; simpl; try done.
  - intros i x. rewrite lookup_insert. case_decide; [|by apply Hr].
    intros [= <-]. destruct (Hr _ _ Hroom). by split.
  - intros i1 i2 r1 r2. rewrite !lookup_insert. repeat case_decide; subst; try done.
    + intros [= <-] H2. simpl. by apply Hc.
    + intros H1 [= <-]. simpl. by apply Hc.
    + apply Hc.
  - intros i u m. rewrite !lookup_insert. repeat case_decide; simplify_eq/=.
    + intros [= <-]. split; [done|done|]. rewrite lookup_insert_eq. eexists. split; [done|]. simpl.
      split; [congruence|done].
    + intros [= <-]. split; [done|done|]. rewrite lookup_insert_eq. eexists. split; [done|]. simpl.
      split; [done|congruence].
    + intros Him. destruct (Hm _ _ _ Him) as [Hu Hkick (y & Hy & Hrole)]. split; try done.
      rewrite lookup_insert. case_decide; subst; [|by exists y]. simplify_eq.
      eexists. split; [done|]. simpl. destruct Hrole as [_ Hrole]. split; [congruence|].
      intros _. apply Hrole. congruence.
  - intros i x. rewrite !lookup_insert. repeat case_decide; simplify_eq/=; try done; [|by intros; apply Ho].
    intros [= <-]. simpl in *. congruence.
  - intros i u k Hi. destruct (Hk i u k Hi). auto.
  - intros i s Hi. destruct (Hs i s Hi) as (? & ? & ?). auto.
  - intros i g Hi. destruct (Hg i g Hi). auto.
Qed.

(** Markers, stops and messages hang off rooms and users only. *)
Lemma wf_insert_marker t rid uid k :
  db_wf t -> is_Some (t_rooms t !! rid) -> is_Some (t_users t !! uid) ->
  db_wf (set_markers <[(rid, uid) := k]> t).
Proof.
  intros [Hr Hc Hm Ho Hk Hs Hp Hg] Hroom Huser. split; simpl; try done.
  intros i u x. rewrite lookup_insert. case_decide; simplify_eq; [done|]. apply Hk.
Qed.

Lemma wf_delete_marker t key : db_wf t -> db_wf (set_markers (delete key) t).
Proof.
  intros [Hr Hc Hm Ho Hk Hs Hp Hg]. split; simpl; try done.
  intros i u x Hx. apply lookup_delete_Some in Hx as [_ Hx]. by eapply Hk.
Qed.

Lemma wf_insert_message t gid g :
  db_wf t -> is_Some (t_rooms t !! g_room_id g) -> is_Some (t_users t !! g_user_id g) ->
  db_wf (set_messages <[gid := g]> t).
Proof.
  intros [Hr Hc Hm Ho Hk Hs Hp Hg] Hroom Huser. split; simpl; try done.
  intros i x. rewrite lookup_insert. case_decide; [by intros [= <-]|apply Hg].
Qed.

(** Removing stops. *)
Lemma wf_sub_stops t (f : gmap uuid StopRow -> gmap uuid StopRow) :
  db_wf t -> (forall i s, f (t_stops t) !! i = Some s -> t_stops t !! i = Some s) ->
  db_wf (set_stops f t).
Proof.
  intros [Hr Hc Hm Ho Hk Hs Hp Hg] Hsub. split; simpl; try done.
  - intros i s Hi. by apply (Hs i), Hsub.
  - intros i1 i2 s1 s2 H1 H2. apply (Hp i1 i2 s1 s2); by apply Hsub.
Qed.

(** Replacing a stop by one at the same place of the same room. *)
Lemma wf_update_stop t sid s s' :
  db_wf t -> t_stops t !! sid = Some s ->
  s_room_id s' = s_room_id s -> s_position s' = s_position s -> s_created_by s' = s_created_by s ->
  db_wf (set_stops <[sid := s']> t).
Proof.
  intros [Hr Hc Hm Ho Hk Hs Hp Hg] Hsid Hroom Hpos Hby. split; simpl; try done.
  - intros i x. rewrite lookup_insert. case_decide; [|by apply Hs].
    intros [= <-]. rewrite Hroom, Hpos, Hby. by apply (Hs sid).
  - intros i1 i2 s1 s2. rewrite !lookup_insert. repeat case_decide; subst; try done.
    + intros [= <-] H2. rewrite Hroom, Hpos. by apply Hp.
    + intros H1 [= <-]. rewrite Hroom, Hpos. intros. by eapply Hp.
    + apply Hp.
Qed.

(** ** Stop positions *)

Lemma stops_of_spec roomID t sid s :
  (sid, s) ∈ stops_of roomID t <-> t_stops t !! sid = Some s /\ s_room_id s = roomID.
Proof. unfold stops_of. rewrite list_elem_of_filter, elem_of_map_to_list. simpl. tauto. Qed.

Lemma foldr_max_le (l : list (uuid * StopRow)) z :
  (z <= foldr (fun q acc => Z.max (s_position q.2) acc) z l)%Z /\
  forall q, q ∈ l -> (s_position q.2 <= foldr (fun q acc => Z.max (s_position q.2) acc) z l)%Z.
Proof.
  induction l as [|p l [IHz IH]]; simpl; [split; [lia|set_solver]|]. split; [lia|].
  intros q [->|Hq]%elem_of_cons; [lia|]. specialize (IH q Hq). lia.
Qed.

(** The new position lies past every stop of the room. *)
Lemma next_position_gt roomID t sid s :
  t_stops t !! sid = Some s -> s_room_id s = roomID -> (s_position s < next_position roomID t)%Z.
Proof.
  intros Hs Hr. assert ((sid, s) ∈ stops_of roomID t) as Hin by by apply stops_of_spec.
  unfold next_position. destruct (stops_of roomID t) as [|p ps]; [set_solver|].
  pose proof (foldr_max_le ps (s_position p.2)) as [Hz Hps].
  apply elem_of_cons in Hin as [<-|Hin]; simpl in *; [lia|].
  specialize (Hps _ Hin). simpl in Hps. lia.
Qed.

Lemma next_position_nonneg roomID t : db_wf t -> (0 <= next_position roomID t)%Z.
Proof.
  intros Hwf. unfold next_position. destruct (stops_of roomID t) as [|p ps] eqn:E; [done|].
  pose proof (foldr_max_le ps (s_position p.2)) as [Hz _].
  assert (p ∈ stops_of roomID t) as Hp by (rewrite E; set_solver).
  destruct p as [sid s]. apply stops_of_spec in Hp as [Hp _].
  destruct (wf_stops _ Hwf _ _ Hp) as (_ & _ & Hpos). simpl in *. lia.
Qed.

Lemma wf_insert_stop t sid s u :
  db_wf t -> t_stops t !! sid = None -> is_Some (t_rooms t !! s_room_id s) ->
  s_created_by s = Some u -> is_Some (t_users t !! u) ->
  s_position s = next_position (s_room_id s) t -> (s_position s <= max_int32)%Z ->
  db_wf (set_stops <[sid := s]> t).
Proof.
  intros Hwf Hnew Hroom Hby Huser Hpos Hmax.
  pose proof (next_position_nonneg (s_room_id s) t Hwf) as Hnn.
  pose proof (fun i x => next_position_gt (s_room_id s) t i x) as Hgt.
  destruct Hwf as [Hr Hc Hm Ho Hk Hs Hp Hg]. split; simpl; try done.
  - intros i x. rewrite lookup_insert. case_decide; [|by apply Hs].
    intros [= <-]. split; [done|]. split; [by eauto|lia].
  - intros i1 i2 s1 s2. rewrite !lookup_insert. repeat case_decide; subst; try done.
    + intros [= <-] H2 E1 E2. specialize (Hgt _ _ H2). lia.
    + intros H1 [= <-] E1 E2. specialize (Hgt _ _ H1). lia.
    + apply Hp.
Qed.

(** ** The operations that read *)

Create HintDb store_ro.
#[export] Hint Resolve ret_read_only throw_read_only bind_read_only catch_read_only
  try_read_only on_error_read_only scan_row_read_only select_read_only rt_get_read_only
  rand_int_read_only : store_ro.

(** Closes [read_only] goals by following the composition of the operation. *)
Ltac read_only_tac :=
  repeat lazymatch goal with
  | |- read_only (ret _) => apply ret_read_only
  | |- read_only (throw _) => apply throw_read_only
  | |- read_only (bind _ _) => apply bind_read_only; [|intros]
  | |- read_only (catch _ _) => apply catch_read_only; [|intros]
  | |- read_only (try _) => apply try_read_only
  | |- read_only (on_error _ _) => apply on_error_read_only
  | |- read_only (scan_row _) => apply scan_row_read_only
  | |- read_only (exec _ (select _)) => apply select_read_only
  | |- read_only (stmt _ _ (select _)) => apply select_read_only
  | |- read_only (match ?x with _ => _ end) => destruct x
  | |- read_only _ => solve [auto with store_ro nocore]
  end.

Section reads.
Context {H : Type}.

Lemma check_read_only b e : read_only (H:=H) (check b e).
Proof. by destruct b. Qed.
Lemma affected_read_only n : read_only (H:=H) (affected n).
Proof. apply check_read_only. Qed.
Lemma scan_dest_read_only r : read_only (H:=H) (scan_dest r).
Proof. unfold scan_dest. read_only_tac. Qed.
Lemma scan_stop_read_only p : read_only (H:=H) (scan_stop p).
Proof. unfold scan_stop. read_only_tac. Qed.

Lemma GetByID_read_only id : read_only (H:=H) (GetByID id).
Proof. unfold GetByID, exec. read_only_tac. Qed.
Lemma GetActiveByCode_read_only c : read_only (H:=H) (GetActiveByCode c).
Proof. unfold GetActiveByCode, exec. read_only_tac. Qed.
Lemma GetMember_read_only r u : read_only (H:=H) (GetMember r u).
Proof. unfold GetMember, exec. read_only_tac. Qed.
Lemma ListMembers_read_only r : read_only (H:=H) (ListMembers r).
Proof. unfold ListMembers, exec. read_only_tac. Qed.
Lemma GetDestination_read_only r : read_only (H:=H) (GetDestination r).
Proof.
  unfold GetDestination, exec. read_only_tac. apply scan_dest_read_only.
Qed.
Lemma GetPersonalMarker_read_only r u : read_only (H:=H) (GetPersonalMarker r u).
Proof. unfold GetPersonalMarker, exec. read_only_tac. Qed.
Lemma ListStops_read_only r : read_only (H:=H) (ListStops r).
Proof. unfold ListStops, exec. read_only_tac. Qed.
Lemma ActiveMembership_read_only r u : read_only (H:=H) (ActiveMembership r u).
Proof. unfold ActiveMembership, exec. read_only_tac. Qed.
Lemma ListActiveRoomsForUser_read_only u : read_only (H:=H) (ListActiveRoomsForUser u).
Proof. unfold ListActiveRoomsForUser, exec. read_only_tac. Qed.
Lemma StoreListMessages_read_only r b n : read_only (H:=H) (StoreListMessages r b n).
Proof.
  intros w. split; [|apply stmt_rt]. unfold StoreListMessages, exec.
  match goal with |- context [stmt true [] ?f w] =>
    destruct (stmt_db true [] f w) as [->|(?&?&?&?& E &->)] end; [done|].
  case_match; [done|]. by injection E as _ <-.
Qed.
End reads.

#[export] Hint Resolve check_read_only affected_read_only scan_dest_read_only
  scan_stop_read_only GetByID_read_only GetActiveByCode_read_only GetMember_read_only
  ListMembers_read_only GetDestination_read_only GetPersonalMarker_read_only
  ListStops_read_only ActiveMembership_read_only ListActiveRoomsForUser_read_only
  StoreListMessages_read_only : store_ro.

(** ** The operations that write *)

(** A transaction keeps an invariant if its body does whenever it succeeds. *)
Lemma in_tx_preserves {H A} (P : Tables -> Prop) (body : M H A) :
  (forall w a w', P (w_db w) -> body w = (Ok a, w') -> P (w_db w')) -> preserves P (in_tx body).
Proof.
  intros Hbody w HP. unfold in_tx.
  pose proof (select_read_only (H:=H) true [] (fun _ => tt) w) as [Hdb _].
  destruct (stmt true [] (select (fun _ : Tables => tt)) w) as [[[]|e] w1]; simpl in *; [|by rewrite Hdb].
  destruct (body w1) as [[a|e] w2] eqn:E; simpl; [|by rewrite Hdb].
  assert (P (w_db w2)) by (eapply Hbody; [|exact E]; by rewrite Hdb).
  by destruct (si_fault _); simpl; rewrite ?Hdb.
Qed.

(** A transaction is all or nothing: on success the tables are its body's, on
    an error they are untouched unless only the answer of [Commit] was lost. *)
Lemma in_tx_atomic {H A} (body : M H A) (w : World H) :
  (exists e, (in_tx body w).1 = Fail e /\ w_db (in_tx body w).2 = w_db w) \/
  (exists w1 a w2, w_db w1 = w_db w /\ body w1 = (Ok a, w2) /\ w_db (in_tx body w).2 = w_db w2 /\
     ((in_tx body w).1 = Ok a \/ (in_tx body w).1 = Fail ErrConn)).
Proof.
  unfold in_tx. pose proof (select_read_only (H:=H) true [] (fun _ => tt) w) as [Hdb _].
  destruct (stmt true [] (select (fun _ : Tables => tt)) w) as [[[]|e] w1]; simpl in *; [|by left; eauto].
  destruct (body w1) as [[a|e] w2] eqn:E; [|by left; eauto].
  destruct (si_fault _); simpl; [right|left|right]; [|by eauto|];
    exists w1, a, w2; auto.
Qed.

Lemma in_tx_rt_silent {H A} (body : M H A) : rt_silent body -> rt_silent (in_tx body).
Proof.
  intros Hb w. unfold in_tx. pose proof (stmt_rt (H:=H) true [] (select (fun _ => tt)) w) as Hs.
  destruct (stmt true [] _ w) as [[[]|e] w1]; simpl in *; [|done].
  specialize (Hb w1). destruct (body w1) as [[a|e] w2]; simpl in *; [|congruence].
  destruct (si_fault _); simpl; congruence.
Qed.

Lemma bind_ok {H A B} (m : M H A) (k : A -> M H B) w b w' :
  bind m k w = (Ok b, w') -> exists a w1, m w = (Ok a, w1) /\ k a w1 = (Ok b, w').
Proof. unfold bind. destruct (m w) as [[a|e] w1]; [|done]. eauto. Qed.

Lemma ret_ok {H A} (a b : A) (w w' : World H) : ret a w = (Ok b, w') -> a = b /\ w = w'.
Proof. by intros [= -> ->]. Qed.

Lemma affected_ok {H} n (w w' : World H) : affected n w = (Ok tt, w') -> n <> 0 /\ w' = w.
Proof. unfold affected, check. destruct (Nat.eqb_spec n 0); by intros [=]. Qed.

Lemma check_ok {H} b e (w w' : World H) : check b e w = (Ok tt, w') -> b = false /\ w' = w.
Proof. unfold check. destruct b; by intros [=]. Qed.

(** Split a run that answered [Ok] into the runs of its steps. *)
Ltac split_ok H :=
  lazymatch type of H with
  | bind _ _ _ = (Ok _, _) =>
      let a := fresh "a" in let w := fresh "w" in let E := fresh "E" in
      apply bind_ok in H as (a & w & E & H); split_ok E; split_ok H
  | ret _ _ = (Ok _, _) => apply ret_ok in H as [? <-]; try simplify_eq
  | affected _ _ = (Ok ?u, _) =>
      destruct u; apply affected_ok in H as [? ->]
  | check _ _ _ = (Ok ?u, _) => destruct u; apply check_ok in H as [? ->]
  | _ => idtac
  end.

Section writes.
Context {H : Type}.

Lemma update_member_wf tick rid uid cond f :
  (forall now m, m_role (f now m) = m_role m) ->
  (forall now m, (m_kicked m = true -> is_Some (m_left_at m)) ->
     m_kicked (f now m) = true -> is_Some (m_left_at (f now m))) ->
  preserves (H:=H) db_wf (stmt tick [] (update_member rid uid cond f)).
Proof.
  intros Hrole Hkick. apply stmt_preserves. intros now id t n t' Hwf. unfold update_member.
  destruct (t_members t !! _) as [m|] eqn:Hm; [|by intros [= _ <-]].
  destruct (cond m); [|by intros [= _ <-]]. intros [= _ <-].
  apply (wf_update_member _ _ _ m); auto. apply Hkick. by apply (wf_members _ Hwf rid uid).
Qed.

Lemma update_room_wf params rid cond f :
  (forall now r, r_code (f now r) = r_code r /\ r_owner_id (f now r) = r_owner_id r /\
     (r_ended_at (f now r) = None -> r_ended_at r = None)) ->
  (forall users now r, cond r = true -> room_row_wf users r -> room_row_wf users (f now r)) ->
  preserves (H:=H) db_wf (exec params (update_room rid cond f)).
Proof.
  intros Hf Hrow. apply stmt_preserves. intros now id t o t' Hwf. unfold update_room.
  destruct (t_rooms t !! rid) as [r|] eqn:Hr; [|by intros [= _ <-]].
  destruct (cond r) eqn:Hc; [|by intros [= _ <-]]. intros [= _ <-].
  destruct (Hf now r) as (? & ? & ?). apply (wf_update_room _ _ r); auto.
  apply Hrow; [done|]. by eapply wf_rooms.
Qed.

Lemma MarkLeft_wf r u : preserves (H:=H) db_wf (MarkLeft r u).
Proof.
  apply bind_preserves; [|by intros ? w]. apply update_member_wf; [done|]. intros. by eexists.
Qed.

Lemma SetMuted_wf r u b : preserves (H:=H) db_wf (SetMuted r u b).
Proof.
  apply bind_preserves; [by apply update_member_wf|].
  intros; apply read_only_preserves; auto with store_ro.
Qed.

Lemma StoreKick_wf r u : preserves (H:=H) db_wf (StoreKick r u).
Proof.
  apply bind_preserves; [apply update_member_wf; [done|]; intros; by eexists|].
  intros; apply read_only_preserves; auto with store_ro.
Qed.

Lemma UpsertMember_wf r u : preserves (H:=H) db_wf (UpsertMember r u).
Proof.
  apply stmt_preserves. intros now id t [] t' Hwf. unfold upsert_member_sql.
  destruct (t_members t !! _) as [m|] eqn:Hm.
  - intros [= <-]. by apply (wf_update_member _ _ _ m).
  - unfold insert_member. rewrite Hm. simpl.
    destruct (has (t_rooms t) r) eqn:Hr; [|done]. destruct (has (t_users t) u) eqn:Hu; [|done].
    intros [= <-]. apply has_spec in Hr, Hu. by apply wf_insert_member.
Qed.

Lemma EndRoom_wf r : preserves (H:=H) db_wf (EndRoom r).
Proof.
  apply bind_preserves.
  - apply update_room_wf; [done|]. intros users now row _ []. by split.
  - intros; apply read_only_preserves; auto with store_ro.
Qed.

Lemma UpdateName_wf r n : preserves (H:=H) db_wf (UpdateName r n).
Proof.
  apply bind_preserves; [|by intros ? w].
  apply on_error_preserves, scan_row_preserves, update_room_wf; [done|].
  intros users now row _ []. by split.
Qed.

Lemma StoreClearDestination_wf r : preserves (H:=H) db_wf (StoreClearDestination r).
Proof.
  apply bind_preserves.
  - apply update_room_wf; [done|]. intros users now row _ []. by split.
  - intros; apply read_only_preserves; auto with store_ro.
Qed.

Lemma StoreUpdateDestinationMeta_wf r n d :
  preserves (H:=H) db_wf (StoreUpdateDestinationMeta r n d).
Proof.
  apply bind_preserves.
  - apply on_error_preserves, scan_row_preserves, update_room_wf; [done|].
    intros users now row _ []. by split.
  - intros; apply read_only_preserves; auto with store_ro.
Qed.

Lemma StoreSetDestination_wf r u lat lng n d :
  preserves (H:=H) db_wf (StoreSetDestination r u lat lng n d).
Proof.
  apply bind_preserves; [|intros; apply read_only_preserves; auto with store_ro].
  apply on_error_preserves, scan_row_preserves, stmt_preserves.
  intros now id t o t' Hwf. unfold set_dest_sql, update_room.
  destruct (t_rooms t !! r) as [row|] eqn:Hr; [|by intros [= _ <-]].
  destruct (room_active row); [|by intros [= _ <-]].
  destruct (has (t_users t) u) eqn:Hu; [|done]. intros [= _ <-]. apply has_spec in Hu.
  apply (wf_update_room _ _ row); try done.
  destruct (wf_rooms _ Hwf _ _ Hr). split; [done| |done]. by intros v [= <-].
Qed.

Lemma UpsertPersonalMarker_wf r u lat lng l :
  preserves (H:=H) db_wf (UpsertPersonalMarker r u lat lng l).
Proof.
  apply stmt_preserves. intros now id t a t' Hwf. unfold upsert_marker_sql.
  destruct (bool_decide _) eqn:Hk; simpl.
  - apply bool_decide_eq_true in Hk as [k Hk]. intros [= _ <-].
    destruct (wf_markers _ Hwf _ _ _ Hk). by apply wf_insert_marker.
  - destruct (has (t_rooms t) r) eqn:Hr; [|done]. destruct (has (t_users t) u) eqn:Hu; [|done].
    intros [= _ <-]. apply has_spec in Hr, Hu. by apply wf_insert_marker.
Qed.

Lemma DeletePersonalMarker_wf r u : preserves (H:=H) db_wf (DeletePersonalMarker r u).
Proof. apply stmt_preserves. intros now id t [] t' Hwf [= <-]. by apply wf_delete_marker. Qed.

Lemma StoreAddStop_wf r u lat lng l : preserves (H:=H) db_wf (StoreAddStop r u lat lng l).
Proof.
  apply bind_preserves; [|intros; apply read_only_preserves; auto with store_ro].
  apply stmt_preserves. intros now id t p t' Hwf. unfold add_stop_sql.
  destruct (Z.ltb_spec max_int32 (next_position r t)); [done|].
  destruct (has (t_stops t) id) eqn:Hid; [done|].
  destruct (has (t_rooms t) r) eqn:Hr; [|done]. destruct (has (t_users t) u) eqn:Hu; [|done].
  intros [= _ <-]. apply has_spec in Hr, Hu. apply has_false in Hid.
  by apply (wf_insert_stop _ _ _ u).
Qed.

Lemma StoreClearStops_wf r : preserves (H:=H) db_wf (StoreClearStops r).
Proof.
  apply stmt_preserves. intros now id t [] t' Hwf [= <-]. apply wf_sub_stops; [done|].
  intros i s Hs. by apply map_lookup_filter_Some in Hs as [Hs _].
Qed.

Lemma StoreRemoveStop_wf r s : preserves (H:=H) db_wf (StoreRemoveStop r s).
Proof.
  apply bind_preserves; [|intros; apply read_only_preserves; auto with store_ro].
  apply stmt_preserves. intros now id t n t' Hwf. unfold remove_stop_sql.
  repeat case_match; intros [= _ <-]; try done. apply wf_sub_stops; [done|].
  intros i x Hx. by apply lookup_delete_Some in Hx as [_ Hx].
Qed.

Lemma StoreUpdateStopLabel_wf r s l : preserves (H:=H) db_wf (StoreUpdateStopLabel r s l).
Proof.
  apply bind_preserves; [|intros; apply read_only_preserves; auto with store_ro].
  apply on_error_preserves, scan_row_preserves, stmt_preserves.
  intros now id t n t' Hwf. unfold update_label_sql.
  repeat case_match; intros [= _ <-]; try done. by eapply wf_update_stop.
Qed.

Lemma CreateMessage_wf r u b : preserves (H:=H) db_wf (CreateMessage r u b).
Proof.
  apply scan_row_preserves, stmt_preserves. intros now id t a t' Hwf. unfold create_message_sql.
  destruct (has (t_messages t) id); [done|].
  destruct (has (t_rooms t) r) eqn:Hr; [|done]. destruct (has (t_users t) u) eqn:Hu; [|done].
  intros [= _ <-]. apply has_spec in Hr, Hu. by apply wf_insert_message.
Qed.

Lemma CreateRoom_wf o c n : preserves (H:=H) db_wf (CreateRoom o c n).
Proof.
  apply in_tx_preserves. intros w a w' Hwf Hrun. split_ok Hrun.
  apply stmt_ok in E as (now & id & E & _). apply stmt_ok in E0 as (now' & id' & E0 & _).
  revert E. unfold insert_room.
  destruct (has (t_rooms (w_db w)) id) eqn:Hid; [done|].
  destruct (code_taken _ _) eqn:Hc; [done|]. simpl.
  destruct (has (t_users (w_db w)) o) eqn:Hu; [|done]. intros [= <- Hw0].
  revert E0. unfold insert_member. rewrite <-Hw0. simpl.
  destruct (bool_decide _) eqn:Hm; [done|]. rewrite Hu.
  rewrite (proj2 (has_spec _ _)) by (rewrite lookup_insert_eq; eauto). simpl. intros [= _ <-].
  apply has_false in Hid. apply has_spec in Hu.
  apply bool_decide_eq_false, eq_None_not_Some in Hm.
  by apply wf_create_room.
Qed.

(** What a transfer that committed has done. *)
Lemma transfer_ok rid old new (w w' : World H) mo :
  old <> new -> t_members (w_db w) !! (rid, old) = Some mo ->
  bind (tx_exec [] (select (fun t =>
          match t_members t !! (rid, new) with Some m => member_active m | None => false end)))
    (fun exists_ => bind (check (negb exists_) RoomsErrNotFound) (fun _ =>
       bind (tx_exec [] (set_owner_sql rid new)) (fun o =>
         bind (affected (match o with Some _ => 1 | None => 0 end)) (fun _ =>
           bind (tx_exec [] (update_member rid new (fun _ => true) (set_role RoleOwner))) (fun _ =>
             bind (tx_exec [] (update_member rid old (fun _ => true) (set_role RoleMember)))
               (fun _ => ret tt)))))) w = (Ok tt, w') ->
  exists r mn, t_rooms (w_db w) !! rid = Some r /\ r_ended_at r = None /\
    t_members (w_db w) !! (rid, new) = Some mn /\ member_active mn = true /\
    w_db w' = set_members (fun ms => <[(rid, old) := set_role RoleMember 0 mo]>
                                     (<[(rid, new) := set_role RoleOwner 0 mn]> ms))
                (set_rooms <[rid := set_owner new 0 r]> (w_db w)).
Proof.
  intros Hne Hmo Hrun. split_ok Hrun.
  apply stmt_ok in E as (? & ? & [= Ha Hw0] & _). rewrite Hw0 in *. clear Hw0 w.
  destruct (t_members (w_db w0) !! (rid, new)) as [mn|] eqn:Hmn; subst a; [|done].
  apply negb_false_iff in H0.
  apply stmt_ok in E0 as (? & ? & E0 & _). revert E0. unfold set_owner_sql, update_room.
  destruct (t_rooms (w_db w0) !! rid) as [r|] eqn:Hr; [|by intros [= <- _]].
  destruct (room_active r) eqn:Hact; [|by intros [= <- _]].
  destruct (has (t_users (w_db w0)) new); [|done]. intros [= _ Hw1].
  apply stmt_ok in E1 as (? & ? & E1 & _). revert E1. unfold update_member.
  rewrite <-Hw1. simpl. rewrite Hmn. intros [= _ Hw2].
  apply stmt_ok in E2 as (? & ? & E2 & _). revert E2. unfold update_member.
  rewrite <-Hw2. simpl. rewrite lookup_insert_ne, Hmo by congruence. intros [= _ Hw3].
  apply bool_decide_eq_true in Hact. exists r, mn. by rewrite <-Hw3.
Qed.

(** A transfer by the current owner keeps the invariant. *)
Lemma StoreTransferOwnership_wf rid old new (w : World H) :
  old <> new -> db_wf (w_db w) -> is_Some (t_members (w_db w) !! (rid, old)) ->
  (forall r, t_rooms (w_db w) !! rid = Some r -> r_owner_id r = old) ->
  db_wf (w_db (StoreTransferOwnership rid old new w).2).
Proof.
  intros Hne Hwf [mo Hmo] Howner. unfold StoreTransferOwnership.
  match goal with |- context [in_tx ?b w] =>
    destruct (in_tx_atomic b w) as [(e & _ & ->)|(w1 & [] & w2 & Hw1 & Hb & -> & _)] end; [done|].
  rewrite <-Hw1 in *. apply (transfer_ok rid old new _ _ mo) in Hb; [|done..].
  destruct Hb as (r & mn & Hr & _ & Hmn & _ & ->). apply wf_transfer; auto.
Qed.
End writes.

Create HintDb store_wf.
#[export] Hint Resolve MarkLeft_wf SetMuted_wf StoreKick_wf UpsertMember_wf EndRoom_wf UpdateName_wf
  StoreClearDestination_wf StoreUpdateDestinationMeta_wf StoreSetDestination_wf
  UpsertPersonalMarker_wf DeletePersonalMarker_wf StoreAddStop_wf StoreClearStops_wf
  StoreRemoveStop_wf StoreUpdateStopLabel_wf CreateMessage_wf CreateRoom_wf : store_wf.

(** Closes [preserves db_wf] goals by following the composition of the
    operation. *)
Ltac wf_tac :=
  repeat lazymatch goal with
  | |- preserves _ (bind _ _) => apply bind_preserves; [|intros]
  | |- preserves _ (try _) => apply try_preserves
  | |- preserves _ (match ?x with _ => _ end) => destruct x
  | |- preserves _ _ =>
      solve [ auto with store_wf nocore
            | apply read_only_preserves; auto with store_ro nocore ]
  end.
