(* ===== verification/Broadcaster.v ===== *)
(** * [rooms.Broadcaster]: the interface between the service and the realtime hub

    The operations of the Go interface as a record, over an abstract state [H]
    of the realtime side, and as a class what the service relies on.  [Hub.v]
    gives the implementation and its instance; [trace_broadcaster] is the
    implementation that records the calls, against which the service's
    announcements are stated. *)
From stdpp Require Import base gmap sets list strings.
From S2P Require Import Prelude.
From S2P Require Import Types.

Record Broadcaster (H : Type) := mkBroadcaster {
  BroadcastMemberJoined : uuid -> Member -> H -> H;
  BroadcastMemberLeft : uuid -> uuid -> H -> H;
  BroadcastMute : uuid -> uuid -> bool -> uuid -> H -> H;
  KickConnection : uuid -> uuid -> uuid -> H -> H;
  BroadcastRoomEnded : uuid -> H -> H;
  BroadcastDestination : uuid -> option Destination -> H -> H;
  BroadcastStops : uuid -> list Stop -> H -> H;
  BroadcastOwnerChanged : uuid -> uuid -> uuid -> H -> H;
  BroadcastRoomRenamed : uuid -> option string -> H -> H;
  BroadcastChatMessage : uuid -> ChatMessage -> H -> H;
  DisconnectUser : uuid -> uuid -> H -> H;
  PresentUserIDs : uuid -> H -> list uuid;
  PresentCount : uuid -> H -> nat;
  EmergencyUserIDs : uuid -> H -> list uuid;
}.
Arguments BroadcastMemberJoined {H} _.
Arguments BroadcastMemberLeft {H} _.
Arguments BroadcastMute {H} _.
Arguments KickConnection {H} _.
Arguments BroadcastRoomEnded {H} _.
Arguments BroadcastDestination {H} _.
Arguments BroadcastStops {H} _.
Arguments BroadcastOwnerChanged {H} _.
Arguments BroadcastRoomRenamed {H} _.
Arguments BroadcastChatMessage {H} _.
Arguments DisconnectUser {H} _.
Arguments PresentUserIDs {H} _.
Arguments PresentCount {H} _.
Arguments EmergencyUserIDs {H} _.

(** What a client may assume: the count is that of the listed users, and no
    user is listed twice. *)
Class BroadcasterLaws {H} (b : Broadcaster H) : Prop := {
  present_count_ids : forall r h, PresentCount b r h = length (PresentUserIDs b r h);
  present_nodup : forall r h, NoDup (PresentUserIDs b r h);
  emergency_nodup : forall r h, NoDup (EmergencyUserIDs b r h);
}.

(** ** The recording implementation *)

Inductive rt_call :=
| CallMemberJoined (room : uuid) (m : Member)
| CallMemberLeft (room user : uuid)
| CallMute (room user : uuid) (muted : bool) (by_ : uuid)
| CallKick (room user by_ : uuid)
| CallRoomEnded (room : uuid)
| CallDestination (room : uuid) (d : option Destination)
| CallStops (room : uuid) (stops : list Stop)
| CallOwnerChanged (room new old : uuid)
| CallRoomRenamed (room : uuid) (name : option string)
| CallChat (room : uuid) (m : ChatMessage)
| CallDisconnect (room user : uuid).

Definition trace_broadcaster : Broadcaster (list rt_call) := {|
  BroadcastMemberJoined r m h := h ++ [CallMemberJoined r m];
  BroadcastMemberLeft r u h := h ++ [CallMemberLeft r u];
  BroadcastMute r u m b h := h ++ [CallMute r u m b];
  KickConnection r u b h := h ++ [CallKick r u b];
  BroadcastRoomEnded r h := h ++ [CallRoomEnded r];
  BroadcastDestination r d h := h ++ [CallDestination r d];
  BroadcastStops r s h := h ++ [CallStops r s];
  BroadcastOwnerChanged r n o h := h ++ [CallOwnerChanged r n o];
  BroadcastRoomRenamed r n h := h ++ [CallRoomRenamed r n];
  BroadcastChatMessage r m h := h ++ [CallChat r m];
  DisconnectUser r u h := h ++ [CallDisconnect r u];
  PresentUserIDs _ _ := [];
  PresentCount _ _ := 0;
  EmergencyUserIDs _ _ := [];
|}.

#[export] Instance trace_broadcaster_laws : BroadcasterLaws trace_broadcaster.
Proof. split; intros; [done|apply NoDup_nil_2|apply NoDup_nil_2]. Qed.
