(* ===== verification/Service.v ===== *)
(** * [internal/rooms/service.go]: the rooms service

    One definition per method of [rooms.Service], over the store and over an
    optional [rooms.Broadcaster] ([s.rt], which may be nil). *)
From stdpp Require Import base gmap sets list strings.
From Stdlib Require Import ZArith Lia Ascii.
From Stdlib Require String.
From S2P Require Import Prelude.
From S2P Require Import GoString.
From S2P Require Import Httpx.
From S2P Require Import Types.
From S2P Require Import Db.
From S2P Require Import Store.
From S2P Require Import Broadcaster.

Open Scope convoy_scope.

Definition codeAlphabet : string := "0123456789".
Definition maxCodeAttempts : nat := 8.
Definition minRoomNameLen : nat := 1.
Definition maxRoomNameLen : nat := 40.
Definition maxMarkerLabelLen : nat := 120.
Definition maxDestNotesLen : nat := 500.
Definition maxMessageLen : nat := 2000.
Definition defaultMessagePage : Z := 50.
Definition maxMessagePage : Z := 100.

(** The common body of [trimLabel] and [trimNotes]: trim, drop a blank text,
    cut after [cap] runes. *)
Definition trim_text (cap : nat) (text : option string) : option string :=
  match text with
  | None => None
  | Some s =>
      let v := TrimSpace s in
      if bool_decide (v = "") then None
      else if cap <? RuneCountInString v then Some (rune_prefix cap v) else Some v
  end.

Definition trimLabel (label : option string) : option string := trim_text maxMarkerLabelLen label.
Definition trimNotes (notes : option string) : option string := trim_text maxDestNotesLen notes.

(** [lat < -90 || lat > 90 || lng < -180 || lng > 180]. *)
Definition bad_coords (lat lng : float64) : bool :=
  float_lt lat fneg90 || float_gt lat f90 || float_lt lng fneg180 || float_gt lng f180.

Definition ErrInvalidCoords : APIError := Err 400 "invalid_coords" "invalid coordinates".
Definition ErrRoomNotFound : APIError := Err 404 "room_not_found" "no active room for that code".
Definition ErrInvalidName : APIError :=
  Err 400 "invalid_name" "room name must be 1–40 characters".
Definition ErrAlreadyOwner : APIError := Err 400 "self_action" "you are already the owner".
Definition ErrModerateSelf : APIError := Err 400 "self_action" "cannot moderate yourself".
Definition ErrKickSelf : APIError := Err 400 "self_action" "cannot kick yourself".
Definition ErrEmptyMessage : APIError := Err 400 "empty_message" "message cannot be empty".
Definition ErrMessageTooLong : APIError := Err 400 "message_too_long" "message is too long".

Section service.
Context {H : Type}.
Variable rt : option (Broadcaster H).
Variable unicode_upper : rune -> rune.

(** [if s.rt != nil { s.rt.F(...) }]. *)
Definition notify (f : Broadcaster H -> H -> H) : M H unit :=
  match rt with Some b => rt_do (f b) | None => ret tt end.

(** ** Room codes *)

Fixpoint gen_bytes (n : nat) : M H bytes :=
  match n with
  | 0 => ret []
  | S n' =>
      i <- rand_int (N.of_nat (go_len codeAlphabet)) ;;
      match to_bytes codeAlphabet !! N.to_nat i with
      | Some c => rest <- gen_bytes n' ;; ret (c :: rest)
      | None => throw (ErrText "index out of range")
      end
  end.

Definition generateCode : M H string := b <- gen_bytes 6 ;; ret (of_bytes b).

Fixpoint create_loop (attempts : nat) (ownerID : uuid) (name : option string) : M H Room :=
  match attempts with
  | 0 => throw (ErrText "failed to allocate room code")
  | S n =>
      code <- generateCode ;;
      r <- try (CreateRoom ownerID code name) ;;
      match r with
      | Ok room => ret room
      | Fail (ErrPg c) =>
          if bool_decide (c = unique_violation) then create_loop n ownerID name
          else throw (ErrPg c)
      | Fail e => throw e
      end
  end.

Definition Create (ownerID : uuid) (name : option string) : M H Room :=
  create_loop maxCodeAttempts ownerID name.

Definition Join (userID : uuid) (code : string) : M H Room :=
  let code := ToUpper unicode_upper (TrimSpace code) in
  room <- on_error (fun e => match e with RoomsErrNotFound => ErrAPI ErrRoomNotFound | _ => e end)
            (GetActiveByCode code) ;;
  UpsertMember (Room_ID room) userID ;;;
  match rt with
  | None => ret tt
  | Some b =>
      m <- try (GetMember (Room_ID room) userID) ;;
      match m with
      | Ok member => rt_do (BroadcastMemberJoined b (Room_ID room) member)
      | Fail _ => ret tt
      end
  end ;;;
  ret room.

Definition Detail (roomID viewerID : uuid) : M H RoomDetail :=
  r <- GetByID roomID ;;
  members <- ListMembers roomID ;;
  dest <- GetDestination roomID ;;
  pm <- GetPersonalMarker roomID viewerID ;;
  stops <- ListStops roomID ;;
  match rt with
  | Some b =>
      present <- rt_get (PresentUserIDs b roomID) ;;
      emergencies <- rt_get (EmergencyUserIDs b roomID) ;;
      ret (mkRoomDetail r members dest pm stops present emergencies)
  | None => ret (mkRoomDetail r members dest pm stops [] [])
  end.

Definition with_count (n : nat) (a : ActiveRoom) : ActiveRoom :=
  mkActiveRoom (AR_ID a) (AR_Code a) (AR_Name a) (AR_Role a) n (AR_JoinedAt a).

Definition ListActiveForUser (userID : uuid) : M H (list ActiveRoom) :=
  rooms <- ListActiveRoomsForUser userID ;;
  match rt with
  | Some b => rt_get (fun h => (fun a => with_count (PresentCount b (AR_ID a) h) a) <$> rooms)
  | None => ret (with_count 0 <$> rooms)
  end.

(** ** Authorisation *)

Definition not_found_forbidden (e : error) : error :=
  match e with RoomsErrNotFound => ErrAPI ErrForbidden | _ => e end.

Definition requireOwner (roomID actorID : uuid) : M H unit :=
  rm <- on_error not_found_forbidden (ActiveMembership roomID actorID) ;;
  check (negb (bool_decide (rm.1 = RoleOwner))) (ErrAPI ErrForbidden).

Definition AssertMember (roomID userID : uuid) : M H string :=
  rm <- on_error not_found_forbidden (ActiveMembership roomID userID) ;;
  ret rm.1.

(** ** The destination *)

Definition SetDestination (roomID actorID : uuid) (lat lng : float64)
    (name notes : option string) : M H Destination :=
  requireOwner roomID actorID ;;;
  check (bad_coords lat lng) (ErrAPI ErrInvalidCoords) ;;;
  d <- StoreSetDestination roomID actorID lat lng (trimLabel name) (trimNotes notes) ;;
  notify (fun b => BroadcastDestination b roomID (Some d)) ;;;
  ret d.

Definition UpdateDestinationMeta (roomID actorID : uuid) (name notes : option string) :
    M H Destination :=
  requireOwner roomID actorID ;;;
  d <- StoreUpdateDestinationMeta roomID (trimLabel name) (trimNotes notes) ;;
  notify (fun b => BroadcastDestination b roomID (Some d)) ;;;
  ret d.

Definition ClearDestination (roomID actorID : uuid) : M H unit :=
  requireOwner roomID actorID ;;;
  StoreClearDestination roomID ;;;
  StoreClearStops roomID ;;;
  notify (fun b => BroadcastDestination b roomID None) ;;;
  notify (fun b => BroadcastStops b roomID []).

(** ** Personal markers *)

Definition SetPersonalMarker (roomID userID : uuid) (lat lng : float64)
    (label : option string) : M H PersonalMarker :=
  AssertMember roomID userID ;;;
  check (bad_coords lat lng) (ErrAPI ErrInvalidCoords) ;;;
  UpsertPersonalMarker roomID userID lat lng (trimLabel label).

Definition ClearPersonalMarker (roomID userID : uuid) : M H unit :=
  AssertMember roomID userID ;;;
  DeletePersonalMarker roomID userID.

(** ** Stops *)

Definition broadcastStops (roomID : uuid) : M H unit :=
  match rt with
  | None => ret tt
  | Some b =>
      stops <- try (ListStops roomID) ;;
      match stops with
      | Ok l => rt_do (BroadcastStops b roomID l)
      | Fail _ => ret tt
      end
  end.

Definition AddStop (roomID actorID : uuid) (lat lng : float64) (label : option string) :
    M H Stop :=
  requireOwner roomID actorID ;;;
  check (bad_coords lat lng) (ErrAPI ErrInvalidCoords) ;;;
  stop <- StoreAddStop roomID actorID lat lng (trimLabel label) ;;
  broadcastStops roomID ;;;
  ret stop.

Definition UpdateStopLabel (roomID actorID stopID : uuid) (label : option string) : M H Stop :=
  requireOwner roomID actorID ;;;
  stop <- StoreUpdateStopLabel roomID stopID (trimLabel label) ;;
  broadcastStops roomID ;;;
  ret stop.

Definition RemoveStop (roomID actorID stopID : uuid) : M H unit :=
  requireOwner roomID actorID ;;;
  StoreRemoveStop roomID stopID ;;;
  broadcastStops roomID.

Definition ClearStops (roomID actorID : uuid) : M H unit :=
  requireOwner roomID actorID ;;;
  StoreClearStops roomID ;;;
  broadcastStops roomID.

(** ** The room *)

Definition Rename (roomID actorID : uuid) (name : string) : M H Room :=
  requireOwner roomID actorID ;;;
  let name := TrimSpace name in
  let n := RuneCountInString name in
  check ((n <? minRoomNameLen) || (maxRoomNameLen <? n)) (ErrAPI ErrInvalidName) ;;;
  room <- UpdateName roomID (Some name) ;;
  notify (fun b => BroadcastRoomRenamed b roomID (Room_Name room)) ;;;
  ret room.

Definition TransferOwnership (roomID actorID targetID : uuid) : M H unit :=
  requireOwner roomID actorID ;;;
  check (bool_decide (actorID = targetID)) (ErrAPI ErrAlreadyOwner) ;;;
  AssertMember roomID targetID ;;;
  dest <- try (GetDestination roomID) ;;
  match dest with
  | Ok (Some d) =>
      try (UpsertPersonalMarker roomID actorID (Dest_Lat d) (Dest_Lng d) (Dest_Name d)) ;;; ret tt
  | _ => ret tt
  end ;;;
  StoreTransferOwnership roomID actorID targetID ;;;
  notify (fun b => BroadcastOwnerChanged b roomID targetID actorID).

Definition Leave (roomID userID : uuid) : M H unit :=
  MarkLeft roomID userID ;;;
  notify (fun b => BroadcastMemberLeft b roomID userID) ;;;
  notify (fun b => DisconnectUser b roomID userID).

Definition Mute (roomID actorID targetID : uuid) (muted : bool) : M H unit :=
  requireOwner roomID actorID ;;;
  check (bool_decide (actorID = targetID)) (ErrAPI ErrModerateSelf) ;;;
  SetMuted roomID targetID muted ;;;
  notify (fun b => BroadcastMute b roomID targetID muted actorID).

Definition Kick (roomID actorID targetID : uuid) : M H unit :=
  requireOwner roomID actorID ;;;
  check (bool_decide (actorID = targetID)) (ErrAPI ErrKickSelf) ;;;
  StoreKick roomID targetID ;;;
  notify (fun b => KickConnection b roomID targetID actorID).

Definition End_ (roomID actorID : uuid) : M H unit :=
  requireOwner roomID actorID ;;;
  EndRoom roomID ;;;
  notify (fun b => BroadcastRoomEnded b roomID).

(** ** Chat *)

Definition PostMessage (roomID userID : uuid) (body : string) : M H ChatMessage :=
  AssertMember roomID userID ;;;
  let body := TrimSpace body in
  check (bool_decide (body = "")) (ErrAPI ErrEmptyMessage) ;;;
  check (maxMessageLen <? RuneCountInString body) (ErrAPI ErrMessageTooLong) ;;;
  msg <- CreateMessage roomID userID body ;;
  notify (fun b => BroadcastChatMessage b roomID msg) ;;;
  ret msg.

Definition page_limit (limit : Z) : Z :=
  if (limit <=? 0)%Z || (maxMessagePage <? limit)%Z then defaultMessagePage else limit.

Definition ListMessages (roomID userID : uuid) (beforeID : option uuid) (limit : Z) :
    M H (list ChatMessage) :=
  AssertMember roomID userID ;;;
  StoreListMessages roomID beforeID (page_limit limit).
End service.
