(* ===== verification/ServiceFacts.v ===== *)
(** * The service: authorisation, invariants, announcements

    The theorems about [rooms.Service], for every environment and every
    realtime side unless a trace of calls is asked for. *)
From stdpp Require Import base gmap sets list strings sorting.
From Stdlib Require Import ZArith Lia.
From S2P Require Import Prelude.
From S2P Require Import GoString.
From S2P Require Import Httpx.
From S2P Require Import Types.
From S2P Require Import Db.
From S2P Require Import Store.
From S2P Require Import StoreFacts.
From S2P Require Import Broadcaster.
From S2P Require Import Service.

Open Scope convoy_scope.

(** ** Authorisation *)

(** The actor holds an active membership with the owner's role. *)
Definition is_owner (t : Tables) (roomID actorID : uuid) : bool :=
  match t_members t !! (roomID, actorID) with
  | Some m => member_active m && bool_decide (m_role m = RoleOwner)
  | None => false
  end.

(** The user holds an active membership. *)
Definition is_member (t : Tables) (roomID userID : uuid) : bool :=
  match t_members t !! (roomID, userID) with
  | Some m => member_active m
  | None => false
  end.

(** An owner's room and user exist. *)
Lemma owner_rows t r a :
  db_wf t -> is_owner t r a = true -> has (t_rooms t) r = true /\ has (t_users t) a = true.
Proof.
  intros Hwf Ho. rewrite !has_spec. unfold is_owner in Ho.
  destruct (t_members t !! (r, a)) eqn:Hm; [|done].
  destruct (wf_members _ Hwf _ _ _ Hm) as [Hu _ (row & Hr & _)]. split; [by eexists|done].
Qed.

(** The next statement goes through. *)
Definition next_ok {H} (w : World H) : Prop := si_fault (env_stmt (w_env w) (w_pos w)) = NoFault.

#[export] Instance next_ok_dec {H} (w : World H) : Decision (next_ok w).
Proof. unfold next_ok. apply _. Defined.

Section auth.
Context {H : Type}.
Implicit Types w : World H.

(** What a [SELECT] on its own answers. *)
Lemma exec_select_run {A} (f : Tables -> A) w :
  exec [] (select f) w =
    (if decide (next_ok w) then Ok (f (w_db w)) else Fail ErrConn, advance true w).
Proof.
  destruct (decide (next_ok w)) as [Hok|Hno]; unfold next_ok in *;
    unfold exec, stmt; [by rewrite Hok|].
  by destruct (si_fault _).
Qed.

Lemma ActiveMembership_run roomID userID w :
  ActiveMembership roomID userID w =
    (if decide (next_ok w) then
       match t_members (w_db w) !! (roomID, userID) with
       | Some m => if member_active m then Ok (m_role m, m_muted m) else Fail RoomsErrNotFound
       | None => Fail RoomsErrNotFound
       end
     else Fail ErrConn, advance true w).
Proof.
  unfold ActiveMembership, on_error, catch, scan_row, bind. rewrite exec_select_run.
  destruct (decide (next_ok w)); [|done].
  destruct (t_members (w_db w) !! _) as [m|]; simpl; [|done].
  by destruct (member_active m).
Qed.

(** [requireOwner] lets the room's active owner through, answers 403 to
    anyone else, and reads only. *)
Lemma requireOwner_run roomID actorID w :
  requireOwner roomID actorID w =
    (if decide (next_ok w) then
       if is_owner (w_db w) roomID actorID then Ok tt else Fail (ErrAPI ErrForbidden)
     else Fail ErrConn, advance true w).
Proof.
  unfold requireOwner, on_error, bind, catch. rewrite ActiveMembership_run.
  destruct (decide (next_ok w)); [|done]. unfold is_owner.
  destruct (t_members (w_db w) !! _) as [m|]; [|done].
  destruct (member_active m); [|done]. simpl.
  by destruct (bool_decide (m_role m = RoleOwner)).
Qed.

Lemma AssertMember_run roomID userID w :
  exists role, AssertMember roomID userID w =
    (if decide (next_ok w) then
       if is_member (w_db w) roomID userID then Ok role else Fail (ErrAPI ErrForbidden)
     else Fail ErrConn, advance true w).
Proof.
  unfold AssertMember, on_error, bind, catch. rewrite ActiveMembership_run.
  destruct (decide (next_ok w)); [|by exists ""]. unfold is_member.
  destruct (t_members (w_db w) !! _) as [m|]; [|by exists ""].
  destruct (member_active m); [|by exists ""]. by exists (m_role m).
Qed.

(** Whatever follows a refused owner check does not run. *)
Lemma requireOwner_refused {A} roomID actorID (k : unit -> M H A) w :
  is_owner (w_db w) roomID actorID = false ->
  bind (requireOwner roomID actorID) k w =
    (Fail (if decide (next_ok w) then ErrAPI ErrForbidden else ErrConn), advance true w).
Proof.
  intros Hno. unfold bind. rewrite requireOwner_run, Hno. by destruct (decide (next_ok w)).
Qed.

Lemma AssertMember_refused {A} roomID userID (k : string -> M H A) w :
  is_member (w_db w) roomID userID = false ->
  bind (AssertMember roomID userID) k w =
    (Fail (if decide (next_ok w) then ErrAPI ErrForbidden else ErrConn), advance true w).
Proof.
  intros Hno. unfold bind. destruct (AssertMember_run roomID userID w) as [role ->].
  rewrite Hno. by destruct (decide (next_ok w)).
Qed.

Lemma requireOwner_ok roomID actorID w u w' :
  requireOwner roomID actorID w = (Ok u, w') ->
  is_owner (w_db w) roomID actorID = true /\ w_db w' = w_db w /\ w_rt w' = w_rt w /\ next_ok w.
Proof.
  rewrite requireOwner_run. destruct (decide _); [|done]. destruct (is_owner _ _ _); [|done].
  by intros [= _ <-].
Qed.

Lemma AssertMember_ok roomID userID w role w' :
  AssertMember roomID userID w = (Ok role, w') ->
  is_member (w_db w) roomID userID = true /\ w_db w' = w_db w /\ w_rt w' = w_rt w /\ next_ok w.
Proof.
  destruct (AssertMember_run roomID userID w) as [r ->].
  destruct (decide _); [|done]. destruct (is_member _ _ _); [|done]. by intros [= _ <-].
Qed.

Lemma requireOwner_read_only roomID actorID : read_only (H:=H) (requireOwner roomID actorID).
Proof. intros w. rewrite requireOwner_run. done. Qed.
Lemma AssertMember_read_only roomID userID : read_only (H:=H) (AssertMember roomID userID).
Proof. intros w. by destruct (AssertMember_run roomID userID w) as [r ->]. Qed.
End auth.

#[export] Hint Resolve requireOwner_read_only AssertMember_read_only : store_ro.

(** The operations reserved to the owner, and to members. *)
Inductive owner_op :=
| OpSetDestination (lat lng : float64) (name notes : option string)
| OpUpdateDestinationMeta (name notes : option string)
| OpClearDestination
| OpAddStop (lat lng : float64) (label : option string)
| OpUpdateStopLabel (stopID : uuid) (label : option string)
| OpRemoveStop (stopID : uuid)
| OpClearStops
| OpRename (name : string)
| OpTransferOwnership (targetID : uuid)
| OpMute (targetID : uuid) (muted : bool)
| OpKick (targetID : uuid)
| OpEnd.

Inductive member_op :=
| OpSetPersonalMarker (lat lng : float64) (label : option string)
| OpClearPersonalMarker
| OpPostMessage (body : string)
| OpListMessages (before : option uuid) (limit : Z).

Section ops.
Context {H : Type}.
Variable rt : option (Broadcaster H).
Variable unicode_upper : rune -> rune.

Definition discard {A} (m : M H A) : M H unit := m ;;; ret tt.

Definition run_owner_op (op : owner_op) (room actor : uuid) : M H unit :=
  match op with
  | OpSetDestination lat lng n d => discard (SetDestination rt room actor lat lng n d)
  | OpUpdateDestinationMeta n d => discard (UpdateDestinationMeta rt room actor n d)
  | OpClearDestination => ClearDestination rt room actor
  | OpAddStop lat lng l => discard (AddStop rt room actor lat lng l)
  | OpUpdateStopLabel s l => discard (UpdateStopLabel rt room actor s l)
  | OpRemoveStop s => RemoveStop rt room actor s
  | OpClearStops => ClearStops rt room actor
  | OpRename n => discard (Rename rt room actor n)
  | OpTransferOwnership u => TransferOwnership rt room actor u
  | OpMute u b => Mute rt room actor u b
  | OpKick u => Kick rt room actor u
  | OpEnd => End_ rt room actor
  end.

Definition run_member_op (op : member_op) (room user : uuid) : M H unit :=
  match op with
  | OpSetPersonalMarker lat lng l => discard (SetPersonalMarker room user lat lng l)
  | OpClearPersonalMarker => ClearPersonalMarker room user
  | OpPostMessage b => discard (PostMessage rt room user b)
  | OpListMessages b n => discard (ListMessages room user b n)
  end.

Lemma discard_fail {A} (m : M H A) w e w' : m w = (Fail e, w') -> discard m w = (Fail e, w').
Proof. unfold discard, bind. by intros ->. Qed.

Lemma owner_op_refused op room actor w :
  is_owner (w_db w) room actor = false ->
  run_owner_op op room actor w =
    (Fail (if decide (next_ok w) then ErrAPI ErrForbidden else ErrConn), advance true w).
Proof.
  intros Hno. destruct op; simpl; try apply discard_fail; by apply requireOwner_refused.
Qed.

Lemma member_op_refused op room user w :
  is_member (w_db w) room user = false ->
  run_member_op op room user w =
    (Fail (if decide (next_ok w) then ErrAPI ErrForbidden else ErrConn), advance true w).
Proof.
  intros Hno. destruct op; simpl; try apply discard_fail; by apply AssertMember_refused.
Qed.

(** Every operation of the service. *)
Inductive service_op :=
| SvcCreate (owner : uuid) (name : option string)
| SvcJoin (user : uuid) (code : string)
| SvcLeave (room user : uuid)
| SvcDetail (room viewer : uuid)
| SvcListActive (user : uuid)
| SvcOwner (op : owner_op) (room actor : uuid)
| SvcMember (op : member_op) (room user : uuid).

Definition run_service_op (op : service_op) : M H unit :=
  match op with
  | SvcCreate o n => discard (Create o n)
  | SvcJoin u c => discard (Join rt unicode_upper u c)
  | SvcLeave r u => Leave rt r u
  | SvcDetail r v => discard (Detail rt r v)
  | SvcListActive u => discard (ListActiveForUser rt u)
  | SvcOwner op r a => run_owner_op op r a
  | SvcMember op r u => run_member_op op r u
  end.

(** A sequence of requests, each run to its end whatever it answers. *)
Definition run_service (ops : list service_op) (w : World H) : World H :=
  foldl (fun w op => (run_service_op op w).2) w ops.

(** ** The schema invariant *)

Lemma notify_preserves P f : preserves P (notify rt f).
Proof. intros w HP. unfold notify. by destruct rt. Qed.

Lemma discard_preserves {A} P (m : M H A) : preserves P m -> preserves P (discard m).
Proof. intros Hm. apply bind_preserves; [done|]. by intros ? w. Qed.

Lemma broadcastStops_preserves P r : preserves P (broadcastStops rt r).
Proof.
  unfold broadcastStops. destruct rt as [b|]; [|by intros w].
  apply bind_preserves; [apply read_only_preserves, try_read_only; auto with store_ro|].
  intros []; by intros w.
Qed.

Lemma gen_bytes_read_only n : read_only (H:=H) (gen_bytes n).
Proof.
  induction n as [|n IH]; simpl; [done|]. apply bind_read_only; [apply rand_int_read_only|].
  intros i. destruct (_ !! _); [|done]. by apply bind_read_only.
Qed.

Lemma generateCode_read_only : read_only (H:=H) generateCode.
Proof. apply bind_read_only; [apply gen_bytes_read_only|done]. Qed.

Lemma create_loop_wf n o name : preserves (H:=H) db_wf (create_loop n o name).
Proof.
  induction n as [|n IH]; simpl; [by intros w|].
  apply bind_preserves; [apply read_only_preserves, generateCode_read_only|]. intros code.
  apply bind_preserves; [apply try_preserves, CreateRoom_wf|].
  intros [room|[]]; try (by intros w). destruct (bool_decide _); [done|by intros w].
Qed.

Lemma Join_wf u c : preserves (H:=H) db_wf (Join rt unicode_upper u c).
Proof.
  unfold Join. apply bind_preserves.
  { apply read_only_preserves. auto with store_ro. }
  intros room. apply bind_preserves; [apply UpsertMember_wf|]. intros _.
  apply bind_preserves; [|by intros _ w].
  destruct rt as [b|]; [|by intros w].
  apply bind_preserves; [apply read_only_preserves; auto with store_ro|].
  intros []; by intros w.
Qed.

Lemma Leave_wf r u : preserves (H:=H) db_wf (Leave rt r u).
Proof.
  apply bind_preserves; [apply MarkLeft_wf|]. intros _.
  apply bind_preserves; [|intros _]; apply notify_preserves.
Qed.

Lemma Detail_read_only r v : read_only (H:=H) (Detail rt r v).
Proof.
  unfold Detail. repeat (apply bind_read_only; [auto with store_ro|intros]).
  destruct rt as [b|]; [|done]. by repeat (apply bind_read_only; [done|intros]).
Qed.

Lemma ListActiveForUser_read_only u : read_only (H:=H) (ListActiveForUser rt u).
Proof.
  apply bind_read_only; [auto with store_ro|]. intros l. by destruct rt.
Qed.

Lemma requireOwner_hoare P r a :
  hoare (H:=H) P (requireOwner r a) (fun _ t => P t /\ is_owner t r a = true) P.
Proof.
  intros w HP. rewrite requireOwner_run. destruct (decide _); [|done].
  by destruct (is_owner (w_db w) r a) eqn:E.
Qed.

Lemma marker_preserves r u lat lng l P :
  (forall t k, P t -> P (set_markers <[(r, u) := k]> t)) ->
  preserves (H:=H) P (UpsertPersonalMarker r u lat lng l).
Proof.
  intros HP. apply stmt_preserves. intros now id t k t' Ht. unfold upsert_marker_sql.
  case_match; intros [= _ <-]. by apply HP.
Qed.

(** A transfer that passed [requireOwner] hands over from the owner. *)
Lemma TransferOwnership_wf r a u : preserves (H:=H) db_wf (TransferOwnership rt r a u).
Proof.
  apply hoare_preserves. eapply hoare_bind; [apply requireOwner_hoare|]. intros [].
  eapply hoare_bind; [apply hoare_check; exact (fun t Ht => proj1 Ht)|]. intros []. cbn beta.
  set (P := fun t : Tables => _).
  assert (forall t, P t -> db_wf t) as HPwf by (intros t Ht; apply Ht).
  eapply hoare_bind; [by apply hoare_read_only, HPwf; apply AssertMember_read_only|]. intros role. cbn beta.
  eapply hoare_bind; [by apply hoare_read_only, HPwf; auto with store_ro|]. intros dest. cbn beta.
  eapply (hoare_bind P _ (fun _ => P)).
  { destruct dest as [[d|]|]; try by intros w.
    apply (hoare_conseq P P _ (fun _ => P) (fun _ => P) db_wf P);
      [apply hoare_preserves|done|done|exact HPwf].
    apply bind_preserves; [|by intros ? w]. apply try_preserves.
    intros w HP. pose proof (UpsertPersonalMarker_wf (H:=H) r a (Dest_Lat d) (Dest_Lng d) (Dest_Name d) w
      (HPwf _ HP)) as Hwf.
    destruct HP as [[_ Ho] Hne]. split; [split; [done|]|done].
    by apply (marker_preserves r a _ _ _ (fun t => is_owner t r a = true)). }
  intros []. eapply (hoare_bind P _ (fun _ => db_wf)); [|intros []; apply hoare_preserves, notify_preserves].
  intros w HP. pose proof (HPwf _ HP) as Hwf. destruct HP as [[_ Ho] Hne].
  apply bool_decide_eq_false in Hne. unfold is_owner in Ho.
  destruct (t_members (w_db w) !! (r, a)) as [m|] eqn:Hm; [|done].
  apply andb_true_iff in Ho as [_ Ho%bool_decide_eq_true].
  pose proof (StoreTransferOwnership_wf r a u w Hne Hwf) as Hpost.
  destruct (StoreTransferOwnership r a u w) as [[x|e] w']; simpl in Hpost; apply Hpost; try by eexists.
  all: intros row Hrow; symmetry; by eapply owner_role.
Qed.

#[local] Hint Resolve notify_preserves broadcastStops_preserves rt_do_preserves : store_wf.

(** Every owner operation keeps the schema invariant. *)
Lemma owner_op_wf op r a : preserves (H:=H) db_wf (run_owner_op op r a).
Proof.
  destruct op; simpl; try apply discard_preserves; try apply TransferOwnership_wf;
    unfold SetDestination, UpdateDestinationMeta, ClearDestination, AddStop, UpdateStopLabel,
      RemoveStop, ClearStops, Rename, Mute, Kick, End_; wf_tac.
Qed.

Lemma member_op_wf op r u : preserves (H:=H) db_wf (run_member_op op r u).
Proof.
  destruct op; simpl; try apply discard_preserves;
    unfold SetPersonalMarker, ClearPersonalMarker, PostMessage, ListMessages; wf_tac.
Qed.

Lemma service_op_wf op : preserves (H:=H) db_wf (run_service_op op).
Proof.
  destruct op; simpl; try apply discard_preserves;
    auto using create_loop_wf, Join_wf, Leave_wf, owner_op_wf, member_op_wf,
      read_only_preserves, Detail_read_only, ListActiveForUser_read_only.
  apply create_loop_wf.
Qed.

Lemma run_service_wf ops (w : World H) : db_wf (w_db w) -> db_wf (w_db (run_service ops w)).
Proof.
  revert w. induction ops as [|op ops IH]; intros w Hw; simpl; [done|].
  by apply IH, service_op_wf.
Qed.
End ops.
