(* ===== verification/Runs.v ===== *)
(** * Runs without faults

    Under an environment in which no statement fails, an operation is a
    function of the tables and the realtime state; [obs] is what it answers
    and leaves.  The lemmas compute the store's operations. *)
From stdpp Require Import base gmap sets list strings sorting.
From Stdlib Require Import ZArith Lia.
From S2P Require Import Prelude.
From S2P Require Import GoString.
From S2P Require Import Httpx.
From S2P Require Import Types.
From S2P Require Import Db.
From S2P Require Import Store.
From S2P Require Import StoreFacts.
From S2P Require Import Broadcaster.
From S2P Require Import Service.
From S2P Require Import ServiceFacts.

Open Scope convoy_scope.

Definition fault_free {H} (w : World H) : Prop :=
  forall n, si_fault (env_stmt (w_env w) n) = NoFault.

(** The answer of a run, the tables and the realtime state it leaves. *)
Definition obs {H A} (p : result A * World H) : result A * Tables * H :=
  (p.1, w_db p.2, w_rt p.2).

(** The clock after [k] more statements. *)
Fixpoint clock {H} (k : nat) (w : World H) : time :=
  match k with
  | 0 => w_now w
  | S k' => (clock k' w + Z.of_N (si_tick (env_stmt (w_env w) (w_pos w + k'))))%Z
  end.

(** The identifier the statement after [k] more is given. *)
Definition fresh_id {H} (k : nat) (w : World H) : uuid := si_uuid (env_stmt (w_env w) (w_pos w + k)).

(** The world after [k] statements that changed nothing. *)
Fixpoint skip {H} (k : nat) (w : World H) : World H :=
  match k with 0 => w | S k' => advance true (skip k' w) end.

Section runs.
Context {H : Type}.
Implicit Types w : World H.

Lemma skip_db k w : w_db (skip k w) = w_db w.
Proof. by induction k. Qed.
Lemma skip_rt k w : w_rt (skip k w) = w_rt w.
Proof. by induction k. Qed.
Lemma skip_env k w : w_env (skip k w) = w_env w.
Proof. by induction k. Qed.
Lemma skip_pos k w : w_pos (skip k w) = w_pos w + k.
Proof. induction k as [|k IH]; simpl; [lia|]. rewrite IH. lia. Qed.
Lemma skip_now k w : w_now (skip k w) = clock k w.
Proof. induction k as [|k IH]; simpl; [done|]. by rewrite IH, skip_env, skip_pos. Qed.
Lemma skip_fault_free k w : fault_free (skip k w) <-> fault_free w.
Proof. unfold fault_free. by rewrite skip_env. Qed.
Lemma fault_free_next k w : fault_free w -> next_ok (skip k w).
Proof. intros Hw. unfold next_ok. rewrite skip_env. apply Hw. Qed.

Lemma fault_free_set_db t w : fault_free (set_db t w) <-> fault_free w.
Proof. done. Qed.

(** A statement after [k] others, on the tables it finds. *)
Lemma exec_run {A} params (f : Sql A) k t w :
  fault_free w ->
  exec params f (set_db t (skip k w)) =
    if forallb pg_text_ok params then
      match f (clock (S k) w) (fresh_id k w) t with
      | inl code => (Fail (ErrPg code), set_db t (skip (S k) w))
      | inr (a, t') => (Ok a, set_db t' (skip (S k) w))
      end
    else (Fail (ErrPg bad_text), set_db t (skip (S k) w)).
Proof.
  intros Hw. unfold exec, stmt. simpl. rewrite skip_env. rewrite (Hw _).
  unfold run_sql. simpl. rewrite skip_now, skip_pos, skip_env. unfold fresh_id.
  destruct (forallb pg_text_ok params); [|done].
  by destruct (f _ _ t) as [c|[a t']].
Qed.

Lemma set_db_skip k w : set_db (w_db w) (skip k w) = skip k w.
Proof.
  induction k as [|k IH]; simpl; [by destruct w|].
  unfold advance, set_db. simpl. by rewrite skip_db.
Qed.

Lemma requireOwner_skip k r a t w :
  fault_free w ->
  requireOwner r a (set_db t (skip k w)) =
    (if is_owner t r a then Ok tt else Fail (ErrAPI ErrForbidden), set_db t (skip (S k) w)).
Proof.
  intros Hw. rewrite requireOwner_run. rewrite decide_True by (by apply (fault_free_next k)).
  simpl. done.
Qed.

Lemma AssertMember_skip k r u t w :
  fault_free w ->
  exists role, AssertMember r u (set_db t (skip k w)) =
    (if is_member t r u then Ok role else Fail (ErrAPI ErrForbidden), set_db t (skip (S k) w)).
Proof.
  intros Hw. destruct (AssertMember_run r u (set_db t (skip k w))) as [role ->].
  rewrite decide_True by (by apply (fault_free_next k)). by exists role.
Qed.
End runs.

#[global] Arguments skip : simpl never.
#[global] Arguments clock : simpl never.
#[global] Arguments set_db : simpl never.

Lemma bind_run {H A B} (m : M H A) (k : A -> M H B) w r w' :
  m w = (r, w') ->
  bind m k w = match r with Ok a => k a w' | Fail e => (Fail e, w') end.
Proof. unfold bind. intros ->. by destruct r. Qed.

(** Start a computation of a run: the world as [set_db] of [skip 0]. *)
Ltac run_start w := rewrite <-(set_db_skip 0 w) at 1.

(** Run the head of a [bind] by the equation [lem]. *)
Tactic Notation "run_step" uconstr(lem) :=
  erewrite bind_run by (apply lem; done); cbn beta iota.

(** The realtime state after an optional announcement. *)
Definition announce {H} (rt : option (Broadcaster H)) (f : Broadcaster H -> H -> H) (h : H) : H :=
  match rt with Some b => f b h | None => h end.

Lemma obs_notify {H} (rt : option (Broadcaster H)) f t k (w : World H) :
  obs (notify rt f (set_db t (skip k w))) = (Ok tt, t, announce rt f (w_rt w)).
Proof. unfold notify, obs, announce. destruct rt; simpl; by rewrite skip_rt. Qed.

Lemma obs_notify_ret {H A} (rt : option (Broadcaster H)) f (a : A) t k (w : World H) :
  obs (bind (notify rt f) (fun _ => ret a) (set_db t (skip k w))) = (Ok a, t, announce rt f (w_rt w)).
Proof. unfold notify, obs, announce. destruct rt; simpl; by rewrite skip_rt. Qed.

Lemma obs_set_db {H A} (r : result A) t k (w : World H) :
  obs (r, set_db t (skip k w)) = (r, t, w_rt w).
Proof. unfold obs. simpl. by rewrite skip_rt. Qed.

Lemma check_run {H} b e (w : World H) : check b e w = (if b then Fail e else Ok tt, w).
Proof. by destruct b. Qed.

(** An [UPDATE room_members] that must affect a row. *)
Lemma update_affected_run {H} r u cond f k t (w : World H) :
  fault_free w ->
  bind (exec [] (update_member r u cond f)) affected (set_db t (skip k w)) =
    match t_members t !! (r, u) with
    | Some m =>
        if cond m
        then (Ok tt, set_db (set_members <[(r, u) := f (clock (S k) w) m]> t) (skip (S k) w))
        else (Fail RoomsErrNotFound, set_db t (skip (S k) w))
    | None => (Fail RoomsErrNotFound, set_db t (skip (S k) w))
    end.
Proof.
  intros Hw. unfold bind. rewrite exec_run by done. unfold update_member. simpl.
  destruct (t_members t !! (r, u)) as [m|]; [|done]. by destruct (cond m).
Qed.

(** An [UPDATE rooms] answering the row. *)
Lemma update_room_run {H} params r cond f k t (w : World H) :
  fault_free w -> forallb pg_text_ok params = true ->
  exec params (update_room r cond f) (set_db t (skip k w)) =
    match t_rooms t !! r with
    | Some row =>
        if cond row
        then (Ok (Some (f (clock (S k) w) row)),
              set_db (set_rooms <[r := f (clock (S k) w) row]> t) (skip (S k) w))
        else (Ok None, set_db t (skip (S k) w))
    | None => (Ok None, set_db t (skip (S k) w))
    end.
Proof.
  intros Hw Hp. rewrite exec_run, Hp by done. unfold update_room.
  destruct (t_rooms t !! r) as [row|]; [|done]. by destruct (cond row).
Qed.

Lemma bind_unfold {H A B} (m : M H A) (k : A -> M H B) (w : World H) :
  bind m k w = match m w with (Ok a, w') => k a w' | (Fail e, w') => (Fail e, w') end.
Proof. done. Qed.

(** Run the head of a [bind] whose answer is a case distinction. *)
Tactic Notation "run_cases" uconstr(lem) := rewrite bind_unfold, lem by done.

(** A method of the store that is a checked [UPDATE room_members]. *)
Lemma StoreKick_run {H} r u k t (w : World H) :
  fault_free w ->
  StoreKick r u (set_db t (skip k w)) =
    match t_members t !! (r, u) with
    | Some m =>
        if member_present m
        then (Ok tt, set_db (set_members <[(r, u) := mark_kicked (clock (S k) w) m]> t) (skip (S k) w))
        else (Fail RoomsErrNotFound, set_db t (skip (S k) w))
    | None => (Fail RoomsErrNotFound, set_db t (skip (S k) w))
    end.
Proof. apply update_affected_run. Qed.

Lemma SetMuted_run {H} r u b k t (w : World H) :
  fault_free w ->
  SetMuted r u b (set_db t (skip k w)) =
    match t_members t !! (r, u) with
    | Some m =>
        if member_present m
        then (Ok tt, set_db (set_members <[(r, u) := set_muted b (clock (S k) w) m]> t) (skip (S k) w))
        else (Fail RoomsErrNotFound, set_db t (skip (S k) w))
    | None => (Fail RoomsErrNotFound, set_db t (skip (S k) w))
    end.
Proof. apply update_affected_run. Qed.

Lemma GetDestination_run {H} r k t (w : World H) row :
  fault_free w -> t_rooms t !! r = Some row ->
  GetDestination r (set_db t (skip k w)) =
    (if dest_set row
     then match r_dest_lat row, r_dest_lng row, r_dest_set_at row, r_dest_set_by row with
          | Some lat, Some lng, Some at_, Some by_ =>
              Ok (Some (mkDestination lat lng (r_dest_name row) (r_dest_notes row) at_ by_))
          | _, _, _, _ => Fail ErrScan
          end
     else Ok None, set_db t (skip (S k) w)).
Proof.
  intros Hw Hrow. unfold GetDestination. rewrite bind_unfold, exec_run by done. simpl. rewrite Hrow.
  simpl. destruct (dest_set row); [|done]. unfold scan_dest, bind, ret, throw.
  by destruct (r_dest_lat row), (r_dest_lng row), (r_dest_set_at row), (r_dest_set_by row).
Qed.

(** The upsert of a marker for a room and a user that exist. *)
Lemma UpsertPersonalMarker_run {H} r u lat lng l k t (w : World H) :
  fault_free w -> forallb pg_text_ok (opt_text l) = true ->
  has (t_rooms t) r = true -> has (t_users t) u = true ->
  UpsertPersonalMarker r u lat lng l (set_db t (skip k w)) =
    (Ok (mkPersonalMarker lat lng l (clock (S k) w)),
     set_db (set_markers <[(r, u) := mkMarkerRow lat lng l (clock (S k) w)]> t) (skip (S k) w)).
Proof.
  intros Hw Ht Hr Hu. unfold UpsertPersonalMarker. rewrite exec_run, Ht by done.
  unfold upsert_marker_sql. by rewrite Hr, Hu, orb_true_r.
Qed.

(** [QueryRow(...).Scan(...)] with [pgx.ErrNoRows] read as [ErrNotFound]. *)
Lemma found_run {H A} (m : M H (option A)) (w : World H) :
  on_error no_rows_not_found (scan_row m) w =
    match m w with
    | (Ok (Some a), w') => (Ok a, w')
    | (Ok None, w') => (Fail RoomsErrNotFound, w')
    | (Fail e, w') => (Fail (no_rows_not_found e), w')
    end.
Proof. unfold on_error, catch, scan_row, bind. by destruct (m w) as [[[a|]|e] w']. Qed.

Lemma UpdateName_run {H} r n k t (w : World H) :
  fault_free w ->
  UpdateName r (Some n) (set_db t (skip k w)) =
    if negb (pg_text_ok n) then (Fail (ErrPg bad_text), set_db t (skip (S k) w)) else
    match t_rooms t !! r with
    | Some row =>
        if room_active row
        then let row' := set_name (Some n) (clock (S k) w) row in
             (Ok (room_of_row r row'), set_db (set_rooms <[r := row']> t) (skip (S k) w))
        else (Fail RoomsErrNotFound, set_db t (skip (S k) w))
    | None => (Fail RoomsErrNotFound, set_db t (skip (S k) w))
    end.
Proof.
  intros Hw. unfold UpdateName. rewrite bind_unfold, found_run, exec_run by done. simpl.
  rewrite andb_true_r. destruct (pg_text_ok n); simpl; [|done]. unfold update_room.
  destruct (t_rooms t !! r) as [row|]; [|done]. by destruct (room_active row).
Qed.

Lemma EndRoom_run {H} r k t (w : World H) :
  fault_free w ->
  EndRoom r (set_db t (skip k w)) =
    match t_rooms t !! r with
    | Some row =>
        if room_active row
        then (Ok tt, set_db (set_rooms <[r := set_ended (clock (S k) w) row]> t) (skip (S k) w))
        else (Fail RoomsErrNotFound, set_db t (skip (S k) w))
    | None => (Fail RoomsErrNotFound, set_db t (skip (S k) w))
    end.
Proof.
  intros Hw. unfold EndRoom. rewrite bind_unfold, exec_run by done. unfold update_room. simpl.
  destruct (t_rooms t !! r) as [row|]; [|done]. by destruct (room_active row).
Qed.

(** A chat line of a registered user in a room that exists, under an
    identifier that is free. *)
Lemma CreateMessage_run {H} r u b k t (w : World H) row :
  fault_free w -> t_users t !! u = Some row -> has (t_rooms t) r = true ->
  has (t_messages t) (fresh_id k w) = false ->
  let g := mkMessageRow r u b (clock (S k) w) in
  CreateMessage r u b (set_db t (skip k w)) =
    if pg_text_ok b
    then (Ok (message_of_row (fresh_id k w) g row),
          set_db (set_messages <[fresh_id k w := g]> t) (skip (S k) w))
    else (Fail (ErrPg bad_text), set_db t (skip (S k) w)).
Proof.
  intros Hw Hu Hr Hg g. unfold CreateMessage, scan_row. rewrite bind_unfold, exec_run by done. simpl.
  rewrite andb_true_r. destruct (pg_text_ok b); [|done]. unfold create_message_sql.
  rewrite Hg, Hr. assert (has (t_users t) u = true) as -> by (apply has_spec; eauto). simpl.
  by rewrite Hu.
Qed.

(** ** Looking a room up by its code *)

(** What [GetActiveByCode] selects. *)
Definition active_by_code (code : string) (t : Tables) : option (uuid * RoomRow) :=
  head (filter (fun p => r_code p.2 = code /\ r_ended_at p.2 = None) (map_to_list (t_rooms t))).

Lemma active_by_code_some code t i r :
  active_by_code code t = Some (i, r) ->
  t_rooms t !! i = Some r /\ r_code r = code /\ r_ended_at r = None.
Proof.
  unfold active_by_code. intros Hh. apply head_Some_elem_of, list_elem_of_filter in Hh as [[Hc He] Hin].
  apply elem_of_map_to_list in Hin. done.
Qed.

Lemma active_by_code_spec code t i r :
  db_wf t -> t_rooms t !! i = Some r -> r_code r = code -> r_ended_at r = None ->
  active_by_code code t = Some (i, r).
Proof.
  intros Hwf Hr Hc He. destruct (active_by_code code t) as [[j x]|] eqn:Hx.
  - apply active_by_code_some in Hx as (Hx & Hcx & Hex).
    assert (j = i) as -> by (eapply (wf_codes _ Hwf); eauto; congruence). congruence.
  - unfold active_by_code in Hx. apply head_None in Hx.
    assert ((i, r) ∈ @nil (uuid * RoomRow)) as Hin; [|set_solver].
    rewrite <-Hx. apply list_elem_of_filter. by rewrite elem_of_map_to_list.
Qed.

Lemma active_by_code_none code t :
  (forall i r, t_rooms t !! i = Some r -> r_code r = code -> r_ended_at r <> None) ->
  active_by_code code t = None.
Proof.
  intros Hno. destruct (active_by_code code t) as [[j x]|] eqn:Hx; [|done].
  apply active_by_code_some in Hx as (Hx & Hcx & Hex). by destruct (Hno j x).
Qed.

Lemma GetActiveByCode_run {H} code k t (w : World H) :
  fault_free w ->
  GetActiveByCode code (set_db t (skip k w)) =
    (if pg_text_ok code then
       match active_by_code code t with
       | Some (i, r) => Ok (room_of_row i r)
       | None => Fail RoomsErrNotFound
       end
     else Fail (ErrPg bad_text), set_db t (skip (S k) w)).
Proof.
  intros Hw. unfold GetActiveByCode. rewrite found_run, exec_run by done. simpl. rewrite andb_true_r.
  destruct (pg_text_ok code); [|done]. unfold active_by_code. by destruct (head _) as [[i r]|].
Qed.
