(* ===== verification/Samples.v ===== *)
(** * A concrete convoy

    The world in which the theorems about the rooms service are instantiated:
    three users, a room, an environment in which nothing fails. *)
From stdpp Require Import base gmap sets list strings sorting.
From Stdlib Require Import ZArith Lia.
From S2P Require Import Prelude.
From S2P Require Import GoString.
From S2P Require Import Httpx.
From S2P Require Import Types.
From S2P Require Import Db.
From S2P Require Import Store.
From S2P Require Import StoreFacts.
From S2P Require Import Broadcaster.
From S2P Require Import Service.
From S2P Require Import ServiceFacts.
From S2P Require Import Runs.

Open Scope convoy_scope.

(** A concrete environment without faults: statement [n] is given the
    identifier [100 + n], a tick of one, and the random digits are zeros. *)
Definition calm_env : Env := mkEnv (fun n => mkStmtIn NoFault 1 (100 + N.of_nat n)) (fun _ => Some 0%N).

Definition person (name : string) : UserRow := mkUserRow name None 0 None (JObj []) None.

(** Three registered users. *)
Definition people : gmap uuid UserRow :=
  <[1%N := person "ada"]> (<[2%N := person "bob"]> (<[3%N := person "cy"]> ∅)).

Lemma users_only_wf us : db_wf (set_users (fun _ => us) empty_tables).
Proof. split; simpl; intros *; rewrite ?lookup_empty; done. Qed.

Definition start_world : World (list rt_call) :=
  mkWorld (set_users (fun _ => people) empty_tables) 0 calm_env 0 0 [].

(** Ada's room 101, in which Bob and Cy are members. *)
Definition convoy_world : World (list rt_call) :=
  run_service (Some trace_broadcaster) (fun r => r)
    [SvcCreate 1 (Some "trip"); SvcJoin 2 "000000"; SvcJoin 3 " 000000 "] start_world.

Lemma convoy_world_wf : db_wf (w_db convoy_world).
Proof. apply run_service_wf, users_only_wf. Qed.

Lemma calm_next_ok {H} (w : World H) : w_env w = calm_env -> next_ok w.
Proof. unfold next_ok. by intros ->. Qed.

Example convoy_world_members :
  is_owner (w_db convoy_world) 101 1 = true /\ is_member (w_db convoy_world) 101 2 = true /\
  is_member (w_db convoy_world) 101 3 = true /\ length (w_rt convoy_world) = 2.
Proof. vm_compute. done. Qed.

Lemma convoy_world_calm : fault_free convoy_world.
Proof. intros n. vm_compute. reflexivity. Qed.
