(* ===== verification/Order.v ===== *)
(** * The lists the store orders

    What an [ORDER BY] promises of its answer, as a class of comparisons, and
    the comparisons of the store as its instances. *)
From stdpp Require Import base gmap sets list strings sorting.
From Stdlib Require Import ZArith Lia.
From S2P Require Import Prelude.
From S2P Require Import Types.
From S2P Require Import Db.
From S2P Require Import Store.

Open Scope convoy_scope.

(** A comparison an [ORDER BY] can use. *)
Class Ordering {A} (le : A -> A -> bool) : Prop := {
  ordering_total : forall x y, le x y = true \/ le y x = true;
  ordering_trans : forall x y z, le x y = true -> le y z = true -> le x z = true;
}.

Section order_by.
Context {A : Type} (le : A -> A -> bool) `{!Ordering le}.

#[local] Instance le_total : Total (fun x y => Is_true (le x y)).
Proof. intros x y. rewrite !Is_true_true. apply ordering_total. Qed.

#[local] Instance le_trans_rel : Transitive (fun x y => Is_true (le x y)).
Proof. intros x y z. rewrite !Is_true_true. apply ordering_trans. Qed.

Lemma order_by_sorted l : StronglySorted (fun x y => Is_true (le x y)) (order_by le l).
Proof. apply (StronglySorted_merge_sort _). Qed.

Lemma order_by_perm l : order_by le l ≡ₚ l.
Proof. apply merge_sort_Permutation. Qed.

Lemma order_by_in l x : x ∈ order_by le l <-> x ∈ l.
Proof. by rewrite order_by_perm. Qed.

(** The answer is determined by the rows when no two of them tie. *)
Lemma order_by_unique l1 l2 :
  StronglySorted (fun x y => Is_true (le x y)) l2 -> l1 ≡ₚ l2 ->
  (forall x y, x ∈ l1 -> y ∈ l1 -> le x y = true -> le y x = true -> x = y) ->
  order_by le l1 = l2.
Proof.
  intros Hs Hp Hanti. apply (StronglySorted_perm_eq (fun x y => Is_true (le x y))).
  - apply order_by_sorted.
  - done.
  - by rewrite order_by_perm.
  - intros x y Hx Hy Hxy Hyx. rewrite order_by_in in Hx, Hy.
    apply Hanti; [done|done|by apply Is_true_true|by apply Is_true_true].
Qed.

Lemma order_by_filter (P : A -> Prop) `{forall x, Decision (P x)} l :
  (forall x y, x ∈ l -> y ∈ l -> le x y = true -> le y x = true -> x = y) ->
  order_by le (filter P l) = filter P (order_by le l).
Proof.
  intros Hanti. apply order_by_unique.
  - apply StronglySorted_filter, order_by_sorted.
  - by rewrite order_by_perm.
  - intros x y Hx Hy. apply list_elem_of_filter in Hx as [_ Hx], Hy as [_ Hy]. by apply Hanti.
Qed.
End order_by.

Lemma key_le_spec t1 i1 t2 i2 :
  key_le t1 i1 t2 i2 = true <-> (t1 < t2)%Z \/ t1 = t2 /\ (i1 <= i2)%N.
Proof. unfold key_le. rewrite orb_true_iff, andb_true_iff, Z.ltb_lt, Z.eqb_eq, N.leb_le. done. Qed.

Lemma key_lt_spec t1 i1 t2 i2 :
  key_lt t1 i1 t2 i2 = true <-> (t1 < t2)%Z \/ t1 = t2 /\ (i1 < i2)%N.
Proof. unfold key_lt. rewrite orb_true_iff, andb_true_iff, Z.ltb_lt, Z.eqb_eq, N.ltb_lt. done. Qed.

Lemma stop_le_spec p q :
  stop_le p q = true <->
  (s_position p.2 < s_position q.2)%Z \/
  s_position p.2 = s_position q.2 /\
    ((s_created_at p.2 < s_created_at q.2)%Z \/ s_created_at p.2 = s_created_at q.2 /\ (p.1 <= q.1)%N).
Proof. unfold stop_le. rewrite orb_true_iff, andb_true_iff, Z.ltb_lt, Z.eqb_eq, key_le_spec. done. Qed.

#[export] Instance stop_le_ordering : Ordering stop_le.
Proof. split; intros *; rewrite !stop_le_spec; lia. Qed.

#[export] Instance newest_first_ordering : Ordering newest_first.
Proof. unfold newest_first. split; intros *; rewrite !key_le_spec; lia. Qed.

#[export] Instance joined_le_ordering : Ordering joined_le.
Proof. unfold joined_le. split; intros *; rewrite !key_le_spec; lia. Qed.

#[export] Instance joined_ge_ordering : Ordering joined_ge.
Proof. unfold joined_ge. split; intros *; rewrite !key_le_spec; lia. Qed.

(** Ties in [stop_le] and [newest_first] are between equal identifiers. *)
Lemma stop_le_antisym p q : stop_le p q = true -> stop_le q p = true -> p.1 = q.1.
Proof. rewrite !stop_le_spec. lia. Qed.

Lemma newest_first_antisym a b :
  newest_first a b = true -> newest_first b a = true -> Msg_ID a = Msg_ID b.
Proof. unfold newest_first. rewrite !key_le_spec. lia. Qed.

(** Positions in a sorted list. *)
Lemma StronglySorted_weaken {A} (R S : A -> A -> Prop) l :
  (forall x y, R x y -> S x y) -> StronglySorted R l -> StronglySorted S l.
Proof. intros HRS. induction 1; constructor; [done|]. eapply Forall_impl; [done|]. auto. Qed.

Lemma StronglySorted_lookup {A} (R : A -> A -> Prop) l i j x y :
  StronglySorted R l -> l !! i = Some x -> l !! j = Some y -> i < j -> R x y.
Proof.
  intros Hs Hi Hj Hij. rewrite <-(take_drop (S i) l) in Hs. apply StronglySorted_app in Hs as (Hs & _).
  apply Hs; apply list_elem_of_lookup.
  - exists i. rewrite lookup_take_lt by lia. done.
  - exists (j - S i). rewrite lookup_drop. by replace (S i + (j - S i)) with j by lia.
Qed.
