(* ===== verification/Access.v ===== *)
(** * Authorisation, ownership and the schema

    What the rooms service guarantees under every environment: whatever
    statements fail, and for every sequence of requests. *)
From stdpp Require Import base gmap sets list strings sorting.
From Stdlib Require Import ZArith Lia.
From S2P Require Import Prelude.
From S2P Require Import GoString.
From S2P Require Import Httpx.
From S2P Require Import Types.
From S2P Require Import Db.
From S2P Require Import Store.
From S2P Require Import StoreFacts.
From S2P Require Import Broadcaster.
From S2P Require Import Service.
From S2P Require Import ServiceFacts.
From S2P Require Import Runs.
From S2P Require Import Samples.

Open Scope convoy_scope.

Section access.
Context {H : Type}.
Variable rt : option (Broadcaster H).
Variable unicode_upper : rune -> rune.

(** Every sequence of service requests keeps the schema invariant, whatever
    statements fail, before or after taking effect; in particular every room
    has exactly one member with the role of the owner. *)
Theorem service_keeps_schema ops (w : World H) :
  db_wf (w_db w) ->
  let t := w_db (run_service rt unicode_upper ops w) in
  db_wf t /\
  forall rid r, t_rooms t !! rid = Some r ->
    exists! uid, exists m, t_members t !! (rid, uid) = Some m /\ m_role m = RoleOwner.
Proof.
  intros Hwf t. pose proof (run_service_wf rt unicode_upper ops w Hwf) as Hwf'. fold t in Hwf'.
  split; [done|]. intros rid r Hr. destruct (wf_owner _ Hwf' _ _ Hr) as [m Hm].
  exists (r_owner_id r). split.
  - exists m. split; [done|]. by apply (owner_role t rid (r_owner_id r) m r).
  - intros uid (m' & Hm' & Hrole). symmetry. by apply (owner_role t rid uid m' r).
Qed.

(** C2 An owner's operation asked by anyone who is not the present owner of the
    room is answered 403, or with the connection error when the check itself
    fails; the tables, the realtime side and the random source are untouched. *)
Theorem owner_ops_refused op room actor (w : World H) :
  is_owner (w_db w) room actor = false ->
  let '(res, w') := run_owner_op rt op room actor w in
  res = Fail (if decide (next_ok w) then ErrAPI ErrForbidden else ErrConn) /\
  w_db w' = w_db w /\ w_rt w' = w_rt w /\ w_rpos w' = w_rpos w.
Proof. intros Hno. by rewrite owner_op_refused. Qed.

(** A member's operation asked by somebody who is not a present member of
    the room is answered 403, or with the connection error when the check
    itself fails; the tables, the realtime side and the random source are
    untouched. *)
Theorem member_ops_refused op room user (w : World H) :
  is_member (w_db w) room user = false ->
  let '(res, w') := run_member_op rt op room user w in
  res = Fail (if decide (next_ok w) then ErrAPI ErrForbidden else ErrConn) /\
  w_db w' = w_db w /\ w_rt w' = w_rt w /\ w_rpos w' = w_rpos w.
Proof. intros Hno. by rewrite member_op_refused. Qed.
End access.

Lemma service_keeps_schema_witness :
  db_wf (w_db start_world) /\
  let t := w_db (run_service (Some trace_broadcaster) (fun r => r)
                   [SvcCreate 1 None; SvcJoin 2 "000000"; SvcOwner (OpTransferOwnership 2) 101 1]
                   start_world) in
  db_wf t /\
  forall rid r, t_rooms t !! rid = Some r ->
    exists! uid, exists m, t_members t !! (rid, uid) = Some m /\ m_role m = RoleOwner.
Proof.
  split; [apply users_only_wf|].
  apply (service_keeps_schema (Some trace_broadcaster) (fun r => r)), users_only_wf.
Defined.

Lemma owner_ops_refused_witness :
  is_owner (w_db convoy_world) 101 2 = false /\
  let '(res, w') := run_owner_op (Some trace_broadcaster) (OpKick 1) 101 2 convoy_world in
  res = Fail (if decide (next_ok convoy_world) then ErrAPI ErrForbidden else ErrConn) /\
  w_db w' = w_db convoy_world /\ w_rt w' = w_rt convoy_world /\ w_rpos w' = w_rpos convoy_world.
Proof.
  assert (is_owner (w_db convoy_world) 101 2 = false) as Hno by (vm_compute; reflexivity).
  split; [exact Hno|exact (owner_ops_refused (Some trace_broadcaster) (OpKick 1) 101 2 convoy_world Hno)].
Defined.

Lemma member_ops_refused_witness :
  is_member (w_db convoy_world) 101 9 = false /\
  let '(res, w') := run_member_op (Some trace_broadcaster) (OpPostMessage "hi") 101 9 convoy_world in
  res = Fail (if decide (next_ok convoy_world) then ErrAPI ErrForbidden else ErrConn) /\
  w_db w' = w_db convoy_world /\ w_rt w' = w_rt convoy_world /\ w_rpos w' = w_rpos convoy_world.
Proof.
  assert (is_member (w_db convoy_world) 101 9 = false) as Hno by (vm_compute; reflexivity).
  split; [exact Hno|
    exact (member_ops_refused (Some trace_broadcaster) (OpPostMessage "hi") 101 9 convoy_world Hno)].
Defined.
