(* ===== verification/RoomsProps.v ===== *)
(** * What the rooms service does *)
From stdpp Require Import base gmap sets list strings sorting.
From Stdlib Require Import ZArith Lia.
From S2P Require Import Prelude.
From S2P Require Import GoString.
From S2P Require Import Httpx.
From S2P Require Import Types.
From S2P Require Import Db.
From S2P Require Import Store.
From S2P Require Import StoreFacts.
From S2P Require Import Broadcaster.
From S2P Require Import Service.
From S2P Require Import ServiceFacts.
From S2P Require Import Runs.
From S2P Require Import Samples.

Open Scope convoy_scope.

Section moderation.
Context {H : Type}.
Variable rt : option (Broadcaster H).

Lemma Kick_run room actor target (w : World H) :
  fault_free w ->
  obs (Kick rt room actor target w) =
    let t := w_db w in let h := w_rt w in
    if negb (is_owner t room actor) then (Fail (ErrAPI ErrForbidden), t, h)
    else if bool_decide (actor = target) then (Fail (ErrAPI ErrKickSelf), t, h)
    else match t_members t !! (room, target) with
         | Some m =>
             if member_present m
             then (Ok tt, set_members <[(room, target) := mark_kicked (clock 2 w) m]> t,
                   announce rt (fun b => KickConnection b room target actor) h)
             else (Fail RoomsErrNotFound, t, h)
         | None => (Fail RoomsErrNotFound, t, h)
         end.
Proof.
  intros Hw. cbv zeta. run_start w. unfold Kick. run_step requireOwner_skip.
  destruct (is_owner (w_db w) room actor); simpl negb; cbn iota; [|apply obs_set_db].
  run_step check_run. destruct (bool_decide (actor = target)); [apply obs_set_db|].
  run_cases StoreKick_run.
  destruct (t_members (w_db w) !! (room, target)) as [m|]; [|apply obs_set_db].
  destruct (member_present m); [apply obs_notify|apply obs_set_db].
Qed.

(** Kicking a member, on every branch: anybody but the owner is refused, the
    owner cannot kick themselves, somebody who is not present is not found;
    otherwise only that membership is marked, and the kick is announced. *)
Theorem kick_spec room actor target (w : World H) :
  fault_free w ->
  obs (Kick rt room actor target w) =
    let t := w_db w in let h := w_rt w in
    if negb (is_owner t room actor) then (Fail (ErrAPI ErrForbidden), t, h)
    else if bool_decide (actor = target) then (Fail (ErrAPI ErrKickSelf), t, h)
    else match t_members t !! (room, target) with
         | Some m =>
             if member_present m
             then (Ok tt, set_members <[(room, target) := mark_kicked (clock 2 w) m]> t,
                   announce rt (fun b => KickConnection b room target actor) h)
             else (Fail RoomsErrNotFound, t, h)
         | None => (Fail RoomsErrNotFound, t, h)
         end.
Proof. apply Kick_run. Qed.

(** Muting a member flips the flag of a present member only, keeps the rest
    of the row, and announces it; the owner cannot mute themselves. *)
Theorem mute_spec room actor target muted (w : World H) :
  fault_free w ->
  obs (Mute rt room actor target muted w) =
    let t := w_db w in let h := w_rt w in
    if negb (is_owner t room actor) then (Fail (ErrAPI ErrForbidden), t, h)
    else if bool_decide (actor = target) then (Fail (ErrAPI ErrModerateSelf), t, h)
    else match t_members t !! (room, target) with
         | Some m =>
             if member_present m
             then (Ok tt,
                   set_members <[(room, target) :=
                     mkMemberRow (m_role m) muted (m_kicked m) (m_joined_at m) (m_left_at m)]> t,
                   announce rt (fun b => BroadcastMute b room target muted actor) h)
             else (Fail RoomsErrNotFound, t, h)
         | None => (Fail RoomsErrNotFound, t, h)
         end.
Proof.
  intros Hw. cbv zeta. run_start w. unfold Mute. run_step requireOwner_skip.
  destruct (is_owner (w_db w) room actor); simpl negb; cbn iota; [|apply obs_set_db].
  run_step check_run. destruct (bool_decide (actor = target)); [apply obs_set_db|].
  run_cases SetMuted_run.
  destruct (t_members (w_db w) !! (room, target)) as [m|]; [|apply obs_set_db].
  destruct (member_present m); [apply obs_notify|apply obs_set_db].
Qed.

(** Renaming trims the name, refuses one that is empty or over 40
    characters, refuses a room that has ended, and announces what it stored. *)
Theorem rename_spec room actor name (w : World H) :
  fault_free w ->
  obs (Rename rt room actor name w) =
    let t := w_db w in let h := w_rt w in
    let n := TrimSpace name in let c := RuneCountInString n in
    if negb (is_owner t room actor) then (Fail (ErrAPI ErrForbidden), t, h)
    else if (c =? 0) || (40 <? c) then (Fail (ErrAPI ErrInvalidName), t, h)
    else if negb (pg_text_ok n) then (Fail (ErrPg bad_text), t, h)
    else match t_rooms t !! room with
         | Some row =>
             if room_active row
             then let row' := set_name (Some n) (clock 2 w) row in
                  (Ok (room_of_row room row'), set_rooms <[room := row']> t,
                   announce rt (fun b => BroadcastRoomRenamed b room (Some n)) h)
             else (Fail RoomsErrNotFound, t, h)
         | None => (Fail RoomsErrNotFound, t, h)
         end.
Proof.
  intros Hw. cbv zeta. run_start w. unfold Rename. run_step requireOwner_skip.
  destruct (is_owner (w_db w) room actor); simpl negb; cbn iota; [|apply obs_set_db].
  run_step check_run. set (n := TrimSpace name).
  assert ((RuneCountInString n <? minRoomNameLen) = (RuneCountInString n =? 0)) as ->.
  { unfold minRoomNameLen. destruct (RuneCountInString n); done. }
  change maxRoomNameLen with 40.
  destruct (_ || _); [apply obs_set_db|]. run_cases UpdateName_run.
  destruct (pg_text_ok n); [|apply obs_set_db]. cbn [negb]. cbn iota.
  destruct (t_rooms (w_db w) !! room) as [row|]; [|apply obs_set_db].
  destruct (room_active row); [|apply obs_set_db]. cbv zeta.
  rewrite <-(obs_notify_ret rt _ _ _ 2). done.
Qed.

(** Ending a room stamps it once, announces it, and from then on its
    code names no active room and ending it again answers [ErrNotFound]. *)
Theorem end_spec room actor row (w : World H) :
  fault_free w -> db_wf (w_db w) -> is_owner (w_db w) room actor = true ->
  t_rooms (w_db w) !! room = Some row -> r_ended_at row = None ->
  let t' := set_rooms <[room := set_ended (clock 2 w) row]> (w_db w) in
  obs (End_ rt room actor w) = (Ok tt, t', announce rt (fun b => BroadcastRoomEnded b room) (w_rt w)) /\
  (forall w' : World H, fault_free w' -> w_db w' = t' ->
     (GetActiveByCode (r_code row) w').1 =
       if pg_text_ok (r_code row) then Fail RoomsErrNotFound else Fail (ErrPg bad_text)) /\
  (forall w' : World H, fault_free w' -> w_db w' = t' ->
     (End_ rt room actor w').1 = Fail RoomsErrNotFound).
Proof.
  intros Hw Hwf Ho Hrow Hend t'. assert (room_active row = true) as Hra by by apply bool_decide_eq_true.
  assert (is_owner t' room actor = true) as Ho' by done.
  split; [|split].
  - run_start w. unfold End_. run_step requireOwner_skip. rewrite Ho. cbn iota.
    run_cases EndRoom_run. rewrite Hrow, Hra. apply obs_notify.
  - intros w' Hw' Ht. run_start w'. rewrite GetActiveByCode_run by done. simpl. rewrite Ht.
    rewrite active_by_code_none; [done|]. intros i r Hr Hc He. unfold t' in Hr. simpl in Hr.
    apply lookup_insert_Some in Hr as [[_ <-]|[Hne Hr]]; [done|].
    by apply Hne, (wf_codes _ Hwf room i row r).
  - intros w' Hw' Ht. run_start w'. unfold End_. run_step requireOwner_skip. rewrite Ht, Ho'. cbn iota.
    run_cases EndRoom_run. unfold t'. simpl. by rewrite lookup_insert_eq.
Qed.

(** C36 Posting a chat line: a member's text is trimmed, refused when blank or
    over 2000 characters, stored under the fresh identifier with the author,
    and announced; the reply carries the author's current name. *)
Theorem post_message_spec room user body author (w : World H) :
  fault_free w -> db_wf (w_db w) -> t_users (w_db w) !! user = Some author ->
  has (t_messages (w_db w)) (fresh_id 1 w) = false ->
  obs (PostMessage rt room user body w) =
    let t := w_db w in let h := w_rt w in
    let b := TrimSpace body in
    let id := fresh_id 1 w in
    let g := mkMessageRow room user b (clock 2 w) in
    let msg := mkMessage id room user (u_display_name author) (u_avatar_url author) b (clock 2 w) in
    if negb (is_member t room user) then (Fail (ErrAPI ErrForbidden), t, h)
    else if bool_decide (b = "") then (Fail (ErrAPI ErrEmptyMessage), t, h)
    else if 2000 <? RuneCountInString b then (Fail (ErrAPI ErrMessageTooLong), t, h)
    else if negb (pg_text_ok b) then (Fail (ErrPg bad_text), t, h)
    else (Ok msg, set_messages <[id := g]> t, announce rt (fun x => BroadcastChatMessage x room msg) h).
Proof.
  intros Hw Hwf Hu Hfresh. cbv zeta. run_start w. unfold PostMessage.
  destruct (AssertMember_skip 0 room user (w_db w) w Hw) as [role Has]. rewrite bind_unfold, Has.
  destruct (is_member (w_db w) room user) eqn:Hm; simpl negb; cbn beta iota; [|apply obs_set_db].
  run_step check_run. destruct (bool_decide (TrimSpace body = "")); [apply obs_set_db|].
  run_step check_run. change maxMessageLen with 2000.
  destruct (2000 <? _); [apply obs_set_db|].
  rewrite bind_unfold, (CreateMessage_run _ _ _ 1 _ _ author); [|done|done| |done].
  2:{ apply has_spec. unfold is_member in Hm. destruct (t_members _ !! _) as [m|] eqn:Em; [|done].
      destruct (wf_members _ Hwf _ _ _ Em) as [_ _ (row & Hrow & _)]. by eexists. }
  destruct (pg_text_ok _); [|apply obs_set_db]. simpl negb. cbn beta iota zeta.
  rewrite <-(obs_notify_ret rt _ _ _ 2). done.
Qed.

(** The membership a join leaves: a returning member keeps role, mute flag and
    first join time, and is no longer kicked or gone. *)
Definition rejoined (now : time) (o : option MemberRow) : MemberRow :=
  match o with
  | Some m => mkMemberRow (m_role m) (m_muted m) false (m_joined_at m) None
  | None => mkMemberRow RoleMember false false now None
  end.

Lemma UpsertMember_run r u k t (w : World H) :
  fault_free w -> has (t_rooms t) r = true -> has (t_users t) u = true ->
  UpsertMember r u (set_db t (skip k w)) =
    (Ok tt, set_db (set_members <[(r, u) := rejoined (clock (S k) w) (t_members t !! (r, u))]> t)
              (skip (S k) w)).
Proof.
  intros Hw Hr Hu. unfold UpsertMember. rewrite exec_run by done. simpl. unfold upsert_member_sql.
  destruct (t_members t !! (r, u)) as [m|] eqn:Hm; [done|]. unfold insert_member.
  by rewrite Hm, bool_decide_eq_false_2, Hr, Hu by by intros [].
Qed.

Lemma GetMember_run r u k t (w : World H) m row :
  fault_free w -> t_members t !! (r, u) = Some m -> member_present m = true -> t_users t !! u = Some row ->
  GetMember r u (set_db t (skip k w)) = (Ok (member_of_row u m row), set_db t (skip (S k) w)).
Proof.
  intros Hw Hm Hp Hu. unfold GetMember. rewrite found_run, exec_run by done. simpl.
  by rewrite Hm, Hu; simpl; rewrite Hp.
Qed.

(** C19 Joining by a code that is a text PostgreSQL takes: no active room under
    the normalised code answers 404 and changes nothing; otherwise the room is answered, only the caller's
    membership changes, and the member as stored is announced. *)
Theorem join_spec (up : rune -> rune) user row0 code (w : World H) :
  fault_free w -> db_wf (w_db w) -> t_users (w_db w) !! user = Some row0 ->
  let c := ToUpper up (TrimSpace code) in
  pg_text_ok c = true ->
  ((forall i r, t_rooms (w_db w) !! i = Some r -> r_code r = c -> r_ended_at r <> None) ->
   obs (Join rt up user code w) = (Fail (ErrAPI ErrRoomNotFound), w_db w, w_rt w)) /\
  (forall i r, t_rooms (w_db w) !! i = Some r -> r_code r = c -> r_ended_at r = None ->
   let m := rejoined (clock 2 w) (t_members (w_db w) !! (i, user)) in
   obs (Join rt up user code w) =
     (Ok (room_of_row i r), set_members <[(i, user) := m]> (w_db w),
      announce rt (fun b => BroadcastMemberJoined b i (member_of_row user m row0)) (w_rt w))).
Proof.
  intros Hw Hwf Hu c Hc. split.
  - intros Hno. run_start w. unfold Join, on_error at 1, catch. fold c. rewrite bind_unfold.
    rewrite GetActiveByCode_run, Hc, active_by_code_none by done. apply obs_set_db.
  - intros i r Hr Hcode Hend m. run_start w. unfold Join, on_error at 1, catch. fold c.
    rewrite bind_unfold, GetActiveByCode_run, Hc by done.
    rewrite (active_by_code_spec _ _ i r) by done. cbn beta iota. rewrite bind_unfold. simpl Room_ID.
    rewrite UpsertMember_run; [|done|by apply has_spec; eexists..]. cbn beta iota. fold m.
    destruct rt as [b|]; [|apply (obs_set_db (H:=H))]. rewrite !bind_unfold. unfold try.
    rewrite (GetMember_run _ _ _ _ _ m row0); [|done|simpl; by rewrite lookup_insert_eq| |done].
    + unfold obs. simpl. by rewrite skip_rt.
    + unfold m. by destruct (t_members _ !! _).
Qed.
End moderation.

Lemma kick_spec_witness :
  fault_free convoy_world /\
  let '(res, t, h) := obs (Kick (Some trace_broadcaster) 101 1 2 convoy_world) in
  res = Ok tt /\ is_member t 101 2 = false /\ h = w_rt convoy_world ++ [CallKick 101 2 1].
Proof.
  split; [exact convoy_world_calm|].
  rewrite (kick_spec (Some trace_broadcaster) 101 1 2 convoy_world convoy_world_calm).
  vm_compute. repeat split.
Defined.

Lemma mute_spec_witness :
  fault_free convoy_world /\
  let '(res, t, h) := obs (Mute (Some trace_broadcaster) 101 1 2 true convoy_world) in
  res = Ok tt /\ m_muted <$> t_members t !! (101, 2)%N = Some true /\
  h = w_rt convoy_world ++ [CallMute 101 2 true 1].
Proof.
  split; [exact convoy_world_calm|].
  rewrite (mute_spec (Some trace_broadcaster) 101 1 2 true convoy_world convoy_world_calm).
  vm_compute. repeat split.
Defined.

Lemma rename_spec_witness :
  fault_free convoy_world /\
  let '(res, t, h) := obs (Rename (Some trace_broadcaster) 101 1 "  to the sea " convoy_world) in
  r_name <$> t_rooms t !! 101%N = Some (Some "to the sea") /\
  h = w_rt convoy_world ++ [CallRoomRenamed 101 (Some "to the sea")].
Proof.
  split; [exact convoy_world_calm|].
  rewrite (rename_spec (Some trace_broadcaster) 101 1 "  to the sea " convoy_world convoy_world_calm).
  vm_compute. repeat split.
Defined.

(** The row of Ada's room. *)
Definition convoy_row : RoomRow :=
  default (new_room_row "" None 0 0) (t_rooms (w_db convoy_world) !! 101%N).

Lemma end_spec_witness :
  r_code convoy_row = "000000" /\
  exists t', obs (End_ (Some trace_broadcaster) 101 1 convoy_world) =
    (Ok tt, t', announce (Some trace_broadcaster) (fun b => BroadcastRoomEnded b 101) (w_rt convoy_world)) /\
  (forall w' : World (list rt_call), fault_free w' -> w_db w' = t' ->
     (End_ (Some trace_broadcaster) 101 1 w').1 = Fail RoomsErrNotFound).
Proof.
  split; [vm_compute; reflexivity|]. eexists.
  destruct (end_spec (Some trace_broadcaster) 101 1 convoy_row convoy_world convoy_world_calm
    convoy_world_wf) as (H1 & _ & H3); [vm_compute; reflexivity..|].
  split; [exact H1|exact H3].
Defined.

Lemma post_message_spec_witness :
  fault_free convoy_world /\
  let '(res, t, h) := obs (PostMessage (Some trace_broadcaster) 101 2 " hi " convoy_world) in
  exists msg, res = Ok msg /\ Msg_Body msg = "hi" /\ Msg_DisplayName msg = "bob" /\
    h = w_rt convoy_world ++ [CallChat 101 msg].
Proof.
  split; [exact convoy_world_calm|].
  rewrite (post_message_spec (Some trace_broadcaster) 101 2 " hi " (person "bob") convoy_world
    convoy_world_calm convoy_world_wf); [|vm_compute; reflexivity..].
  vm_compute. eexists. repeat split.
Defined.

(** Bob was kicked and comes back. *)
Definition kicked_world : World (list rt_call) :=
  run_service (Some trace_broadcaster) (fun r => r) [SvcOwner (OpKick 2) 101 1] convoy_world.

Lemma join_spec_witness :
  is_member (w_db kicked_world) 101 2 = false /\
  let '(res, t, h) := obs (Join (Some trace_broadcaster) (fun r => r) 2 " 000000" kicked_world) in
  is_member t 101 2 = true /\
  m_joined_at <$> t_members t !! (101, 2)%N = m_joined_at <$> t_members (w_db kicked_world) !! (101, 2)%N.
Proof.
  split; [vm_compute; reflexivity|].
  assert (fault_free kicked_world) as Hw by (intros n; vm_compute; reflexivity).
  assert (db_wf (w_db kicked_world)) as Hwf by apply run_service_wf, convoy_world_wf.
  destruct (join_spec (Some trace_broadcaster) (fun r => r) 2 (person "bob") " 000000" kicked_world Hw Hwf)
    as [_ Hjoin]; [vm_compute; reflexivity..|].
  rewrite (Hjoin 101%N convoy_row); [|vm_compute; reflexivity..]. vm_compute. repeat split.
Defined.
