(* ===== verification/CreateProps.v ===== *)
(** * Opening a room

    [rooms.Service.Create] draws codes until one is free: what it stores, that
    it stores nothing otherwise, and how much it consumes at most, under every
    environment. *)
From stdpp Require Import base gmap sets list strings sorting.
From Stdlib Require Import ZArith Lia Ascii.
From S2P Require Import Prelude.
From S2P Require Import GoString.
From S2P Require Import Httpx.
From S2P Require Import Types.
From S2P Require Import Db.
From S2P Require Import Store.
From S2P Require Import StoreFacts.
From S2P Require Import Broadcaster.
From S2P Require Import Service.
From S2P Require Import ServiceFacts.
From S2P Require Import Runs.
From S2P Require Import Samples.

Open Scope convoy_scope.

(** Six decimal digits. *)
Definition is_digit (c : ascii) : bool := in_range 48 57 (byte_val c).
Definition is_code (s : string) : bool :=
  (length (to_bytes s) =? 6) && forallb is_digit (to_bytes s).

(** The tables after a room opened. *)
Definition opened (id owner : uuid) (code : string) (name : option string) (now : time) (t : Tables) :
    Tables :=
  set_members <[(id, owner) := mkMemberRow RoleOwner false false now None]>
    (set_rooms <[id := new_room_row code name owner now]> t).

(** ** How much of the environment a computation consumes *)

Definition consumes {H A} (s r : nat) (m : M H A) : Prop :=
  forall w, w_pos (m w).2 <= w_pos w + s /\ w_rpos (m w).2 <= w_rpos w + r.

Section create.
Context {H : Type}.

Lemma consumes_le {A} s r s' r' (m : M H A) : consumes s r m -> s <= s' -> r <= r' -> consumes s' r' m.
Proof. intros Hm Hs Hr w. specialize (Hm w). lia. Qed.

Lemma stmt_consumes {A} tick params (f : Sql A) : consumes (H:=H) 1 0 (stmt tick params f).
Proof. intros w. unfold stmt, run_sql. repeat case_match; simpl; lia. Qed.

Lemma ret_consumes {A} (a : A) s r : consumes (H:=H) s r (ret a).
Proof. intros w. simpl. lia. Qed.

Lemma throw_consumes {A} e s r : consumes (H:=H) s r (throw (A:=A) e).
Proof. intros w. simpl. lia. Qed.

Lemma bind_consumes {A B} s1 r1 s2 r2 (m : M H A) (k : A -> M H B) :
  consumes s1 r1 m -> (forall a, consumes s2 r2 (k a)) -> consumes (s1 + s2) (r1 + r2) (bind m k).
Proof.
  intros Hm Hk w. unfold bind. specialize (Hm w). destruct (m w) as [[a|e] w']; simpl in *; [|lia].
  specialize (Hk a w'). lia.
Qed.

Lemma in_tx_consumes {A} s r (body : M H A) : consumes s r body -> consumes (S (S s)) r (in_tx body).
Proof.
  intros Hb w. unfold in_tx. pose proof (stmt_consumes (A:=unit) true [] (select (fun _ => tt)) w) as Hs.
  destruct (stmt true [] _ w) as [[[]|e] w1]; simpl in *; [|lia].
  specialize (Hb w1). destruct (body w1) as [[a|e] w2]; simpl in *; [|lia].
  destruct (si_fault _); simpl; lia.
Qed.

Lemma try_consumes {A} s r (m : M H A) : consumes s r m -> consumes s r (try m).
Proof. intros Hm w. apply (Hm w). Qed.

Lemma gen_bytes_consumes n : consumes (H:=H) 0 n (gen_bytes n).
Proof.
  induction n as [|n IH]; simpl; [apply ret_consumes|]. apply (bind_consumes 0 1 0 n).
  { intros w. unfold rand_int. case_match; simpl; lia. }
  intros i. destruct (_ !! _); [|apply throw_consumes].
  apply (consumes_le 0 (n + 0)); [|lia..]. by apply (bind_consumes 0 n 0 0); [|intros; apply ret_consumes].
Qed.

Lemma CreateRoom_consumes o c n : consumes (H:=H) 4 0 (CreateRoom o c n).
Proof.
  apply (in_tx_consumes 2 0). apply (bind_consumes 1 0 1 0); [apply stmt_consumes|]. intros r.
  apply (bind_consumes 1 0 0 0); [apply stmt_consumes|intros; apply ret_consumes].
Qed.

Lemma create_loop_consumes k o n : consumes (H:=H) (4 * k) (6 * k) (create_loop k o n).
Proof.
  induction k as [|k IH]; simpl; [apply throw_consumes|].
  apply (consumes_le (0 + (4 + 4 * k)) (6 + (0 + 6 * k))); [|lia..].
  apply bind_consumes.
  { apply (bind_consumes 0 6 0 0); [apply gen_bytes_consumes|intros; apply ret_consumes]. }
  intros code. apply bind_consumes; [apply try_consumes, CreateRoom_consumes|].
  intros [room|[]]; try apply throw_consumes; [apply ret_consumes|].
  case_match; [exact IH|apply throw_consumes].
Qed.

(** ** What is drawn and stored *)

Lemma gen_bytes_digits n (w w' : World H) b :
  gen_bytes n w = (Ok b, w') -> length b = n /\ forallb is_digit b = true.
Proof.
  revert w b w'. induction n as [|n IH]; intros w b w' Hrun; cbn [gen_bytes] in Hrun.
  { apply ret_ok in Hrun as [<- _]. done. }
  apply bind_ok in Hrun as (i & w1 & _ & Hrun).
  destruct (to_bytes codeAlphabet !! N.to_nat i) as [c|] eqn:Hc; [|done].
  apply bind_ok in Hrun as (rest & w2 & Hrest & Hrun). apply ret_ok in Hrun as [<- _].
  apply IH in Hrest as [<- Hd]. simpl. rewrite Hd, andb_true_r. split; [done|].
  assert (forallb is_digit (to_bytes codeAlphabet) = true) as Hall by reflexivity.
  rewrite forallb_forall in Hall. apply Hall, list_elem_of_In. by eapply list_elem_of_lookup_2.
Qed.

Lemma generateCode_digits (w w' : World H) c : generateCode w = (Ok c, w') -> is_code c = true.
Proof.
  intros Hrun. apply bind_ok in Hrun as (b & w1 & Hb & Hrun). apply ret_ok in Hrun as [<- _].
  apply gen_bytes_digits in Hb as [Hl Hd]. unfold is_code. rewrite to_of_bytes, Hl. done.
Qed.

Lemma tx_now {A} params (f : Sql A) (w w' : World H) r : stmt false params f w = (r, w') -> w_now w' = w_now w.
Proof. unfold stmt, run_sql. repeat case_match; by intros [= _ <-]. Qed.

Lemma code_taken_false code t :
  code_taken code (t_rooms t) = false ->
  forall i r, t_rooms t !! i = Some r -> r_code r = code -> r_ended_at r <> None.
Proof.
  intros Hno i r Hr Hc He. apply not_true_iff_false in Hno. apply Hno.
  unfold code_taken. apply existsb_exists. exists (i, r). simpl.
  split; [by apply list_elem_of_In, elem_of_map_to_list|].
  unfold room_active. by rewrite !bool_decide_eq_true_2.
Qed.

(** The store's [CreateRoom]: a room under a free code, or nothing. *)
Lemma CreateRoom_cases o c n (w : World H) :
  let '(res, w') := CreateRoom o c n w in
  (exists e, res = Fail e /\ w_db w' = w_db w) \/
  (exists id now, t_rooms (w_db w) !! id = None /\
     (forall i r, t_rooms (w_db w) !! i = Some r -> r_code r = c -> r_ended_at r <> None) /\
     w_db w' = opened id o c n now (w_db w) /\
     (res = Ok (room_of_row id (new_room_row c n o now)) \/ res = Fail ErrConn)).
Proof.
  unfold CreateRoom.
  match goal with |- context [in_tx ?b w] =>
    destruct (in_tx_atomic b w) as [(e & He & Hdb)|(w1 & a & w2 & Hw1 & Hb & Hdb & Hres)];
    destruct (in_tx b w) as [res w'] end; simpl in *; [left; eauto|right].
  rewrite Hdb. clear Hdb. rewrite <-Hw1. clear Hw1. apply bind_ok in Hb as (r & w3 & E1 & Hb).
  apply bind_ok in Hb as ([] & w4 & E2 & Hb). apply ret_ok in Hb as [<- <-].
  pose proof (tx_now _ _ _ _ _ E1) as Hn1. pose proof (tx_now _ _ _ _ _ E2) as Hn2.
  apply stmt_ok in E1 as (now & id & E1 & _ & -> & _). apply stmt_ok in E2 as (? & ? & E2 & _ & -> & _).
  unfold insert_room in E1. destruct (has _ id || _) eqn:Hfree; [done|].
  apply orb_false_iff in Hfree as [Hid%has_false Hcode]. destruct (negb _); [done|].
  injection E1 as <- E1. unfold insert_member in E2.
  destruct (bool_decide _); [done|]. destruct (_ || _); [done|]. injection E2 as E2.
  rewrite Hn2 in E2. exists id, (w_now w3). split; [done|]. split; [by apply code_taken_false|].
  split; [|done]. by rewrite <-E2, <-E1.
Qed.

Lemma create_loop_cases k o n (w : World H) :
  let '(res, w') := create_loop k o n w in
  (exists e, res = Fail e /\ w_db w' = w_db w) \/
  (exists id now c, is_code c = true /\ t_rooms (w_db w) !! id = None /\
     (forall i r, t_rooms (w_db w) !! i = Some r -> r_code r = c -> r_ended_at r <> None) /\
     w_db w' = opened id o c n now (w_db w) /\
     (res = Ok (room_of_row id (new_room_row c n o now)) \/ res = Fail ErrConn)).
Proof.
  revert w. induction k as [|k IH]; intros w; simpl; [left; eauto|].
  rewrite bind_unfold. pose proof (generateCode_read_only (H:=H) w) as [Hdb _].
  destruct (generateCode w) as [[c|e] w1] eqn:Hc; simpl in Hdb; [|left; eauto].
  apply generateCode_digits in Hc. rewrite bind_unfold. unfold try.
  pose proof (CreateRoom_cases o c n w1) as Hcr.
  destruct (CreateRoom o c n w1) as [res w2]. simpl. rewrite <-Hdb.
  destruct Hcr as [(e & -> & Hdb2)|(id & now & Hid & Hfree & Hdb2 & Hres)].
  - destruct e as [| | |code| | |]; try (left; by eauto). destruct (bool_decide _); [|left; by eauto].
    specialize (IH w2). by rewrite Hdb2 in IH.
  - destruct Hres as [->| ->]; simpl; right; exists id, now, c; rewrite Hdb2; auto 10.
Qed.

Lemma create_loop_rt k o n : rt_silent (H:=H) (create_loop k o n).
Proof.
  induction k as [|k IH]; simpl; [done|].
  apply bind_rt_silent; [apply read_only_rt_silent, generateCode_read_only|]. intros c.
  apply bind_rt_silent.
  { intros w. apply (in_tx_rt_silent (H:=H)).
    apply bind_rt_silent; [apply stmt_rt|]. intros r. by apply bind_rt_silent; [apply stmt_rt|]. }
  intros [room|[]]; try done. by destruct (bool_decide _).
Qed.

(** C18 Opening a room under every pattern of failures: an answered room was
    stored, with its owner as its only new member, under six digits that no
    active room carried, and an error means that nothing was stored unless only
    the commit's answer was lost; at most eight codes are drawn, 48 random
    digits and 32 statements, and the realtime side is not involved. *)
Theorem create_spec owner name (w : World H) :
  let '(res, w') := Create owner name w in
  ((exists e, res = Fail e /\ w_db w' = w_db w) \/
   (exists id now c, is_code c = true /\ t_rooms (w_db w) !! id = None /\
      (forall i r, t_rooms (w_db w) !! i = Some r -> r_code r = c -> r_ended_at r <> None) /\
      w_db w' = opened id owner c name now (w_db w) /\
      (res = Ok (room_of_row id (new_room_row c name owner now)) \/ res = Fail ErrConn))) /\
  w_rpos w' <= w_rpos w + 48 /\ w_pos w' <= w_pos w + 32 /\ w_rt w' = w_rt w.
Proof.
  unfold Create. pose proof (create_loop_cases maxCodeAttempts owner name w) as Hc.
  pose proof (create_loop_consumes maxCodeAttempts owner name w) as Hn.
  pose proof (create_loop_rt maxCodeAttempts owner name w) as Hr.
  destruct (create_loop maxCodeAttempts owner name w) as [res w']. simpl in Hn, Hr.
  unfold maxCodeAttempts in Hn. destruct Hn. split; [done|]. split; [lia|]. split; [lia|done].
Qed.
End create.
