(* ===== verification/Transfer.v ===== *)
(** * Handing a room over

    [rooms.Service.TransferOwnership] under every environment, and what two
    transfers that interleave leave behind. *)
From stdpp Require Import base gmap sets list strings sorting.
From Stdlib Require Import ZArith Lia.
From S2P Require Import Prelude.
From S2P Require Import GoString.
From S2P Require Import Httpx.
From S2P Require Import Types.
From S2P Require Import Db.
From S2P Require Import Store.
From S2P Require Import StoreFacts.
From S2P Require Import Broadcaster.
From S2P Require Import Service.
From S2P Require Import ServiceFacts.
From S2P Require Import Runs.
From S2P Require Import Samples.

Open Scope convoy_scope.

(** The tables after a committed hand-over from [old] to [new]. *)
Definition handed_over (rid old new : uuid) (row : RoomRow) (mo mn : MemberRow) (t : Tables) : Tables :=
  set_members (fun ms => <[(rid, old) := set_role RoleMember 0 mo]>
                         (<[(rid, new) := set_role RoleOwner 0 mn]> ms))
    (set_rooms <[rid := set_owner new 0 row]> t).

Section transfer.
Context {H : Type}.
Variable rt : option (Broadcaster H).

Lemma StoreTransferOwnership_rt rid old new : rt_silent (H:=H) (StoreTransferOwnership rid old new).
Proof.
  apply in_tx_rt_silent. unfold affected.
  repeat (apply bind_rt_silent; [first [apply stmt_rt|intros w; by rewrite check_run]|intros]).
  done.
Qed.

(** The best-effort copy of the destination into the actor's own marker
    touches only that marker. *)
Definition keep_destination (rid a : uuid) : M H unit :=
  bind (try (GetDestination rid)) (fun dest =>
    match dest with
    | Ok (Some d) =>
        bind (try (UpsertPersonalMarker rid a (Dest_Lat d) (Dest_Lng d) (Dest_Name d))) (fun _ => ret tt)
    | _ => ret tt
    end).

Lemma keep_destination_run rid a (w : World H) :
  exists f w', keep_destination rid a w = (Ok tt, w') /\ w_rt w' = w_rt w /\
    w_db w' = set_markers f (w_db w).
Proof.
  unfold keep_destination, bind, try.
  pose proof (GetDestination_read_only (H:=H) rid w) as [Hd Hr].
  destruct (GetDestination rid w) as [[[d|]|e] w1]; simpl in *;
    try (exists id, w1; rewrite Hd; by destruct (w_db w)).
  set (m := UpsertPersonalMarker rid a _ _ _).
  assert (w_rt (m w1).2 = w_rt w1) as Hrt by apply stmt_rt.
  assert (exists f, w_db (m w1).2 = set_markers f (w_db w1)) as [f Hf].
  { unfold m, UpsertPersonalMarker, exec.
    match goal with |- context [stmt ?b ?p ?g w1] =>
      destruct (stmt_db b p g w1) as [->|(?&?&?&?& E &->)] end.
    - exists id. by destruct (w_db w1).
    - unfold upsert_marker_sql in E. case_match; [|done]. injection E as _ <-.
      eexists. reflexivity. }
  exists f, (m w1).2. destruct (m w1) as [r w2]; simpl in *. by rewrite Hf, Hd, Hrt, Hr.
Qed.

Lemma keep_destination_env rid a (w : World H) : w_env (keep_destination rid a w).2 = w_env w.
Proof.
  revert w. apply bind_env; [apply try_env, bind_env; [apply stmt_env|]|].
  - intros [row|]; [|done]. apply bind_env; [|done]. intros w. unfold scan_dest. by repeat case_match.
  - intros [[d|]|e]; [|done..]. by apply bind_env; [apply try_env, stmt_env|].
Qed.

(** The transfer after its checks. *)
Definition transfer_body (r a u : uuid) : M H unit :=
  bind (keep_destination r a) (fun _ =>
    bind (StoreTransferOwnership r a u) (fun _ => notify rt (fun b => BroadcastOwnerChanged b r u a))).

Lemma TransferOwnership_body r a u (w : World H) :
  TransferOwnership rt r a u w =
    bind (requireOwner r a) (fun _ => bind (check (bool_decide (a = u)) (ErrAPI ErrAlreadyOwner)) (fun _ =>
      bind (AssertMember r u) (fun _ => transfer_body r a u))) w.
Proof.
  unfold TransferOwnership, bind. destruct (requireOwner r a w) as [[?|?] w1]; [|done].
  destruct (check _ _ w1) as [[?|?] w2]; [|done]. destruct (AssertMember r u w2) as [[?|?] w3]; [|done].
  unfold transfer_body, keep_destination, bind.
  by destruct (try (GetDestination r) w3) as [[?|?] w4].
Qed.

(** The store's transfer: nothing, or all of it. *)
Lemma StoreTransferOwnership_cases rid old new (w : World H) mo :
  old <> new -> t_members (w_db w) !! (rid, old) = Some mo ->
  (exists e, (StoreTransferOwnership rid old new w).1 = Fail e /\
     w_db (StoreTransferOwnership rid old new w).2 = w_db w) \/
  (exists row mn, t_rooms (w_db w) !! rid = Some row /\ r_ended_at row = None /\
     t_members (w_db w) !! (rid, new) = Some mn /\ member_active mn = true /\
     w_db (StoreTransferOwnership rid old new w).2 = handed_over rid old new row mo mn (w_db w) /\
     ((StoreTransferOwnership rid old new w).1 = Ok tt \/
      (StoreTransferOwnership rid old new w).1 = Fail ErrConn)).
Proof.
  intros Hne Hmo. unfold StoreTransferOwnership.
  match goal with |- context [in_tx ?b w] =>
    destruct (in_tx_atomic b w) as [?|(w1 & [] & w2 & Hw1 & Hb & Hdb & Hres)] end; [by left|right].
  rewrite Hdb. rewrite <-Hw1 in *. apply (transfer_ok rid old new _ _ mo) in Hb; [|done..].
  destruct Hb as (row & mn & Hr & He & Hmn & Ha & ->). by exists row, mn.
Qed.

(** Without faults a transfer whose conditions hold goes through. *)
Lemma StoreTransferOwnership_ok rid old new (w : World H) row mo mn :
  fault_free w -> old <> new ->
  t_rooms (w_db w) !! rid = Some row -> r_ended_at row = None -> has (t_users (w_db w)) new = true ->
  t_members (w_db w) !! (rid, old) = Some mo ->
  t_members (w_db w) !! (rid, new) = Some mn -> member_active mn = true ->
  exists w', StoreTransferOwnership rid old new w = (Ok tt, w') /\ w_env w' = w_env w /\
    w_db w' = handed_over rid old new row mo mn (w_db w).
Proof.
  intros Hw Hne Hrow Hend Hu Hmo Hmn Hact.
  assert (room_active row = true) as Hra by by apply bool_decide_eq_true.
  unfold fault_free in Hw.
  unfold StoreTransferOwnership, in_tx, bind, tx_exec, stmt, run_sql, select, set_owner_sql,
    update_room, update_member, affected, check. simpl. rewrite Hw. simpl.
  rewrite Hw, Hmn, Hact. simpl. rewrite Hw, Hrow, Hra, Hu. simpl. rewrite Hw, Hmn. simpl.
  rewrite Hw, lookup_insert_ne, Hmo by congruence. simpl. rewrite Hw.
  eexists. split; [reflexivity|done].
Qed.

(** C12 A transfer is all or nothing under every pattern of failures: either
    rooms and memberships stay as they were, the call fails and nothing is
    announced, or the room, the old owner's and the new owner's membership all
    changed together - and then the call succeeds and announces it, or only
    the commit's answer was lost. *)
Theorem transfer_all_or_nothing r a u (w : World H) :
  let '(res, w') := TransferOwnership rt r a u w in
  let t := w_db w in let t' := w_db w' in
  (t_rooms t' = t_rooms t /\ t_members t' = t_members t /\ (exists e, res = Fail e) /\ w_rt w' = w_rt w) \/
  (exists row mo mn, a <> u /\ is_owner t r a = true /\
     t_rooms t !! r = Some row /\ r_ended_at row = None /\
     t_members t !! (r, a) = Some mo /\
     t_members t !! (r, u) = Some mn /\ member_active mn = true /\
     t_rooms t' = <[r := set_owner u 0 row]> (t_rooms t) /\
     t_members t' = <[(r, a) := set_role RoleMember 0 mo]>
                      (<[(r, u) := set_role RoleOwner 0 mn]> (t_members t)) /\
     ((res = Ok tt /\ w_rt w' = announce rt (fun b => BroadcastOwnerChanged b r u a) (w_rt w)) \/
      (res = Fail ErrConn /\ w_rt w' = w_rt w))).
Proof.
  rewrite TransferOwnership_body, bind_unfold, requireOwner_run.
  destruct (decide (next_ok w)); [|by left; eauto].
  destruct (is_owner (w_db w) r a) eqn:Ho; [|by left; eauto].
  rewrite bind_unfold, check_run. case_bool_decide as Hne; [by left; eauto|].
  rewrite bind_unfold. destruct (AssertMember_run r u (advance true w)) as [role ->].
  destruct (decide _); [|by left; eauto]. destruct (is_member _ r u); [|by left; eauto].
  unfold transfer_body. rewrite bind_unfold.
  destruct (keep_destination_run r a (advance true (advance true w))) as (f & w1 & -> & Hrt1 & Hdb1).
  assert (exists mo, t_members (w_db w1) !! (r, a) = Some mo) as [mo Hmo].
  { rewrite Hdb1. simpl. unfold is_owner in Ho. destruct (t_members (w_db w) !! (r, a)); [eauto|done]. }
  rewrite bind_unfold. pose proof (StoreTransferOwnership_rt r a u w1) as Hrt2.
  destruct (StoreTransferOwnership_cases r a u w1 mo Hne Hmo)
    as [(e & He & Hdb)|(row & mn & Hrow & Hend & Hmn & Hact & Hdb & Hres)];
    destruct (StoreTransferOwnership r a u w1) as [res w2]; simpl in Hdb, Hrt2.
  - simpl in He. subst res. simpl. left. rewrite Hdb, Hdb1, Hrt2, Hrt1. eauto.
  - simpl in Hres. rewrite Hdb1 in *. simpl in *.
    destruct Hres as [->| ->]; [destruct rt as [b|]|]; simpl; right; exists row, mo, mn;
      rewrite Hdb, ?Hrt2, ?Hrt1; simpl; repeat (split; [done|]); auto.
Qed.

(** ** Two transfers that interleave *)

(** The part of a transfer before it writes. *)
Definition transfer_checks (r a u : uuid) : M H unit :=
  bind (requireOwner r a) (fun _ => bind (check (bool_decide (a = u)) (ErrAPI ErrAlreadyOwner)) (fun _ =>
    bind (AssertMember r u) (fun _ => ret tt))).

Lemma TransferOwnership_split r a u (w : World H) :
  TransferOwnership rt r a u w = bind (transfer_checks r a u) (fun _ => transfer_body r a u) w.
Proof.
  rewrite TransferOwnership_body. unfold transfer_checks, bind.
  destruct (requireOwner r a w) as [[?|?] w1]; [|done].
  destruct (check _ _ w1) as [[?|?] w2]; [|done]. by destruct (AssertMember r u w2) as [[?|?] w3].
Qed.

(** Two requests of the same owner, each checked before either writes. *)
Definition transfer_race (r a u1 u2 : uuid) : M H unit :=
  bind (transfer_checks r a u1) (fun _ => bind (transfer_checks r a u2) (fun _ =>
    bind (transfer_body r a u1) (fun _ => transfer_body r a u2))).

Lemma transfer_checks_ok r a u (w : World H) :
  fault_free w -> is_owner (w_db w) r a = true -> is_member (w_db w) r u = true -> a <> u ->
  exists w', transfer_checks r a u w = (Ok tt, w') /\ w_env w' = w_env w /\ w_db w' = w_db w.
Proof.
  intros Hw Ho Hm Hne. assert (forall w' : World H, w_env w' = w_env w -> next_ok w') as Hok.
  { intros w' Hw'. unfold next_ok. rewrite Hw'. apply Hw. }
  unfold transfer_checks. rewrite bind_unfold, requireOwner_run, decide_True, Ho by by apply Hok.
  rewrite bind_unfold, check_run, bool_decide_eq_false_2 by done. rewrite bind_unfold.
  destruct (AssertMember_run r u (advance true w)) as [role ->].
  rewrite decide_True by by apply Hok. simpl. rewrite Hm. by eexists.
Qed.

(** The writing part, when its conditions hold. *)
Lemma transfer_body_ok r a u (w : World H) row mo mn :
  fault_free w -> a <> u ->
  t_rooms (w_db w) !! r = Some row -> r_ended_at row = None -> has (t_users (w_db w)) u = true ->
  t_members (w_db w) !! (r, a) = Some mo ->
  t_members (w_db w) !! (r, u) = Some mn -> member_active mn = true ->
  exists w', transfer_body r a u w = (Ok tt, w') /\ w_env w' = w_env w /\
    t_users (w_db w') = t_users (w_db w) /\
    t_rooms (w_db w') = <[r := set_owner u 0 row]> (t_rooms (w_db w)) /\
    t_members (w_db w') = <[(r, a) := set_role RoleMember 0 mo]>
                            (<[(r, u) := set_role RoleOwner 0 mn]> (t_members (w_db w))).
Proof.
  intros Hw Hne Hrow Hend Hu Hmo Hmn Hact. unfold transfer_body. rewrite bind_unfold.
  pose proof (keep_destination_env r a w) as Henv.
  destruct (keep_destination_run r a w) as (f & w1 & Hrun & _ & Hdb). rewrite Hrun in *. simpl in Henv.
  rewrite bind_unfold. destruct (StoreTransferOwnership_ok r a u w1 row mo mn) as (w2 & -> & Henv2 & Hdb2);
    try (rewrite Hdb; done); [by unfold fault_free; rewrite Henv|done..|].
  rewrite Hdb in Hdb2. unfold notify. destruct rt as [b|]; eexists; split; try reflexivity; simpl;
    rewrite Hdb2, Henv2, Henv; done.
Qed.

(** The owner's two transfers to different members, both past their checks
    before either writes, both succeed and leave two members with the owner's
    role: the check and the write are not one transaction. *)
Theorem transfer_race_two_owners r a u1 u2 row (w : World H) :
  fault_free w -> db_wf (w_db w) -> t_rooms (w_db w) !! r = Some row -> r_ended_at row = None ->
  is_owner (w_db w) r a = true -> is_member (w_db w) r u1 = true -> is_member (w_db w) r u2 = true ->
  a <> u1 -> a <> u2 -> u1 <> u2 ->
  exists w', transfer_race r a u1 u2 w = (Ok tt, w') /\
    is_owner (w_db w') r u1 = true /\ is_owner (w_db w') r u2 = true /\ ~ db_wf (w_db w').
Proof.
  intros Hw Hwf Hrow Hend Ho Hm1 Hm2 Ha1 Ha2 H12.
  destruct (transfer_checks_ok r a u1 w) as (w1 & Hrun1 & He1 & Hd1); [done..|].
  destruct (transfer_checks_ok r a u2 w1) as (w2 & Hrun2 & He2 & Hd2);
    [by unfold fault_free; rewrite He1|by rewrite Hd1..|done|].
  unfold is_owner in Ho. destruct (t_members (w_db w) !! (r, a)) as [mo|] eqn:Hmo; [|done].
  unfold is_member in Hm1, Hm2.
  destruct (t_members (w_db w) !! (r, u1)) as [m1|] eqn:Hu1; [|done].
  destruct (t_members (w_db w) !! (r, u2)) as [m2|] eqn:Hu2; [|done].
  assert (forall u m, t_members (w_db w) !! (r, u) = Some m -> has (t_users (w_db w)) u = true) as Hus.
  { intros u m Hu. apply has_spec. by destruct (wf_members _ Hwf _ _ _ Hu). }
  destruct (transfer_body_ok r a u1 w2 row mo m1) as (w3 & Hrun3 & He3 & Hus3 & Hr3 & Hms3);
    [unfold fault_free; by rewrite He2, He1|done|rewrite ?Hd2, ?Hd1; eauto..|done|].
  rewrite Hd2, Hd1 in *.
  destruct (transfer_body_ok r a u2 w3 (set_owner u1 0 row) (set_role RoleMember 0 mo) m2)
    as (w4 & Hrun4 & He4 & Hus4 & Hr4 & Hms4).
  { unfold fault_free. by rewrite He3, He2, He1. }
  { done. } { by rewrite Hr3, lookup_insert_eq. } { done. } { rewrite Hus3. eauto. }
  { by rewrite Hms3, lookup_insert_eq. }
  { by rewrite Hms3, !lookup_insert_ne by congruence. } { done. }
  exists w4. assert (t_members (w_db w4) !! (r, u1) = Some (set_role RoleOwner 0 m1)) as E1.
  { by rewrite Hms4, !lookup_insert_ne, Hms3, lookup_insert_ne, lookup_insert_eq by congruence. }
  assert (t_members (w_db w4) !! (r, u2) = Some (set_role RoleOwner 0 m2)) as E2.
  { by rewrite Hms4, lookup_insert_ne, lookup_insert_eq by congruence. }
  repeat split.
  - unfold transfer_race. by rewrite bind_unfold, Hrun1, bind_unfold, Hrun2, bind_unfold, Hrun3.
  - unfold is_owner. rewrite E1. by apply andb_true_iff.
  - unfold is_owner. rewrite E2. by apply andb_true_iff.
  - intros Hwf4. apply H12. assert (t_rooms (w_db w4) !! r = Some (set_owner u2 0 (set_owner u1 0 row))) as Er.
    { by rewrite Hr4, lookup_insert_eq. }
    rewrite (proj1 (owner_role _ _ _ _ _ Hwf4 E1 Er) eq_refl). done.
Qed.

(** ** A transfer that fails *)

Lemma StoreTransferOwnership_ended rid old new (w : World H) row mn :
  fault_free w -> t_rooms (w_db w) !! rid = Some row -> is_Some (r_ended_at row) ->
  t_members (w_db w) !! (rid, new) = Some mn -> member_active mn = true ->
  obs (StoreTransferOwnership rid old new w) = (Fail RoomsErrNotFound, w_db w, w_rt w).
Proof.
  intros Hw Hrow [e Hend] Hmn Hact.
  assert (room_active row = false) as Hra by (apply bool_decide_eq_false; by rewrite Hend).
  unfold fault_free in Hw.
  unfold StoreTransferOwnership, in_tx, bind, tx_exec, stmt, run_sql, select, set_owner_sql,
    update_room, affected, check, obs. simpl. rewrite Hw. simpl.
  rewrite Hw, Hmn, Hact. simpl. by rewrite Hw, Hrow, Hra.
Qed.

(** A transfer of a room that has ended fails with [ErrNotFound], and yet
    the owner's own marker has been overwritten with the destination. *)
Theorem failed_transfer_moves_marker r a u row lat lng (w : World H) :
  fault_free w -> db_wf (w_db w) -> t_rooms (w_db w) !! r = Some row -> is_Some (r_ended_at row) ->
  r_dest_lat row = Some lat -> r_dest_lng row = Some lng ->
  forallb pg_text_ok (opt_text (r_dest_name row)) = true ->
  is_owner (w_db w) r a = true -> is_member (w_db w) r u = true -> a <> u ->
  obs (TransferOwnership rt r a u w) =
    (Fail RoomsErrNotFound,
     set_markers <[(r, a) := mkMarkerRow lat lng (r_dest_name row) (clock 4 w)]> (w_db w), w_rt w).
Proof.
  intros Hw Hwf Hrow [e Hend] Hlat Hlng Htext Ho Hm Hne.
  destruct (wf_rooms _ Hwf _ _ Hrow) as [_ _ Hdest]. unfold dest_ok in Hdest. rewrite Hlat, Hlng in Hdest.
  destruct (r_dest_set_at row) as [at_|] eqn:Hat; [|by destruct (r_dest_set_by row)].
  destruct (r_dest_set_by row) as [by_|] eqn:Hby; [|done].
  run_start w. rewrite TransferOwnership_body. run_step requireOwner_skip. rewrite Ho. cbn beta iota.
  run_step check_run. rewrite bool_decide_eq_false_2 by done. cbn beta iota.
  destruct (AssertMember_skip 1 r u (w_db w) w Hw) as [role Has]. rewrite bind_unfold, Has, Hm.
  cbn beta iota. unfold transfer_body, keep_destination. rewrite !bind_unfold. unfold try.
  rewrite (GetDestination_run _ _ _ _ _ Hw Hrow). unfold dest_set. rewrite Hlat, Hlng.
  simpl. rewrite Hat, Hby. simpl.
  rewrite (UpsertPersonalMarker_run _ _ _ _ _ 3);
    [|done|done|by apply has_spec; eexists|by apply (owner_rows _ r)].
  simpl. unfold is_member in Hm. destruct (t_members (w_db w) !! (r, u)) as [mn|] eqn:Hmn; [|done].
  rewrite bind_unfold.
  match goal with |- context [StoreTransferOwnership r a u ?w1] =>
    pose proof (StoreTransferOwnership_ended r a u w1 row mn) as Hst;
    destruct (StoreTransferOwnership r a u w1) as [res w2] end.
  unfold obs in *. simpl in Hst. unfold fault_free in Hst. simpl in Hst. rewrite skip_env in Hst.
  specialize (Hst Hw Hrow (ex_intro _ e Hend) Hmn Hm). injection Hst as -> Hdb2 Hrt2.
  simpl. by rewrite Hdb2, Hrt2, skip_rt.
Qed.
End transfer.

(** Ada and Bob as owner and member of a room that ended, destination set. *)
Definition ended_world : World (list rt_call) :=
  run_service (Some trace_broadcaster) (fun r => r)
    [SvcOwner (OpSetDestination f90 f180 (Some "camp") None) 101 1; SvcOwner OpEnd 101 1] convoy_world.

Lemma ended_world_wf : db_wf (w_db ended_world).
Proof. apply run_service_wf, convoy_world_wf. Qed.

Lemma ended_world_calm : fault_free ended_world.
Proof. intros n. vm_compute. reflexivity. Qed.

Lemma transfer_race_two_owners_witness :
  exists w', transfer_race (Some trace_broadcaster) 101 1 2 3 convoy_world = (Ok tt, w') /\
    is_owner (w_db w') 101 2 = true /\ is_owner (w_db w') 101 3 = true /\ ~ db_wf (w_db w').
Proof.
  eapply (transfer_race_two_owners (Some trace_broadcaster) 101 1 2 3 _ convoy_world
    convoy_world_calm convoy_world_wf); [vm_compute; reflexivity..|done|done|done].
Defined.

Definition ended_row : RoomRow :=
  default (new_room_row "" None 0 0) (t_rooms (w_db ended_world) !! 101%N).

Lemma failed_transfer_moves_marker_witness :
  r_dest_name ended_row = Some "camp" /\
  obs (TransferOwnership (Some trace_broadcaster) 101 1 2 ended_world) =
    (Fail RoomsErrNotFound,
     set_markers <[(101, 1)%N := mkMarkerRow f90 f180 (r_dest_name ended_row) (clock 4 ended_world)]>
       (w_db ended_world), w_rt ended_world).
Proof.
  split; [vm_compute; reflexivity|].
  apply (failed_transfer_moves_marker (Some trace_broadcaster) 101 1 2 ended_row f90 f180 ended_world
    ended_world_calm ended_world_wf); [vm_compute; by eauto..|done].
Defined.
