(* ===== verification/TextProps.v ===== *)
(** * Labels and notes

    What [trimLabel] and [trimNotes] make of a text, over its runes. *)
From stdpp Require Import base gmap sets list strings sorting.
From Stdlib Require Import ZArith Lia Ascii.
From S2P Require Import Prelude.
From S2P Require Import GoString.
From S2P Require Import Httpx.
From S2P Require Import Types.
From S2P Require Import Db.
From S2P Require Import Store.
From S2P Require Import Broadcaster.
From S2P Require Import Service.

Open Scope convoy_scope.

#[local] Ltac Zify.zify_post_hook ::= Z.to_euclidean_division_equations.

(** The runes of a normalised text: none of a blank text, else the first
    [cap] runes of the text without its surrounding space. *)
Definition text_spec (cap : nat) (s : string) : option (list rune) :=
  match trim_runes (runes (to_bytes s)) with
  | [] => None
  | rs => Some (take cap rs)
  end.

Lemma count_TrimSpace s :
  ValidString s = true -> RuneCountInString (TrimSpace s) = length (trim_runes (runes (to_bytes s))).
Proof. intros Hs. unfold RuneCountInString. by rewrite TrimSpace_runes. Qed.

Lemma TrimSpace_empty s : ValidString s = true -> TrimSpace s = "" <-> trim_runes (runes (to_bytes s)) = [].
Proof.
  intros Hs. rewrite <-RuneCount_zero. rewrite count_TrimSpace by done.
  apply length_zero_iff_nil.
Qed.

Lemma trim_text_runes cap s :
  ValidString s = true ->
  (fun v => runes (to_bytes v)) <$> trim_text cap (Some s) = text_spec cap s.
Proof.
  intros Hs. unfold trim_text, text_spec. pose proof (TrimSpace_empty s Hs) as He.
  case_bool_decide as Hb.
  { apply He in Hb. by rewrite Hb. }
  rewrite count_TrimSpace by done.
  destruct (trim_runes (runes (to_bytes s))) as [|r rs] eqn:Hr; [by destruct Hb; apply He|].
  destruct (Nat.ltb_spec cap (length (r :: rs))) as [Hlt|Hle].
  - rewrite fmap_Some. eexists. split; [reflexivity|]. rewrite rune_prefix_runes, TrimSpace_runes, Hr; done.
  - rewrite fmap_Some. eexists. split; [reflexivity|]. rewrite TrimSpace_runes, Hr by done.
    by rewrite take_ge.
Qed.

Lemma trim_text_valid cap s v :
  ValidString s = true -> trim_text cap (Some s) = Some v -> ValidString v = true.
Proof.
  intros Hs. unfold trim_text. case_bool_decide; [done|].
  destruct (cap <? _); intros [= <-]; [apply rune_prefix_valid|by apply TrimSpace_valid].
Qed.

(** A zero byte in an encoding is the rune zero. *)
Lemma zero_byte_rune r : valid_rune r = true -> byte_of 0 ∈ encode_rune r -> r = 0%N.
Proof.
  intros Hv. rewrite encode_rune_valid by done. apply valid_rune_spec in Hv.
  assert (forall n, (n < 256)%N -> byte_of 0 = byte_of n -> n = 0%N) as Hb.
  { intros n Hn He. rewrite <-(byte_val_of n), <-He by done. reflexivity. }
  unfold encode_valid.
  destruct (N.ltb_spec r 128); [|destruct (N.ltb_spec r 2048); [|destruct (N.ltb_spec r 65536)]];
    rewrite ?elem_of_cons, elem_of_nil; intros Hin; destruct_or?; try done;
    match goal with He : byte_of 0 = _ |- _ => apply Hb in He; lia end.
Qed.

Lemma zero_byte_runes rs :
  Forall (fun r => valid_rune r = true) rs -> byte_of 0 ∈ encode_runes rs <-> 0%N ∈ rs.
Proof.
  induction 1 as [|r rs Hr Hrs IH]; [split; intros []%not_elem_of_nil|].
  rewrite encode_runes_cons, elem_of_app, IH, elem_of_cons. split; intros [Hz|Hz]; auto.
  - left. symmetry. by apply zero_byte_rune.
  - left. subst r. change (encode_rune 0) with [byte_of 0]. apply list_elem_of_here.
Qed.

Lemma drop_spaces_sub rs r : r ∈ drop_spaces rs -> r ∈ rs.
Proof. intros Hr. destruct (drop_spaces_suffix rs) as [pre Hp]. rewrite Hp. set_solver. Qed.

Lemma trim_runes_sub rs r : r ∈ trim_runes rs -> r ∈ rs.
Proof.
  unfold trim_runes. rewrite elem_of_reverse. intros Hr%drop_spaces_sub.
  rewrite elem_of_reverse in Hr. by apply drop_spaces_sub.
Qed.

(** A normalised text of a text the database takes is one it takes. *)
Lemma trim_text_storable cap s v :
  pg_text_ok s = true -> trim_text cap (Some s) = Some v -> pg_text_ok v = true.
Proof.
  unfold pg_text_ok. rewrite !andb_true_iff, !bool_decide_eq_true. intros [Hs Hz] Hv.
  pose proof (trim_text_valid _ _ _ Hs Hv) as Hvv. split; [done|]. intros Hin. apply Hz.
  rewrite (ValidString_runes s) by done. rewrite (ValidString_runes v) in Hin by done.
  apply zero_byte_runes in Hin; [|apply runes_valid]. apply zero_byte_runes; [apply runes_valid|].
  pose proof (trim_text_runes cap s Hs) as Hr. rewrite Hv in Hr. simpl in Hr.
  unfold text_spec in Hr. apply trim_runes_sub.
  destruct (trim_runes _) as [|r rs] eqn:E; [done|]. injection Hr as Hr. rewrite Hr in Hin.
  apply list_elem_of_lookup in Hin as [i Hi]. apply lookup_take_Some in Hi as [Hi _].
  by eapply list_elem_of_lookup_2.
Qed.

Lemma trim_text_bounds cap s v :
  0 < cap -> ValidString s = true -> trim_text cap (Some s) = Some v ->
  1 <= RuneCountInString v <= cap /\
  (forall r, head (runes (to_bytes v)) = Some r -> IsSpace r = false).
Proof.
  intros Hcap Hs Hv. pose proof (trim_text_runes cap s Hs) as Hr. rewrite Hv in Hr. simpl in Hr.
  unfold text_spec in Hr. destruct (trim_runes _) as [|r rs] eqn:E; [done|]. injection Hr as Hr.
  unfold RuneCountInString. rewrite Hr. destruct cap as [|cap]; [lia|]. simpl. rewrite length_take.
  split; [lia|]. intros r' [= <-]. by apply (trim_runes_head (runes (to_bytes s))); rewrite E.
Qed.

(** A marker label is the first 120 runes, and a destination note the first
    500, of the text without its surrounding space; a blank text is dropped.
    What is kept is valid UTF-8, within its cap, does not start with a space,
    and is a text the database takes whenever the original was. *)
Theorem labels_normalised s :
  ValidString s = true ->
  Forall (fun '(norm, cap) =>
    norm None = None /\
    (fun v => runes (to_bytes v)) <$> norm (Some s) = text_spec cap s /\
    forall v, norm (Some s) = Some v ->
      ValidString v = true /\ 1 <= RuneCountInString v <= cap /\
      (forall r, head (runes (to_bytes v)) = Some r -> IsSpace r = false) /\
      (pg_text_ok s = true -> pg_text_ok v = true))
    [(trimLabel, 120); (trimNotes, 500)].
Proof.
  intros Hs.
  assert (forall cap, 0 < cap -> let norm := trim_text cap in
    norm None = None /\ (fun v => runes (to_bytes v)) <$> norm (Some s) = text_spec cap s /\
    forall v, norm (Some s) = Some v -> ValidString v = true /\ 1 <= RuneCountInString v <= cap /\
      (forall r, head (runes (to_bytes v)) = Some r -> IsSpace r = false) /\
      (pg_text_ok s = true -> pg_text_ok v = true)) as Hnorm.
  { intros cap Hcap norm. split; [done|]. split; [by apply trim_text_runes|]. intros v Hv.
    destruct (trim_text_bounds _ _ _ Hcap Hs Hv). split; [by eapply trim_text_valid|].
    split; [done|]. split; [done|]. intros Ht. by eapply trim_text_storable. }
  apply Forall_cons. split; [apply Hnorm; unfold maxMarkerLabelLen; lia|].
  apply Forall_cons. split; [apply Hnorm; unfold maxDestNotesLen; lia|]. apply Forall_nil_2.
Qed.

Lemma labels_normalised_witness :
  ValidString "  caf  " = true /\ trimLabel (Some "  caf  ") = Some "caf" /\
  Forall (fun '(norm, cap) =>
    norm None = None /\
    (fun v => runes (to_bytes v)) <$> norm (Some "  caf  ") = text_spec cap "  caf  " /\
    forall v, norm (Some "  caf  ") = Some v ->
      ValidString v = true /\ 1 <= RuneCountInString v <= cap /\
      (forall r, head (runes (to_bytes v)) = Some r -> IsSpace r = false) /\
      (pg_text_ok "  caf  " = true -> pg_text_ok v = true))
    [(trimLabel, 120); (trimNotes, 500)].
Proof.
  split; [reflexivity|]. split; [reflexivity|]. apply labels_normalised. reflexivity.
Defined.
