(* ===== verification/RouteProps.v ===== *)
(** * The route: destination and stops

    What the destination and stop operations store, answer and announce. *)
From stdpp Require Import base gmap sets list strings sorting.
From Stdlib Require Import ZArith Lia.
From S2P Require Import Prelude.
From S2P Require Import GoString.
From S2P Require Import Httpx.
From S2P Require Import Types.
From S2P Require Import Db.
From S2P Require Import Store.
From S2P Require Import StoreFacts.
From S2P Require Import Broadcaster.
From S2P Require Import Service.
From S2P Require Import ServiceFacts.
From S2P Require Import Runs.
From S2P Require Import Samples.
From S2P Require Import Order.
From S2P Require Import TextProps.

Open Scope convoy_scope.

(** The route of a room, in order. *)
Definition stops_list (room : uuid) (t : Tables) : list Stop :=
  omap stop_of_row (order_by stop_le (stops_of room t)).

Lemma stops_of_antisym room t p q :
  p ∈ stops_of room t -> q ∈ stops_of room t -> stop_le p q = true -> stop_le q p = true -> p = q.
Proof.
  intros Hp Hq H1 H2. pose proof (stop_le_antisym _ _ H1 H2) as Hi.
  destruct p as [i x], q as [j y]. simpl in Hi. subst j.
  apply stops_of_spec in Hp as [Hp _], Hq as [Hq _]. by simplify_eq.
Qed.

Lemma stops_of_nodup room t : NoDup (stops_of room t).
Proof. apply NoDup_filter, NoDup_map_to_list. Qed.

(** The ordered rows are the ones a sorted permutation lists. *)
Lemma ordered_stops room t l :
  StronglySorted (fun x y => Is_true (stop_le x y)) l -> NoDup l ->
  (forall p, p ∈ l <-> p ∈ stops_of room t) -> order_by stop_le (stops_of room t) = l.
Proof.
  intros Hs Hnd Hl. apply order_by_unique; [apply _|done| |].
  - apply NoDup_Permutation; [apply stops_of_nodup|done|]. intros p. by rewrite Hl.
  - intros p q. apply stops_of_antisym.
Qed.

Lemma ordered_stops_sorted room t :
  StronglySorted (fun x y => Is_true (stop_le x y)) (order_by stop_le (stops_of room t)).
Proof. apply order_by_sorted, _. Qed.

Lemma ordered_stops_nodup room t : NoDup (order_by stop_le (stops_of room t)).
Proof. rewrite order_by_perm. apply stops_of_nodup. Qed.

Lemma ordered_stops_in room t p :
  p ∈ order_by stop_le (stops_of room t) <-> t_stops t !! p.1 = Some p.2 /\ s_room_id p.2 = room.
Proof. rewrite order_by_in by apply _. destruct p as [i s]. apply stops_of_spec. Qed.

(** Every row of well-formed tables scans. *)
Lemma stops_scan room t :
  db_wf t -> mapM stop_of_row (order_by stop_le (stops_of room t)) = Some (stops_list room t).
Proof.
  intros Hwf. unfold stops_list.
  assert (forall p, p ∈ order_by stop_le (stops_of room t) -> is_Some (stop_of_row p)) as Hscan.
  { intros [i s] [Hs _]%ordered_stops_in. simpl in Hs.
    destruct (wf_stops _ Hwf _ _ Hs) as (_ & (u & Hu & _) & _). unfold stop_of_row. simpl. rewrite Hu. by eexists. }
  induction (order_by stop_le (stops_of room t)) as [|p l IH]; [done|].
  destruct (Hscan p) as [st Hst]; [set_solver|]. simpl. rewrite Hst. simpl.
  rewrite IH by set_solver. done.
Qed.

(** ** How the route changes with the table *)

Lemma stops_list_add t sid s st :
  db_wf t -> t_stops t !! sid = None -> stop_of_row (sid, s) = Some st ->
  s_position s = next_position (s_room_id s) t ->
  stops_list (s_room_id s) (set_stops <[sid := s]> t) = stops_list (s_room_id s) t ++ [st].
Proof.
  intros Hwf Hnew Hst Hpos. unfold stops_list.
  rewrite (ordered_stops _ _ (order_by stop_le (stops_of (s_room_id s) t) ++ [(sid, s)])).
  - rewrite omap_app. simpl. by rewrite Hst.
  - apply StronglySorted_snoc; [apply ordered_stops_sorted|]. intros [i x] [Hx Hr]%ordered_stops_in.
    apply Is_true_true, stop_le_spec. simpl in *.
    pose proof (next_position_gt (s_room_id s) t i x Hx Hr). lia.
  - apply NoDup_app. split; [apply ordered_stops_nodup|]. split; [|apply NoDup_singleton].
    intros p Hp ->%list_elem_of_singleton. apply ordered_stops_in in Hp as [Hp _]. simpl in Hp. congruence.
  - intros [i x]. rewrite elem_of_app, ordered_stops_in, list_elem_of_singleton, stops_of_spec. simpl.
    rewrite lookup_insert_Some. split.
    + intros [[Hx Hr]|[= -> ->]]; [|tauto]. split; [|done]. right. split; [congruence|done].
    + intros [[[<- <-]|[Hne Hx]] Hr]; [by right|by left].
Qed.

Lemma stops_list_remove room t sid :
  stops_list room (set_stops (delete sid) t) =
    filter (fun st => Stop_ID st <> sid) (stops_list room t).
Proof.
  unfold stops_list.
  rewrite (ordered_stops _ _ (filter (fun p => p.1 <> sid) (order_by stop_le (stops_of room t)))).
  - apply omap_filter_comm. intros [i x] st. unfold stop_of_row. simpl.
    destruct (s_created_by x); [|done]. by intros [= <-].
  - apply StronglySorted_filter, ordered_stops_sorted.
  - apply NoDup_filter, ordered_stops_nodup.
  - intros [i x]. rewrite list_elem_of_filter, ordered_stops_in, stops_of_spec. simpl.
    rewrite lookup_delete_Some. by intuition congruence.
Qed.

Definition with_label (label : option string) (st : Stop) : Stop :=
  mkStop (Stop_ID st) (Stop_RoomID st) (Stop_Lat st) (Stop_Lng st) label (Stop_Position st)
    (Stop_CreatedBy st) (Stop_CreatedAt st).

Lemma stops_list_relabel room t sid s label :
  t_stops t !! sid = Some s ->
  stops_list room (set_stops <[sid := set_label label s]> t) =
    (fun st => if decide (Stop_ID st = sid) then with_label label st else st) <$> stops_list room t.
Proof.
  intros Hs. unfold stops_list.
  set (f := fun p : uuid * StopRow => if decide (p.1 = sid) then (p.1, set_label label p.2) else p).
  assert (forall p q, stop_le (f p) (f q) = stop_le p q) as Hle.
  { intros p q. unfold f. by destruct (decide (p.1 = sid)), (decide (q.1 = sid)). }
  rewrite (ordered_stops _ _ (f <$> order_by stop_le (stops_of room t))).
  - apply omap_fmap_comm. intros [i x]. unfold f, stop_of_row. simpl.
    destruct (s_created_by x) eqn:Hby; simpl; destruct (decide (i = sid)); simpl; by rewrite Hby.
  - pose proof (ordered_stops_sorted room t) as Hsort.
    induction Hsort as [|p l Hl IH Hp]; [constructor|]. cbn. constructor; [done|].
    rewrite Forall_fmap. eapply Forall_impl; [exact Hp|]. intros q Hq. simpl. by rewrite Hle.
  - apply NoDup_fmap_2_strong; [|apply ordered_stops_nodup].
    intros [i x] [j y] [Hx _]%ordered_stops_in [Hy _]%ordered_stops_in. unfold f. simpl in *.
    destruct (decide (i = sid)), (decide (j = sid)); intros [=]; by simplify_eq.
  - intros [i x]. rewrite list_elem_of_fmap, stops_of_spec. simpl. rewrite lookup_insert_Some. split.
    + intros ([j y] & Hf & [Hy Hr]%ordered_stops_in). unfold f in Hf. simpl in *.
      destruct (decide (j = sid)) as [->|Hne]; injection Hf as -> ->; [|by auto].
      rewrite Hs in Hy. injection Hy as <-. auto.
    + intros [[[<- <-]|[Hne Hx]] Hr].
      * exists (sid, s). rewrite ordered_stops_in. unfold f. simpl. by rewrite decide_True.
      * exists (i, x). rewrite ordered_stops_in. unfold f. simpl. by rewrite decide_False.
Qed.

Lemma ordered_stops_clear room t :
  order_by stop_le (stops_of room (set_stops (filter (fun p => s_room_id p.2 <> room)) t)) = [].
Proof.
  rewrite (ordered_stops _ _ []); [done|constructor|constructor|].
  intros [i x]. rewrite stops_of_spec. simpl. rewrite map_lookup_filter_Some. simpl.
  split; [intros []%not_elem_of_nil|tauto].
Qed.

(** ** Runs of the stop and destination operations *)

Section route.
Context {H : Type}.
Variable rt : option (Broadcaster H).

Lemma bind_obs {A B} (m : M H A) (a : A) (b : B) (w : World H) t h :
  obs (m w) = (Ok a, t, h) -> obs (bind m (fun _ => ret b) w) = (Ok b, t, h).
Proof. unfold obs, bind. destruct (m w) as [[x|e] w']; simpl; by intros [= -> <- <-]. Qed.

(** The re-read and broadcast of the route. *)
Lemma broadcastStops_obs room k t (w : World H) :
  fault_free w -> db_wf t ->
  obs (broadcastStops rt room (set_db t (skip k w))) =
    (Ok tt, t, announce rt (fun b => BroadcastStops b room (stops_list room t)) (w_rt w)).
Proof.
  intros Hw Hwf. unfold broadcastStops, announce. destruct rt as [b|]; [|apply (obs_set_db (H:=H))].
  rewrite bind_unfold. unfold try, ListStops. rewrite bind_unfold, exec_run by done. simpl.
  rewrite stops_scan by done. unfold obs. simpl. by rewrite skip_rt.
Qed.

Lemma storable_label cap s : forallb pg_text_ok (opt_text s) = true ->
  forallb pg_text_ok (opt_text (trim_text cap s)) = true.
Proof.
  destruct s as [s|]; [|done]. cbn [opt_text forallb]. rewrite andb_true_r. intros Hs.
  destruct (trim_text cap (Some s)) as [v|] eqn:Hv; [|done]. cbn [opt_text forallb].
  rewrite andb_true_r. by eapply trim_text_storable.
Qed.

(** C37 Adding a stop on every branch: a stranger and bad coordinates are
    refused; a label that PostgreSQL does not take once it is trimmed, a
    position beyond the column's 32 bits and an identifier that is taken fail
    with the error of the database, and nothing is stored or announced;
    otherwise the stop goes after every stop of the room, and the
    announced route is the old one followed by it. *)
Theorem add_stop_spec room actor lat lng label (w : World H) :
  fault_free w -> db_wf (w_db w) ->
  obs (AddStop rt room actor lat lng label w) =
    let t := w_db w in let h := w_rt w in
    let id := fresh_id 1 w in let pos := next_position room t in
    let s := mkStopRow room lat lng (trimLabel label) pos (Some actor) (clock 2 w) in
    let st := mkStop id room lat lng (trimLabel label) pos actor (clock 2 w) in
    if negb (is_owner t room actor) then (Fail (ErrAPI ErrForbidden), t, h)
    else if bad_coords lat lng then (Fail (ErrAPI ErrInvalidCoords), t, h)
    else if negb (forallb pg_text_ok (opt_text (trimLabel label))) then (Fail (ErrPg bad_text), t, h)
    else if (max_int32 <? pos)%Z then (Fail (ErrPg out_of_range), t, h)
    else if has (t_stops t) id then (Fail (ErrPg unique_violation), t, h)
    else (Ok st, set_stops <[id := s]> t,
          announce rt (fun b => BroadcastStops b room (stops_list room t ++ [st])) h).
Proof.
  intros Hw Hwf. cbv zeta. run_start w. unfold AddStop. run_step requireOwner_skip.
  destruct (is_owner (w_db w) room actor) eqn:Ho; simpl negb; cbn iota; [|apply obs_set_db].
  run_step check_run. destruct (bad_coords lat lng); [apply obs_set_db|].
  destruct (owner_rows _ _ _ Hwf Ho) as [Hroom Huser].
  unfold StoreAddStop. rewrite !bind_unfold. rewrite exec_run by done.
  destruct (forallb pg_text_ok (opt_text (trimLabel label))); cbn [negb]; [|apply obs_set_db].
  unfold add_stop_sql.
  destruct (Z.ltb_spec max_int32 (next_position room (w_db w))); [apply obs_set_db|].
  destruct (has (t_stops (w_db w)) (fresh_id 1 w)) eqn:Hid; [apply obs_set_db|]. apply has_false in Hid as Hfresh.
  rewrite Hroom, Huser. cbn [negb orb]. cbn beta iota.
  set (s := mkStopRow _ _ _ _ _ _ _). unfold scan_stop. cbn [stop_of_row s_created_by s].
  apply (bind_obs _ tt). rewrite broadcastStops_obs; [|done|].
  2:{ eapply wf_insert_stop; try done; [by apply has_spec|by apply has_spec]. }
  pose proof (stops_list_add (w_db w) (fresh_id 1 w) s _ Hwf Hfresh eq_refl eq_refl) as Hadd.
  change (s_room_id s) with room in Hadd. by rewrite Hadd.
Qed.

(** Removing a stop: a stop of another room, or of none, is not found and
    nothing changes; otherwise it is deleted and the announced route is the old
    one without it, in the same order. *)
Theorem remove_stop_spec room actor sid (w : World H) :
  fault_free w -> db_wf (w_db w) ->
  obs (RemoveStop rt room actor sid w) =
    let t := w_db w in let h := w_rt w in
    if negb (is_owner t room actor) then (Fail (ErrAPI ErrForbidden), t, h)
    else match t_stops t !! sid with
         | Some s =>
             if bool_decide (s_room_id s = room)
             then (Ok tt, set_stops (delete sid) t,
                   announce rt (fun b => BroadcastStops b room
                     (filter (fun st => Stop_ID st <> sid) (stops_list room t))) h)
             else (Fail RoomsErrNotFound, t, h)
         | None => (Fail RoomsErrNotFound, t, h)
         end.
Proof.
  intros Hw Hwf. cbv zeta. run_start w. unfold RemoveStop. run_step requireOwner_skip.
  destruct (is_owner (w_db w) room actor) eqn:Ho; simpl negb; cbn iota; [|apply obs_set_db].
  unfold StoreRemoveStop. rewrite !bind_unfold. rewrite exec_run by done. unfold remove_stop_sql.
  cbn [forallb]. cbn beta iota.
  destruct (t_stops (w_db w) !! sid) as [s|] eqn:Hs; [|apply obs_set_db].
  destruct (bool_decide (s_room_id s = room)); [|apply obs_set_db]. unfold affected.
  rewrite check_run. change (1 =? 0) with false. cbn beta iota.
  rewrite broadcastStops_obs, stops_list_remove; [done|done|].
  apply wf_sub_stops; [done|]. intros i x Hx. by apply lookup_delete_Some in Hx as [_ Hx].
Qed.

(** Relabelling a stop of the room: position, coordinates and order stay,
    the normalised label replaces the old one, and the announced route carries
    it; a stop of another room, or of none, is not found. *)
Theorem update_stop_label_spec room actor sid label (w : World H) :
  fault_free w -> db_wf (w_db w) -> forallb pg_text_ok (opt_text label) = true ->
  obs (UpdateStopLabel rt room actor sid label w) =
    let t := w_db w in let h := w_rt w in let l := trimLabel label in
    if negb (is_owner t room actor) then (Fail (ErrAPI ErrForbidden), t, h)
    else match t_stops t !! sid with
         | Some s =>
             if bool_decide (s_room_id s = room)
             then (match stop_of_row (sid, set_label l s) with Some st => Ok st | None => Fail ErrScan end,
                   set_stops <[sid := set_label l s]> t,
                   announce rt (fun b => BroadcastStops b room
                     ((fun st => if decide (Stop_ID st = sid) then with_label l st else st)
                        <$> stops_list room t)) h)
             else (Fail RoomsErrNotFound, t, h)
         | None => (Fail RoomsErrNotFound, t, h)
         end.
Proof.
  intros Hw Hwf Hlabel. cbv zeta. run_start w. unfold UpdateStopLabel. run_step requireOwner_skip.
  destruct (is_owner (w_db w) room actor) eqn:Ho; simpl negb; cbn iota; [|apply obs_set_db].
  unfold StoreUpdateStopLabel. rewrite !bind_unfold. rewrite found_run, exec_run by done.
  unfold trimLabel. rewrite storable_label by done. unfold update_label_sql.
  destruct (t_stops (w_db w) !! sid) as [s|] eqn:Hs; [|apply obs_set_db].
  destruct (bool_decide (s_room_id s = room)); [|apply obs_set_db]. cbn beta iota.
  destruct (wf_stops _ Hwf _ _ Hs) as (_ & (u & Hu & _) & _).
  unfold scan_stop, stop_of_row. cbn [s_created_by set_label snd fst]. rewrite Hu.
  apply (bind_obs _ tt). rewrite broadcastStops_obs, (stops_list_relabel _ _ _ s) by
    (try done; by eapply wf_update_stop). done.
Qed.

(** Setting the destination on every branch. *)
Theorem set_destination_spec room actor lat lng name notes (w : World H) :
  fault_free w -> db_wf (w_db w) ->
  forallb pg_text_ok (opt_text name) = true -> forallb pg_text_ok (opt_text notes) = true ->
  obs (SetDestination rt room actor lat lng name notes w) =
    let t := w_db w in let h := w_rt w in
    let d := mkDestination lat lng (trimLabel name) (trimNotes notes) (clock 2 w) actor in
    if negb (is_owner t room actor) then (Fail (ErrAPI ErrForbidden), t, h)
    else if bad_coords lat lng then (Fail (ErrAPI ErrInvalidCoords), t, h)
    else match t_rooms t !! room with
         | Some row =>
             if room_active row
             then (Ok d,
                   set_rooms <[room := set_dest lat lng (trimLabel name) (trimNotes notes) actor (clock 2 w) row]> t,
                   announce rt (fun b => BroadcastDestination b room (Some d)) h)
             else (Fail RoomsErrNotFound, t, h)
         | None => (Fail RoomsErrNotFound, t, h)
         end.
Proof.
  intros Hw Hwf Hname Hnotes. cbv zeta. run_start w. unfold SetDestination. run_step requireOwner_skip.
  destruct (is_owner (w_db w) room actor) eqn:Ho; simpl negb; cbn iota; [|apply obs_set_db].
  run_step check_run. destruct (bad_coords lat lng); [apply obs_set_db|].
  destruct (owner_rows _ _ _ Hwf Ho) as [_ Huser].
  unfold StoreSetDestination. rewrite !bind_unfold. rewrite found_run, exec_run by done.
  rewrite forallb_app. unfold trimLabel, trimNotes. rewrite !storable_label by done.
  unfold set_dest_sql, update_room. cbn [andb]. cbn beta iota.
  destruct (t_rooms (w_db w) !! room) as [row|]; [|apply obs_set_db].
  destruct (room_active row); [|apply obs_set_db]. rewrite Huser. cbn beta iota.
  rewrite <-(obs_notify_ret rt _ _ _ 2). done.
Qed.

(** Clearing the destination of an active room also drops its stops and
    announces both; from then on there is no destination to read, no stop to
    list, and an edit of its name or notes finds nothing to edit. *)
Theorem clear_destination_spec room actor row (w : World H) :
  fault_free w -> db_wf (w_db w) -> is_owner (w_db w) room actor = true ->
  t_rooms (w_db w) !! room = Some row -> r_ended_at row = None ->
  let t' := set_stops (filter (fun p => s_room_id p.2 <> room))
              (set_rooms <[room := clear_dest (clock 2 w) row]> (w_db w)) in
  obs (ClearDestination rt room actor w) =
    (Ok tt, t', announce rt (fun b h => BroadcastStops b room [] (BroadcastDestination b room None h)) (w_rt w)) /\
  forall w' : World H, fault_free w' -> w_db w' = t' ->
    (GetDestination room w').1 = Ok None /\ (ListStops room w').1 = Ok [] /\
    forall n d, forallb pg_text_ok (opt_text n ++ opt_text d) = true ->
      (StoreUpdateDestinationMeta room n d w').1 = Fail RoomsErrNotFound.
Proof.
  intros Hw Hwf Ho Hrow Hend t'. assert (room_active row = true) as Hra by by apply bool_decide_eq_true.
  assert (t_rooms t' !! room = Some (clear_dest (clock 2 w) row)) as Hrow' by apply lookup_insert_eq.
  split.
  - run_start w. unfold ClearDestination. run_step requireOwner_skip. rewrite Ho. cbn iota.
    unfold StoreClearDestination, StoreClearStops. rewrite !bind_unfold.
    rewrite update_room_run, Hrow, Hra by done. unfold affected. rewrite check_run.
    change (1 =? 0) with false. cbn beta iota. rewrite bind_unfold, exec_run by done. cbn [forallb]. cbn beta iota. rewrite bind_unfold.
    unfold notify, announce. destruct rt as [b|]; unfold obs; simpl; by rewrite skip_rt.
  - intros w' Hw' Ht. assert (w' = set_db t' (skip 0 w')) as -> by (rewrite <-Ht; symmetry; apply (set_db_skip 0)).
    split; [|split].
    + by rewrite (GetDestination_run _ _ _ _ _ Hw' Hrow').
    + unfold ListStops. rewrite bind_unfold, exec_run by done. simpl. unfold t'. by rewrite ordered_stops_clear.
    + intros n d Hnd. unfold StoreUpdateDestinationMeta. rewrite bind_unfold, found_run.
      rewrite update_room_run by done. by rewrite Hrow', andb_false_r.
Qed.
End route.

(** Ada's room with a destination and two stops, 113 and 116. *)
Definition route_world : World (list rt_call) :=
  run_service (Some trace_broadcaster) (fun r => r)
    [SvcOwner (OpSetDestination f90 f180 (Some "camp") None) 101 1;
     SvcOwner (OpAddStop f90 f180 (Some "fuel")) 101 1; SvcOwner (OpAddStop fneg90 f180 None) 101 1]
    convoy_world.

Lemma route_world_wf : db_wf (w_db route_world).
Proof. apply run_service_wf, convoy_world_wf. Qed.

Lemma route_world_calm : fault_free route_world.
Proof. intros n. vm_compute. reflexivity. Qed.

Example route_world_stops : Stop_ID <$> stops_list 101 (w_db route_world) = [113; 116]%N.
Proof. vm_compute. reflexivity. Qed.

Definition route_row : RoomRow :=
  default (new_room_row "" None 0 0) (t_rooms (w_db route_world) !! 101%N).

Lemma add_stop_spec_witness :
  fst (fst (obs (AddStop (Some trace_broadcaster) 101 1 f90 fneg180 (Some (of_bytes [byte_of 0])) route_world))) =
    Fail (ErrPg bad_text) /\
  let '(res, t, h) := obs (AddStop (Some trace_broadcaster) 101 1 f90 fneg180 (Some " café ") route_world) in
  exists st, res = Ok st /\ Stop_Position st = 2%Z /\ Stop_Label st = Some "café" /\
    h = w_rt route_world ++ [CallStops 101 (stops_list 101 (w_db route_world) ++ [st])].
Proof.
  rewrite !(add_stop_spec (Some trace_broadcaster) 101 1 f90 fneg180 _ route_world route_world_calm route_world_wf).
  split; [vm_compute; reflexivity|]. vm_compute. eexists. repeat split.
Defined.

Lemma remove_stop_spec_witness :
  fault_free route_world /\
  let '(res, t, h) := obs (RemoveStop (Some trace_broadcaster) 101 1 113 route_world) in
  res = Ok tt /\ Stop_ID <$> stops_list 101 t = [116]%N.
Proof.
  split; [exact route_world_calm|].
  rewrite (remove_stop_spec (Some trace_broadcaster) 101 1 113 route_world route_world_calm route_world_wf).
  vm_compute. repeat split.
Defined.

Lemma update_stop_label_spec_witness :
  fault_free route_world /\
  let '(res, t, h) := obs (UpdateStopLabel (Some trace_broadcaster) 101 1 116 (Some "rest") route_world) in
  Stop_Label <$> stops_list 101 t = [Some "fuel"; Some "rest"].
Proof.
  split; [exact route_world_calm|].
  rewrite (update_stop_label_spec (Some trace_broadcaster) 101 1 116 (Some "rest") route_world
    route_world_calm route_world_wf); [|vm_compute; reflexivity].
  vm_compute. reflexivity.
Defined.

Lemma set_destination_spec_witness :
  fault_free convoy_world /\
  let '(res, t, h) := obs (SetDestination (Some trace_broadcaster) 101 1 f90 f180 (Some "camp ") (Some " ")
                             convoy_world) in
  exists d, res = Ok d /\ Dest_Name d = Some "camp" /\ Dest_Notes d = None /\
    h = w_rt convoy_world ++ [CallDestination 101 (Some d)].
Proof.
  split; [exact convoy_world_calm|].
  rewrite (set_destination_spec (Some trace_broadcaster) 101 1 f90 f180 (Some "camp ") (Some " ")
    convoy_world convoy_world_calm convoy_world_wf); [|vm_compute; reflexivity..].
  vm_compute. eexists. repeat split.
Defined.

Lemma clear_destination_spec_witness :
  stops_list 101 (w_db route_world) <> [] /\
  exists t', obs (ClearDestination (Some trace_broadcaster) 101 1 route_world) =
    (Ok tt, t', announce (Some trace_broadcaster)
       (fun b h => BroadcastStops b 101 [] (BroadcastDestination b 101 None h)) (w_rt route_world)) /\
  forall w' : World (list rt_call), fault_free w' -> w_db w' = t' ->
    (GetDestination 101 w').1 = Ok None /\ (ListStops 101 w').1 = Ok [] /\
    forall n d, forallb pg_text_ok (opt_text n ++ opt_text d) = true ->
      (StoreUpdateDestinationMeta 101 n d w').1 = Fail RoomsErrNotFound.
Proof.
  split; [vm_compute; discriminate|]. eexists.
  apply (clear_destination_spec (Some trace_broadcaster) 101 1 route_row route_world route_world_calm
    route_world_wf); vm_compute; reflexivity.
Defined.
