(* ===== verification/MarkerProps.v ===== *)
(** * Personal markers are private

    No request but its owner's own changes a personal marker, nothing about it
    is announced, and a room's detail shows a viewer only their own. *)
From stdpp Require Import base gmap sets list strings sorting.
From Stdlib Require Import ZArith Lia.
From S2P Require Import Prelude.
From S2P Require Import GoString.
From S2P Require Import Httpx.
From S2P Require Import Types.
From S2P Require Import Db.
From S2P Require Import Store.
From S2P Require Import StoreFacts.
From S2P Require Import Broadcaster.
From S2P Require Import Service.
From S2P Require Import ServiceFacts.
From S2P Require Import Runs.
From S2P Require Import Samples.

Open Scope convoy_scope.

(** The requests by which [user] may change their own marker in [room]. *)
Definition own_marker_op (op : service_op) (room user : uuid) : bool :=
  match op with
  | SvcMember (OpSetPersonalMarker _ _ _) r u => bool_decide ((r, u) = (room, user))
  | SvcMember OpClearPersonalMarker r u => bool_decide ((r, u) = (room, user))
  | SvcOwner (OpTransferOwnership _) r a => bool_decide ((r, a) = (room, user))
  | _ => false
  end.

(** Follows the composition of an operation down to its statements. *)
Ltac preserves_tac :=
  repeat lazymatch goal with
  | |- preserves _ (bind _ _) => apply bind_preserves; [|intros]
  | |- preserves _ (try _) => apply try_preserves
  | |- preserves _ (on_error _ _) => apply on_error_preserves
  | |- preserves _ (catch _ _) => apply catch_preserves; [|intros]
  | |- preserves _ (scan_row _) => apply scan_row_preserves
  | |- preserves _ (rt_do _) => apply rt_do_preserves
  | |- preserves _ (notify _ _) => apply notify_preserves
  | |- preserves _ (broadcastStops _ _) => apply broadcastStops_preserves
  | |- preserves _ (exec _ _) => apply stmt_preserves
  | |- preserves _ (tx_exec _ _) => apply stmt_preserves
  | |- preserves _ (match ?x with _ => _ end) => destruct x
  | |- preserves _ _ =>
      first [ apply read_only_preserves; solve [auto with store_ro nocore]
            | intros ?w ?Hw; exact Hw ]
  end.

Section markers.
Context {H : Type}.
Variable rt : option (Broadcaster H).
Variable unicode_upper : rune -> rune.

(** What a room and a user hold by way of marker. *)
Definition marker_is (room user : uuid) (o : option MarkerRow) (t : Tables) : Prop :=
  t_markers t !! (room, user) = o.

Lemma in_tx_preserves_body {A} (P : Tables -> Prop) (body : M H A) :
  preserves P body -> preserves P (in_tx body).
Proof.
  intros Hb. apply in_tx_preserves. intros w a w' HP Hrun. specialize (Hb w HP). by rewrite Hrun in Hb.
Qed.

Lemma CreateRoom_marker r u o c n x : preserves (H:=H) (marker_is r u o) (CreateRoom c n x).
Proof.
  apply in_tx_preserves_body. preserves_tac; intros now id t a' t' HP;
    unfold insert_room, insert_member; repeat case_match; intros; simplify_eq; exact HP.
Qed.

Lemma create_loop_marker r u o k c n : preserves (H:=H) (marker_is r u o) (create_loop k c n).
Proof.
  induction k as [|k IH]; simpl; [by intros w|].
  apply bind_preserves; [apply read_only_preserves, generateCode_read_only|]. intros code.
  apply bind_preserves; [apply try_preserves, CreateRoom_marker|].
  intros [room|[]]; try (by intros w). destruct (bool_decide _); [done|by intros w].
Qed.

Lemma StoreTransferOwnership_marker r u o r' a b :
  preserves (H:=H) (marker_is r u o) (StoreTransferOwnership r' a b).
Proof.
  apply in_tx_preserves_body. unfold affected, check. preserves_tac; intros now id t a' t' HP;
    unfold select, set_owner_sql, update_room, update_member; repeat case_match; intros; simplify_eq; exact HP.
Qed.

(** Every statement of the store but those of the three marker requests. *)
Ltac other_tables :=
  preserves_tac; intros now id t a' t' HP;
  unfold select, update_room, update_member, set_dest_sql, add_stop_sql, remove_stop_sql, update_label_sql,
    create_message_sql, upsert_member_sql, insert_member;
  repeat case_match; intros; simplify_eq; exact HP.

Lemma StoreSetDestination_marker r u o r' a lat lng n d :
  preserves (H:=H) (marker_is r u o) (StoreSetDestination r' a lat lng n d).
Proof.
  unfold StoreSetDestination. preserves_tac. intros now id t x t' HP. unfold set_dest_sql, update_room.
  destruct (t_rooms t !! r') as [row|]; [|by intros [= _ <-]].
  destruct (room_active row); [|by intros [= _ <-]]. destruct (has _ _); [|done]. by intros [= _ <-].
Qed.

Lemma upsert_marker_other r u o r' u' lat lng l :
  (r', u') <> (r, u) -> preserves (H:=H) (marker_is r u o) (UpsertPersonalMarker r' u' lat lng l).
Proof.
  intros Hne. apply marker_preserves. intros t k Ht. unfold marker_is in *. simpl.
  by rewrite lookup_insert_ne.
Qed.

Lemma delete_marker_other r u o r' u' :
  (r', u') <> (r, u) -> preserves (H:=H) (marker_is r u o) (DeletePersonalMarker r' u').
Proof.
  intros Hne. apply stmt_preserves. intros now id t a t' Ht [= _ <-]. unfold marker_is in *. simpl.
  by rewrite lookup_delete_ne.
Qed.

Lemma owner_op_marker op r u o r' a :
  own_marker_op (SvcOwner op r' a) r u = false ->
  preserves (H:=H) (marker_is r u o) (run_owner_op rt op r' a).
Proof.
  intros Hop. destruct op; simpl; try apply discard_preserves.
  all: unfold SetDestination, UpdateDestinationMeta, ClearDestination, AddStop, UpdateStopLabel,
    RemoveStop, ClearStops, Rename, Mute, Kick, End_, StoreUpdateDestinationMeta,
    StoreClearDestination, StoreAddStop, StoreUpdateStopLabel, StoreRemoveStop, StoreClearStops, UpdateName,
    SetMuted, StoreKick, EndRoom.
  all: try solve [other_tables].
  - preserves_tac. apply StoreSetDestination_marker.
  - simpl in Hop. apply bool_decide_eq_false in Hop. unfold TransferOwnership. preserves_tac.
    + by apply upsert_marker_other.
    + apply StoreTransferOwnership_marker.
Qed.

Lemma member_op_marker op r u o r' a :
  own_marker_op (SvcMember op r' a) r u = false ->
  preserves (H:=H) (marker_is r u o) (run_member_op rt op r' a).
Proof.
  intros Hop. destruct op; simpl in *; try apply discard_preserves; try apply bool_decide_eq_false in Hop;
    unfold SetPersonalMarker, ClearPersonalMarker, PostMessage, ListMessages, CreateMessage.
  - preserves_tac. by apply upsert_marker_other.
  - preserves_tac. by apply delete_marker_other.
  - other_tables.
  - preserves_tac.
Qed.

Lemma Join_marker r u o user code : preserves (H:=H) (marker_is r u o) (Join rt unicode_upper user code).
Proof. unfold Join, UpsertMember. other_tables. Qed.

Lemma Leave_marker r u o r' user : preserves (H:=H) (marker_is r u o) (Leave rt r' user).
Proof. unfold Leave, MarkLeft. other_tables. Qed.

(** A member's own marker request never reaches the realtime side. *)
Lemma own_marker_silent op room user :
  match op with OpSetPersonalMarker _ _ _ | OpClearPersonalMarker => True | _ => False end ->
  rt_silent (H:=H) (run_member_op rt op room user).
Proof.
  intros Hop. destruct op; try done; simpl; unfold discard, SetPersonalMarker, ClearPersonalMarker.
  - apply bind_rt_silent; [|done].
    apply bind_rt_silent; [apply read_only_rt_silent, AssertMember_read_only|intros _].
    apply bind_rt_silent; [intros w; by rewrite check_run|intros _; apply stmt_rt].
  - apply bind_rt_silent; [apply read_only_rt_silent, AssertMember_read_only|intros _; apply stmt_rt].
Qed.

(** Personal markers are private under every pattern of failures: a
    request changes a user's marker in a room only when it is that user's own
    marker request or hand-over there, a marker request tells the realtime side
    nothing, and a detail carries the viewer's marker and no other. *)
Theorem markers_private op room user (w : World H) :
  let w' := (run_service_op rt unicode_upper op w).2 in
  (own_marker_op op room user = false ->
   t_markers (w_db w') !! (room, user) = t_markers (w_db w) !! (room, user)) /\
  (match op with
   | SvcMember (OpSetPersonalMarker _ _ _) _ _ | SvcMember OpClearPersonalMarker _ _ => w_rt w' = w_rt w
   | _ => True
   end) /\
  forall d w2, Detail rt room user w = (Ok d, w2) ->
    RD_PersonalMarker d = marker_of_row <$> t_markers (w_db w) !! (room, user).
Proof.
  split; [|split].
  - intros Hop. set (o := t_markers (w_db w) !! (room, user)).
    assert (preserves (marker_is room user o) (run_service_op rt unicode_upper op)) as Hp; [|by apply Hp].
    destruct op; simpl; try apply discard_preserves.
    + apply create_loop_marker.
    + apply Join_marker.
    + apply Leave_marker.
    + apply read_only_preserves, Detail_read_only.
    + apply read_only_preserves, ListActiveForUser_read_only.
    + by apply owner_op_marker.
    + by apply member_op_marker.
  - destruct op as [| | | | | |[]]; try done; simpl.
    + by apply (own_marker_silent (OpSetPersonalMarker _ _ _)).
    + by apply (own_marker_silent OpClearPersonalMarker).
  - intros d w2 Hrun. unfold Detail in Hrun.
    apply bind_ok in Hrun as (r & w3 & E1 & Hrun). apply bind_ok in Hrun as (ms & w4 & E2 & Hrun).
    apply bind_ok in Hrun as (de & w5 & E3 & Hrun). apply bind_ok in Hrun as (pm & w6 & E4 & Hrun).
    apply bind_ok in Hrun as (st & w7 & E5 & Hrun).
    pose proof (GetByID_read_only (H:=H) room w) as [D1 _].
    pose proof (ListMembers_read_only (H:=H) room w3) as [D2 _].
    pose proof (GetDestination_read_only (H:=H) room w4) as [D3 _].
    rewrite E1 in D1. rewrite E2 in D2. rewrite E3 in D3. simpl in *.
    apply stmt_ok in E4 as (? & ? & [= E4 _] & _). rewrite D3, D2, D1 in E4.
    assert (RD_PersonalMarker d = pm) as ->; [|by rewrite <-E4].
    destruct rt as [b|]; by injection Hrun as <- _.
Qed.
End markers.
