(* ===== verification/RoomMachine.v ===== *)
(** * What a convoy is, without tables

    A room as its users know it - who owns it, who is in it and how, where it
    goes, what was said - and the events that change it.  Which request may
    cause which event is [caused]; [Refinement] shows that the statements of
    the service do nothing else to the tables. *)
From stdpp Require Import base gmap sets list strings.
From Stdlib Require Import ZArith.
From S2P Require Import Prelude.
From S2P Require Import GoString.
From S2P Require Import Httpx.
From S2P Require Import Types.
From S2P Require Import Db.
From S2P Require Import Store.
From S2P Require Import Broadcaster.
From S2P Require Import Service.
From S2P Require Import ServiceFacts.

(** ** The state of a room *)

(** Somebody who came at some time is in the room, went, or was thrown out. *)
Inductive standing := Here | Away | Out.

Record participant := mkParticipant { pt_standing : standing; pt_muted : bool }.

Record goal := mkGoal { go_lat : float64; go_lng : float64; go_name : option string; go_notes : option string; go_by : uuid }.

Record halt := mkHalt { ha_id : uuid; ha_lat : float64; ha_lng : float64; ha_label : option string; ha_by : uuid }.

Record pin := mkPin { pi_lat : float64; pi_lng : float64; pi_label : option string }.

Record convoy := mkConvoy {
  cv_code : string;
  cv_name : option string;
  cv_open : bool;
  cv_owner : uuid;
  cv_people : gmap uuid participant;
  cv_goal : option goal;
  cv_halts : list halt;
  cv_pins : gmap uuid pin;
  cv_chat : gmap uuid (uuid * string);
}.

(** ** The events *)

Inductive room_event :=
| Opened (owner : uuid) (code : string) (name : option string)
| CameIn (u : uuid)
| WentAway (u : uuid)
| Muted (u : uuid) (muted : bool)
| ThrownOut (u : uuid)
| Ended
| Renamed (name : option string)
| GoalSet (lat lng : float64) (name notes : option string) (by_ : uuid)
| GoalDescribed (name notes : option string)
| GoalCleared
| HaltAdded (id : uuid) (lat lng : float64) (label : option string) (by_ : uuid)
| HaltRemoved (id : uuid)
| HaltsCleared
| HaltLabelled (id : uuid) (label : option string)
| HandedOver (old new : uuid)
| Pinned (u : uuid) (lat lng : float64) (label : option string)
| Unpinned (u : uuid)
| Said (id : uuid) (u : uuid) (body : string).

Definition set_people f c :=
  mkConvoy (cv_code c) (cv_name c) (cv_open c) (cv_owner c) (f (cv_people c)) (cv_goal c) (cv_halts c) (cv_pins c) (cv_chat c).
Definition set_goal g c :=
  mkConvoy (cv_code c) (cv_name c) (cv_open c) (cv_owner c) (cv_people c) g (cv_halts c) (cv_pins c) (cv_chat c).
Definition set_halts f c :=
  mkConvoy (cv_code c) (cv_name c) (cv_open c) (cv_owner c) (cv_people c) (cv_goal c) (f (cv_halts c)) (cv_pins c) (cv_chat c).
Definition set_pins f c :=
  mkConvoy (cv_code c) (cv_name c) (cv_open c) (cv_owner c) (cv_people c) (cv_goal c) (cv_halts c) (f (cv_pins c)) (cv_chat c).

(** Somebody who is in the room gets another entry. *)
Definition change_here (u : uuid) (f : participant -> participant) (c : convoy) : option convoy :=
  match cv_people c !! u with
  | Some (mkParticipant Here m) => Some (set_people <[u := f (mkParticipant Here m)]> c)
  | _ => None
  end.

Definition when_open (c : convoy) (c' : convoy) : option convoy := if cv_open c then Some c' else None.

(** What an event makes of a room that exists; [None] where it cannot happen.
    People, halts, pins and words do not ask whether the room is open. *)
Definition change (e : room_event) (c : convoy) : option convoy :=
  match e with
  | Opened _ _ _ => None
  | CameIn u =>
      Some (set_people <[u := mkParticipant Here (from_option pt_muted false (cv_people c !! u))]> c)
  | WentAway u => change_here u (fun p => mkParticipant Away (pt_muted p)) c
  | Muted u b => change_here u (fun _ => mkParticipant Here b) c
  | ThrownOut u => change_here u (fun p => mkParticipant Out (pt_muted p)) c
  | Ended =>
      when_open c (mkConvoy (cv_code c) (cv_name c) false (cv_owner c) (cv_people c) (cv_goal c) (cv_halts c) (cv_pins c) (cv_chat c))
  | Renamed name =>
      when_open c (mkConvoy (cv_code c) name true (cv_owner c) (cv_people c) (cv_goal c) (cv_halts c) (cv_pins c) (cv_chat c))
  | GoalSet lat lng name notes by_ => when_open c (set_goal (Some (mkGoal lat lng name notes by_)) c)
  | GoalDescribed name notes =>
      g ← cv_goal c; when_open c (set_goal (Some (mkGoal (go_lat g) (go_lng g) name notes (go_by g))) c)
  | GoalCleared => when_open c (set_goal None c)
  | HaltAdded id lat lng label by_ => Some (set_halts (fun l => l ++ [mkHalt id lat lng label by_]) c)
  | HaltRemoved id => Some (set_halts (filter (fun h => ha_id h <> id)) c)
  | HaltsCleared => Some (set_halts (fun _ => []) c)
  | HaltLabelled id label =>
      Some (set_halts (fmap (fun h => if decide (ha_id h = id) then mkHalt id (ha_lat h) (ha_lng h) label (ha_by h) else h)) c)
  | HandedOver old new =>
      match cv_people c !! new with
      | Some (mkParticipant Here _) =>
          if decide (cv_owner c = old /\ old <> new) then
            when_open c (mkConvoy (cv_code c) (cv_name c) true new (cv_people c) (cv_goal c) (cv_halts c) (cv_pins c) (cv_chat c))
          else None
      | _ => None
      end
  | Pinned u lat lng label => Some (set_pins <[u := mkPin lat lng label]> c)
  | Unpinned u => Some (set_pins (delete u) c)
  | Said id u body =>
      if decide (cv_chat c !! id = None) then
        Some (mkConvoy (cv_code c) (cv_name c) (cv_open c) (cv_owner c) (cv_people c) (cv_goal c) (cv_halts c) (cv_pins c)
                (<[id := (u, body)]> (cv_chat c)))
      else None
  end.

(** A room comes into being open, with its owner in it and nothing else. *)
Definition apply_event (e : room_event) (o : option convoy) : option convoy :=
  match o, e with
  | None, Opened owner code name =>
      Some (mkConvoy code name true owner {[owner := mkParticipant Here false]} None [] ∅ ∅)
  | None, _ => None
  | Some c, _ => change e c
  end.

(** ** Who causes what *)

Definition owner_causes (op : owner_op) (actor : uuid) (e : room_event) : Prop :=
  match op, e with
  | OpSetDestination lat lng n d, GoalSet lat' lng' n' d' by_ =>
      lat' = lat /\ lng' = lng /\ n' = trimLabel n /\ d' = trimNotes d /\ by_ = actor
  | OpUpdateDestinationMeta n d, GoalDescribed n' d' => n' = trimLabel n /\ d' = trimNotes d
  | OpClearDestination, (GoalCleared | HaltsCleared) => True
  | OpAddStop lat lng l, HaltAdded _ lat' lng' l' by_ => lat' = lat /\ lng' = lng /\ l' = trimLabel l /\ by_ = actor
  | OpUpdateStopLabel s l, HaltLabelled s' l' => s' = s /\ l' = trimLabel l
  | OpRemoveStop s, HaltRemoved s' => s' = s
  | OpClearStops, HaltsCleared => True
  | OpRename n, Renamed n' => n' = Some (TrimSpace n)
  | OpTransferOwnership u, HandedOver old new => old = actor /\ new = u
  | OpTransferOwnership _, Pinned u _ _ _ => u = actor
  | OpMute u b, Muted u' b' => u' = u /\ b' = b
  | OpKick u, ThrownOut u' => u' = u
  | OpEnd, Ended => True
  | _, _ => False
  end.

Definition member_causes (op : member_op) (user : uuid) (e : room_event) : Prop :=
  match op, e with
  | OpSetPersonalMarker lat lng l, Pinned u lat' lng' l' => u = user /\ lat' = lat /\ lng' = lng /\ l' = trimLabel l
  | OpClearPersonalMarker, Unpinned u => u = user
  | OpPostMessage b, Said _ u b' => u = user /\ b' = TrimSpace b
  | _, _ => False
  end.

(** The request may cause the event in the room. *)
Definition caused (op : service_op) (room : uuid) (e : room_event) : Prop :=
  match op, e with
  | SvcCreate o n, Opened o' _ n' => o' = o /\ n' = n
  | SvcJoin u _, CameIn u' => u' = u
  | SvcLeave r u, WentAway u' => r = room /\ u' = u
  | SvcOwner op r a, _ => r = room /\ owner_causes op a e
  | SvcMember op r u, _ => r = room /\ member_causes op u e
  | _, _ => False
  end.

(** One event of the room that one of the requests may cause. *)
Definition room_step (ops : service_op -> Prop) (room : uuid) (c c' : option convoy) : Prop :=
  exists op e, ops op /\ caused op room e /\ apply_event e c = c' /\ is_Some c'.
