(* ===== verification/RoomView.v ===== *)
(** * The convoys that the tables stand for

    [room_view] reads a room of [RoomMachine] off the tables; the lemmas say
    how it changes with one row. *)
From stdpp Require Import base gmap sets list strings sorting.
From Stdlib Require Import ZArith Lia.
From S2P Require Import Prelude.
From S2P Require Import Httpx.
From S2P Require Import Types.
From S2P Require Import Db.
From S2P Require Import Store.
From S2P Require Import StoreFacts.
From S2P Require Import ServiceFacts.
From S2P Require Import Order.
From S2P Require Import RouteProps.
From S2P Require Import RoomMachine.

(** ** The view *)

(** The rows of one room in a table with a room and a user for key. *)
Definition in_room {V} (r : uuid) (m : gmap (uuid * uuid) V) : gmap uuid V := default ∅ (map_curry (M1:=gmap uuid) (M2:=gmap uuid) m !! r).

Definition participant_of_row (m : MemberRow) : participant :=
  mkParticipant (if member_present m then Here else if m_kicked m then Out else Away) (m_muted m).

Definition goal_of_row (row : RoomRow) : option goal :=
  match r_dest_lat row, r_dest_lng row, r_dest_set_by row with
  | Some lat, Some lng, Some by_ => Some (mkGoal lat lng (r_dest_name row) (r_dest_notes row) by_)
  | _, _, _ => None
  end.

Definition halt_of_stop (st : Stop) : halt := mkHalt (Stop_ID st) (Stop_Lat st) (Stop_Lng st) (Stop_Label st) (Stop_CreatedBy st).

Definition pin_of_row (k : MarkerRow) : pin := mkPin (k_lat k) (k_lng k) (k_label k).

Definition chat_of (r : uuid) (m : gmap uuid MessageRow) : gmap uuid (uuid * string) :=
  omap (fun g => if decide (g_room_id g = r) then Some (g_user_id g, g_body g) else None) m.

Definition room_view (r : uuid) (t : Tables) : option convoy :=
  (fun row => mkConvoy (r_code row) (r_name row) (room_active row) (r_owner_id row)
     (participant_of_row <$> in_room r (t_members t)) (goal_of_row row) (halt_of_stop <$> stops_list r t)
     (pin_of_row <$> in_room r (t_markers t)) (chat_of r (t_messages t))) <$> t_rooms t !! r.

(** ** Rows of one room *)

Section in_room.
Context {V : Type}.
Implicit Types m : gmap (uuid * uuid) V.

Lemma in_room_lookup r m u : in_room r m !! u = m !! (r, u).
Proof.
  unfold in_room. rewrite <-lookup_map_curry. destruct (map_curry m !! r) as [x|]; simpl; [done|]. by rewrite lookup_empty.
Qed.

Lemma in_room_insert r m u x : in_room r (<[(r, u) := x]> m) = <[u := x]> (in_room r m).
Proof.
  apply map_eq. intros v. rewrite in_room_lookup, !lookup_insert, in_room_lookup. repeat case_decide; naive_solver.
Qed.

Lemma in_room_insert_ne r r' m u x : r' <> r -> in_room r' (<[(r, u) := x]> m) = in_room r' m.
Proof. intros Hne. apply map_eq. intros v. rewrite !in_room_lookup, lookup_insert_ne; [done|congruence]. Qed.

Lemma in_room_delete r m u : in_room r (delete (r, u) m) = delete u (in_room r m).
Proof.
  apply map_eq. intros v. rewrite in_room_lookup, !lookup_delete, in_room_lookup. repeat case_decide; naive_solver.
Qed.

Lemma in_room_delete_ne r r' m u : r' <> r -> in_room r' (delete (r, u) m) = in_room r' m.
Proof. intros Hne. apply map_eq. intros v. rewrite !in_room_lookup, lookup_delete_ne; [done|congruence]. Qed.

Lemma in_room_empty r m : (forall u, m !! (r, u) = None) -> in_room r m = ∅.
Proof. intros Hm. apply map_eq. intros u. by rewrite in_room_lookup, Hm, lookup_empty. Qed.
End in_room.

(** ** The stops of another room *)

Lemma stops_list_same r t t' :
  (forall i s, s_room_id s = r -> t_stops t' !! i = Some s <-> t_stops t !! i = Some s) -> stops_list r t' = stops_list r t.
Proof.
  intros Hs. unfold stops_list. f_equal. apply ordered_stops; [apply ordered_stops_sorted|apply ordered_stops_nodup|].
  intros [i s]. rewrite ordered_stops_in, stops_of_spec. simpl. split; intros [H1 H2]; (split; [|done]); by apply (Hs i s).
Qed.

Lemma stops_list_none r t : (forall i s, t_stops t !! i = Some s -> s_room_id s <> r) -> stops_list r t = [].
Proof.
  intros Hs. unfold stops_list. rewrite (ordered_stops r t []); [done|constructor|constructor|].
  intros [i s]. rewrite stops_of_spec. split; [by intros ?%elem_of_nil|]. intros [H1 H2]. by destruct (Hs i s).
Qed.

Lemma filter_halts id (l : list Stop) :
  filter (fun h => ha_id h <> id) (halt_of_stop <$> l) = halt_of_stop <$> filter (fun st => Stop_ID st <> id) l.
Proof.
  induction l as [|st l IH]; [done|]. rewrite fmap_cons, !filter_cons, IH. cbn. by destruct (decide (Stop_ID st <> id)).
Qed.

Lemma relabel_halts id label (l : list Stop) :
  halt_of_stop <$> ((fun st => if decide (Stop_ID st = id) then with_label label st else st) <$> l) =
  (fun h => if decide (ha_id h = id) then mkHalt id (ha_lat h) (ha_lng h) label (ha_by h) else h) <$> (halt_of_stop <$> l).
Proof.
  rewrite <-!list_fmap_compose. apply list_fmap_ext. intros i st _. cbn. by destruct (decide (Stop_ID st = id)) as [<-|].
Qed.

(** ** Messages *)

Lemma chat_insert r m i g :
  m !! i = None -> chat_of r (<[i := g]> m) = if decide (g_room_id g = r) then <[i := (g_user_id g, g_body g)]> (chat_of r m) else chat_of r m.
Proof.
  intros Hi. unfold chat_of. destruct (decide (g_room_id g = r)) as [Hr|Hr].
  - by apply omap_insert_Some; rewrite decide_True.
  - rewrite omap_insert_None by by rewrite decide_False. apply delete_id. by rewrite lookup_omap, Hi.
Qed.

Lemma chat_none r m : (forall i g, m !! i = Some g -> g_room_id g <> r) -> chat_of r m = ∅.
Proof.
  intros Hm. apply map_eq. intros i. unfold chat_of. rewrite lookup_omap, lookup_empty.
  destruct (m !! i) as [g|] eqn:Hi; [|done]. simpl. rewrite decide_False; [done|]. by eapply Hm.
Qed.

(** ** How the view changes *)

Definition convoy_of (r : uuid) (t : Tables) (row : RoomRow) : convoy :=
  mkConvoy (r_code row) (r_name row) (room_active row) (r_owner_id row)
    (participant_of_row <$> in_room r (t_members t)) (goal_of_row row) (halt_of_stop <$> stops_list r t)
    (pin_of_row <$> in_room r (t_markers t)) (chat_of r (t_messages t)).

Lemma view_row r t row : t_rooms t !! r = Some row -> room_view r t = Some (convoy_of r t row).
Proof. unfold room_view. by intros ->. Qed.

Lemma view_none r t : t_rooms t !! r = None -> room_view r t = None.
Proof. unfold room_view. by intros ->. Qed.

(** The room is as before, or one event that [op] may cause has happened. *)
Definition moves (op : service_op) (r : uuid) (t t' : Tables) : Prop :=
  room_view r t' = room_view r t \/ room_step (eq op) r (room_view r t) (room_view r t').

Lemma moves_refl op r t : moves op r t t.
Proof. by left. Qed.

(** An event of one room. *)
Lemma moves_event op r t t' row e c :
  t_rooms t !! r = Some row -> caused op r e -> change e (convoy_of r t row) = Some c -> room_view r t' = Some c ->
  (forall r', r' <> r -> room_view r' t' = room_view r' t) -> forall r', moves op r' t t'.
Proof.
  intros Hrow Hc He Ht Ho r'. destruct (decide (r' = r)) as [->|Hne]; [|left; by apply Ho].
  right. exists op, e. rewrite (view_row _ _ _ Hrow), Ht. split; [done|]. split; [done|]. split; [exact He|by eexists].
Qed.

Lemma moves_room op r t row row' e :
  t_rooms t !! r = Some row -> caused op r e -> change e (convoy_of r t row) = Some (convoy_of r t row') ->
  forall r', moves op r' t (set_rooms <[r := row']> t).
Proof.
  intros Hrow Hc He. eapply moves_event; [done|done|exact He| |].
  - erewrite view_row by (simpl; by rewrite lookup_insert_eq). done.
  - intros r' Hne. unfold room_view. simpl. by rewrite lookup_insert_ne.
Qed.

Lemma moves_member op r t row u m e c :
  t_rooms t !! r = Some row -> caused op r e -> change e (convoy_of r t row) = Some c ->
  c = set_people <[u := participant_of_row m]> (convoy_of r t row) ->
  forall r', moves op r' t (set_members <[(r, u) := m]> t).
Proof.
  intros Hrow Hc He ->. eapply moves_event; [done|done|exact He| |].
  - rewrite (view_row _ _ row) by done. unfold convoy_of. simpl. by rewrite in_room_insert, fmap_insert.
  - intros r' Hne. unfold room_view. simpl. by rewrite in_room_insert_ne.
Qed.

Lemma moves_pin op r t row u k e :
  t_rooms t !! r = Some row -> caused op r e ->
  change e (convoy_of r t row) = Some (set_pins <[u := pin_of_row k]> (convoy_of r t row)) ->
  forall r', moves op r' t (set_markers <[(r, u) := k]> t).
Proof.
  intros Hrow Hc He. eapply moves_event; [done|done|exact He| |].
  - rewrite (view_row _ _ row) by done. unfold convoy_of. simpl. by rewrite in_room_insert, fmap_insert.
  - intros r' Hne. unfold room_view. simpl. by rewrite in_room_insert_ne.
Qed.

Lemma moves_unpin op r t u :
  caused op r (Unpinned u) -> forall r', moves op r' t (set_markers (delete (r, u)) t).
Proof.
  intros Hc. assert (forall r', r' <> r -> room_view r' (set_markers (delete (r, u)) t) = room_view r' t) as Ho.
  { intros r' Hne. unfold room_view. simpl. by rewrite in_room_delete_ne. }
  destruct (t_rooms t !! r) as [row|] eqn:Hrow.
  - eapply moves_event; [done|done|reflexivity| |done].
    rewrite (view_row _ _ row) by done. unfold convoy_of. simpl. by rewrite in_room_delete, fmap_delete.
  - intros r'. left. destruct (decide (r' = r)) as [->|]; [|by apply Ho]. by rewrite !view_none.
Qed.

Lemma moves_halts op r t row f e :
  t_rooms t !! r = Some row -> caused op r e ->
  change e (convoy_of r t row) = Some (set_halts (fun _ => halt_of_stop <$> stops_list r (set_stops f t)) (convoy_of r t row)) ->
  (forall i s, s_room_id s <> r -> f (t_stops t) !! i = Some s <-> t_stops t !! i = Some s) ->
  forall r', moves op r' t (set_stops f t).
Proof.
  intros Hrow Hc He Hf. eapply moves_event; [done|done|exact He| |].
  - by rewrite (view_row _ _ row).
  - intros r' Hne. unfold room_view. simpl. rewrite (stops_list_same r' t); [done|]. intros i s Hs. simpl. apply Hf. congruence.
Qed.

Lemma moves_said op r t row i g e :
  t_rooms t !! r = Some row -> t_messages t !! i = None -> g_room_id g = r -> caused op r (Said i (g_user_id g) (g_body g)) ->
  e = Said i (g_user_id g) (g_body g) -> forall r', moves op r' t (set_messages <[i := g]> t).
Proof.
  intros Hrow Hi Hg Hc ->. eapply moves_event; [done|exact Hc| | |].
  - cbn [change]. rewrite decide_True; [reflexivity|]. simpl. unfold chat_of. by rewrite lookup_omap, Hi.
  - rewrite (view_row _ _ row) by done. unfold convoy_of. simpl. rewrite chat_insert, decide_True by done. done.
  - intros r' Hne. unfold room_view. simpl. rewrite chat_insert, decide_False by congruence. done.
Qed.

(** A room that is made has nothing in it but its owner. *)
Lemma moves_opened op r t owner code name now now' :
  db_wf t -> t_rooms t !! r = None -> caused op r (Opened owner code name) ->
  forall r', moves op r' t (set_members <[(r, owner) := mkMemberRow RoleOwner false false now' None]>
    (set_rooms <[r := new_room_row code name owner now]> t)).
Proof.
  intros Hwf Hr Hc r'. destruct (decide (r' = r)) as [->|Hne].
  - right. exists op, (Opened owner code name). split; [done|]. split; [done|]. rewrite (view_none r t) by done.
    erewrite view_row by (simpl; by rewrite lookup_insert_eq). split; [|by eexists].
    unfold convoy_of. simpl. f_equal.
    rewrite in_room_insert, (in_room_empty r), (in_room_empty r (t_markers t)), chat_none.
    + rewrite (stops_list_none r); [|]; [by rewrite fmap_insert, !fmap_empty|].
      intros i s Hs <-. destruct (wf_stops _ Hwf _ _ Hs) as ([x Hx] & _). congruence.
    + intros i g Hg <-. destruct (wf_messages _ Hwf _ _ Hg) as ([x Hx] & _). congruence.
    + intros u. apply eq_None_not_Some. intros [k Hk]. destruct (wf_markers _ Hwf _ _ _ Hk) as ([x Hx] & _). congruence.
    + intros u. apply eq_None_not_Some. intros [m Hm]. destruct (wf_members _ Hwf _ _ _ Hm) as [_ _ (x & Hx & _)]. congruence.
  - left. unfold room_view. simpl. rewrite in_room_insert_ne, lookup_insert_ne by done. done.
Qed.
