(* ===== verification/Steps.v ===== *)
(** * Operations as programs of statements

    The operations of [Service] run from beginning to end.  In the program a
    request is a goroutine, and the statements of other requests reach
    PostgreSQL between its own.  Here an operation is a program of
    instructions - a statement, a transaction, a call of the realtime side, a
    random number - derived from its definition by instance resolution, and
    [guarantees] and [relies] are the rules for what it does when others run
    in between. *)
From stdpp Require Import base gmap sets list strings.
From Stdlib Require Import ZArith Lia.
From S2P Require Import Prelude.
From S2P Require Import Httpx.
From S2P Require Import Types.
From S2P Require Import Db.
From S2P Require Import Store.
From S2P Require Import StoreFacts.

Open Scope convoy_scope.

Section steps.
Context {H : Type}.

(** ** Instructions and programs *)

(** What no other request can come in between: PostgreSQL runs a statement on
    its own, and a transaction is taken as one here; the realtime side has its
    mutex. *)
Inductive instr : Type -> Type :=
| IStmt {B : Type} (params : list string) (f : Sql B) : instr B
| ITx {B : Type} (body : M H B) : instr B
| ICall (f : H -> H) : instr unit
| ILook {B : Type} (f : H -> B) : instr B
| IRand (max : N) : instr N.

Definition do_instr {B} (i : instr B) : M H B :=
  match i with
  | IStmt params f => exec params f
  | ITx body => in_tx body
  | ICall f => rt_do f
  | ILook f => rt_get f
  | IRand max => rand_int max
  end.

Inductive proc (A : Type) : Type :=
| Done (r : result A)
| Step {B : Type} (i : instr B) (k : result B -> proc A).
Arguments Done {A} r.
Arguments Step {A B} i k.

(** Run from beginning to end. *)
Fixpoint run_proc {A} (p : proc A) : M H A := fun w =>
  match p with
  | Done r => (r, w)
  | Step i k => let '(r, w') := do_instr i w in run_proc (k r) w'
  end.

(** One instruction. *)
Definition step_proc {A} (p : proc A) (w : World H) : option (proc A * World H) :=
  match p with
  | Done _ => None
  | Step i k => let '(r, w') := do_instr i w in Some (k r, w')
  end.

Fixpoint then_ {A B} (p : proc A) (k : result A -> proc B) : proc B :=
  match p with
  | Done r => k r
  | Step i k' => Step i (fun r => then_ (k' r) k)
  end.

Lemma run_then {A B} (p : proc A) (k : result A -> proc B) w :
  run_proc (then_ p k) w = let '(r, w') := run_proc p w in run_proc (k r) w'.
Proof.
  revert w. induction p as [r|C i k' IH]; intros w; [done|]. cbn [then_ run_proc].
  destruct (do_instr i w) as [r w']. apply IH.
Qed.

(** Every instruction of a program is in [S]. *)
Fixpoint uses {A} (S : forall B, instr B -> Prop) (p : proc A) : Prop :=
  match p with
  | Done _ => True
  | Step i k => S _ i /\ forall r, uses S (k r)
  end.

Lemma uses_then {A B} S (p : proc A) (k : result A -> proc B) :
  uses S p -> (forall r, uses S (k r)) -> uses S (then_ p k).
Proof. intros Hp Hk. induction p as [r|C i k' IH]; cbn in *; [done|]. destruct Hp. split; auto. Qed.

Lemma uses_mono {A} (S S' : forall B, instr B -> Prop) (p : proc A) :
  (forall B (i : instr B), S B i -> S' B i) -> uses S p -> uses S' p.
Proof. intros HS. induction p as [r|C i k IH]; cbn; [done|]. intros [Hi Hk]. split; auto. Qed.

(** ** The program of an operation *)

(** [m] is a program of instructions of [S]. *)
Class Stepwise (S : forall B, instr B -> Prop) {A} (m : M H A) := {
  steps : proc A;
  steps_run : forall w, run_proc steps w = m w;
  steps_use : uses S steps;
}.

Section combinators.
Context {S : forall B, instr B -> Prop}.

#[export] Instance ret_steps {A} (a : A) : Stepwise S (ret a).
Proof. by exists (Done (Ok a)). Defined.

#[export] Instance throw_steps {A} e : Stepwise S (throw (A:=A) e).
Proof. by exists (Done (Fail e)). Defined.

Lemma instr_steps {B} (i : instr B) : S B i -> Stepwise S (do_instr i).
Proof.
  intros Hi. exists (Step i Done).
  - intros w. cbn [run_proc]. by destruct (do_instr i w).
  - done.
Defined.

#[export] Instance bind_steps {A B} (m : M H A) (k : A -> M H B)
  (Hm : Stepwise S m) (Hk : forall a, Stepwise S (k a)) : Stepwise S (bind m k).
Proof.
  exists (then_ (steps (m:=m)) (fun r => match r with Ok a => steps (m:=k a) | Fail e => Done (Fail e) end)).
  - intros w. rewrite run_then, steps_run. unfold bind. destruct (m w) as [[a|e] w']; [apply steps_run|done].
  - apply uses_then; [apply steps_use|]. intros [a|e]; [apply steps_use|done].
Defined.

#[export] Instance catch_steps {A} (m : M H A) (h : error -> M H A)
  (Hm : Stepwise S m) (Hh : forall e, Stepwise S (h e)) : Stepwise S (catch m h).
Proof.
  exists (then_ (steps (m:=m)) (fun r => match r with Ok a => Done (Ok a) | Fail e => steps (m:=h e) end)).
  - intros w. rewrite run_then, steps_run. unfold catch. destruct (m w) as [[a|e] w']; [done|apply steps_run].
  - apply uses_then; [apply steps_use|]. intros [a|e]; [done|apply steps_use].
Defined.

#[export] Instance try_steps {A} (m : M H A) (Hm : Stepwise S m) : Stepwise S (try m).
Proof.
  exists (then_ (steps (m:=m)) (fun r => Done (Ok r))).
  - intros w. rewrite run_then, steps_run. unfold try. by destruct (m w).
  - apply uses_then; [apply steps_use|done].
Defined.

#[export] Instance on_error_steps {A} f (m : M H A) (Hm : Stepwise S m) : Stepwise S (on_error f m).
Proof. apply catch_steps; [done|]. intros e. apply throw_steps. Defined.

#[export] Instance check_steps b e : Stepwise S (check b e).
Proof. destruct b; [apply throw_steps|apply ret_steps]. Defined.

#[export] Instance affected_steps n : Stepwise S (affected n).
Proof. apply check_steps. Defined.

#[export] Instance scan_row_steps {A} (m : M H (option A)) (Hm : Stepwise S m) : Stepwise S (scan_row m).
Proof. apply bind_steps; [done|]. intros [a|]; [apply ret_steps|apply throw_steps]. Defined.

#[export] Instance exec_steps {B} params (f : Sql B) : S B (IStmt params f) -> Stepwise S (exec params f).
Proof. apply instr_steps. Defined.

#[export] Instance in_tx_steps {B} (body : M H B) : S B (ITx body) -> Stepwise S (in_tx body).
Proof. apply instr_steps. Defined.

#[export] Instance rt_do_steps f : S unit (ICall f) -> Stepwise S (rt_do f).
Proof. apply instr_steps. Defined.

#[export] Instance rt_get_steps {B} (f : H -> B) : S B (ILook f) -> Stepwise S (rt_get f).
Proof. apply instr_steps. Defined.

#[export] Instance rand_steps max : S N (IRand max) -> Stepwise S (rand_int max).
Proof. apply instr_steps. Defined.
End combinators.

(** ** What a program does among others *)

(** Between its instructions the others take the tables from [t] to some [t']
    with [R t t']; each of its own keeps [G], and it ends with [Q]. *)
Fixpoint relies {A} (R G : Tables -> Tables -> Prop) (p : proc A) (Q : result A -> Tables -> Prop) (t : Tables) : Prop :=
  match p with
  | Done r => Q r t
  | Step i k => forall w, R t (w_db w) ->
      let '(r, w') := do_instr i w in G (w_db w) (w_db w') /\ relies R G (k r) Q (w_db w')
  end.

Definition anything {A} (_ : result A) (_ : Tables) : Prop := True.

Lemma relies_then {A B} R G (p : proc A) (k : result A -> proc B) Q t :
  relies R G p (fun r t' => relies R G (k r) Q t') t -> relies R G (then_ p k) Q t.
Proof.
  revert t. induction p as [r|C i k' IH]; intros t Hp; [done|]. cbn in *. intros w Hw.
  specialize (Hp w Hw). destruct (do_instr i w) as [r w']. destruct Hp as [HG Hp]. split; [done|]. by apply IH.
Qed.

Lemma relies_mono {A} R G (p : proc A) (Q Q' : result A -> Tables -> Prop) t :
  (forall r t', Q r t' -> Q' r t') -> relies R G p Q t -> relies R G p Q' t.
Proof.
  intros HQ. revert t. induction p as [r|C i k IH]; intros t Hp; [by apply HQ|]. cbn in *. intros w Hw.
  specialize (Hp w Hw). destruct (do_instr i w) as [r w']. destruct Hp as [HG Hp]. split; [done|]. by apply IH.
Qed.

(** What the others do does not matter twice. *)
Lemma relies_stable {A} R G (p : proc A) t t' :
  (forall t1 t2 t3, R t1 t2 -> R t2 t3 -> R t1 t3) -> R t t' ->
  relies R G p anything t -> relies R G p anything t'.
Proof.
  intros Htr Ht. destruct p as [r|C i k]; [done|]. cbn. intros Hp w Hw. apply Hp. by eapply Htr.
Qed.

(** Instructions that keep [G] and an assertion that the others do not break
    carry it along. *)
Lemma uses_carry {A} S (R G : Tables -> Tables -> Prop) (J : Tables -> Prop) (p : proc A) t :
  (forall t1 t2, J t1 -> R t1 t2 -> J t2) ->
  (forall B (i : instr B) w t1, S B i -> R t1 (w_db w) -> J (w_db w) ->
     G (w_db w) (w_db (do_instr i w).2) /\ J (w_db (do_instr i w).2)) ->
  uses S p -> J t -> relies R G p (fun _ => J) t.
Proof.
  intros HJ HS. revert t. induction p as [r|C i k IH]; intros t Hp Ht; [done|]. cbn in *. destruct Hp as [Hi Hk].
  intros w Hw. destruct (HS C i w t Hi Hw (HJ _ _ Ht Hw)) as [HG Ht']. destruct (do_instr i w) as [r w']. split; [done|].
  by apply IH.
Qed.

Lemma uses_relies {A} S (R G : Tables -> Tables -> Prop) (p : proc A) t :
  (forall B (i : instr B) w t1, S B i -> R t1 (w_db w) -> G (w_db w) (w_db (do_instr i w).2)) ->
  uses S p -> relies R G p anything t.
Proof.
  intros HS Hp. apply (relies_mono _ _ _ (fun _ _ => True)); [done|]. apply (uses_carry S); eauto.
Qed.

(** Alone, what each instruction keeps is kept from beginning to end. *)
Lemma relies_alone {A} (P : Tables -> Prop) (p : proc A) w :
  relies (fun _ => P) (fun _ => P) p anything (w_db w) -> P (w_db w) -> P (w_db (run_proc p w).2).
Proof.
  revert w. induction p as [r|C i k IH]; intros w Hp HP; [done|]. cbn in *. specialize (Hp w HP).
  destruct (do_instr i w) as [r w']. destruct Hp. by apply IH.
Qed.

Lemma uses_preserves {A} S P (m : M H A) (Hm : Stepwise S m) :
  (forall B (i : instr B), S B i -> preserves P (do_instr i)) -> preserves P m.
Proof.
  intros HS w HP. rewrite <-(steps_run (Stepwise:=Hm)). apply relies_alone; [|done].
  apply (uses_relies S); [|apply steps_use]. intros B i w1 t1 Hi HP1. by apply HS.
Qed.

(** The parts of a sequence. *)
Lemma relies_bind {A B} S R G (m : M H A) (k : A -> M H B) (Hm : Stepwise S m) (Hk : forall a, Stepwise S (k a)) Q t :
  relies R G (steps (m:=m)) (fun r t' =>
    match r with Ok a => relies R G (steps (m:=k a)) Q t' | Fail e => Q (Fail e) t' end) t ->
  relies R G (steps (m:=bind m k)) Q t.
Proof. intros Hp. apply relies_then. eapply relies_mono; [|exact Hp]. by intros [a|e] t'. Qed.
End steps.

Arguments instr H _ : clear implicits.
Arguments proc H A : clear implicits.
Arguments Done {H A} r.
Arguments Step {H A B} i k.
Arguments Stepwise {H} S {A} m.
Arguments steps {H S A} m {_}.
Arguments steps_run {H S A} m {_} w.
Arguments steps_use {H S A} m {_}.

(** Branches. *)
#[export] Hint Extern 2 (Stepwise _ (match ?x with _ => _ end)) => destruct x : typeclass_instances.
