(* ===== verification/Requests.v ===== *)
(** * Requests of the rooms service among one another

    The statements [internal/rooms] can send, each operation of the service as
    a program of them ([request]), and a system: the tables, the realtime side
    and the requests in flight, which a scheduler advances one statement at a
    time. *)
From stdpp Require Import base gmap sets list strings relations.
From Stdlib Require Import ZArith Lia.
From S2P Require Import Prelude.
From S2P Require Import GoString.
From S2P Require Import Httpx.
From S2P Require Import Types.
From S2P Require Import Db.
From S2P Require Import Store.
From S2P Require Import StoreFacts.
From S2P Require Import Broadcaster.
From S2P Require Import Service.
From S2P Require Import ServiceFacts.
From S2P Require Import RoomMachine.
From S2P Require Import Steps.

Open Scope convoy_scope.

(** A transfer of a room, by whom and to whom. *)
Record transfer := mkTransfer { tf_room : uuid; tf_old : uuid; tf_new : uuid }.

(** The transfer a request may make. *)
Definition transfer_of (op : service_op) : option transfer :=
  match op with
  | SvcOwner (OpTransferOwnership u) r a => Some (mkTransfer r a u)
  | _ => None
  end.

Section requests.
Context {H : Type}.
Variable rt : option (Broadcaster H).
Variable unicode_upper : rune -> rune.

(** ** The statements of the service *)

(** Those of a request: each that writes may cause an event of a room. *)
Inductive service_stmt (op : service_op) : forall B, instr H B -> Prop :=
| st_read B params (f : Tables -> B) : service_stmt op B (IStmt params (select f))
| st_messages r before limit :
    service_stmt op _ (IStmt [] (fun now id t =>
      if (limit <? 0)%Z then inl invalid_limit
      else select (list_messages_rows r before (Z.to_nat limit)) now id t))
| st_call f : service_stmt op _ (ICall f)
| st_look B (f : H -> B) : service_stmt op B (ILook f)
| st_rand max : service_stmt op _ (IRand max)
| st_create o code name body :
    (forall r, caused op r (Opened o code name)) -> in_tx body = CreateRoom o code name -> service_stmt op _ (ITx body)
| st_transfer r a u body :
    caused op r (HandedOver a u) -> in_tx body = StoreTransferOwnership r a u -> service_stmt op _ (ITx body)
| st_upsert r u : caused op r (CameIn u) -> service_stmt op _ (IStmt [] (upsert_member_sql r u))
| st_left r u : caused op r (WentAway u) -> service_stmt op _ (IStmt [] (update_member r u member_present mark_left))
| st_muted r u b : caused op r (Muted u b) -> service_stmt op _ (IStmt [] (update_member r u member_present (set_muted b)))
| st_kicked r u : caused op r (ThrownOut u) -> service_stmt op _ (IStmt [] (update_member r u member_present mark_kicked))
| st_ended r : caused op r Ended -> service_stmt op _ (IStmt [] (update_room r room_active set_ended))
| st_renamed r name :
    caused op r (Renamed name) -> service_stmt op _ (IStmt (opt_text name) (update_room r room_active (set_name name)))
| st_dest r u lat lng name notes :
    caused op r (GoalSet lat lng name notes u) ->
    service_stmt op _ (IStmt (opt_text name ++ opt_text notes) (set_dest_sql r u lat lng name notes))
| st_dest_meta r name notes :
    caused op r (GoalDescribed name notes) ->
    service_stmt op _ (IStmt (opt_text name ++ opt_text notes) (update_room r (fun row => room_active row && dest_set row) (set_dest_meta name notes)))
| st_no_dest r : caused op r GoalCleared -> service_stmt op _ (IStmt [] (update_room r room_active clear_dest))
| st_marker r u lat lng l :
    caused op r (Pinned u lat lng l) -> service_stmt op _ (IStmt (opt_text l) (upsert_marker_sql r u lat lng l))
| st_no_marker r u :
    caused op r (Unpinned u) -> service_stmt op _ (IStmt [] (fun _ _ t => inr (tt, set_markers (delete (r, u)) t)))
| st_stop r u lat lng l :
    (forall id, caused op r (HaltAdded id lat lng l u)) -> service_stmt op _ (IStmt (opt_text l) (add_stop_sql r u lat lng l))
| st_no_stop r s : caused op r (HaltRemoved s) -> service_stmt op _ (IStmt [] (remove_stop_sql r s))
| st_no_stops r :
    caused op r HaltsCleared -> service_stmt op _ (IStmt [] (fun _ _ t => inr (tt, set_stops (filter (fun p => s_room_id p.2 <> r)) t)))
| st_label r s l : caused op r (HaltLabelled s l) -> service_stmt op _ (IStmt (opt_text l) (update_label_sql r s l))
| st_message r u body :
    (forall id, caused op r (Said id u body)) -> service_stmt op _ (IStmt [body] (create_message_sql r u body)).

(** ** The operations as programs *)

(** Follow an operation's definition to its statements. *)
Ltac stepwise :=
  repeat lazymatch goal with
  | |- Stepwise _ (discard _) => unfold discard
  | |- Stepwise _ (bind _ _) => apply bind_steps; [|intros]
  | |- Stepwise _ (try _) => apply try_steps
  | |- Stepwise _ (on_error _ _) => apply on_error_steps
  | |- Stepwise _ (scan_row _) => apply scan_row_steps
  | |- Stepwise _ (check _ _) => apply check_steps
  | |- Stepwise _ (affected _) => apply affected_steps
  | |- Stepwise _ (ret _) => apply ret_steps
  | |- Stepwise _ (throw _) => apply throw_steps
  | |- Stepwise _ (exec _ _) => apply exec_steps; once constructor; try (cbn; by intuition auto)
  | |- Stepwise _ (rt_do _) => apply rt_do_steps; constructor
  | |- Stepwise _ (rt_get _) => apply rt_get_steps; constructor
  | |- Stepwise _ (rand_int _) => apply rand_steps; constructor
  | |- Stepwise _ (match ?x with _ => _ end) => destruct x
  | |- Stepwise _ (let _ := _ in _) => cbv zeta
  end.

Section steps.
Variable op : service_op.

#[export] Instance stmt_select B params (f : Tables -> B) : Stepwise (service_stmt op) (exec params (select f)).
Proof. apply exec_steps. constructor. Defined.

#[export] Instance notify_steps f : Stepwise (service_stmt op) (notify rt f).
Proof. unfold notify. stepwise. Defined.

#[export] Instance scan_dest_steps r : Stepwise (service_stmt op) (scan_dest (H:=H) r).
Proof. unfold scan_dest. stepwise. Defined.

#[export] Instance scan_stop_steps p : Stepwise (service_stmt op) (scan_stop (H:=H) p).
Proof. unfold scan_stop. stepwise. Defined.

#[export] Instance gen_bytes_steps n : Stepwise (service_stmt op) (gen_bytes (H:=H) n).
Proof. induction n as [|n IH]; cbn [gen_bytes]; stepwise; exact IH. Defined.

#[export] Instance CreateRoom_steps o code name :
  (forall r, caused op r (Opened o code name)) -> Stepwise (service_stmt op) (CreateRoom (H:=H) o code name).
Proof. intros Hc. apply in_tx_steps. by eapply st_create. Defined.

#[export] Instance create_loop_steps n o name :
  (forall code r, caused op r (Opened o code name)) -> Stepwise (service_stmt op) (create_loop (H:=H) n o name).
Proof.
  intros Hc. induction n as [|n IH]; cbn [create_loop]; [stepwise|]. unfold generateCode.
  stepwise; [apply gen_bytes_steps|apply CreateRoom_steps, Hc|exact IH].
Defined.

#[export] Instance GetActiveByCode_steps code : Stepwise (service_stmt op) (GetActiveByCode (H:=H) code).
Proof. unfold GetActiveByCode. stepwise. Defined.

#[export] Instance UpsertMember_steps r u : caused op r (CameIn u) -> Stepwise (service_stmt op) (UpsertMember (H:=H) r u).
Proof. intros Hc. apply exec_steps. by constructor. Defined.

#[export] Instance GetMember_steps r u : Stepwise (service_stmt op) (GetMember (H:=H) r u).
Proof. unfold GetMember. stepwise. Defined.

#[export] Instance Join_steps u code : (forall r, caused op r (CameIn u)) -> Stepwise (service_stmt op) (Join rt unicode_upper u code).
Proof.
  intros Hc. unfold Join. cbv zeta. stepwise; [apply GetActiveByCode_steps|apply UpsertMember_steps, Hc|apply GetMember_steps].
Defined.

#[export] Instance Leave_steps r u : caused op r (WentAway u) -> Stepwise (service_stmt op) (Leave rt r u).
Proof. intros Hc. unfold Leave, MarkLeft. stepwise; apply notify_steps. Defined.

#[export] Instance GetDestination_steps r : Stepwise (service_stmt op) (GetDestination (H:=H) r).
Proof. unfold GetDestination. stepwise. apply scan_dest_steps. Defined.

#[export] Instance Detail_steps r v : Stepwise (service_stmt op) (Detail rt r v).
Proof.
  unfold Detail, GetByID, ListMembers, GetPersonalMarker, ListStops. stepwise. apply GetDestination_steps.
Defined.

#[export] Instance ListActiveForUser_steps u : Stepwise (service_stmt op) (ListActiveForUser rt u).
Proof. unfold ListActiveForUser, ListActiveRoomsForUser. stepwise. Defined.

#[export] Instance requireOwner_steps r a : Stepwise (service_stmt op) (requireOwner (H:=H) r a).
Proof. unfold requireOwner, ActiveMembership. stepwise. Defined.

#[export] Instance AssertMember_steps r u : Stepwise (service_stmt op) (AssertMember (H:=H) r u).
Proof. unfold AssertMember, ActiveMembership. stepwise. Defined.

#[export] Instance broadcastStops_steps r : Stepwise (service_stmt op) (broadcastStops rt r).
Proof. unfold broadcastStops, ListStops. stepwise. Defined.

#[export] Instance UpsertPersonalMarker_steps r u lat lng l :
  caused op r (Pinned u lat lng l) -> Stepwise (service_stmt op) (UpsertPersonalMarker (H:=H) r u lat lng l).
Proof. intros Hc. apply exec_steps. by constructor. Defined.

#[export] Instance StoreTransferOwnership_steps r a u :
  caused op r (HandedOver a u) -> Stepwise (service_stmt op) (StoreTransferOwnership (H:=H) r a u).
Proof. intros Hc. apply in_tx_steps. by eapply st_transfer. Defined.

End steps.

#[export] Instance transfer_steps r a u :
  Stepwise (service_stmt (SvcOwner (OpTransferOwnership u) r a)) (TransferOwnership rt r a u).
Proof.
  unfold TransferOwnership. stepwise.
  all: first [apply requireOwner_steps|apply AssertMember_steps|apply GetDestination_steps|by apply UpsertPersonalMarker_steps
             |by apply StoreTransferOwnership_steps|apply notify_steps].
Defined.

#[export] Instance owner_op_steps op r a : Stepwise (service_stmt (SvcOwner op r a)) (run_owner_op rt op r a).
Proof.
  destruct op; cbn [run_owner_op]; unfold discard, SetDestination, UpdateDestinationMeta, ClearDestination, AddStop,
    UpdateStopLabel, RemoveStop, ClearStops, Rename, Mute, Kick, End_, StoreSetDestination, StoreUpdateDestinationMeta,
    StoreClearDestination, StoreAddStop, StoreUpdateStopLabel, StoreRemoveStop, StoreClearStops, UpdateName, SetMuted,
    StoreKick, EndRoom; cbv zeta.
  9: apply transfer_steps.
  all: stepwise; first [apply requireOwner_steps|apply scan_dest_steps|apply scan_stop_steps|apply broadcastStops_steps|apply notify_steps].
Defined.

#[export] Instance member_op_steps op r u : Stepwise (service_stmt (SvcMember op r u)) (run_member_op rt op r u).
Proof.
  destruct op; cbn [run_member_op]; unfold discard, SetPersonalMarker, ClearPersonalMarker, PostMessage, ListMessages,
    UpsertPersonalMarker, Store.DeletePersonalMarker, CreateMessage, StoreListMessages; cbv zeta; stepwise;
    first [apply AssertMember_steps|apply notify_steps].
Defined.

#[export] Instance service_op_steps op : Stepwise (service_stmt op) (run_service_op rt unicode_upper op).
Proof.
  destruct op as [o n|u code|r u|r v|u|op r a|op r u]; cbn [run_service_op].
  - apply bind_steps; [by apply create_loop_steps|intros; apply ret_steps].
  - apply bind_steps; [by apply Join_steps|intros; apply ret_steps].
  - by apply Leave_steps.
  - apply bind_steps; [apply Detail_steps|intros; apply ret_steps].
  - apply bind_steps; [apply ListActiveForUser_steps|intros; apply ret_steps].
  - apply owner_op_steps.
  - apply member_op_steps.
Defined.

(** The operation as the goroutine of its request runs it. *)
Definition request (op : service_op) : proc H unit := steps (run_service_op rt unicode_upper op).

(** ** Requests in flight *)

Record inflight := mkInflight { if_op : service_op; if_proc : proc H unit }.

Record system := mkSystem { sy_world : World H; sy_requests : list inflight }.

(** What the rest of the server does to what the service sees: accounts come
    and change their names, time passes, sockets come and go. *)
Record elsewhere (w w' : World H) : Prop := {
  el_rooms : t_rooms (w_db w') = t_rooms (w_db w);
  el_members : t_members (w_db w') = t_members (w_db w);
  el_markers : t_markers (w_db w') = t_markers (w_db w);
  el_stops : t_stops (w_db w') = t_stops (w_db w);
  el_messages : t_messages (w_db w') = t_messages (w_db w);
  el_users : forall u, is_Some (t_users (w_db w) !! u) -> is_Some (t_users (w_db w') !! u);
}.

(** [allowed op reqs]: the request may come while those are there. *)
Inductive sys_step (allowed : service_op -> list inflight -> Prop) : system -> system -> Prop :=
| sys_arrive w reqs op :
    allowed op reqs ->
    sys_step allowed (mkSystem w reqs) (mkSystem w (reqs ++ [mkInflight op (request op)]))
| sys_advance w reqs i q p' w' :
    reqs !! i = Some q -> step_proc (if_proc q) w = Some (p', w') ->
    sys_step allowed (mkSystem w reqs) (mkSystem w' (<[i := mkInflight (if_op q) p']> reqs))
| sys_elsewhere w reqs w' :
    elsewhere w w' -> sys_step allowed (mkSystem w reqs) (mkSystem w' reqs).

(** Any request at any time. *)
Definition always (_ : service_op) (_ : list inflight) : Prop := True.

Definition in_progress (q : inflight) : Prop := forall r, if_proc q <> Done r.

(** A room is not handed over twice at the same time. *)
Definition one_transfer (op : service_op) (reqs : list inflight) : Prop :=
  forall t q t', transfer_of op = Some t -> q ∈ reqs -> in_progress q -> transfer_of (if_op q) = Some t' ->
    tf_room t <> tf_room t'.

(** ** Schedules *)

Inductive event := Arrive (op : service_op) | Advance (i : nat).

Definition exec_event (e : event) (s : system) : system :=
  match e with
  | Arrive op => mkSystem (sy_world s) (sy_requests s ++ [mkInflight op (request op)])
  | Advance i =>
      match sy_requests s !! i with
      | Some q =>
          match step_proc (if_proc q) (sy_world s) with
          | Some (p', w') => mkSystem w' (<[i := mkInflight (if_op q) p']> (sy_requests s))
          | None => s
          end
      | None => s
      end
  end.

Definition schedule (es : list event) (s : system) : system := foldl (fun s e => exec_event e s) s es.

Definition welcome (allowed : service_op -> list inflight -> Prop) (e : event) (s : system) : Prop :=
  match e with Arrive op => allowed op (sy_requests s) | Advance _ => True end.

Lemma exec_event_step allowed e s :
  welcome allowed e s -> exec_event e s = s \/ sys_step allowed s (exec_event e s).
Proof.
  intros He. destruct e as [op|i]; cbn [exec_event] in *.
  - right. destruct s. by constructor.
  - destruct (sy_requests s !! i) as [q|] eqn:Hq; [|by left].
    destruct (step_proc (if_proc q) (sy_world s)) as [[p' w']|] eqn:Hp; [|by left].
    right. destruct s. by eapply sys_advance.
Qed.

(** The requests of a schedule are allowed when they come. *)
Fixpoint legal (allowed : service_op -> list inflight -> Prop) (es : list event) (s : system) : Prop :=
  match es with
  | [] => True
  | e :: es' => welcome allowed e s /\ legal allowed es' (exec_event e s)
  end.

Lemma schedule_legal allowed es s : legal allowed es s -> rtc (sys_step allowed) s (schedule es s).
Proof.
  revert s. induction es as [|e es IH]; intros s Hl; [done|]. destruct Hl as [He Hl]. specialize (IH _ Hl).
  destruct (exec_event_step allowed e s He) as [E|Hs]; [|by eapply rtc_l]. cbn [schedule foldl]. by rewrite E in IH |- *.
Qed.

Lemma always_legal es s : legal always es s.
Proof. revert s. induction es as [|[op|i] es IH]; intros s; split; done. Qed.
End requests.
