(* ===== verification/RequestFacts.v ===== *)
(** * What the statements of the service keep

    One case per statement of [service_stmt]: the schema, the roles of a room,
    the row of an ended room and who is not in it; and from these what each
    request guarantees and relies on. *)
From stdpp Require Import base gmap sets list strings relations.
From Stdlib Require Import ZArith Lia.
From S2P Require Import Prelude.
From S2P Require Import GoString.
From S2P Require Import Httpx.
From S2P Require Import Types.
From S2P Require Import Db.
From S2P Require Import Store.
From S2P Require Import StoreFacts.
From S2P Require Import Broadcaster.
From S2P Require Import Service.
From S2P Require Import ServiceFacts.
From S2P Require Import RouteProps.
From S2P Require Import MarkerProps.
From S2P Require Import RoomMachine.
From S2P Require Import RoomView.
From S2P Require Import Steps.
From S2P Require Import Requests.

Open Scope convoy_scope.

(** ** What a call answers *)

(** [m] keeps [P], and what it answers satisfies [Q]. *)
Definition yields {H A} (P : Tables -> Prop) (m : M H A) (Q : A -> Prop) : Prop :=
  forall w, P (w_db w) -> P (w_db (m w).2) /\ forall a, (m w).1 = Ok a -> Q a.

Section yields.
Context {H : Type} (P : Tables -> Prop).

Lemma stmt_yields {A} tick params (f : Sql A) Q :
  (forall now id t a t', P t -> f now id t = inr (a, t') -> P t' /\ Q a) -> yields (H:=H) P (stmt tick params f) Q.
Proof.
  intros Hf w HP. split.
  - apply stmt_preserves; [|done]. intros now id t a t' Ht E. by eapply Hf.
  - intros a Ha. destruct (stmt tick params f w) as [res w'] eqn:E. simpl in Ha. subst res.
    apply stmt_ok in E as (now & id & E & _). by eapply Hf.
Qed.

Lemma scan_row_yields {A} (m : M H (option A)) Q :
  yields P m (fun o => match o with Some a => Q a | None => True end) -> yields P (scan_row m) Q.
Proof.
  intros Hm w HP. destruct (Hm w HP) as [Hp Ha]. unfold scan_row, bind. destruct (m w) as [[[a|]|e] w']; simpl in *; try done.
  split; [done|]. intros a' [= <-]. by apply (Ha (Some a)).
Qed.

Lemma on_error_yields {A} f (m : M H A) Q : yields P m Q -> yields P (on_error f m) Q.
Proof.
  intros Hm w HP. destruct (Hm w HP) as [Hp Ha]. unfold on_error, catch. by destruct (m w) as [[a|e] w'].
Qed.

Lemma bind_yields {A B} (m : M H A) (k : A -> M H B) Q :
  yields P m Q -> (forall a, Q a -> preserves P (k a)) -> preserves P (bind m k).
Proof.
  intros Hm Hk w HP. destruct (Hm w HP) as [Hp Ha]. unfold bind. destruct (m w) as [[a|e] w']; [|done].
  by apply (Hk a (Ha a eq_refl)).
Qed.
End yields.

Section facts.
Context {H : Type}.
Variable rt : option (Broadcaster H).
Variable unicode_upper : rune -> rune.

(** ** The schema *)

(** A statement whose answer is only looked at keeps what the whole does. *)
Lemma preserves_first {A B} P (m : M H A) (k : A -> M H B) :
  (forall a, read_only (k a)) -> preserves P (bind m k) -> preserves P m.
Proof.
  intros Hk Hm w HP. specialize (Hm w HP). unfold bind in Hm. destruct (m w) as [[a|e] w']; [|done].
  cbn [snd] in *. by destruct (Hk a w') as [<- _].
Qed.

Lemma preserves_on_error {A} P f (m : M H A) : preserves P (on_error f m) -> preserves P m.
Proof. intros Hm w HP. specialize (Hm w HP). unfold on_error, catch in Hm. by destruct (m w) as [[a|e] w']. Qed.

Lemma preserves_scan_row {A} P (m : M H (option A)) : preserves P (scan_row m) -> preserves P m.
Proof. apply preserves_first. by intros []. Qed.

(** An instruction that hands no room over. *)
Definition is_tx {B} (i : instr H B) : bool := match i with ITx _ => true | _ => false end.

Definition no_handover (op : service_op) {B} (i : instr H B) : Prop := transfer_of op = None \/ is_tx i = false.

Lemma caused_handover op r a u : caused op r (HandedOver a u) -> transfer_of op = Some (mkTransfer r a u).
Proof. destruct op as [| | | | |op r' a'|op ? ?]; try done; destruct op; try (by intros [_ []]). by intros (-> & -> & ->). Qed.

Lemma caused_join op r u : caused op r (CameIn u) -> exists code, op = SvcJoin u code.
Proof. destruct op as [|u' code| | | |op r' a'|op ? ?]; try done; [intros ->; by exists code|destruct op..]; by intros [_ []]. Qed.

Lemma stmt_wf op B (i : instr H B) : service_stmt op B i -> no_handover op i -> preserves db_wf (do_instr i).
Proof.
  intros Hi Hno. destruct Hi as [B p f|r b n|f|B f|m|o c n body _ E|r a u body Hc _|r u _|r u _|r u b _|r u _|r _|r n _|r u lat lng n d _
    |r n d _|r _|r u lat lng l _|r u _|r u lat lng l _|r s _|r _|r s l _|r u body _]; cbn [do_instr].
  - apply read_only_preserves, select_read_only.
  - apply read_only_preserves, (StoreListMessages_read_only r b n).
  - apply rt_do_preserves.
  - apply read_only_preserves, rt_get_read_only.
  - apply read_only_preserves, rand_int_read_only.
  - rewrite E. apply CreateRoom_wf.
  - apply caused_handover in Hc. by destruct Hno as [Hno|Hno]; rewrite ?Hc in Hno.
  - apply UpsertMember_wf.
  - apply (preserves_first _ _ (fun _ => ret tt)); [done|apply MarkLeft_wf].
  - eapply preserves_first, (SetMuted_wf r u b). intros ?; cbn beta; read_only_tac.
  - eapply preserves_first, (StoreKick_wf r u). intros ?; cbn beta; read_only_tac.
  - eapply preserves_first, (EndRoom_wf r). intros ?; cbn beta; read_only_tac.
  - eapply preserves_scan_row, preserves_on_error, preserves_first, (UpdateName_wf r n). intros ?; cbn beta; read_only_tac.
  - eapply preserves_scan_row, preserves_on_error, preserves_first, (StoreSetDestination_wf r u lat lng n d). intros ?; cbn beta; read_only_tac.
  - eapply preserves_scan_row, preserves_on_error, preserves_first, (StoreUpdateDestinationMeta_wf r n d). intros ?; cbn beta; read_only_tac.
  - eapply preserves_first, (StoreClearDestination_wf r). intros ?; cbn beta; read_only_tac.
  - apply UpsertPersonalMarker_wf.
  - apply DeletePersonalMarker_wf.
  - eapply preserves_first, (StoreAddStop_wf r u lat lng l). intros ?; cbn beta; read_only_tac.
  - eapply preserves_first, (StoreRemoveStop_wf r s). intros ?; cbn beta; read_only_tac.
  - apply StoreClearStops_wf.
  - eapply preserves_scan_row, preserves_on_error, preserves_first, (StoreUpdateStopLabel_wf r s l). intros ?; cbn beta; read_only_tac.
  - apply preserves_scan_row, (CreateMessage_wf r u body).
Qed.

(** ** Roles *)

(** Memberships of the room stay, with their roles. *)
Definition roles_kept (r : uuid) (t t' : Tables) : Prop :=
  forall u m, t_members t !! (r, u) = Some m -> exists m', t_members t' !! (r, u) = Some m' /\ m_role m' = m_role m.

Lemma roles_refl r t : roles_kept r t t.
Proof. intros u m Hm. by exists m. Qed.

Lemma roles_trans r t1 t2 t3 : roles_kept r t1 t2 -> roles_kept r t2 t3 -> roles_kept r t1 t3.
Proof. intros H1 H2 u m (m' & Hm' & Hr')%H1. destruct (H2 u m' Hm') as (m'' & Hm'' & Hr''). exists m''. by rewrite Hr''. Qed.

Lemma roles_member r t0 t k m x :
  t_members t !! k = Some m -> m_role x = m_role m -> roles_kept r t0 t -> roles_kept r t0 (set_members <[k := x]> t).
Proof.
  intros Hk Hx Ht. apply (roles_trans _ _ _ _ Ht). intros u y Hy. simpl. rewrite lookup_insert. case_decide; [|by exists y].
  exists x. subst k. split; [done|]. congruence.
Qed.

Lemma roles_insert r t0 t k x : t_members t !! k = None -> roles_kept r t0 t -> roles_kept r t0 (set_members <[k := x]> t).
Proof.
  intros Hk Ht. apply (roles_trans _ _ _ _ Ht). intros u y Hy. simpl. rewrite lookup_insert_ne; [by exists y|congruence].
Qed.

Lemma roles_other r t0 t r' u x : r' <> r -> roles_kept r t0 t -> roles_kept r t0 (set_members <[(r', u) := x]> t).
Proof.
  intros Hr Ht. apply (roles_trans _ _ _ _ Ht). intros v y Hy. simpl. rewrite lookup_insert_ne; [by exists y|congruence].
Qed.

(** Follow a statement's cases; what is left are the writes. *)
Ltac cases_tac :=
  intros ?now ?id ?t ?a ?t' ?Ht;
  unfold select, set_owner_sql, set_dest_sql, upsert_member_sql, insert_room, insert_member, update_room, update_member,
    add_stop_sql, remove_stop_sql, update_label_sql, create_message_sql, upsert_marker_sql;
  repeat case_match; intros; simplify_eq; try exact Ht;
  repeat match goal with
    | H : _ && _ = true |- _ => apply andb_true_iff in H as [? ?]
    | H : _ || _ = false |- _ => apply orb_false_iff in H as [? ?]
    | H : bool_decide (is_Some _) = false |- _ => apply bool_decide_eq_false, eq_None_not_Some in H
    end.

(** Reads and calls keep any invariant; for the others follow the cases. *)
Ltac stmt_tac Hi :=
  destruct Hi as [? ? ?|? ? ?|?|? ?|?|?o ?code ?name ?body ?Hc Hbody|?r ?a ?u ?body ?Hc Hbody|? ? ?Hc|? ? ?Hc|? ? ? ?Hc|? ? ?Hc|? ?Hc
    |? ? ?Hc|? ? ? ? ? ? ?Hc|? ? ? ?Hc|? ?Hc|? ? ? ? ? ?Hc|? ? ?Hc|? ? ? ? ? ?Hc|? ? ?Hc|? ?Hc|? ? ? ?Hc|? ? ? ?Hc]; cbn [do_instr];
  [apply read_only_preserves, select_read_only
  |apply read_only_preserves; apply StoreListMessages_read_only
  |apply rt_do_preserves|apply read_only_preserves, rt_get_read_only|apply read_only_preserves, rand_int_read_only
  |rewrite Hbody; clear Hbody|rewrite Hbody; clear Hbody|..].

(** The statements of the two transactions. *)
Ltac tx_tac :=
  lazymatch goal with
  | |- preserves _ (CreateRoom _ _ _) => unfold CreateRoom; apply in_tx_preserves_body
  | |- preserves _ (StoreTransferOwnership _ _ _) =>
      unfold StoreTransferOwnership, affected, check; apply in_tx_preserves_body
  | |- _ => idtac
  end.

Lemma stmt_roles op B (i : instr H B) r t0 :
  service_stmt op B i -> (is_tx i = true -> forall tf, transfer_of op = Some tf -> tf_room tf <> r) ->
  preserves (roles_kept r t0) (do_instr i).
Proof.
  intros Hi Hno. stmt_tac Hi; tx_tac; preserves_tac; cases_tac.
  all: try by (eapply roles_member; [eassumption| |eassumption]).
  all: try by apply roles_insert.
  all: by apply roles_other; [apply (Hno eq_refl _ (caused_handover _ _ _ _ Hc))|].
Qed.
(** ** Ended rooms *)

Definition ended_row (r : uuid) (row : RoomRow) (t : Tables) : Prop :=
  t_rooms t !! r = Some row /\ room_active row = false.

Lemma ended_other r row r' x t : r' <> r -> ended_row r row t -> ended_row r row (set_rooms <[r' := x]> t).
Proof. intros Hne [Hr He]. split; [|done]. simpl. by rewrite lookup_insert_ne. Qed.

(** Every update of a room's row asks that the room is active. *)
Lemma ended_update r row r' x y t :
  t_rooms t !! r' = Some y -> room_active y = true -> ended_row r row t -> ended_row r row (set_rooms <[r' := x]> t).
Proof. intros Hy Ha Ht. apply ended_other; [|done]. intros ->. destruct Ht as [Hr He]. congruence. Qed.

Lemma ended_insert r row r' x t :
  has (t_rooms t) r' = false -> ended_row r row t -> ended_row r row (set_rooms <[r' := x]> t).
Proof. intros Hn%has_false Ht. apply ended_other; [|done]. intros ->. destruct Ht as [Hr He]. congruence. Qed.

Lemma stmt_ended op B (i : instr H B) r row : service_stmt op B i -> preserves (ended_row r row) (do_instr i).
Proof.
  intros Hi. stmt_tac Hi; tx_tac; preserves_tac; cases_tac.
  all: first [by eapply ended_update | by apply ended_insert].
Qed.

(** Somebody who is not a member, of a room that has ended. *)
Definition shut_out (r u : uuid) (row : RoomRow) (t : Tables) : Prop :=
  ended_row r row t /\ t_members t !! (r, u) = None.

Lemma shut_out_member r u row k x t : k <> (r, u) -> shut_out r u row t -> shut_out r u row (set_members <[k := x]> t).
Proof. intros Hk [He Hn]. split; [exact He|]. simpl. by rewrite lookup_insert_ne. Qed.

Lemma shut_out_update r u row k x y t :
  t_members t !! k = Some y -> shut_out r u row t -> shut_out r u row (set_members <[k := x]> t).
Proof. intros Hy Ht. apply shut_out_member; [|done]. intros ->. destruct Ht as [_ Hn]. congruence. Qed.


(** A new room is not the one that ended. *)
Lemma CreateRoom_shut r u row o code name : preserves (shut_out r u row) (CreateRoom (H:=H) o code name).
Proof.
  unfold CreateRoom. apply in_tx_preserves_body. apply (bind_yields _ _ _ (fun room => Room_ID room <> r)).
  - apply stmt_yields. intros now id t b t' [He Hn]. unfold insert_room. repeat case_match; intros; simplify_eq.
    apply orb_false_iff in H0 as [Hid _]. split; [split; [by apply ended_insert|exact Hn]|].
    apply has_false in Hid. intros <-. cbn in *. destruct He as [Hr _]. congruence.
  - intros room Hroom. preserves_tac. intros now id t b t' Ht. unfold insert_member. repeat case_match; intros; simplify_eq.
    apply shut_out_member; [congruence|done].
Qed.

Lemma stmt_shut op B (i : instr H B) r u row :
  service_stmt op B i -> (forall v code, op <> SvcJoin v code) -> preserves (shut_out r u row) (do_instr i).
Proof.
  intros Hi Hno. stmt_tac Hi.
  1: apply CreateRoom_shut.
  all: tx_tac; preserves_tac; cases_tac.
  all: try (by apply caused_join in Hc as [code ->]; destruct (Hno _ code eq_refl)).
  all: first [by eapply shut_out_update | destruct Ht as [He Hn]; split; [by eapply ended_update|exact Hn]].
Qed.

(** The room a code leads to has not ended. *)
Lemma GetActiveByCode_yields r u row code :
  yields (H:=H) (shut_out r u row) (GetActiveByCode code) (fun room => Room_ID room <> r).
Proof.
  apply on_error_yields, scan_row_yields, stmt_yields. intros now id t a t' [[Hr He] Hn] [= <- <-]. split; [done|].
  destruct (head (filter _ _)) as [[r' row']|] eqn:Hh; [|done]. cbn. apply head_Some_elem_of in Hh.
  apply list_elem_of_filter in Hh as [[_ Ha] Hin]. apply elem_of_map_to_list in Hin. intros ->. simpl in *.
  unfold room_active in He. apply bool_decide_eq_false in He. congruence.
Qed.

(** ** The room as its users know it *)

(** Somebody in the room gets another row. *)
Lemma moves_here op r u t m m' e f :
  db_wf t -> t_members t !! (r, u) = Some m -> member_present m = true -> caused op r e ->
  (forall c, change e c = change_here u f c) -> participant_of_row m' = f (participant_of_row m) ->
  forall r', moves op r' t (set_members <[(r, u) := m']> t).
Proof.
  intros Hwf Hm Hp Hc He Hf. destruct (wf_members _ Hwf _ _ _ Hm) as [_ _ (row & Hrow & _)].
  eapply moves_member; [done|exact Hc| |done]. rewrite He. unfold change_here. cbn [cv_people convoy_of].
  rewrite lookup_fmap, in_room_lookup, Hm. simpl. rewrite Hf. unfold participant_of_row. by rewrite Hp.
Qed.

(** A statement's effect, when it has one. *)
Lemma stmt_moves_sql op {A} tick params (f : Sql A) (w : World H) :
  db_wf (w_db w) ->
  (forall now id t a t', db_wf t -> f now id t = inr (a, t') -> forall r, moves op r t t') ->
  forall r, moves op r (w_db w) (w_db (stmt tick params f w).2).
Proof.
  intros Hwf Hf r. destruct (stmt_db tick params f w) as [->|(now & id & a & t & E & ->)]; [apply moves_refl|]. by eapply Hf.
Qed.

Lemma update_member_moves op tick r u upd e f (w : World H) :
  db_wf (w_db w) -> caused op r e -> (forall c, change e c = change_here u f c) ->
  (forall now m, member_present m = true -> m_kicked m = false -> participant_of_row (upd now m) = f (participant_of_row m)) ->
  forall r', moves op r' (w_db w) (w_db (stmt tick [] (update_member r u member_present upd) w).2).
Proof.
  intros Hwf Hc He Hf. apply stmt_moves_sql; [done|]. intros now id t a t' Ht. unfold update_member.
  destruct (t_members t !! (r, u)) as [m|] eqn:Hm; [|intros [= _ <-] r'; apply moves_refl].
  destruct (member_present m) eqn:Hp; intros [= _ <-] r'; [|apply moves_refl]. eapply moves_here; eauto.
  apply Hf; [done|]. destruct (m_kicked m) eqn:Hk; [|done]. destruct (wf_members _ Ht _ _ _ Hm) as [_ Hl _].
  apply Hl in Hk as [x Hx]. unfold member_present in Hp. rewrite Hx in Hp. by apply bool_decide_eq_true in Hp.
Qed.

Lemma update_room_moves op params r cond upd e (w : World H) :
  db_wf (w_db w) -> caused op r e ->
  (forall now t row, cond row = true -> change e (convoy_of r t row) = Some (convoy_of r t (upd now row))) ->
  forall r', moves op r' (w_db w) (w_db (exec params (update_room r cond upd) w).2).
Proof.
  intros Hwf Hc He. apply stmt_moves_sql; [done|]. intros now id t a t' Ht. unfold update_room.
  destruct (t_rooms t !! r) as [row|] eqn:Hr; [|intros [= _ <-] r'; apply moves_refl].
  destruct (cond row) eqn:Hcd; intros [= _ <-] r'; [|apply moves_refl]. eapply moves_room; eauto.
Qed.

Lemma goal_of_set row : dest_ok row -> dest_set row = true -> exists g, goal_of_row row = Some g /\
  r_dest_lat row = Some (go_lat g) /\ r_dest_lng row = Some (go_lng g) /\ r_dest_set_by row = Some (go_by g).
Proof.
  unfold dest_ok, dest_set, goal_of_row. destruct (r_dest_lat row) as [lat|]; [|done]. destruct (r_dest_lng row) as [lng|]; [|done].
  destruct (r_dest_set_at row); [|done]. destruct (r_dest_set_by row) as [by_|]; [|done]. intros _ _. by eexists.
Qed.

Lemma CreateRoom_moves op o code name (w : World H) :
  db_wf (w_db w) -> (forall r, caused op r (Opened o code name)) ->
  forall r, moves op r (w_db w) (w_db (CreateRoom o code name w).2).
Proof.
  intros Hwf Hc. unfold CreateRoom.
  match goal with |- context [in_tx ?b w] =>
    destruct (in_tx_atomic b w) as [(e & _ & ->)|(w1 & a & w2 & Hw1 & Hb & -> & _)] end; [intros; apply moves_refl|].
  rewrite <-Hw1 in *. clear Hw1. split_ok Hb. apply stmt_ok in E as (now & id & E & _). apply stmt_ok in E0 as (now' & id' & E0 & _).
  revert E. unfold insert_room. destruct (has (t_rooms (w_db w1)) id) eqn:Hid; [done|]. destruct (code_taken _ _); [done|].
  destruct (has (t_users _) o); [|done]. simpl. intros [= <- Hw0]. revert E0. unfold insert_member. rewrite <-Hw0. simpl.
  repeat case_match; try done. intros [= _ <-]. apply has_false in Hid. by apply moves_opened.
Qed.

Lemma stmt_moves op B (i : instr H B) (w : World H) :
  service_stmt op B i -> no_handover op i -> db_wf (w_db w) -> forall r, moves op r (w_db w) (w_db (do_instr i w).2).
Proof.
  intros Hi Hno Hwf.
  assert (forall (m : M H B), read_only m -> forall r, moves op r (w_db w) (w_db (m w).2)) as Hread.
  { intros m Hm r. destruct (Hm w) as [-> _]. apply moves_refl. }
  destruct Hi as [B p f|r b n|f|B f|m|o c n body Hc E|r a u body Hc E|r u Hc|r u Hc|r u b Hc|r u Hc|r Hc|r n Hc|r u lat lng n d Hc
    |r n d Hc|r Hc|r u lat lng l Hc|r u Hc|r u lat lng l Hc|r s Hc|r Hc|r s l Hc|r u body Hc]; cbn [do_instr].
  - apply Hread, select_read_only.
  - apply Hread, (StoreListMessages_read_only r b n).
  - intros r. apply moves_refl.
  - apply Hread, rt_get_read_only.
  - apply Hread, rand_int_read_only.
  - rewrite E. by apply CreateRoom_moves.
  - apply caused_handover in Hc. by destruct Hno as [Hno|Hno]; rewrite ?Hc in Hno.
  - apply stmt_moves_sql; [done|]. intros now id t a t' Ht. unfold upsert_member_sql.
    destruct (t_members t !! (r, u)) as [m|] eqn:Hm.
    + intros [= _ <-]. destruct (wf_members _ Ht _ _ _ Hm) as [_ _ (row & Hrow & _)].
      eapply moves_member; [done|exact Hc|reflexivity|]. cbn [cv_people convoy_of]. by rewrite lookup_fmap, in_room_lookup, Hm.
    + unfold insert_member. rewrite Hm. simpl. destruct (has (t_rooms t) r) eqn:Hr; [|done]. destruct (has (t_users t) u); [|done].
      intros [= _ <-]. apply has_spec in Hr as [row Hrow].
      eapply moves_member; [done|exact Hc|reflexivity|]. cbn [cv_people convoy_of]. by rewrite lookup_fmap, in_room_lookup, Hm.
  - eapply update_member_moves; [done|exact Hc|done|]. intros now m _ Hk. unfold participant_of_row. simpl. by rewrite Hk.
  - eapply update_member_moves; [done|exact Hc|done|]. intros now m Hp _. unfold participant_of_row, set_muted. cbn.
    unfold member_present in *. cbn. by rewrite Hp.
  - by eapply update_member_moves.
  - eapply update_room_moves; [done|exact Hc|]. intros now t row Ha. cbn [change]. unfold when_open. cbn. by rewrite Ha.
  - eapply update_room_moves; [done|exact Hc|]. intros now t row Ha. cbn [change]. unfold when_open. cbn. rewrite Ha.
    assert (room_active (set_name n now row) = true) as Ha' by exact Ha. unfold convoy_of. by rewrite Ha'.
  - apply stmt_moves_sql; [done|]. intros now id t a t' Ht. unfold set_dest_sql, update_room.
    destruct (t_rooms t !! r) as [row|] eqn:Hr; [|intros [= _ <-] r'; apply moves_refl].
    destruct (room_active row) eqn:Ha; [|intros [= _ <-] r'; apply moves_refl].
    destruct (has (t_users t) u); [|done]. intros [= _ <-].
    eapply moves_room; [done|exact Hc|]. cbn [change]. unfold when_open. cbn. by rewrite Ha.
  - apply stmt_moves_sql; [done|]. intros now id t a t' Ht. unfold update_room.
    destruct (t_rooms t !! r) as [row|] eqn:Hr; [|intros [= _ <-] r'; apply moves_refl].
    destruct (room_active row && dest_set row) eqn:Hcd; [|intros [= _ <-] r'; apply moves_refl]. intros [= _ <-].
    apply andb_true_iff in Hcd as [Ha Hd].
    destruct (goal_of_set row (rw_dest _ _ (wf_rooms _ Ht _ _ Hr)) Hd) as (g & Hg & H1 & H2 & H3).
    eapply moves_room; [done|exact Hc|]. cbn [change convoy_of cv_goal]. rewrite Hg. cbn. unfold when_open. cbn. rewrite Ha.
    unfold convoy_of, set_goal, goal_of_row. cbn. by rewrite H1, H2, H3.
  - eapply update_room_moves; [done|exact Hc|]. intros now t row Ha. cbn [change]. unfold when_open. cbn. by rewrite Ha.
  - apply stmt_moves_sql; [done|]. intros now id t a t' Ht. unfold upsert_marker_sql.
    case_match eqn:Hex; intros [= _ <-]. assert (has (t_rooms t) r = true) as [row Hrow]%has_spec.
    { apply orb_true_iff in Hex as [[k Hk]%bool_decide_eq_true|[Hr _]%andb_true_iff]; [|done].
      apply has_spec. by destruct (wf_markers _ Ht _ _ _ Hk). }
    by eapply moves_pin.
  - apply stmt_moves_sql; [done|]. intros now id t a t' Ht [= _ <-]. by apply moves_unpin.
  - apply stmt_moves_sql; [done|]. intros now id t a t' Ht. unfold add_stop_sql.
    destruct (Z.ltb_spec max_int32 (next_position r t)); [done|].
    destruct (has (t_stops t) id) eqn:Hid; [done|]. destruct (has (t_rooms t) r) eqn:Hr; [|done].
    destruct (has (t_users t) u); [|done]. intros [= _ <-]. apply has_spec in Hr as [row Hrow]. apply has_false in Hid.
    eapply moves_halts; [done|apply (Hc id)| |].
    + cbn [change]. unfold set_halts. cbn.
      pose proof (stops_list_add t id (mkStopRow r lat lng l (next_position r t) (Some u) now)
        (mkStop id r lat lng l (next_position r t) u now) Ht Hid eq_refl eq_refl) as Hl.
      cbn [s_room_id] in Hl. by rewrite Hl, fmap_app.
    + intros j s Hs. rewrite lookup_insert_Some. split; [intros [[<- <-]|[_ ?]]; done|]. intros Hj. right. split; [congruence|done].
  - apply stmt_moves_sql; [done|]. intros now id t a t' Ht. unfold remove_stop_sql.
    destruct (t_stops t !! s) as [x|] eqn:Hx; [|intros [= _ <-] r'; apply moves_refl].
    case_bool_decide as Hroom; [|intros [= _ <-] r'; apply moves_refl]. intros [= _ <-].
    destruct (wf_stops _ Ht _ _ Hx) as ([row Hrow] & _). rewrite Hroom in Hrow.
    eapply moves_halts; [done|exact Hc| |].
    + cbn [change]. unfold set_halts. cbn. by rewrite stops_list_remove, filter_halts.
    + intros j y Hy. rewrite lookup_delete_Some. split; [by intros [_ ?]|]. intros Hj. split; [congruence|done].
  - apply stmt_moves_sql; [done|]. intros now id t a t' Ht [= _ <-].
    destruct (t_rooms t !! r) as [row|] eqn:Hrow.
    + eapply moves_halts; [done|exact Hc| |].
      * cbn [change]. unfold set_halts, stops_list. by rewrite ordered_stops_clear.
      * intros j y Hy. rewrite map_lookup_filter_Some. simpl. tauto.
    + intros r'. left. destruct (decide (r' = r)) as [->|Hne]; [by rewrite !view_none|]. unfold room_view. simpl.
      rewrite (stops_list_same r' t); [done|]. intros j y Hy. simpl. rewrite map_lookup_filter_Some. simpl. split; [tauto|]. split; [done|congruence].
  - apply stmt_moves_sql; [done|]. intros now id t a t' Ht. unfold update_label_sql.
    destruct (t_stops t !! s) as [x|] eqn:Hx; [|intros [= _ <-] r'; apply moves_refl].
    case_bool_decide as Hroom; [|intros [= _ <-] r'; apply moves_refl]. intros [= _ <-].
    destruct (wf_stops _ Ht _ _ Hx) as ([row Hrow] & _). rewrite Hroom in Hrow.
    eapply moves_halts; [done|exact Hc| |].
    + cbn [change]. unfold set_halts. cbn. rewrite (stops_list_relabel _ _ _ x), relabel_halts by done. done.
    + intros j y Hy. rewrite lookup_insert_Some. split; [intros [[<- <-]|[_ ?]]; done|]. intros Hj. right. split; [congruence|done].
  - apply stmt_moves_sql; [done|]. intros now id t a t' Ht. unfold create_message_sql.
    destruct (has (t_messages t) id) eqn:Hid; [done|]. destruct (has (t_rooms t) r) eqn:Hr; [|done].
    destruct (has (t_users t) u); [|done]. intros [= _ <-]. apply has_spec in Hr as [row Hrow]. apply has_false in Hid.
    eapply moves_said; [done|done|done|apply (Hc id)|done].
Qed.
(** ** What a request relies on, and what it guarantees *)

(** The member's row that [requireOwner] found is one of an owner. *)
Definition owner_row (r a : uuid) (t : Tables) : Prop :=
  exists m, t_members t !! (r, a) = Some m /\ m_role m = RoleOwner.

Lemma owner_row_kept r a t t' : owner_row r a t -> roles_kept r t t' -> owner_row r a t'.
Proof. intros (m & Hm & Hr) Hk. destruct (Hk a m Hm) as (m' & Hm' & Hr'). exists m'. by rewrite Hr'. Qed.

(** Others keep the schema, and leave the role to the owner of a room that one
    hands over. *)
Definition relied (op : service_op) (t t' : Tables) : Prop :=
  db_wf t' /\
  forall tf, transfer_of op = Some tf -> owner_row (tf_room tf) (tf_old tf) t -> owner_row (tf_room tf) (tf_old tf) t'.

(** It keeps the schema, and the roles of every room it does not hand over, and
    what it changes is an event it may cause. *)
Definition guaranteed (op : service_op) (t t' : Tables) : Prop :=
  db_wf t' /\ (forall r, (forall tf, transfer_of op = Some tf -> tf_room tf <> r) -> roles_kept r t t') /\
  forall r, moves op r t t'.

Lemma relied_trans op t1 t2 t3 : relied op t1 t2 -> relied op t2 t3 -> relied op t1 t3.
Proof. intros [_ H1] [Hwf H2]. split; [done|]. auto. Qed.

Lemma guaranteed_refl op t : db_wf t -> guaranteed op t t.
Proof. intros Hwf. split; [done|]. split; intros; [apply roles_refl|apply moves_refl]. Qed.

(** A statement that hands nothing over, on tables that are well-formed. *)
Definition plain_stmt (op : service_op) (B : Type) (i : instr H B) : Prop := service_stmt op B i /\ no_handover op i.

Lemma stmt_guaranteed op B (i : instr H B) w :
  plain_stmt op B i -> db_wf (w_db w) -> guaranteed op (w_db w) (w_db (do_instr i w).2).
Proof.
  intros [Hi Hno] Hwf. split; [by apply (stmt_wf _ _ _ Hi)|]. split; [|by apply stmt_moves].
  intros r Hr. apply (stmt_roles _ _ _ r (w_db w) Hi); [|apply roles_refl]. auto.
Qed.

Lemma plain_relies op {A} (p : proc H A) t : uses (plain_stmt op) p -> relies (relied op) (guaranteed op) p anything t.
Proof. apply uses_relies. intros B i w t1 Hi [Hwf _]. by apply stmt_guaranteed. Qed.

(** Compute a program to its instructions, on each of their answers. *)
Ltac uses_tac :=
  repeat (cbn; lazymatch goal with
    | |- True => exact I
    | |- plain_stmt _ _ _ => split; [|by right]
    | |- _ /\ _ => split
    | |- service_stmt _ _ _ => once constructor; cbn; auto
    | |- forall _, _ => intros [?|?]
    | |- context [match ?x with _ => _ end] => destruct x
    end).

Section transfer.
Variables r a u : uuid.
Let op := SvcOwner (OpTransferOwnership u) r a.

(** What comes between the check and the transaction. *)
Lemma between_relies {A} (p : proc H A) t :
  uses (plain_stmt op) p -> owner_row r a t -> relies (relied op) (guaranteed op) p (fun _ => owner_row r a) t.
Proof.
  apply uses_carry.
  - intros t1 t2 Ho [_ Hk]. by apply (Hk (mkTransfer r a u)).
  - intros B i w t1 Hi [Hwf _] Ho. split; [by apply stmt_guaranteed|].
    eapply owner_row_kept; [done|]. apply (stmt_roles op _ _ r (w_db w) (proj1 Hi)); [|apply roles_refl].
    destruct Hi as [_ [Hno| ->]]; done.
Qed.

Lemma requireOwner_relies op' t :
  relies (relied op) (guaranteed op) (steps (S:=service_stmt (H:=H) op') (requireOwner r a))
    (fun res t' => match res with Ok _ => owner_row r a t' | Fail _ => True end) t.
Proof.
  cbn. intros w [Hwf _]. rewrite exec_select_run. destruct (decide (next_ok w)).
  2: { split; [|done]. by apply guaranteed_refl. }
  destruct (t_members (w_db w) !! (r, a)) as [m|] eqn:Hm; cbn; [destruct (member_active m)|]; cbn.
  all: split; [by apply guaranteed_refl|].
  all: try (destruct (bool_decide (m_role m = RoleOwner)) eqn:Hr; cbn); try done.
  exists m. split; [done|]. by apply bool_decide_eq_true in Hr.
Qed.

(** A transfer changes the owner, and nobody's standing. *)
Lemma StoreTransferOwnership_moves (w : World H) :
  db_wf (w_db w) -> a <> u -> owner_row r a (w_db w) ->
  forall r', moves op r' (w_db w) (w_db (StoreTransferOwnership r a u w).2).
Proof.
  intros Hwf Hne (mo & Hmo & Hro). unfold StoreTransferOwnership.
  match goal with |- context [in_tx ?b w] =>
    destruct (in_tx_atomic b w) as [(e & _ & ->)|(w1 & [] & w2 & Hw1 & Hb & -> & _)] end; [intros; apply moves_refl|].
  rewrite <-Hw1 in *. clear Hw1. apply (transfer_ok r a u _ _ mo) in Hb; [|done..].
  destruct Hb as (row & mn & Hr & He & Hmn & Ha & ->).
  apply (moves_event op r _ _ row (HandedOver a u) (convoy_of r (w_db w1) (set_owner u 0 row))); [done|by cbn| | |].
  - cbn [change cv_people convoy_of]. rewrite lookup_fmap, in_room_lookup, Hmn. cbn.
    apply andb_true_iff in Ha as [Hp _]. unfold participant_of_row. rewrite Hp.
    rewrite decide_True by (split; [symmetry; by apply (proj1 (owner_role _ _ _ _ _ Hwf Hmo Hr))|done]).
    assert (room_active row = true) as Hact by by apply bool_decide_eq_true.
    unfold when_open. cbn [cv_open convoy_of]. rewrite Hact. unfold convoy_of.
    assert (room_active (set_owner u 0 row) = true) as -> by exact Hact. done.
  - erewrite view_row by (simpl; by rewrite lookup_insert_eq). f_equal. unfold convoy_of. simpl.
    rewrite !in_room_insert, !fmap_insert. f_equal.
    rewrite insert_insert_ne by done.
    rewrite (insert_id _ a) by by rewrite lookup_fmap, in_room_lookup, Hmo.
    by rewrite (insert_id _ u) by by rewrite lookup_fmap, in_room_lookup, Hmn.
  - intros r' Hr'. unfold room_view. simpl. rewrite !in_room_insert_ne, lookup_insert_ne by done. done.
Qed.

Lemma StoreTransferOwnership_relies (Hc : caused op r (HandedOver a u)) t :
  a <> u -> owner_row r a t ->
  relies (relied op) (guaranteed op) (@steps _ _ _ _ (StoreTransferOwnership_steps (H:=H) op r a u Hc)) anything t.
Proof.
  intros Hne Ho. cbn -[in_tx]. intros w [Hwf Hk].
  pose proof (Hk (mkTransfer r a u) eq_refl Ho) as Ho'. cbn [tf_room tf_old] in Ho'.
  fold (StoreTransferOwnership (H:=H) r a u).
  destruct (StoreTransferOwnership r a u w) as [res w'] eqn:E. split; [|done].
  replace w' with (StoreTransferOwnership r a u w).2 by by rewrite E. clear E. split; [|split].
  - destruct Ho' as (m & Hm & Hr). apply StoreTransferOwnership_wf; [done|done|by eexists|].
    intros row Hrow. symmetry. by eapply owner_role.
  - intros r' Hr'. refine (stmt_roles op _ _ r' (w_db w) (st_transfer op r a u _ Hc eq_refl) _ w (roles_refl _ _)). auto.
  - by apply StoreTransferOwnership_moves.
Qed.

Lemma TransferOwnership_relies t :
  relies (relied op) (guaranteed op) (@steps _ _ _ _ (transfer_steps rt r a u)) anything t.
Proof.
  unfold transfer_steps. apply relies_bind. eapply relies_mono; [|apply requireOwner_relies].
  intros [[]|e] t1 Ho; [|done]. apply relies_bind. unfold check. destruct (bool_decide (a = u)) eqn:Hau; [done|].
  apply bool_decide_eq_false in Hau. cbn [steps check_steps ret_steps relies].
  (* the member, the destination, the marker *)
  apply relies_bind. eapply relies_mono; [|apply between_relies; [uses_tac|exact Ho]].
  clear Ho. intros [role|e] t2 Ho; [|done].
  apply relies_bind. eapply relies_mono; [|apply between_relies; [uses_tac; destruct r0 as [? ? ? ? ? [?|] [?|] ? ? [?|] [?|]]; uses_tac|exact Ho]].
  clear Ho. intros [dest|e] t3 Ho; [|done].
  apply relies_bind. eapply (relies_mono _ _ _ (fun _ => owner_row r a)).
  2: { apply between_relies; [|exact Ho]. destruct dest as [[d|]|e]; uses_tac. }
  clear Ho. intros [x|e] t4 Ho; [|done].
  apply relies_bind. eapply relies_mono; [|apply StoreTransferOwnership_relies; done].
  intros [y|e] t5 _; [|done]. apply plain_relies. unfold notify, notify_steps. uses_tac.
Qed.
End transfer.

Lemma request_relies op t : relies (relied op) (guaranteed op) (request rt unicode_upper op) anything t.
Proof.
  assert (uses (service_stmt op) (request rt unicode_upper op)) as Hu by apply steps_use.
  destruct (transfer_of op) as [tf|] eqn:Htf.
  - destruct op as [| | | | |op r a|]; try done. destruct op; try done. apply TransferOwnership_relies.
  - apply plain_relies. eapply uses_mono; [|exact Hu]. intros B i Hi. split; [done|by left].
Qed.
(** ** Who is not in an ended room *)

Section shut_out.
Variables (r u : uuid) (row : RoomRow).
Let shut : Tables -> Tables -> Prop := fun _ => shut_out r u row.

Lemma lookup_relies op f code t :
  relies shut shut (steps (S:=service_stmt (H:=H) op) (on_error f (GetActiveByCode code)))
    (fun res _ => match res with Ok room => Room_ID room <> r | Fail _ => True end) t.
Proof.
  cbn. intros w Hw. destruct (GetActiveByCode_yields r u row code w Hw) as [HP HQ].
  unfold GetActiveByCode, on_error, catch, scan_row, bind in HP, HQ.
  destruct (exec [code] _ w) as [[[room|]|e] w']; cbn in *; auto.
Qed.

Lemma upsert_relies op r' v (Hc : caused op r' (CameIn v)) t :
  r' <> r -> relies shut shut (@steps _ _ _ _ (UpsertMember_steps (H:=H) op r' v Hc)) anything t.
Proof.
  intros Hr. cbn. intros w Hw. assert (preserves (shut_out r u row) (exec (H:=H) [] (upsert_member_sql r' v))) as Hp.
  { preserves_tac. cases_tac; by apply shut_out_member; [congruence|]. }
  specialize (Hp w Hw). by destruct (exec [] _ w).
Qed.

Lemma shut_relies op t : relies shut shut (request rt unicode_upper op) anything t.
Proof.
  assert (uses (service_stmt op) (request rt unicode_upper op)) as Hu by apply steps_use.
  assert ((forall v code, op <> SvcJoin v code) \/ exists v code, op = SvcJoin v code) as [Hno|(v & code & ->)].
  { destruct op; eauto; by left. }
  { revert Hu. apply uses_relies. intros B i w t2 Hi Hw. by apply (stmt_shut _ _ _ _ _ _ Hi). }
  unfold request. cbn [service_op_steps]. apply relies_bind. unfold Join_steps, Join. apply relies_bind.
  eapply relies_mono; [|apply lookup_relies]. intros [room|e] t1 Hroom; [|done].
  apply relies_bind. eapply relies_mono; [|by apply upsert_relies]. intros [x|e] t2 _; [|done].
  apply (relies_mono _ _ _ anything); [by intros [?|?]|]. clear.
  apply (uses_relies (service_stmt (SvcLeave 0 0))); [|destruct rt as [b|]; uses_tac].
  intros B i w t3 Hi Hw. by apply (stmt_shut _ _ _ _ _ _ Hi).
Qed.
End shut_out.
End facts.
