(* ===== verification/Isolation.v ===== *)
(** * What an operation of the service can touch

    Each operation's footprint in the tables, whatever statements fail: one
    convoy's operations cannot be seen in another, one member's own operations
    do not reach the others, and an ended room's row is final. *)
From stdpp Require Import base gmap sets list strings.
From Stdlib Require Import ZArith Lia.
From S2P Require Import Prelude.
From S2P Require Import GoString.
From S2P Require Import Httpx.
From S2P Require Import Types.
From S2P Require Import Db.
From S2P Require Import Store.
From S2P Require Import StoreFacts.
From S2P Require Import Broadcaster.
From S2P Require Import Service.
From S2P Require Import ServiceFacts.
From S2P Require Import Runs.
From S2P Require Import Samples.
From S2P Require Import RoomsProps.
From S2P Require Import MarkerProps.
From S2P Require Import Steps.
From S2P Require Import Requests.
From S2P Require Import RequestFacts.

Open Scope convoy_scope.

(** ** Footprints *)

(** What may change: which rooms' rows, memberships and markers, the stops of
    which rooms, and which messages may be added. *)
Record footprint := mkFootprint {
  fp_room : uuid -> Prop;
  fp_member : uuid * uuid -> Prop;
  fp_marker : uuid * uuid -> Prop;
  fp_stops : uuid -> Prop;
  fp_message : MessageRow -> Prop;
}.

Definition nobody_ {A} (_ : A) : Prop := False.

(** From [t0] to [t] nothing outside of the footprint changed, and no message
    did. *)
Record within (fp : footprint) (t0 t : Tables) : Prop := {
  wi_rooms : forall r, fp_room fp r \/ t_rooms t !! r = t_rooms t0 !! r;
  wi_members : forall k, fp_member fp k \/ t_members t !! k = t_members t0 !! k;
  wi_markers : forall k, fp_marker fp k \/ t_markers t !! k = t_markers t0 !! k;
  wi_stops : forall i s, fp_stops fp (s_room_id s) \/ (t_stops t !! i = Some s <-> t_stops t0 !! i = Some s);
  wi_kept : forall i g, t_messages t0 !! i = Some g -> t_messages t !! i = Some g;
  wi_added : forall i g, t_messages t !! i = Some g -> t_messages t0 !! i = Some g \/ fp_message fp g;
  wi_users : t_users t = t_users t0;
  wi_rest : t_identities t = t_identities t0 /\ t_push_tokens t = t_push_tokens t0 /\ t_feedback t = t_feedback t0 /\
            t_broadcasts t = t_broadcasts t0 /\ t_app_config t = t_app_config t0;
}.

Lemma within_refl fp t : within fp t t.
Proof. split; intros; auto. Qed.

Section updates.
Variables (fp : footprint) (t0 : Tables).

Lemma within_room r x t : fp_room fp r -> within fp t0 t -> within fp t0 (set_rooms <[r := x]> t).
Proof.
  intros Hr [H1 H2 H3 H4 H5 H6 H7 H8]. split; simpl; auto. intros r'. rewrite lookup_insert.
  case_decide; [subst r'; by left|apply H1].
Qed.

Lemma within_member k x t : fp_member fp k -> within fp t0 t -> within fp t0 (set_members <[k := x]> t).
Proof.
  intros Hk [H1 H2 H3 H4 H5 H6 H7 H8]. split; simpl; auto. intros k'. rewrite lookup_insert.
  case_decide; [subst k'; by left|apply H2].
Qed.

Lemma within_marker k x t : fp_marker fp k -> within fp t0 t -> within fp t0 (set_markers <[k := x]> t).
Proof.
  intros Hk [H1 H2 H3 H4 H5 H6 H7 H8]. split; simpl; auto. intros k'. rewrite lookup_insert.
  case_decide; [subst k'; by left|apply H3].
Qed.

Lemma within_no_marker k t : fp_marker fp k -> within fp t0 t -> within fp t0 (set_markers (delete k) t).
Proof.
  intros Hk [H1 H2 H3 H4 H5 H6 H7 H8]. split; simpl; auto. intros k'. rewrite lookup_delete.
  case_decide; [subst k'; by left|apply H3].
Qed.

(** A stop of a room of the footprint comes, in the place of such a stop or of none. *)
Lemma within_stop i x t :
  fp_stops fp (s_room_id x) -> (forall s, t_stops t !! i = Some s -> s_room_id s = s_room_id x) ->
  within fp t0 t -> within fp t0 (set_stops <[i := x]> t).
Proof.
  intros Hx Hi [H1 H2 H3 H4 H5 H6 H7 H8]. split; simpl; auto. intros j s. destruct (H4 j s) as [Hs|Hs]; [by left|].
  rewrite lookup_insert. case_decide; [subst j|by right]. destruct (decide (s_room_id s = s_room_id x)) as [E|E].
  { left. by rewrite E. }
  right. rewrite <-Hs. split; [by intros [= ->]|]. intros Hj. by apply Hi in Hj.
Qed.

Lemma within_no_stop i s t :
  t_stops t !! i = Some s -> fp_stops fp (s_room_id s) -> within fp t0 t -> within fp t0 (set_stops (delete i) t).
Proof.
  intros Hi Hs [H1 H2 H3 H4 H5 H6 H7 H8]. split; simpl; auto. intros j s'. destruct (H4 j s') as [Hs'|Hs']; [by left|].
  rewrite lookup_delete. case_decide; [subst j|by right]. rewrite <-Hs'. rewrite Hi.
  destruct (decide (s_room_id s' = s_room_id s)) as [E|Hne]; [left; by rewrite E|]. right. split; [done|congruence].
Qed.

Lemma within_no_stops r t :
  fp_stops fp r -> within fp t0 t -> within fp t0 (set_stops (filter (fun p => s_room_id p.2 <> r)) t).
Proof.
  intros Hr [H1 H2 H3 H4 H5 H6 H7 H8]. split; simpl; auto. intros j s. destruct (H4 j s) as [Hs|Hs]; [by left|].
  rewrite map_lookup_filter_Some. simpl. destruct (decide (s_room_id s = r)) as [->|Hne]; [by left|]. right. tauto.
Qed.

Lemma within_message i g t :
  fp_message fp g -> t_messages t !! i = None -> within fp t0 t -> within fp t0 (set_messages <[i := g]> t).
Proof.
  intros Hg Hi [H1 H2 H3 H4 H5 H6 H7 H8]. split; simpl; auto.
  - intros j g' Hj%H5. rewrite lookup_insert. case_decide; [subst j; congruence|done].
  - intros j g'. rewrite lookup_insert. case_decide; [intros [= <-]; by right|apply H6].
Qed.
End updates.

Create HintDb within discriminated.
#[export] Hint Resolve within_room within_member within_marker within_no_marker within_no_stops : within.
#[export] Hint Extern 1 (fp_room _ _) => (cbn; by auto) : within.
#[export] Hint Extern 1 (fp_member _ _) => (cbn; by auto) : within.
#[export] Hint Extern 1 (fp_marker _ _) => (cbn; by auto) : within.
#[export] Hint Extern 1 (fp_stops _ _) => (cbn; by auto) : within.
#[export] Hint Extern 1 (fp_message _ _) => (cbn; by auto) : within.

(** ** The footprint of each operation *)

Section service.
Context {H : Type}.
Variable rt : option (Broadcaster H).
Variable unicode_upper : rune -> rune.

(** [t0] are the tables when the operation begins. *)
Definition op_footprint (op : service_op) (t0 : Tables) : footprint :=
  match op with
  | SvcCreate u _ =>
      mkFootprint (fun r => t_rooms t0 !! r = None) (fun k => k.2 = u /\ t_rooms t0 !! k.1 = None) nobody_ nobody_ nobody_
  | SvcJoin u _ => mkFootprint nobody_ (fun k => k.2 = u) nobody_ nobody_ nobody_
  | SvcLeave r u => mkFootprint nobody_ (fun k => k = (r, u)) nobody_ nobody_ nobody_
  | SvcDetail _ _ | SvcListActive _ => mkFootprint nobody_ nobody_ nobody_ nobody_ nobody_
  | SvcOwner _ r u => mkFootprint (fun r' => r' = r) (fun k => k.1 = r) (fun k => k = (r, u)) (fun r' => r' = r) nobody_
  | SvcMember _ r u =>
      mkFootprint nobody_ nobody_ (fun k => k = (r, u)) nobody_ (fun g => g_room_id g = r /\ g_user_id g = u)
  end.

(** Who may change anything. *)
Definition authorised_op (op : service_op) (t0 : Tables) : bool :=
  match op with
  | SvcOwner _ r u => is_owner t0 r u
  | SvcMember _ r u => is_member t0 r u
  | _ => true
  end.

Ltac within_tac :=
  intros ?now ?id ?t ?a ?t' ?Ht;
  unfold select, set_owner_sql, set_dest_sql, upsert_member_sql, insert_member, update_room, update_member, add_stop_sql,
    remove_stop_sql, update_label_sql, create_message_sql, upsert_marker_sql;
  repeat case_match; intros; simplify_eq; try done; auto with within.

Lemma owner_op_within op r u t0 : preserves (within (op_footprint (SvcOwner op r u) t0) t0) (run_owner_op rt op r u).
Proof.
  destruct op; simpl; try apply discard_preserves; unfold SetDestination, UpdateDestinationMeta, ClearDestination,
    AddStop, UpdateStopLabel, RemoveStop, ClearStops, Rename, TransferOwnership, Mute, Kick, End_, StoreSetDestination,
    StoreUpdateDestinationMeta, StoreClearDestination, StoreAddStop, StoreUpdateStopLabel, StoreRemoveStop,
    StoreClearStops, UpdateName, SetMuted, StoreKick, EndRoom, UpsertPersonalMarker.
  9: { preserves_tac; [within_tac|]. apply in_tx_preserves_body. unfold StoreTransferOwnership, affected, check.
       preserves_tac; within_tac. }
  all: preserves_tac; within_tac.
  - apply within_stop; [done| |done]. apply has_false in H1. intros s. by rewrite H1.
  - apply bool_decide_eq_true in H1. apply within_stop; [done| |done]. intros s'. cbn. congruence.
  - apply bool_decide_eq_true in H1. by apply (within_no_stop _ _ _ s).
Qed.

Lemma member_op_within op r u t0 : preserves (within (op_footprint (SvcMember op r u) t0) t0) (run_member_op rt op r u).
Proof.
  destruct op; simpl; try apply discard_preserves; unfold SetPersonalMarker, ClearPersonalMarker, PostMessage,
    ListMessages, CreateMessage, UpsertPersonalMarker, Store.DeletePersonalMarker, StoreListMessages; preserves_tac; within_tac.
  all: apply has_false in H0; by apply within_message.
Qed.

(** A room that was not there, and a membership in it. *)
Lemma CreateRoom_within u code name n t0 :
  preserves (within (op_footprint (SvcCreate u n) t0) t0) (CreateRoom (H:=H) u code name).
Proof.
  unfold CreateRoom. apply in_tx_preserves_body. apply (bind_yields _ _ _ (fun room => t_rooms t0 !! Room_ID room = None)).
  - apply stmt_yields. intros now id t b t' Ht. unfold insert_room. repeat case_match; intros; simplify_eq.
    apply orb_false_iff in H0 as [Hid%has_false _].
    assert (t_rooms t0 !! id = None) by (destruct (wi_rooms _ _ _ Ht id) as [Hr|Hr]; [done|by rewrite <-Hr]).
    split; [by apply within_room|done].
  - intros room Hroom. preserves_tac. intros now id t b t' Ht. unfold insert_member. repeat case_match; intros; simplify_eq.
    by apply within_member.
Qed.

Lemma service_op_within op t0 : preserves (within (op_footprint op t0) t0) (run_service_op rt unicode_upper op).
Proof.
  destruct op as [u n|u code|r u|r v|u|op r u|op r u]; cbn [run_service_op].
  - apply discard_preserves. unfold Create. induction maxCodeAttempts as [|k IH]; cbn [create_loop]; [by intros w|].
    apply bind_preserves; [apply read_only_preserves, generateCode_read_only|]. intros code.
    apply bind_preserves; [apply try_preserves, CreateRoom_within|].
    intros [room|[]]; try (by intros w). destruct (bool_decide _); [done|by intros w].
  - apply discard_preserves. unfold Join, UpsertMember. preserves_tac; within_tac.
  - unfold Leave, MarkLeft. preserves_tac; within_tac.
  - apply discard_preserves, read_only_preserves, Detail_read_only.
  - apply discard_preserves, read_only_preserves, ListActiveForUser_read_only.
  - apply owner_op_within.
  - apply member_op_within.
Qed.

(** C11 What an operation of the service can touch, whatever statements fail:
    an owner's operations stay in that room (and move no marker but the
    caller's own), a member's own operations reach nobody else's membership or
    marker, a post adds messages of that member in that room and nothing
    else, creating and joining touch no other user and no existing room; messages
    are never changed or lost, and accounts never touched.  And
    only the room's owner, or for a member's operations an active member,
    changes anything at all. *)
Theorem service_footprint op (w : World H) :
  let w' := (run_service_op rt unicode_upper op w).2 in
  within (op_footprint op (w_db w)) (w_db w) (w_db w') /\
  (authorised_op op (w_db w) = false -> w_db w' = w_db w).
Proof.
  split; [apply service_op_within, within_refl|]. destruct op as [u n|u code|r u|r v|u|op r u|op r u]; try done; cbn; intros Hno.
  - by rewrite owner_op_refused.
  - by rewrite member_op_refused.
Qed.

(** ** Ended rooms *)

Lemma run_service_keeps P ops (w : World H) :
  (forall op, preserves P (run_service_op rt unicode_upper op)) -> P (w_db w) -> P (w_db (run_service rt unicode_upper ops w)).
Proof. intros Hop. revert w. induction ops as [|op ops IH]; intros w HP; simpl; [done|]. by apply IH, Hop. Qed.

(** The end is final: once a room has ended, no sequence of the service's
    operations, by whomever and whatever statements fail, changes its row - its
    end, owner, name, code and destination stay - and nobody gets in: who has
    no membership of it never has one. *)
Theorem end_is_final r row ops (w : World H) :
  t_rooms (w_db w) !! r = Some row -> r_ended_at row <> None ->
  let w' := run_service rt unicode_upper ops w in
  t_rooms (w_db w') !! r = Some row /\
  (forall u, t_members (w_db w) !! (r, u) = None -> t_members (w_db w') !! (r, u) = None).
Proof.
  intros Hr He. assert (ended_row r row (w_db w)) as Hrow.
  { split; [done|]. unfold room_active. by apply bool_decide_eq_false. }
  split.
  - apply (run_service_keeps (ended_row r row)); [|done]. intros op. apply (uses_preserves (service_stmt op)); [apply _|].
    intros B i. apply stmt_ended.
  - intros u Hu. apply (run_service_keeps (shut_out r u row)); [|done]. intros op w1 Hw1.
    rewrite <-(steps_run (S:=service_stmt op) (run_service_op rt unicode_upper op)).
    apply relies_alone; [apply shut_relies|done].
Qed.
End service.

(** ** Witnesses *)

(** Bob, no owner, tries to remove Ada. *)
Lemma service_footprint_witness :
  w_db (run_service_op (Some trace_broadcaster) (fun r => r) (SvcOwner (OpKick 1) 101 2) convoy_world).2 = w_db convoy_world.
Proof.
  exact (proj2 (service_footprint (Some trace_broadcaster) (fun r => r) (SvcOwner (OpKick 1) 101 2) convoy_world)
    ltac:(vm_compute; reflexivity)).
Defined.

(** Ada ends the trip; then Cy tries its code and Ada a new name. *)
Definition ended_world : World (list rt_call) :=
  run_service (Some trace_broadcaster) (fun r => r)
    [SvcCreate 1 (Some "trip"); SvcJoin 2 "000000"; SvcOwner OpEnd 101 1] start_world.

Definition after_the_end : list service_op := [SvcJoin 3 "000000"; SvcOwner (OpRename "again") 101 1].

Lemma end_is_final_witness :
  exists row, t_rooms (w_db ended_world) !! 101%N = Some row /\ r_name row = Some "trip" /\
    t_rooms (w_db (run_service (Some trace_broadcaster) (fun r => r) after_the_end ended_world)) !! 101%N = Some row /\
    t_members (w_db (run_service (Some trace_broadcaster) (fun r => r) after_the_end ended_world)) !! (101%N, 3%N) = None.
Proof.
  assert (exists row, t_rooms (w_db ended_world) !! 101%N = Some row /\ r_name row = Some "trip" /\ r_ended_at row <> None)
    as (row & Hr & Hn & He) by (eexists; split; [vm_compute; reflexivity|split; [reflexivity|discriminate]]).
  exists row. split; [exact Hr|]. split; [exact Hn|].
  destruct (end_is_final (Some trace_broadcaster) (fun r => r) 101 row after_the_end ended_world Hr He) as [Hrow Hm].
  split; [exact Hrow|]. apply Hm. vm_compute. reflexivity.
Defined.
