(* ===== verification/RequestProps.v ===== *)
(** * The rooms service when requests overlap

    Whatever statements of different requests fall between one another, and
    whatever fails: what the tables keep, who can have an effect, and what is
    final; and two orders of statements that nobody meant. *)
From stdpp Require Import base gmap sets list strings relations.
From Stdlib Require Import ZArith Lia.
From S2P Require Import Prelude.
From S2P Require Import GoString.
From S2P Require Import Httpx.
From S2P Require Import Types.
From S2P Require Import Db.
From S2P Require Import Store.
From S2P Require Import StoreFacts.
From S2P Require Import Broadcaster.
From S2P Require Import Service.
From S2P Require Import ServiceFacts.
From S2P Require Import Runs.
From S2P Require Import Samples.
From S2P Require Import RoomsProps.
From S2P Require Import RoomMachine.
From S2P Require Import RoomView.
From S2P Require Import Steps.
From S2P Require Import Requests.
From S2P Require Import RequestFacts.
From S2P Require Import Isolation.

Open Scope convoy_scope.

Section props.
Context {H : Type}.
Variable rt : option (Broadcaster H).
Variable unicode_upper : rune -> rune.

Abbreviation request := (request rt unicode_upper).
Abbreviation sys_step := (sys_step rt unicode_upper).

(** ** What the rest of the server does *)

Lemma elsewhere_wf (w w' : World H) : elsewhere w w' -> db_wf (w_db w) -> db_wf (w_db w').
Proof.
  intros [E1 E2 E3 E4 E5 Hu] [Hr Hc Hm Ho Hk Hs Hp Hg]. split; rewrite ?E1, ?E2, ?E3, ?E4, ?E5; try done.
  - intros rid r Hrid. destruct (Hr _ _ Hrid) as [H1 H2 H3]. split; auto.
  - intros rid uid m Hm'. destruct (Hm _ _ _ Hm') as [H1 H2 H3]. split; auto.
  - intros rid uid k Hk'. destruct (Hk _ _ _ Hk'). auto.
  - intros sid s Hs'. destruct (Hs _ _ Hs') as (? & (u & ? & ?) & ?). eauto 6.
  - intros gid g Hg'. destruct (Hg _ _ Hg'). auto.
Qed.

Lemma elsewhere_roles r (w w' : World H) : elsewhere w w' -> roles_kept r (w_db w) (w_db w').
Proof. intros [_ E _ _ _ _] u m Hm. exists m. by rewrite E. Qed.

(** ** The schema *)

(** Each request can rely on the others, and no two that run hand over the same room. *)
Record pool_ok (s : system (H:=H)) : Prop := {
  po_wf : db_wf (w_db (sy_world s));
  po_relies : forall i q, sy_requests s !! i = Some q ->
    relies (relied (if_op q)) (guaranteed (if_op q)) (if_proc q) anything (w_db (sy_world s));
  po_apart : forall i j q q' tf tf', i <> j -> sy_requests s !! i = Some q -> sy_requests s !! j = Some q' ->
    in_progress q -> in_progress q' -> transfer_of (if_op q) = Some tf -> transfer_of (if_op q') = Some tf' ->
    tf_room tf <> tf_room tf';
}.

Lemma in_progress_dec (q : inflight (H:=H)) : (exists r, if_proc q = Done r) \/ in_progress q.
Proof. destruct q as [op [r|B i k]]; [left; by exists r|right; by intros r]. Qed.

(** The statement of one is what the others rely on. *)
Lemma guaranteed_relied op op' t t' :
  (forall tf tf', transfer_of op = Some tf -> transfer_of op' = Some tf' -> tf_room tf <> tf_room tf') ->
  guaranteed op t t' -> relied op' t t'.
Proof.
  intros Hap (Hwf & Hr & _). split; [done|]. intros tf' Htf' Ho. eapply owner_row_kept; [done|].
  apply Hr. intros tf Htf. by eapply Hap.
Qed.

Lemma relies_step op (p p' : proc H unit) (w w' : World H) :
  relies (relied op) (guaranteed op) p anything (w_db w) -> db_wf (w_db w) -> step_proc p w = Some (p', w') ->
  guaranteed op (w_db w) (w_db w') /\ relies (relied op) (guaranteed op) p' anything (w_db w').
Proof.
  intros Hp Hwf Hs. destruct p as [r|B i k]; [done|]. cbn in *. specialize (Hp w).
  destruct (do_instr i w) as [r w1]. injection Hs as <- <-. by apply Hp.
Qed.

Lemma pool_step s s' : sys_step one_transfer s s' -> pool_ok s -> pool_ok s'.
Proof.
  intros [w reqs op Hop|w reqs i q p' w' Hq Hs|w reqs w' Hel] [Hwf Hrel Hap]; cbn in *.
  - split; cbn; [done| |].
    + intros i q [Hq|[_ Hq]]%lookup_app_Some; [by eapply Hrel|]. apply list_lookup_singleton_Some in Hq as [_ <-].
      apply request_relies.
    + intros i j q q' tf tf' Hij Hi Hj Hp Hp' Htf Htf'. apply lookup_app_Some in Hi as [Hi|[Hli Hi]], Hj as [Hj|[Hlj Hj]].
      * by eapply (Hap i j).
      * apply list_lookup_singleton_Some in Hj as [_ <-]. apply not_eq_sym. eapply Hop; eauto using list_elem_of_lookup_2.
      * apply list_lookup_singleton_Some in Hi as [_ <-]. eapply Hop; eauto using list_elem_of_lookup_2.
      * apply list_lookup_singleton_Some in Hi as [Hi _], Hj as [Hj _]. lia.
  - destruct (relies_step _ _ _ _ _ (Hrel _ _ Hq) Hwf Hs) as [HG Hp'].
    assert (in_progress q) as Hprog by (intros r Hr; by rewrite Hr in Hs).
    assert (i < length reqs) by (by eapply lookup_lt_Some). split; cbn; [apply HG| |].
    + intros j q' Hj. apply list_lookup_insert_Some in Hj as [(<- & <- & _)|[Hij Hj]]; [done|].
      destruct (in_progress_dec q') as [[r Hr]|Hprog']; [by rewrite Hr|].
      apply (relies_stable _ _ _ (w_db w)); [apply relied_trans| |by eapply Hrel].
      eapply guaranteed_relied; [|exact HG]. intros tf tf' Htf Htf'. by eapply (Hap i j).
    + assert (forall j q', <[i := mkInflight (if_op q) p']> reqs !! j = Some q' -> in_progress q' ->
        exists q0, reqs !! j = Some q0 /\ in_progress q0 /\ if_op q0 = if_op q') as Hback.
      { intros j q' Hj Hp1. apply list_lookup_insert_Some in Hj as [(<- & <- & _)|[Hij Hj]]; [by exists q|by exists q']. }
      intros j1 j2 q1 q2 tf tf' Hne H1 H2 P1 P2.
      destruct (Hback _ _ H1 P1) as (x1 & ? & ? & <-), (Hback _ _ H2 P2) as (x2 & ? & ? & <-). by eapply (Hap j1 j2).
  - split; cbn; [by eapply elsewhere_wf| |done]. intros i q Hq.
    apply (relies_stable _ _ _ (w_db w)); [apply relied_trans| |by eapply Hrel].
    split; [by eapply elsewhere_wf|]. intros tf _ Ho. eapply owner_row_kept; [done|]. by apply elsewhere_roles.
Qed.

Lemma pool_reachable w s :
  db_wf (w_db w) -> rtc (sys_step one_transfer) (mkSystem w []) s -> pool_ok s.
Proof.
  intros Hw Hs. assert (pool_ok (mkSystem w [])) as H0 by (split; cbn; [done|..]; intros *; by rewrite lookup_nil).
  by induction Hs; eauto using pool_step.
Qed.

(** ** The rooms as their users know them *)

Definition in_flight (s : system (H:=H)) (op : service_op) : Prop := exists q, q ∈ sy_requests s /\ if_op q = op.

Lemma elsewhere_view r (w w' : World H) : elsewhere w w' -> room_view r (w_db w') = room_view r (w_db w).
Proof.
  intros [E1 E2 E3 E4 E5 _]. unfold room_view. rewrite E1, E2, E3, E5.
  rewrite (stops_list_same r (w_db w) (w_db w')); [done|]. intros i x _. by rewrite E4.
Qed.

(** Requests stay in the list when they are done. *)
Lemma in_flight_kept allowed s s' op : sys_step allowed s s' -> in_flight s op -> in_flight s' op.
Proof.
  intros Hs (q & Hq & <-). destruct Hs as [w reqs op' _|w reqs i q' p' w' Hi Hp|w reqs w' _]; cbn in *.
  - exists q. split; [|done]. apply elem_of_app. by left.
  - apply list_elem_of_lookup in Hq as [j Hj]. destruct (decide (i = j)) as [<-|Hij].
    + rewrite Hi in Hj. injection Hj as <-. exists (mkInflight (if_op q') p'). split; [|done].
      apply list_elem_of_lookup. exists i. apply list_lookup_insert_eq. by eapply lookup_lt_Some.
    + exists q. split; [|done]. apply list_elem_of_lookup. exists j. rewrite <-Hj. by apply list_lookup_insert_ne.
  - by exists q.
Qed.

Lemma system_moves s s' r :
  pool_ok s -> sys_step one_transfer s s' ->
  room_view r (w_db (sy_world s')) = room_view r (w_db (sy_world s)) \/
  room_step (in_flight s) r (room_view r (w_db (sy_world s))) (room_view r (w_db (sy_world s'))).
Proof.
  intros [Hwf Hrel _] Hs. destruct Hs as [w reqs op _|w reqs i q p' w' Hi Hp|w reqs w' He]; cbn in *; [by left| |left].
  - destruct (relies_step _ _ _ _ _ (Hrel _ _ Hi) Hwf Hp) as [(_ & _ & Hm) _].
    destruct (Hm r) as [->|(op & e & <- & Hce)]; [by left|right]. exists (if_op q), e. split; [|done].
    exists q. split; [by eapply list_elem_of_lookup_2|done].
  - by apply elsewhere_view.
Qed.

(** C4 The service implements rooms: however the statements of its requests fall
    between one another and whatever fails, every room that the tables describe
    - its owner, who is in it, muted or thrown out, its destination, its stops in
    their order, its pins and its chat - changes only by events of
    [RoomMachine], each where it can happen and each one that a request in
    flight may cause: nobody is thrown out but by a kick of that user in that
    room, nothing is said but by its author's post, an ended room does not get
    another name, stops come at the end of the route. This is for runs in which
    two transfers of the same room do not overlap ([transfer_race_two_owners] is
    what happens then); a transaction is one step; and the rest of the server
    meanwhile does what [elsewhere] says, which leaves out the end of an account
    and the rooms it takes along. *)
Theorem service_refines_rooms w s r :
  db_wf (w_db w) -> rtc (sys_step one_transfer) (mkSystem w []) s ->
  rtc (room_step (in_flight s) r) (room_view r (w_db w)) (room_view r (w_db (sy_world s))).
Proof.
  intros Hw. revert s. apply (rtc_ind_r (fun s => rtc (room_step (in_flight s) r) (room_view r (w_db w)) (room_view r (w_db (sy_world s)))));
    [done|].
  intros s s' Hs Hst IH. assert (forall op, in_flight s op -> in_flight s' op) as Hk by (intros op; by apply (in_flight_kept one_transfer)).
  assert (rtc (room_step (in_flight s') r) (room_view r (w_db w)) (room_view r (w_db (sy_world s)))) as IH'.
  { clear - IH Hk. induction IH as [|c c1 c2 (op & e & Ho & He) Hc IH]; [done|]. eapply rtc_l; [|exact IH]. exists op, e. auto. }
  destruct (system_moves s s' r (pool_reachable _ _ Hw Hs) Hst) as [->|(op & e & Ho & He)]; [done|].
  eapply rtc_r; [exact IH'|]. exists op, e. auto.
Qed.

(** ** Authority *)

Definition refused (p : proc H unit) : Prop := exists e, p = Done (Fail e) /\ (e = ErrAPI ErrForbidden \/ e = ErrConn).

Lemma refused_after (w w' : World H) p e p' :
  Some (p, advance true w) = Some (p', w') -> p = Done (Fail e) -> e = ErrAPI ErrForbidden \/ e = ErrConn ->
  w_db w' = w_db w /\ w_rt w' = w_rt w /\ refused p'.
Proof. intros [= <- <-] -> He. split; [done|]. split; [done|]. by exists e. Qed.

(** The first statement of an operation looks for the caller's membership. *)
Lemma first_statement op (w w' : World H) p' :
  authorised_op op (w_db w) = false -> step_proc (request op) w = Some (p', w') ->
  w_db w' = w_db w /\ w_rt w' = w_rt w /\ refused p'.
Proof.
  destruct op as [o n|v code|r v|r v|v|op r u|op r u]; try done; cbn [authorised_op]; unfold is_owner, is_member; intros Hno.
  all: destruct op; cbn; rewrite exec_select_run; (destruct (decide (next_ok w)); [|by intros Hs; eapply refused_after; eauto]).
  all: (destruct (t_members (w_db w) !! (r, u)) as [m|] eqn:Hm; [|by intros Hs; eapply refused_after; eauto]).
  all: cbn; (destruct (member_active m) eqn:Ha; [|by intros Hs; eapply refused_after; eauto]); cbn in *; try done.
  all: rewrite Hno; cbn; intros Hs; eapply refused_after; eauto.
Qed.

(** The states between which nobody gave the caller authority. *)
Definition step_without (op : service_op) (allowed : service_op -> list inflight -> Prop) (s s' : system) : Prop :=
  sys_step allowed s s' /\ authorised_op op (w_db (sy_world s')) = false.

(** C6 The checks cannot be raced past: a request whose caller is at no moment
    of it an active owner of the room - for a member's operation, an active
    member - has no effect, however statements of others fall in between: it has
    run nothing, or it has ended with 403 (or the lost connection); and any
    statement of it leaves the tables and the realtime side as they are. *)
Theorem no_authority_no_effect allowed s0 s i op :
  sy_requests s0 !! i = Some (mkInflight op (request op)) ->
  authorised_op op (w_db (sy_world s0)) = false ->
  rtc (step_without op allowed) s0 s ->
  exists p, sy_requests s !! i = Some (mkInflight op p) /\ (p = request op \/ refused p) /\
    forall p' w', step_proc p (sy_world s) = Some (p', w') -> w_db w' = w_db (sy_world s) /\ w_rt w' = w_rt (sy_world s).
Proof.
  intros Hi Hno Hs. assert (exists p, sy_requests s !! i = Some (mkInflight op p) /\ (p = request op \/ refused p) /\
    authorised_op op (w_db (sy_world s)) = false) as (p & Hp & Hst & Hns).
  { assert (exists p, sy_requests s0 !! i = Some (mkInflight op p) /\ (p = request op \/ refused p)) as (p & Hp & Hst) by eauto.
    clear Hi. revert p Hp Hst. induction Hs as [s|s s1 s2 [Hstep Hno1] Hs IH]; intros p Hp Hst; [by exists p|].
    destruct Hstep as [w reqs op' _|w reqs j q p' w' Hq Hsp|w reqs w' Hel]; cbn in *.
    - apply (IH Hno1 p); [by apply lookup_app_l_Some|done].
    - destruct (decide (i = j)) as [<-|Hij]; [|apply (IH Hno1 p); [by rewrite list_lookup_insert_ne|done]].
      rewrite Hp in Hq. injection Hq as <-. cbn in *. apply (IH Hno1 p').
      + rewrite list_lookup_insert_eq; [done|]. by eapply lookup_lt_Some.
      + destruct Hst as [->|(e & -> & _)]; [|done]. right. by apply (first_statement op w w').
    - by apply (IH Hno1 p). }
  exists p. split; [done|]. split; [done|]. intros p' w' Hsp.
  destruct Hst as [->|(e & -> & _)]; [|done]. apply (first_statement op) in Hsp as (? & ? & _); done.
Qed.
(** ** The end *)

(** What each program in flight satisfies, its instructions keep, and so does
    the rest of the server, holds throughout. *)
Lemma pool_keeps (P : Tables -> Prop) (ok : inflight -> Prop) allowed s0 s :
  (forall w w' : World H, elsewhere w w' -> P (w_db w) -> P (w_db w')) ->
  (forall op, ok (mkInflight op (request op))) ->
  (forall op p p' (w w' : World H), ok (mkInflight op p) -> P (w_db w) -> step_proc p w = Some (p', w') ->
     P (w_db w') /\ ok (mkInflight op p')) ->
  rtc (sys_step allowed) s0 s -> P (w_db (sy_world s0)) -> (forall q, q ∈ sy_requests s0 -> ok q) ->
  P (w_db (sy_world s)) /\ forall q, q ∈ sy_requests s -> ok q.
Proof.
  intros Hel Hnew Hstep Hs. induction Hs as [s|s s1 s2 Hst Hs IH]; intros HP Hok; [done|].
  apply IH; destruct Hst as [w reqs op _|w reqs j [op p] p' w' Hq Hsp|w reqs w' He]; cbn in *; eauto.
  - destruct (Hstep op p p' w w'); eauto using list_elem_of_lookup_2.
  - intros q [Hq|Hq]%elem_of_app; [auto|]. apply list_elem_of_singleton in Hq as ->. auto.
  - intros q Hin. apply list_elem_of_lookup in Hin as [k Hk].
    apply list_lookup_insert_Some in Hk as [(<- & <- & _)|[_ Hk]]; [|by eapply Hok, list_elem_of_lookup_2].
    destruct (Hstep op p p' w w'); eauto using list_elem_of_lookup_2.
Qed.

Definition follows_service (q : inflight (H:=H)) : Prop := uses (service_stmt (if_op q)) (if_proc q).

Lemma follows_step op (p p' : proc H unit) (w w' : World H) P :
  (forall B (i : instr H B), service_stmt op B i -> preserves P (do_instr i)) ->
  follows_service (mkInflight op p) -> P (w_db w) -> step_proc p w = Some (p', w') ->
  P (w_db w') /\ follows_service (mkInflight op p').
Proof.
  intros HS Hp HP Hs. destruct p as [r|B i k]; [done|]. destruct Hp as [Hi Hk]. cbn in *.
  specialize (HS B i Hi w HP). destruct (do_instr i w) as [r w1]. injection Hs as <- <-. split; [done|]. apply Hk.
Qed.

Lemma request_follows op : follows_service (mkInflight op (request op)).
Proof. apply steps_use. Qed.

Lemma reachable_follows allowed w s q :
  rtc (sys_step allowed) (mkSystem w []) s -> q ∈ sy_requests s -> follows_service q.
Proof.
  intros Hs Hq. refine (proj2 (pool_keeps (fun _ => True) follows_service allowed _ _ _ _ _ Hs _ _) q Hq); auto using request_follows.
  - intros op p p' w1 w2 Hp. by apply (follows_step op p p' w1 w2 (fun _ => True)).
  - intros q' Hq'. by apply elem_of_nil in Hq'.
Qed.

Lemma elsewhere_ended r row (w w' : World H) : elsewhere w w' -> ended_row r row (w_db w) -> ended_row r row (w_db w').
Proof. intros [E _ _ _ _ _] [Hr He]. split; [by rewrite E|done]. Qed.

(** C7 The end stands against requests that are already under way: from any
    state the server can reach in which a room has ended, no statement of any
    request to the rooms service, begun before or after, changes the room's row - owner, name, code,
    destination and the time of its end stay.  Once the requests that were
    under way are done, nobody gets in: who has no membership of the room never
    has one.  ([join_outlives_end]: until then somebody may.) *)
Theorem end_stands allowed w s0 s r row :
  rtc (sys_step allowed) (mkSystem w []) s0 ->
  t_rooms (w_db (sy_world s0)) !! r = Some row -> r_ended_at row <> None ->
  rtc (sys_step allowed) s0 s ->
  t_rooms (w_db (sy_world s)) !! r = Some row /\
  ((forall q, q ∈ sy_requests s0 -> ~ in_progress q) ->
   forall u, t_members (w_db (sy_world s0)) !! (r, u) = None -> t_members (w_db (sy_world s)) !! (r, u) = None).
Proof.
  intros H0 Hr He Hs. assert (ended_row r row (w_db (sy_world s0))) as Hrow.
  { split; [done|]. unfold room_active. by apply bool_decide_eq_false. }
  split.
  - refine (proj1 (proj1 (pool_keeps (ended_row r row) follows_service allowed _ _ _ _ _ Hs Hrow _))).
    + apply elsewhere_ended.
    + apply request_follows.
    + intros op p p' w1 w2. apply follows_step. intros B i. apply stmt_ended.
    + intros q. by eapply reachable_follows.
  - intros Hdone u Hu. set (shut := fun (_ : Tables) => shut_out r u row).
    refine (proj2 (proj1 (pool_keeps (shut_out r u row) (fun q => forall t, relies shut shut (if_proc q) anything t)
      allowed _ _ _ _ _ Hs _ _))); cbn.
    + intros w1 w2 Hel [He1 Hn]. split; [by eapply elsewhere_ended|]. by rewrite (el_members _ _ Hel).
    + intros op t. apply shut_relies.
    + intros op p p' w1 w2 Hp Hsh Hst. destruct p as [res|B i k]; [done|]. cbn in *. specialize (Hp (w_db w1) w1 Hsh).
      destruct (do_instr i w1) as [res w3]. injection Hst as <- <-. destruct Hp as [Hsh' Hp]. split; [done|]. intros t.
      destruct (k res) as [res'|B' i' k']; [done|]. exact Hp.
    + done.
    + intros q Hq t. destruct (in_progress_dec q) as [[res ->]|Hp]; [done|]. by destruct (Hdone q Hq).
Qed.
End props.

(** ** Overlapping requests, concretely *)

Abbreviation trace := (Some trace_broadcaster).
Abbreviation play := (schedule trace (fun r => r)).

(** Ada's room 101 with Bob in it, and nothing under way. *)
Definition two_in : World (list rt_call) :=
  run_service trace (fun r => r) [SvcCreate 1 (Some "trip"); SvcJoin 2 "000000"] start_world.

Abbreviation quiet_room := (mkSystem two_in []).
Abbreviation full_room := (mkSystem convoy_world []).

Abbreviation tables s := (w_db (sy_world s)).
Abbreviation calls s := (w_rt (sy_world s)).
Definition answers (s : system (H:=list rt_call)) : list (option (result unit)) :=
  (fun q => match if_proc q with Done r => Some r | Step _ _ => None end) <$> sy_requests s.

(** Ada hands over to Bob while she removes Cy. *)
Definition handing_over : list event :=
  [Arrive (SvcOwner (OpTransferOwnership 2) 101 1); Advance 0; Advance 0; Arrive (SvcOwner (OpKick 3) 101 1);
   Advance 1; Advance 0; Advance 0; Advance 1; Advance 0; Advance 1].

Lemma handing_over_runs : rtc (sys_step trace (fun r => r) one_transfer) full_room (play handing_over full_room).
Proof.
  apply schedule_legal. unfold handing_over. cbn [legal]. repeat split.
  - intros t q t' _ Hq. by apply elem_of_nil in Hq.
  - intros t q t' Ht. done.
Qed.

Lemma service_refines_rooms_witness :
  rtc (room_step (in_flight (play handing_over full_room)) 101) (room_view 101 (tables full_room))
    (room_view 101 (tables (play handing_over full_room))) /\
  (cv_owner <$> room_view 101 (tables full_room)) = Some 1%N /\
  (cv_owner <$> room_view 101 (tables (play handing_over full_room))) = Some 2%N /\
  (c ← room_view 101 (tables (play handing_over full_room)); cv_people c !! 3%N) = Some (mkParticipant Out false).
Proof.
  split; [|vm_compute; done].
  exact (service_refines_rooms trace (fun r => r) convoy_world _ 101 convoy_world_wf handing_over_runs).
Defined.

(** No state of the schedule gives the caller of [op] authority. *)
Fixpoint powerless {H} rt upper (op : service_op) (es : list event) (s : system (H:=H)) : bool :=
  match es with
  | [] => true
  | e :: es' =>
      let s' := exec_event rt upper e s in
      negb (authorised_op op (w_db (sy_world s'))) && powerless rt upper op es' s'
  end.

Lemma schedule_without {H} rt upper op es (s : system (H:=H)) :
  powerless rt upper op es s = true -> rtc (step_without rt upper op always) s (schedule rt upper es s).
Proof.
  revert s. induction es as [|e es IH]; intros s Hp; [done|]. cbn [powerless] in Hp.
  apply andb_true_iff in Hp as [Hno%negb_true_iff Hp]. specialize (IH _ Hp).
  destruct (exec_event_step rt upper always e s) as [E|Hs]; [by destruct e| |].
  - cbn [schedule foldl]. by rewrite E in IH |- *.
  - eapply rtc_l; [|exact IH]. by split.
Qed.

(** Bob, who owns nothing, asks for Ada's removal while Ada renames the room. *)
Definition bobs : service_op := SvcOwner (OpKick 1) 101 2.
Abbreviation bob_begun := (mkSystem two_in [mkInflight bobs (request trace (fun r => r) bobs)]).

Definition bob_tries : list event := [Arrive (SvcOwner (OpRename "coast") 101 1); Advance 1; Advance 0; Advance 1; Advance 0; Advance 1].

Lemma no_authority_no_effect_witness :
  (exists p, sy_requests (play bob_tries bob_begun) !! 0 = Some (mkInflight bobs p) /\
    (p = request trace (fun r => r) bobs \/ refused p)) /\
  (r_name <$> t_rooms (tables (play bob_tries bob_begun)) !! 101%N) = Some (Some "coast").
Proof.
  split; [|vm_compute; reflexivity].
  assert (authorised_op bobs (tables bob_begun) = false) as Hno by (vm_compute; reflexivity).
  assert (powerless trace (fun r => r) bobs bob_tries bob_begun = true) as Hp by (vm_compute; reflexivity).
  destruct (no_authority_no_effect trace (fun r => r) always bob_begun (play bob_tries bob_begun) 0 bobs eq_refl Hno
    (schedule_without _ _ _ _ _ Hp)) as (p & Hq & Hr & _). exists p. exact (conj Hq Hr).
Defined.

Definition is_done {H} (q : inflight (H:=H)) : bool := match if_proc q with Done _ => true | Step _ _ => false end.

Lemma all_done {H} (reqs : list (inflight (H:=H))) :
  forallb is_done reqs = true -> forall q, q ∈ reqs -> ~ in_progress q.
Proof.
  rewrite forallb_forall. intros Hd q Hq%list_elem_of_In Hp. specialize (Hd q Hq). unfold is_done in Hd.
  destruct (if_proc q) as [r|] eqn:E; [by apply (Hp r)|done].
Qed.

(** Ada ends the trip; then Cy looks for its code while she tries another name. *)
Definition ending : list event :=
  [Arrive (SvcOwner OpEnd 101 1); Advance 0; Advance 0; Advance 0].
Definition after_end : list event :=
  [Arrive (SvcJoin 3 "000000"); Arrive (SvcOwner (OpRename "again") 101 1); Advance 2; Advance 1; Advance 2; Advance 1; Advance 2].

Lemma end_stands_witness :
  exists row, t_rooms (tables (play ending quiet_room)) !! 101%N = Some row /\ r_name row = Some "trip" /\
    t_rooms (tables (play after_end (play ending quiet_room))) !! 101%N = Some row /\
    t_members (tables (play after_end (play ending quiet_room))) !! (101%N, 3%N) = None.
Proof.
  assert (exists row, t_rooms (tables (play ending quiet_room)) !! 101%N = Some row /\ r_name row = Some "trip" /\ r_ended_at row <> None)
    as (row & Hr & Hn & He) by (eexists; split; [vm_compute; reflexivity|split; [reflexivity|discriminate]]).
  assert (forallb is_done (sy_requests (play ending quiet_room)) = true) as Hd by (vm_compute; reflexivity).
  assert (t_members (tables (play ending quiet_room)) !! (101%N, 3%N) = None) as Hn3 by (vm_compute; reflexivity).
  exists row. split; [exact Hr|]. split; [exact Hn|].
  destruct (end_stands trace (fun r => r) always two_in (play ending quiet_room) (play after_end (play ending quiet_room)) 101 row
    (schedule_legal trace (fun r => r) always ending quiet_room (always_legal _ _ _ _)) Hr He
    (schedule_legal trace (fun r => r) always after_end (play ending quiet_room) (always_legal _ _ _ _))) as [Hrow Hm].
  split; [exact Hrow|]. apply Hm; [exact (all_done _ Hd)|exact Hn3].
Defined.

(** Cy's request has found the room when Ada's ends it: both succeed, Cy is a
    member of a room that is over, and is announced in it after its end. *)
Example join_outlives_end :
  let s := play [Arrive (SvcJoin 3 "000000"); Advance 0; Arrive (SvcOwner OpEnd 101 1); Advance 1; Advance 1; Advance 1;
                 Advance 0; Advance 0; Advance 0] quiet_room in
  answers s = [Some (Ok tt); Some (Ok tt)] /\
  (room_active <$> t_rooms (tables s) !! 101%N) = Some false /\ is_member (tables s) 101 3 = true /\
  match drop 1 (calls s) with [CallRoomEnded 101; CallMemberJoined 101 m] => Member_UserID m = 3%N | _ => False end.
Proof. vm_compute. done. Qed.

(** Bob's message has passed its check when Ada removes him: it is stored and
    reaches the room after he is gone. *)
Example message_outlives_kick :
  let s := play [Arrive (SvcMember (OpPostMessage "hi") 101 2); Advance 0; Arrive (SvcOwner (OpKick 2) 101 1);
                 Advance 1; Advance 1; Advance 1; Advance 0; Advance 0] quiet_room in
  answers s = [Some (Ok tt); Some (Ok tt)] /\ is_member (tables s) 101 2 = false /\
  match drop 1 (calls s) with [CallKick 101 2 1; CallChat 101 g] => Msg_UserID g = 2%N | _ => False end.
Proof. vm_compute. done. Qed.

(** Ada's removal of Bob has passed its check when she hands the room to him:
    the new owner is thrown out, and nobody may rename, end or hand over the
    room. *)
Example kick_outlives_transfer :
  let s := play [Arrive (SvcOwner (OpKick 2) 101 1); Advance 0; Arrive (SvcOwner (OpTransferOwnership 2) 101 1);
                 Advance 1; Advance 1; Advance 1; Advance 1; Advance 1; Advance 0; Advance 0] quiet_room in
  answers s = [Some (Ok tt); Some (Ok tt)] /\
  (r_owner_id <$> t_rooms (tables s) !! 101%N) = Some 2%N /\ (room_active <$> t_rooms (tables s) !! 101%N) = Some true /\
  forallb (fun u => negb (is_owner (tables s) 101 u)) [1; 2; 3]%N = true.
Proof. vm_compute. done. Qed.
