(* ===== verification/ChatProps.v ===== *)
(** * Reading a room's history

    [rooms.Store.ListMessages] and [rooms.Service.ListMessages]: the pages a
    client reads with its cursor are the whole history, each line once. *)
From stdpp Require Import base gmap sets list strings sorting.
From Stdlib Require Import ZArith Lia.
From S2P Require Import Prelude.
From S2P Require Import GoString.
From S2P Require Import Httpx.
From S2P Require Import Types.
From S2P Require Import Db.
From S2P Require Import Store.
From S2P Require Import StoreFacts.
From S2P Require Import Broadcaster.
From S2P Require Import Service.
From S2P Require Import ServiceFacts.
From S2P Require Import Runs.
From S2P Require Import Samples.
From S2P Require Import Order.

Open Scope convoy_scope.

(** The history of a room, newest first. *)
Definition history (room : uuid) (t : Tables) : list ChatMessage :=
  order_by newest_first (message_rows room None t).

(** The client's loop: ask for a page, then for the page before the oldest
    line held, until a page is empty; at most [n] requests. *)
Fixpoint read_back {H} (n : nat) (room user : uuid) (before : option uuid) (limit : Z) :
    M H (list (list ChatMessage)) :=
  match n with
  | 0 => ret []
  | S n' =>
      page <- ListMessages room user before limit ;;
      match last page with
      | None => ret []
      | Some m => rest <- read_back n' room user (Some (Msg_ID m)) limit ;; ret (page :: rest)
      end
  end.

Lemma page_limit_bounds limit : (1 <= page_limit limit <= 100)%Z.
Proof. unfold page_limit, defaultMessagePage, maxMessagePage. destruct (_ || _) eqn:E; lia. Qed.

(** ** The rows of a page *)

Lemma message_rows_elem room t m :
  m ∈ message_rows room None t <->
  exists g u, t_messages t !! Msg_ID m = Some g /\ t_users t !! g_user_id g = Some u /\
    g_room_id g = room /\ m = message_of_row (Msg_ID m) g u.
Proof.
  unfold message_rows. rewrite list_elem_of_omap. split.
  - intros ([i g] & Hin & Hm). apply elem_of_map_to_list in Hin. simpl in Hm.
    destruct (t_users t !! g_user_id g) as [u|] eqn:Hu; simpl in Hm; [|done].
    rewrite andb_true_r in Hm. case_bool_decide; [|done]. injection Hm as <-. simpl. by exists g, u.
  - intros (g & u & Hg & Hu & Hr & Hm). exists (Msg_ID m, g). rewrite elem_of_map_to_list.
    split; [done|]. simpl. rewrite Hu. simpl. rewrite andb_true_r, bool_decide_eq_true_2 by done.
    by rewrite <-Hm.
Qed.

Lemma message_rows_id room t a b :
  a ∈ message_rows room None t -> b ∈ message_rows room None t -> Msg_ID a = Msg_ID b -> a = b.
Proof.
  intros (ga & ua & Hga & Hua & _ & Ha)%message_rows_elem (gb & ub & Hgb & Hub & _ & Hb)%message_rows_elem He.
  rewrite Ha, Hb. rewrite He in *. by simplify_eq.
Qed.

Lemma message_rows_nodup room t : NoDup (message_rows room None t).
Proof.
  apply NoDup_omap_inj; [|apply NoDup_map_to_list]. intros [i g] [j h] m Hi Hj Hfi Hfj.
  apply elem_of_map_to_list in Hi, Hj. simpl in *.
  destruct (t_users t !! g_user_id g); simpl in Hfi; [|done].
  destruct (t_users t !! g_user_id h); simpl in Hfj; [|done].
  destruct (_ && _) in Hfi; [|done]. destruct (_ && _) in Hfj; [|done].
  injection Hfi as <-. injection Hfj as ->. by simplify_eq.
Qed.

(** Strictly older than line [b], posted at [at_]. *)
Definition older (at_ : time) (b : uuid) (m : ChatMessage) : Prop :=
  key_lt (Msg_CreatedAt m) (Msg_ID m) at_ b = true.

#[export] Instance older_dec at_ b m : Decision (older at_ b m).
Proof. unfold older. apply _. Defined.

Lemma message_rows_before room t b g :
  t_messages t !! b = Some g ->
  message_rows room (Some b) t = filter (older (g_created_at g) b) (message_rows room None t).
Proof.
  intros Hb. unfold message_rows. simpl. rewrite Hb.
  induction (map_to_list (t_messages t)) as [|[i h] l IH]; [done|]. cbn [omap list_omap].
  rewrite IH. simpl. destruct (t_users t !! g_user_id h) as [u|]; simpl; [|done].
  rewrite andb_true_r. destruct (bool_decide (g_room_id h = room)); simpl; [|done].
  rewrite filter_cons. destruct (decide (older _ _ _)) as [Ho|Ho]; unfold older in Ho; simpl in Ho;
    [by rewrite Ho|by apply not_true_is_false in Ho; rewrite Ho].
Qed.

(** The page before the [k]-th line of the history starts right after it. *)
Lemma page_after room t k m limit :
  history room t !! k = Some m ->
  list_messages_rows room (Some (Msg_ID m)) limit t = take limit (drop (S k) (history room t)).
Proof.
  intros Hk. assert (m ∈ message_rows room None t) as Hm.
  { rewrite <-(order_by_in newest_first). by eapply list_elem_of_lookup_2. }
  pose proof Hm as (g & u & Hg & _ & _ & Hmrow)%message_rows_elem.
  assert (Msg_CreatedAt m = g_created_at g) as Hat by (rewrite Hmrow; done).
  assert (forall x y, x ∈ message_rows room None t -> y ∈ message_rows room None t ->
            newest_first x y = true -> newest_first y x = true -> x = y) as Hanti.
  { intros x y Hx Hy Hxy Hyx. eapply message_rows_id; eauto. by apply newest_first_antisym. }
  unfold list_messages_rows. rewrite (message_rows_before _ _ _ g Hg).
  rewrite (order_by_filter newest_first _ _ Hanti). f_equal. fold (history room t).
  apply (StronglySorted_filter_after (fun x y => Is_true (newest_first x y)) _ _ k m).
  - apply order_by_sorted, _.
  - done.
  - intros y Hy Hle%Is_true_true. unfold history in Hy. rewrite order_by_in in Hy by apply _.
    unfold newest_first in Hle. apply key_le_spec in Hle. unfold older. rewrite key_lt_spec, <-Hat.
    destruct (decide (Msg_ID y = Msg_ID m)); [left; by apply (message_rows_id room t)|right; lia].
  - intros y Hy Hle%Is_true_true. unfold newest_first in Hle. apply key_le_spec in Hle.
    unfold older. rewrite key_lt_spec, <-Hat. lia.
  - unfold older. rewrite key_lt_spec, <-Hat. lia.
  - unfold history. rewrite order_by_perm. apply message_rows_nodup.
Qed.

Section pages.
Context {H : Type}.

Lemma ListMessages_run room user before limit k t (w : World H) :
  fault_free w -> is_member t room user = true ->
  ListMessages room user before limit (set_db t (skip k w)) =
    (Ok (list_messages_rows room before (Z.to_nat (page_limit limit)) t), set_db t (skip (S (S k)) w)).
Proof.
  intros Hw Hm. unfold ListMessages. destruct (AssertMember_skip k room user t w Hw) as [role Has].
  rewrite bind_unfold, Has, Hm. cbn beta iota. unfold StoreListMessages. rewrite exec_run by done.
  cbn [forallb]. cbn beta iota. destruct (Z.ltb_spec (page_limit limit) 0); [|done].
  pose proof (page_limit_bounds limit). lia.
Qed.

(** From the [k]-th line on, [n] requests read all that is left when that is
    less than [n] lines. *)
Lemma read_back_from n room user before limit k j t (w : World H) :
  fault_free w -> is_member t room user = true ->
  (forall L, list_messages_rows room before L t = take L (drop j (history room t))) ->
  length (history room t) - j < n ->
  exists pages k', read_back n room user before limit (set_db t (skip k w)) = (Ok pages, set_db t (skip k' w)) /\
    concat pages = drop j (history room t) /\ Forall (fun page => 1 <= length page <= 100) pages.
Proof.
  intros Hw Hm. revert before k j. induction n as [|n IH]; intros before k j Hpage Hn; [lia|].
  cbn [read_back]. rewrite bind_unfold, ListMessages_run, Hpage by done. cbn beta iota.
  pose proof (page_limit_bounds limit) as HL. set (L := Z.to_nat (page_limit limit)).
  set (page := take L (drop j (history room t))).
  assert (length page = min L (length (history room t) - j)) as Hlen
    by (unfold page; by rewrite length_take, length_drop).
  destruct (last page) as [m|] eqn:Hlast.
  - assert (page <> []) as Hne by (intros E; by rewrite E in Hlast).
    assert (0 < length page) as Hpos by (destruct page; [done|simpl; lia]).
    assert (history room t !! (j + pred (length page)) = Some m) as Hm'.
    { rewrite last_lookup in Hlast. unfold page in Hlast at 1.
      apply lookup_take_Some in Hlast as [Hlast _]. by rewrite lookup_drop in Hlast. }
    destruct (IH (Some (Msg_ID m)) (S (S k)) (j + length page)) as (pages & k' & Hrun & Hc & Hall).
    { intros L'. rewrite (page_after _ _ _ _ _ Hm'). do 2 f_equal. lia. }
    { lia. }
    exists (page :: pages), k'. rewrite bind_unfold, Hrun. split; [done|]. split.
    + simpl. rewrite Hc. unfold page at 1. rewrite <-drop_drop. fold page.
      rewrite <-(take_drop L (drop j (history room t))) at 2. fold page. f_equal.
      rewrite Hlen. destruct (Nat.min_spec L (length (history room t) - j)) as [[_ ->]|[Hle ->]]; [done|].
      rewrite !drop_ge; [done|rewrite length_drop; lia..].
    + constructor; [lia|done].
  - exists [], (S (S k)). split; [done|]. split; [|constructor]. simpl.
    apply last_None in Hlast. rewrite Hlast in Hlen. simpl in Hlen. rewrite drop_ge; [done|lia].
Qed.

(** C14 Paging backwards with the cursor reads a member the whole history of
    the room, newest first, every line exactly once, in pages of at most a
    hundred lines, and ends. *)
Theorem history_read_once n room user limit (w : World H) :
  fault_free w -> is_member (w_db w) room user = true -> length (history room (w_db w)) < n ->
  let '(res, w') := read_back n room user None limit w in
  w_db w' = w_db w /\ w_rt w' = w_rt w /\
  exists pages, res = Ok pages /\ concat pages = history room (w_db w) /\
    Forall (fun page => 1 <= length page <= 100) pages /\ NoDup (concat pages).
Proof.
  intros Hw Hm Hn.
  destruct (read_back_from n room user None limit 0 0 (w_db w) w) as (pages & k' & Hrun & Hc & Hall);
    [done|done|done|lia|].
  rewrite set_db_skip in Hrun. simpl skip in Hrun. change (skip 0 w) with w in Hrun.
  rewrite Hrun. split; [done|]. split; [apply skip_rt|]. exists pages. rewrite Hc.
  repeat split; [done|]. rewrite drop_0. unfold history. rewrite order_by_perm. apply message_rows_nodup.
Qed.
End pages.

(** Three lines by two authors in Ada's room. *)
Definition chatty_world : World (list rt_call) :=
  run_service (Some trace_broadcaster) (fun r => r)
    [SvcMember (OpPostMessage "hi") 101 1; SvcMember (OpPostMessage "hello") 101 2;
     SvcMember (OpPostMessage "go") 101 1] convoy_world.

Lemma history_read_once_witness :
  length (history 101 (w_db chatty_world)) = 3 /\
  let '(res, w') := read_back 4 101 2 None 2 chatty_world in
  w_db w' = w_db chatty_world /\ w_rt w' = w_rt chatty_world /\
  exists pages, res = Ok pages /\ concat pages = history 101 (w_db chatty_world) /\
    Forall (fun page => 1 <= length page <= 100) pages /\ NoDup (concat pages).
Proof.
  split; [vm_compute; reflexivity|].
  apply (history_read_once 4 101 2 2 chatty_world); [intros n; vm_compute; reflexivity| |];
    vm_compute; [reflexivity|lia].
Defined.
