(* ===== verification/ListProps.v ===== *)
(** * A user's list of convoys

    [rooms.Service.ListActiveForUser], proved against the laws a realtime side
    promises ([BroadcasterLaws]), whichever it is. *)
From stdpp Require Import base gmap sets list strings sorting.
From Stdlib Require Import ZArith Lia.
From S2P Require Import Prelude.
From S2P Require Import GoString.
From S2P Require Import Httpx.
From S2P Require Import Types.
From S2P Require Import Db.
From S2P Require Import Store.
From S2P Require Import StoreFacts.
From S2P Require Import Broadcaster.
From S2P Require Import Service.
From S2P Require Import ServiceFacts.
From S2P Require Import Runs.
From S2P Require Import Samples.
From S2P Require Import Order.

Open Scope convoy_scope.

(** The row of the list for a membership. *)
Definition active_entry (user : uuid) (t : Tables) (rid : uuid) (a : ActiveRoom) : Prop :=
  exists m r, t_members t !! (rid, user) = Some m /\ member_active m = true /\
    t_rooms t !! rid = Some r /\ r_ended_at r = None /\
    AR_ID a = rid /\ AR_Code a = r_code r /\ AR_Name a = r_name r /\ AR_Role a = m_role m /\
    AR_JoinedAt a = m_joined_at m.

Lemma active_room_rows_in user t a :
  a ∈ active_room_rows user t <-> active_entry user t (AR_ID a) a /\ AR_MemberCount a = 0.
Proof.
  unfold active_room_rows. rewrite list_elem_of_omap. split.
  - intros ([[rid u] m] & Hin & Ha). apply elem_of_map_to_list in Hin. simpl in Ha.
    destruct (t_rooms t !! rid) as [r|] eqn:Hr; simpl in Ha; [|done].
    destruct (bool_decide (u = user)) eqn:Hu; simpl in Ha; [|done].
    destruct (member_active m) eqn:Hm; simpl in Ha; [|done].
    destruct (room_active r) eqn:Hra; [|done]. injection Ha as <-.
    apply bool_decide_eq_true in Hu as ->. apply bool_decide_eq_true in Hra.
    split; [|done]. by exists m, r.
  - intros [(m & r & Hm & Hact & Hr & He & _ & Hc & Hn & Hro & Hj) Hcount].
    exists ((AR_ID a, user), m). rewrite elem_of_map_to_list. split; [done|]. simpl. rewrite Hr. simpl.
    rewrite bool_decide_eq_true_2, Hact by done. simpl.
    unfold room_active. rewrite bool_decide_eq_true_2 by done.
    destruct a. simpl in *. by subst.
Qed.

Lemma active_room_rows_nodup user t : NoDup (active_room_rows user t).
Proof.
  apply NoDup_omap_inj; [|apply NoDup_map_to_list].
  intros [[r1 u1] m1] [[r2 u2] m2] a Hi Hj H1 H2. apply elem_of_map_to_list in Hi, Hj. simpl in *.
  destruct (t_rooms t !! r1); simpl in H1; [|done]. destruct (t_rooms t !! r2); simpl in H2; [|done].
  destruct (bool_decide (u1 = user)) eqn:E1; simpl in H1; [|done].
  destruct (bool_decide (u2 = user)) eqn:E2; simpl in H2; [|done].
  apply bool_decide_eq_true in E1 as ->, E2 as ->.
  destruct (_ && _) in H1; [|done]. destruct (_ && _) in H2; [|done].
  injection H1 as <-. injection H2 as -> _ _ _ _. by simplify_eq.
Qed.

Section listing.
Context {H : Type} (b : Broadcaster H) `{!BroadcasterLaws b}.

(** The list holds exactly the rooms that have not ended in which the user
    is an active member, each once, most recently joined first, with the role
    held there and with as many present members as the realtime side lists. *)
Theorem active_rooms_spec user (w : World H) :
  fault_free w ->
  exists l w', ListActiveForUser (Some b) user w = (Ok l, w') /\ w_db w' = w_db w /\ w_rt w' = w_rt w /\
    (forall rid, rid ∈ (AR_ID <$> l) <->
       is_member (w_db w) rid user = true /\
       exists r, t_rooms (w_db w) !! rid = Some r /\ r_ended_at r = None) /\
    NoDup (AR_ID <$> l) /\
    StronglySorted (fun x y => Is_true (joined_ge x y)) l /\
    Forall (fun a => active_entry user (w_db w) (AR_ID a) a /\
                     AR_MemberCount a = length (PresentUserIDs b (AR_ID a) (w_rt w))) l.
Proof.
  intros Hw. set (rows := order_by joined_ge (active_room_rows user (w_db w))).
  set (count := fun a => with_count (PresentCount b (AR_ID a) (w_rt w)) a).
  exists (count <$> rows), (skip 1 w). split.
  { run_start w. unfold ListActiveForUser, ListActiveRoomsForUser. rewrite bind_unfold, exec_run by done.
    cbn [forallb]. cbn beta iota. unfold rt_get. simpl. rewrite set_db_skip, skip_rt. done. }
  split; [apply skip_db|]. split; [apply skip_rt|].
  assert (forall a, a ∈ rows <-> active_entry user (w_db w) (AR_ID a) a /\ AR_MemberCount a = 0) as Hrows.
  { intros a. unfold rows. rewrite order_by_in by apply _. apply active_room_rows_in. }
  assert (AR_ID <$> (count <$> rows) = AR_ID <$> rows) as Hids.
  { rewrite <-list_fmap_compose. done. }
  rewrite Hids. split; [|split; [|split]].
  - intros rid. split.
    { intros (a & -> & Ha)%list_elem_of_fmap.
      apply Hrows in Ha as [(m & r & Hm & Hact & Hr & He & _) _].
      unfold is_member. rewrite Hm. eauto. }
    intros [Hm (r & Hr & He)]. unfold is_member in Hm.
    destruct (t_members (w_db w) !! (rid, user)) as [m|] eqn:Em; [|done].
    apply list_elem_of_fmap.
    exists (mkActiveRoom rid (r_code r) (r_name r) (m_role m) 0 (m_joined_at m)).
    split; [done|]. apply Hrows. split; [|done]. by exists m, r.
  - apply NoDup_fmap_2_strong.
    + intros x y Hx Hy Hxy. apply Hrows in Hx as [(mx & rx & Hmx & _ & Hrx & _ & _ & Hcx & Hnx & Hox & Hjx) Hzx].
      apply Hrows in Hy as [(my & ry & Hmy & _ & Hry & _ & _ & Hcy & Hny & Hoy & Hjy) Hzy].
      rewrite Hxy in *. simplify_eq. destruct x, y; simpl in *. congruence.
    + unfold rows. rewrite order_by_perm. apply active_room_rows_nodup.
  - assert (StronglySorted (fun x y => Is_true (joined_ge x y)) rows) as Hs by apply order_by_sorted, _.
    clear -Hs. induction Hs as [|x l Hl IH Hx]; [constructor|]. cbn. constructor; [done|].
    by apply Forall_fmap.
  - apply Forall_fmap, Forall_forall. intros a Ha. apply Hrows in Ha as [He _]. simpl.
    split; [done|]. apply present_count_ids.
Qed.
End listing.

Lemma active_rooms_spec_witness :
  fault_free convoy_world /\
  exists l w', ListActiveForUser (Some trace_broadcaster) 2 convoy_world = (Ok l, w') /\ 101%N ∈ (AR_ID <$> l).
Proof.
  split; [exact convoy_world_calm|].
  destruct (active_rooms_spec trace_broadcaster 2 convoy_world convoy_world_calm)
    as (l & w' & Hrun & _ & _ & Hin & _).
  exists l, w'. split; [exact Hrun|]. apply Hin. split; [vm_compute; reflexivity|].
  exists (default (new_room_row "" None 0 0) (t_rooms (w_db convoy_world) !! 101%N)).
  split; vm_compute; reflexivity.
Defined.
