(* ===== verification/Messages.v ===== *)
(** * [internal/realtime/messages.go]: the frames of the room socket

    A frame is its type and its payload as the server builds them; [pack] says
    when [encoding/json] can write it, and a client reads back what was
    packed. *)
From stdpp Require Import base gmap sets list strings.
From Stdlib Require Import ZArith Lia.
From S2P Require Import Prelude.
From S2P Require Import Types.

Definition MsgSnapshot : string := "snapshot".
Definition MsgMemberJoined : string := "member_joined".
Definition MsgMemberLeft : string := "member_left".
Definition MsgMemberPresent : string := "member_present".
Definition MsgMemberAbsent : string := "member_absent".
Definition MsgLocation : string := "loc".
Definition MsgMuted : string := "muted".
Definition MsgKicked : string := "kicked".
Definition MsgRoomEnded : string := "room_ended".
Definition MsgRoomRenamed : string := "room_renamed".
Definition MsgOwnerChanged : string := "owner_changed".
Definition MsgDestination : string := "destination".
Definition MsgStops : string := "stops".
Definition MsgChat : string := "chat".
Definition MsgEmergency : string := "emergency".
Definition MsgError : string := "error".
Definition MsgPong : string := "pong".

Definition ClientMsgLocation : string := "loc".
Definition ClientMsgEmergency : string := "emergency".
Definition ClientMsgPing : string := "ping".

Record Location := mkLocation {
  Loc_Lat : float64;
  Loc_Lng : float64;
  Loc_Heading : float64;
  Loc_Speed : float64;
}.

Record LocationEvent := mkLocationEvent {
  LE_UserID : uuid;
  LE_Lat : float64;
  LE_Lng : float64;
  LE_Heading : float64;
  LE_Speed : float64;
  LE_TS : Z;
}.

Record SnapshotPayload := mkSnapshotPayload {
  SP_Self : uuid;
  SP_Members : list Member;
  SP_Locations : gmap uuid LocationEvent;
  SP_Destination : option Destination;
  SP_Stops : list Stop;
  SP_PresentUserIDs : list uuid;
  SP_EmergencyUserIDs : list uuid;
}.

(** The payloads the server sends, one constructor per payload struct. *)
Inductive payload :=
| SnapshotP (p : SnapshotPayload)
| DestinationP (d : option Destination)
| StopsP (stops : list Stop)
| RoomRenamedP (name : option string)
| OwnerChangedP (new old : uuid)
| ChatP (m : ChatMessage)
| MemberJoinedP (m : Member)
| MemberLeftP (user : uuid)
| MemberPresentP (user : uuid)
| MemberAbsentP (user : uuid)
| MutedP (user : uuid) (muted : bool) (by_ : uuid)
| KickedP (user by_ : uuid)
| EmergencyP (user : uuid) (active : bool)
| ErrorP (message : string)
| LocationP (ev : LocationEvent).

Record Envelope := mkEnvelope { Env_Type : string; Env_Payload : option payload }.

#[export] Instance LocationEvent_eq_dec : EqDecision LocationEvent.
Proof. solve_decision. Defined.
#[export] Instance SnapshotPayload_eq_dec : EqDecision SnapshotPayload.
Proof. solve_decision. Defined.
#[export] Instance payload_eq_dec : EqDecision payload.
Proof. solve_decision. Defined.
#[export] Instance Envelope_eq_dec : EqDecision Envelope.
Proof. solve_decision. Defined.

(** ** What [encoding/json] can write *)

(** A [time.Time] of the years 0 to 9999, in UTC. *)
Definition json_time (t : time) : bool :=
  (-62167219200000000 <=? t)%Z && (t <? 253402300800000000)%Z.

Definition json_destination (d : Destination) : bool :=
  json_float (Dest_Lat d) && json_float (Dest_Lng d) && json_time (Dest_SetAt d).
Definition json_stop (s : Stop) : bool :=
  json_float (Stop_Lat s) && json_float (Stop_Lng s) && json_time (Stop_CreatedAt s).
Definition json_member (m : Member) : bool := json_time (Member_JoinedAt m).
Definition json_message (m : ChatMessage) : bool := json_time (Msg_CreatedAt m).
Definition json_location (e : LocationEvent) : bool :=
  json_float (LE_Lat e) && json_float (LE_Lng e) && json_float (LE_Heading e) && json_float (LE_Speed e).

Definition json_opt {A} (f : A -> bool) (o : option A) : bool :=
  match o with Some a => f a | None => true end.

Definition json_payload (p : payload) : bool :=
  match p with
  | SnapshotP s =>
      forallb json_member (SP_Members s)
      && forallb (fun kv => json_location kv.2) (map_to_list (SP_Locations s))
      && json_opt json_destination (SP_Destination s)
      && forallb json_stop (SP_Stops s)
  | DestinationP d => json_opt json_destination d
  | StopsP l => forallb json_stop l
  | ChatP m => json_message m
  | MemberJoinedP m => json_member m
  | LocationP e => json_location e
  | _ => true
  end.

(** [pack]: the frame, or nothing when the payload cannot be marshalled. *)
Definition pack (t : string) (p : option payload) : option Envelope :=
  match p with
  | None => Some (mkEnvelope t None)
  | Some p => if json_payload p then Some (mkEnvelope t (Some p)) else None
  end.
