(* ===== verification/Client.v ===== *)
(** * [internal/realtime/client.go]: one socket and its queue

    A client is the record the hub and the two pumps share.  The write pump is
    a function of the event the [select] picks; a run of it is the list of the
    events, which is where the scheduler's and the network's choices are. *)
From stdpp Require Import base gmap sets list strings.
From Stdlib Require Import ZArith Lia.
From S2P Require Import Prelude.
From S2P Require Import Types.
From S2P Require Import Messages.

Definition sendBuffer : nat := 32.

Record client := mkClient {
  c_user : uuid;
  c_roomID : uuid;
  c_send : list Envelope;
  c_closed : bool;
  c_reason : string;
}.

#[export] Instance client_eq_dec : EqDecision client.
Proof. solve_decision. Defined.

Definition newClient (user roomID : uuid) : client := mkClient user roomID [] false "".

Definition set_send (q : list Envelope) (c : client) : client :=
  mkClient (c_user c) (c_roomID c) q (c_closed c) (c_reason c).

(** [closeOnce.Do]: the first reason stays. *)
Definition close_ (reason : string) (c : client) : client :=
  if c_closed c then c else mkClient (c_user c) (c_roomID c) (c_send c) true reason.

(** A non-blocking send on the buffered channel; a full one closes. *)
Definition enqueue (b : Envelope) (c : client) : client :=
  if length (c_send c) <? sendBuffer then set_send (c_send c ++ [b]) c
  else close_ "send buffer full" c.

(** ** The write pump *)

Inductive pump_state := Pumping | Draining | Stopped.

(** A socket: the client, the pump's place, what was written to the
    connection, and the reason the connection was closed with. *)
Record socket := mkSocket {
  k_client : client;
  k_pump : pump_state;
  k_out : list Envelope;
  k_shutdown : option string;
}.

(** What the [select] of [writePump] can pick, with what the network answers. *)
Inductive pump_event :=
| CtxDone
| SeesClosed
| SendsNext (ok : bool)
| DrainsNext (ok : bool)
| Pings (ok : bool).

(** [shutdown] in the deferred function. *)
Definition shutdown (c : client) (out : list Envelope) : socket :=
  mkSocket c Stopped out (Some (if bool_decide (c_reason c = "") then "closed" else c_reason c)).

(** [c.write]: a failure closes. *)
Definition write (ok : bool) (m : Envelope) (s : socket) (pump : pump_state) : socket :=
  if ok then mkSocket (k_client s) pump (k_out s ++ [m]) (k_shutdown s)
  else shutdown (close_ "write error" (k_client s)) (k_out s).

(** One round of [drainSend]; without a message left the pump returns. *)
Definition drainSend (ok : bool) (s : socket) : option socket :=
  let c := k_client s in
  match c_send c with
  | m :: q => Some (write ok m (mkSocket (set_send q c) Draining (k_out s) (k_shutdown s)) Draining)
  | [] => Some (shutdown c (k_out s))
  end.

Definition pump_step (ev : pump_event) (s : socket) : option socket :=
  let c := k_client s in
  match k_pump s, ev with
  | Pumping, CtxDone => Some (shutdown c (k_out s))
  | Pumping, SeesClosed =>
      if c_closed c then Some (mkSocket c Draining (k_out s) (k_shutdown s)) else None
  | Pumping, SendsNext ok =>
      match c_send c with
      | m :: q => Some (write ok m (mkSocket (set_send q c) Pumping (k_out s) (k_shutdown s)) Pumping)
      | [] => None
      end
  | Pumping, Pings true => Some s
  | Pumping, Pings false => Some (shutdown (close_ "ping failed" c) (k_out s))
  | Draining, DrainsNext ok => drainSend ok s
  | _, _ => None
  end.

(** What the rest of the program does to the client meanwhile. *)
Inductive client_event := Enqueues (b : Envelope) | Closes (reason : string).

Definition client_step (ev : client_event) (c : client) : client :=
  match ev with Enqueues b => enqueue b c | Closes r => close_ r c end.

Inductive event := ByPump (ev : pump_event) | ByOthers (ev : client_event).

Definition socket_step (ev : event) (s : socket) : option socket :=
  match ev with
  | ByPump ev => pump_step ev s
  | ByOthers ev => Some (mkSocket (client_step ev (k_client s)) (k_pump s) (k_out s) (k_shutdown s))
  end.

(** A run: the socket after the events, when each of them can happen. *)
Fixpoint socket_run (evs : list event) (s : socket) : option socket :=
  match evs with
  | [] => Some s
  | ev :: evs' => s' ← socket_step ev s; socket_run evs' s'
  end.

Definition newSocket (user roomID : uuid) : socket :=
  mkSocket (newClient user roomID) Pumping [] None.
