(* ===== verification/ClientProps.v ===== *)
(** * What a socket delivers

    Order, bounds and the delivery of terminal frames, for every interleaving
    of the write pump with the rest of the program. *)
From stdpp Require Import base gmap sets list strings.
From Stdlib Require Import ZArith Lia.
From S2P Require Import Prelude.
From S2P Require Import Types.
From S2P Require Import Messages.
From S2P Require Import Client.

(** The frames a run's [enqueue]s put into the queue. *)
Fixpoint accepted (evs : list event) (s : socket) : list Envelope :=
  match evs with
  | [] => []
  | ev :: evs' =>
      match socket_step ev s with
      | None => []
      | Some s' =>
          match ev with
          | ByOthers (Enqueues b) =>
              if length (c_send (k_client s)) <? sendBuffer then b :: accepted evs' s' else accepted evs' s'
          | _ => accepted evs' s'
          end
      end
  end.

(** No write and no ping fails and the request is not cancelled. *)
Definition calm (ev : event) : bool :=
  match ev with
  | ByPump CtxDone | ByPump (SendsNext false) | ByPump (DrainsNext false) | ByPump (Pings false) => false
  | _ => true
  end.

Lemma close_send r c : c_send (close_ r c) = c_send c.
Proof. unfold close_. by destruct (c_closed c). Qed.

Lemma close_closed r c : c_closed (close_ r c) = true.
Proof. unfold close_. by destruct (c_closed c) eqn:E. Qed.

Lemma close_reason r c : c_closed c = true -> close_ r c = c.
Proof. unfold close_. by intros ->. Qed.

Lemma enqueue_bound b c : length (c_send c) <= sendBuffer -> length (c_send (enqueue b c)) <= sendBuffer.
Proof.
  intros Hc. unfold enqueue. destruct (Nat.ltb_spec (length (c_send c)) sendBuffer); simpl.
  - rewrite length_app. simpl. lia.
  - by rewrite close_send.
Qed.

(** What a step of the pump does to the queue and the connection: nothing, or
    it takes the head and writes it, or loses it and stops. *)
Lemma pump_step_flow ev s s' :
  pump_step ev s = Some s' ->
  k_pump s <> Stopped /\
  ((c_send (k_client s') = c_send (k_client s) /\ k_out s' = k_out s) \/
   exists m, c_send (k_client s) = m :: c_send (k_client s') /\
     ((k_out s' = k_out s ++ [m] /\ k_pump s' = k_pump s) \/ (k_out s' = k_out s /\ k_pump s' = Stopped))).
Proof.
  unfold pump_step, drainSend, write.
  destruct (k_pump s) eqn:Hp; [| |done];
    destruct ev as [| |[]|[]|[]]; try done;
    repeat (case_goal; try done); intros [= <-]; simpl; rewrite ?close_send;
    (split; [done|]); first [by left | right; eexists; split; [done|]; by auto].
Qed.

(** Bound, order, and where a frame can get lost: what the queue and the
    connection hold. *)
Definition flow (acc : list Envelope) (s : socket) : Prop :=
  length (c_send (k_client s)) <= sendBuffer /\
  exists lost, acc = k_out s ++ lost ++ c_send (k_client s) /\
    length lost <= 1 /\ (k_pump s <> Stopped -> lost = []).

Lemma flow_pump ev s s' acc : flow acc s -> pump_step ev s = Some s' -> flow acc s'.
Proof.
  intros [Hlen (lost & -> & _ & Hlost)] Hstep.
  apply pump_step_flow in Hstep as [Hp Hcases]. rewrite (Hlost Hp). unfold flow.
  destruct Hcases as [[-> ->]|(m & Hm & [[-> Hp']|[-> Hp']])].
  - split; [done|]. exists []. split; [done|]. split; [simpl; lia|done].
  - rewrite Hm in *. simpl in Hlen. split; [lia|]. exists []. rewrite <-app_assoc. split; [done|].
    split; [simpl; lia|done].
  - rewrite Hm in *. simpl in Hlen. split; [lia|]. exists [m]. split; [done|]. split; [done|]. by rewrite Hp'.
Qed.

Lemma flow_enqueue b s acc :
  flow acc s ->
  flow (if length (c_send (k_client s)) <? sendBuffer then acc ++ [b] else acc)
    (mkSocket (enqueue b (k_client s)) (k_pump s) (k_out s) (k_shutdown s)).
Proof.
  intros [Hlen (lost & -> & Hl & Hlost)]. split; [by apply enqueue_bound|].
  exists lost. unfold enqueue. destruct (_ <? _); simpl; [|by rewrite close_send].
  by rewrite <-!app_assoc.
Qed.

Lemma flow_run evs s s' acc :
  flow acc s -> socket_run evs s = Some s' -> flow (acc ++ accepted evs s) s'.
Proof.
  revert s acc. induction evs as [|ev evs IH]; intros s acc Hflow Hrun; simpl in *.
  { injection Hrun as <-. by rewrite app_nil_r. }
  destruct (socket_step ev s) as [s1|] eqn:Hstep; [|done]. simpl in Hrun.
  destruct ev as [ev|[b|r]]; simpl in Hstep.
  - apply IH; [by eapply flow_pump|done].
  - injection Hstep as <-. apply (flow_enqueue b) in Hflow.
    destruct (_ <? _); [|by apply IH]. specialize (IH _ _ Hflow Hrun). by rewrite <-app_assoc in IH.
  - injection Hstep as <-. apply IH; [|done]. unfold flow in *. simpl. by rewrite close_send.
Qed.

(** C21 Whatever the pump, the network and the rest of the program do, a
    socket's queue never holds more than 32 frames, and the frames accepted by
    the queue are, in their order, those written to the connection, then at
    most one whose write failed, then those still queued. *)
Theorem socket_fifo user room evs s :
  socket_run evs (newSocket user room) = Some s ->
  length (c_send (k_client s)) <= 32 /\
  exists lost, accepted evs (newSocket user room) = k_out s ++ lost ++ c_send (k_client s) /\
    length lost <= 1 /\ (k_pump s <> Stopped -> lost = []).
Proof.
  intros Hrun. apply (flow_run evs _ _ []) in Hrun; [exact Hrun|].
  split; [simpl; unfold sendBuffer; lia|]. exists []. split; [done|]. split; [simpl; lia|done].
Qed.

(** ** Closing *)

Lemma closed_client_step ev c : c_closed c = true ->
  c_closed (client_step ev c) = true /\ c_reason (client_step ev c) = c_reason c.
Proof.
  intros Hc. destruct ev as [b|r]; simpl; [|by rewrite close_reason].
  unfold enqueue. destruct (_ <? _); [done|]. by rewrite close_reason.
Qed.

Lemma closed_pump_step ev s s' : c_closed (k_client s) = true -> pump_step ev s = Some s' ->
  c_closed (k_client s') = true /\ c_reason (k_client s') = c_reason (k_client s).
Proof.
  intros Hc. unfold pump_step, drainSend, write.
  destruct (k_pump s); [| |done];
    destruct ev as [| |[]|[]|[]]; try done;
    repeat (case_goal; try done); intros [= <-]; simpl; by rewrite ?close_reason.
Qed.

Lemma closed_run evs s s' : c_closed (k_client s) = true -> socket_run evs s = Some s' ->
  c_closed (k_client s') = true /\ c_reason (k_client s') = c_reason (k_client s).
Proof.
  revert s. induction evs as [|ev evs IH]; intros s Hc Hrun; simpl in Hrun.
  { by injection Hrun as <-. }
  destruct (socket_step ev s) as [s1|] eqn:Hstep; [|done]. simpl in Hrun.
  assert (c_closed (k_client s1) = true /\ c_reason (k_client s1) = c_reason (k_client s)) as [Hc1 <-].
  { destruct ev as [ev|ev]; simpl in Hstep; [by eapply closed_pump_step|].
    injection Hstep as <-. by apply closed_client_step. }
  by apply IH.
Qed.

(** The terminal frames: still queued, or written. *)
Definition pending (f : Envelope) (s : socket) : Prop :=
  (f ∈ c_send (k_client s) /\ k_pump s <> Stopped) \/ f ∈ k_out s.

Lemma pending_step f ev s s' :
  calm ev = true -> pending f s -> socket_step ev s = Some s' -> pending f s'.
Proof.
  intros Hcalm Hf Hstep. destruct ev as [ev|[b|r]]; simpl in Hstep.
  - revert Hstep Hcalm Hf. unfold pending, pump_step, drainSend, write.
    destruct (k_pump s) eqn:Hp; [| |done];
      destruct ev as [| |[]|[]|[]]; try done;
      repeat (case_goal; try done); intros [= <-] _; simpl;
      rewrite ?elem_of_app, ?elem_of_cons, ?elem_of_nil; intuition congruence.
  - injection Hstep as <-. destruct Hf as [[Hf Hp]|Hf]; [left|by right]. split; [|done]. simpl.
    unfold enqueue. destruct (_ <? _); simpl; [apply elem_of_app; by left|by rewrite close_send].
  - injection Hstep as <-. destruct Hf as [[Hf Hp]|Hf]; [left|by right]. simpl. by rewrite close_send.
Qed.

Lemma pending_run f evs s s' :
  forallb calm evs = true -> pending f s -> socket_run evs s = Some s' -> pending f s'.
Proof.
  revert s. induction evs as [|ev evs IH]; intros s Hcalm Hf Hrun; simpl in *.
  { by injection Hrun as <-. }
  apply andb_true_iff in Hcalm as [Hev Hcalm].
  destruct (socket_step ev s) as [s1|] eqn:Hstep; [|done]. simpl in Hrun.
  apply (IH s1); [done| |done]. by eapply pending_step.
Qed.

(** Draining a queue takes one event per frame and one to stop. *)
Lemma drain_run c out sd :
  exists s', socket_run (replicate (S (length (c_send c))) (ByPump (DrainsNext true)))
                 (mkSocket c Draining out sd) = Some s' /\
    k_pump s' = Stopped /\ k_out s' = out ++ c_send c /\
    k_shutdown s' = Some (if bool_decide (c_reason c = "") then "closed" else c_reason c).
Proof.
  destruct c as [u r q cl re]. simpl. revert out. induction q as [|m q IH]; intros out.
  { eexists. split; [reflexivity|]. simpl. by rewrite app_nil_r. }
  destruct (IH (out ++ [m])) as (s' & Hrun & Hp & Ho & Hsd).
  exists s'. split; [exact Hrun|]. by rewrite Ho, <-app_assoc.
Qed.

(** C22 What is queued when a socket is closed is delivered: in every run from
    there in which no write and no ping fails and the request is not cancelled,
    a pump that has stopped has written every frame of that queue and closed
    the connection with the first close's reason; and from a pump that is
    running such a run exists. *)
Theorem closed_socket_drains s f :
  c_closed (k_client s) = true -> f ∈ c_send (k_client s) -> k_pump s = Pumping ->
  (forall evs s', forallb calm evs = true -> socket_run evs s = Some s' -> k_pump s' = Stopped ->
     f ∈ k_out s') /\
  (forall evs s', socket_run evs s = Some s' -> c_reason (k_client s') = c_reason (k_client s)) /\
  exists evs s', forallb calm evs = true /\ length evs = length (c_send (k_client s)) + 2 /\
    socket_run evs s = Some s' /\ k_pump s' = Stopped /\ k_out s' = k_out s ++ c_send (k_client s) /\
    k_shutdown s' = Some (if bool_decide (c_reason (k_client s) = "") then "closed"
                          else c_reason (k_client s)).
Proof.
  intros Hc Hf Hp. split; [|split].
  - intros evs s' Hcalm Hrun Hs'. apply (pending_run f) in Hrun; [|done|left; rewrite Hp; done].
    by destruct Hrun as [[_ []]|].
  - intros evs s' Hrun. by apply closed_run in Hrun as [_ ?].
  - destruct (drain_run (k_client s) (k_out s) (k_shutdown s)) as (s' & Hrun & Hs' & Ho & Hsd).
    exists (ByPump SeesClosed :: replicate (S (length (c_send (k_client s)))) (ByPump (DrainsNext true))), s'.
    split; [|split; [|split; [|done]]].
    + simpl. generalize (length (c_send (k_client s))). by induction n.
    + simpl. rewrite length_replicate. lia.
    + cbn [socket_run]. cbn [socket_step]. unfold pump_step at 1. rewrite Hp, Hc. exact Hrun.
Qed.

Definition bye : Envelope := mkEnvelope MsgKicked (Some (KickedP 2 1)).

Lemma socket_fifo_witness :
  exists s, socket_run [ByOthers (Enqueues bye); ByPump (SendsNext true)] (newSocket 2 101) = Some s /\
  length (c_send (k_client s)) <= 32 /\
  exists lost, accepted [ByOthers (Enqueues bye); ByPump (SendsNext true)] (newSocket 2 101) =
                 k_out s ++ lost ++ c_send (k_client s) /\
    length lost <= 1 /\ (k_pump s <> Stopped -> lost = []).
Proof. eexists. split; [reflexivity|]. by apply (socket_fifo 2 101). Defined.

(** A kick: the frame, then the close, then the pump notices. *)
Lemma closed_socket_drains_witness :
  let s := mkSocket (close_ "kicked" (enqueue bye (newClient 2 101))) Pumping [] None in
  c_closed (k_client s) = true /\ bye ∈ c_send (k_client s) /\
  exists evs s', forallb calm evs = true /\ length evs = length (c_send (k_client s)) + 2 /\
    socket_run evs s = Some s' /\ k_pump s' = Stopped /\ k_out s' = k_out s ++ c_send (k_client s) /\
    k_shutdown s' = Some (if bool_decide (c_reason (k_client s) = "") then "closed"
                          else c_reason (k_client s)).
Proof.
  intros s. assert (bye ∈ c_send (k_client s)) as Hbye by (simpl; apply list_elem_of_here).
  split; [reflexivity|]. split; [exact Hbye|].
  exact (proj2 (proj2 (closed_socket_drains s bye eq_refl Hbye eq_refl))).
Defined.
