(* ===== verification/Hub.v ===== *)
(** * [internal/realtime/hub.go]: the hub

    The hub's map from rooms to room states, the room states and the clients
    are objects shared by pointer, so they live in a store of their own here:
    [h_rooms] holds the location of a room's state, a room state the
    identifiers of its clients.  A critical section of a mutex is one function
    on the hub; an operation with two of them is their composition, and its
    sections have names, so that other operations can run in between. *)
From stdpp Require Import base gmap sets list strings.
From Stdlib Require Import ZArith Lia.
From S2P Require Import Prelude.
From S2P Require Import Httpx.
From S2P Require Import Types.
From S2P Require Import Db.
From S2P Require Import Store.
From S2P Require Import Messages.
From S2P Require Import Client.

Open Scope convoy_scope.

Abbreviation loc := N (only parsing).
Abbreviation cid := N (only parsing).

Record roomState := mkRoomState {
  rs_clients : gmap uuid cid;
  rs_locations : gmap uuid LocationEvent;
  rs_emergencies : gset uuid;
}.

Definition newRoomState : roomState := mkRoomState ∅ ∅ ∅.

Record Hub := mkHub {
  h_rooms : gmap uuid loc;
  h_states : gmap loc roomState;
  h_clients : gmap cid client;
  h_next : N;
}.

Definition NewHub : Hub := mkHub ∅ ∅ ∅ 0.

Definition set_state (l : loc) (rs : roomState) (h : Hub) : Hub :=
  mkHub (h_rooms h) (<[l := rs]> (h_states h)) (h_clients h) (h_next h).

(** An update of the client object behind a pointer. *)
Definition upd_client (f : client -> client) (c : cid) (h : Hub) : Hub :=
  mkHub (h_rooms h) (h_states h) (alter f c (h_clients h)) (h_next h).

(** [newClient] allocates. *)
Definition alloc_client (user roomID : uuid) (h : Hub) : cid * Hub :=
  (h_next h, mkHub (h_rooms h) (h_states h) (<[h_next h := newClient user roomID]> (h_clients h))
               (h_next h + 1)%N).

Definition client_user (c : cid) (h : Hub) : uuid :=
  match h_clients h !! c with Some k => c_user k | None => 0%N end.

(** [roomFor]. *)
Definition roomFor (id : uuid) (createIfMissing : bool) (h : Hub) : option loc * Hub :=
  match h_rooms h !! id with
  | Some l => (Some l, h)
  | None =>
      if createIfMissing then
        let l := h_next h in
        (Some l, mkHub (<[id := l]> (h_rooms h)) (<[l := newRoomState]> (h_states h)) (h_clients h)
                   (h_next h + 1)%N)
      else (None, h)
  end.

(** The state behind a pointer. *)
Definition state_at (l : loc) (h : Hub) : roomState := default newRoomState (h_states h !! l).

(** The state of a room, for readers: [roomFor(id, false)] and a look. *)
Definition room_state (id : uuid) (h : Hub) : option roomState :=
  l ← h_rooms h !! id; Some (state_at l h).

(** ** Joining and leaving *)

Definition set_clients (m : gmap uuid cid) (rs : roomState) : roomState :=
  mkRoomState m (rs_locations rs) (rs_emergencies rs).

(** [join]'s section under [rs.mu]. *)
Definition join_at (l : loc) (c : cid) (h : Hub) : bool * Hub :=
  let rs := state_at l h in
  let u := client_user c h in
  match rs_clients rs !! u with
  | Some existing =>
      (false, set_state l (set_clients (<[u := c]> (rs_clients rs)) rs)
                (upd_client (close_ "replaced by new connection") existing h))
  | None => (true, set_state l (set_clients (<[u := c]> (rs_clients rs)) rs) h)
  end.

Definition join (roomID : uuid) (c : cid) (h : Hub) : bool * Hub :=
  match roomFor roomID true h with
  | (Some l, h1) => join_at l c h1
  | (None, h1) => (false, h1)
  end.

(** What [leave]'s section under [rs.mu] reports. *)
Record left_ := mkLeft { l_transitioned : bool; l_cleared : bool; l_empty : bool }.

(** [leave]'s section under [rs.mu]. *)
Definition leave_at (l : loc) (c : cid) (h : Hub) : left_ * Hub :=
  let rs := state_at l h in
  let u := client_user c h in
  if bool_decide (rs_clients rs !! u = Some c) then
    let rs' := mkRoomState (delete u (rs_clients rs)) (delete u (rs_locations rs))
                 (rs_emergencies rs ∖ {[u]}) in
    (mkLeft true (bool_decide (u ∈ rs_emergencies rs)) (bool_decide (rs_clients rs' = ∅)),
     set_state l rs' h)
  else (mkLeft false false (bool_decide (rs_clients rs = ∅)), h).

(** [leave]'s section under [h.mu]. *)
Definition drop_if_empty (roomID : uuid) (h : Hub) : Hub :=
  match h_rooms h !! roomID with
  | Some l2 =>
      if bool_decide (rs_clients (state_at l2 h) = ∅) then
        mkHub (delete roomID (h_rooms h)) (h_states h) (h_clients h) (h_next h)
      else h
  | None => h
  end.

Definition leave (roomID : uuid) (c : cid) (h : Hub) : bool * bool * Hub :=
  match roomFor roomID false h with
  | (None, h1) => (false, false, h1)
  | (Some l, h1) =>
      let '(r, h2) := leave_at l c h1 in
      (l_transitioned r, l_cleared r, if l_empty r then drop_if_empty roomID h2 else h2)
  end.

(** ** Emergencies and locations *)

Definition SetEmergency (roomID userID : uuid) (active : bool) (h : Hub) : bool * Hub :=
  match roomFor roomID true h with
  | (None, h1) => (false, h1)
  | (Some l, h1) =>
      let rs := state_at l h1 in
      let has := bool_decide (userID ∈ rs_emergencies rs) in
      if active && negb has then
        (true, set_state l (mkRoomState (rs_clients rs) (rs_locations rs) ({[userID]} ∪ rs_emergencies rs)) h1)
      else if negb active && has then
        (true, set_state l (mkRoomState (rs_clients rs) (rs_locations rs) (rs_emergencies rs ∖ {[userID]})) h1)
      else (false, h1)
  end.

Definition recordLocation (roomID : uuid) (ev : LocationEvent) (h : Hub) : Hub :=
  match roomFor roomID true h with
  | (None, h1) => h1
  | (Some l, h1) =>
      let rs := state_at l h1 in
      set_state l (mkRoomState (rs_clients rs) (<[LE_UserID ev := ev]> (rs_locations rs)) (rs_emergencies rs)) h1
  end.

(** ** Reading *)

Definition EmergencyUserIDs (roomID : uuid) (h : Hub) : list uuid :=
  match room_state roomID h with Some rs => elements (rs_emergencies rs) | None => [] end.

Definition PresentUserIDs (roomID : uuid) (h : Hub) : list uuid :=
  match room_state roomID h with Some rs => (map_to_list (rs_clients rs)).*1 | None => [] end.

Definition PresentCount (roomID : uuid) (h : Hub) : nat :=
  match room_state roomID h with Some rs => size (rs_clients rs) | None => 0 end.

Definition IsPresent (roomID userID : uuid) (h : Hub) : bool :=
  match room_state roomID h with
  | Some rs => bool_decide (is_Some (rs_clients rs !! userID))
  | None => false
  end.

(** The part of [snapshot] after the store's reads. *)
Definition snapshot_of (roomID selfID : uuid) (members : list Member) (dest : option Destination)
    (stops : list Stop) (h : Hub) : SnapshotPayload :=
  let rs := default newRoomState (room_state roomID h) in
  mkSnapshotPayload selfID members (rs_locations rs) dest stops (map_to_list (rs_clients rs)).*1
    (elements (rs_emergencies rs)).

Definition snapshot (roomID selfID : uuid) : M Hub SnapshotPayload :=
  members <- ListMembers roomID ;;
  dest <- GetDestination roomID ;;
  stops <- ListStops roomID ;;
  rt_do (fun h => (roomFor roomID true h).2) ;;;
  rt_get (snapshot_of roomID selfID members dest stops).

(** ** Fanout *)

(** The clients a broadcast goes to; the order in which a Go map is ranged
    over is not specified, and does not matter ([broadcast_lookup]). *)
Definition targets (rs : roomState) (exclude : option uuid) : list cid :=
  (filter (fun p => exclude <> Some p.1) (map_to_list (rs_clients rs))).*2.

Definition enqueue_all (data : Envelope) (cs : list cid) (h : Hub) : Hub :=
  foldl (fun h c => upd_client (enqueue data) c h) h cs.

Definition broadcast (roomID : uuid) (t : string) (p : payload) (exclude : option uuid) (h : Hub) : Hub :=
  match room_state roomID h with
  | None => h
  | Some rs =>
      match pack t (Some p) with
      | None => h
      | Some data => enqueue_all data (targets rs exclude) h
      end
  end.

Definition sendTo (c : cid) (t : string) (p : option payload) (h : Hub) : Hub :=
  match pack t p with
  | None => h
  | Some data => upd_client (enqueue data) c h
  end.

Definition BroadcastMemberJoined (roomID : uuid) (member : Member) (h : Hub) : Hub :=
  broadcast roomID MsgMemberJoined (MemberJoinedP member) None h.
Definition BroadcastMemberLeft (roomID userID : uuid) (h : Hub) : Hub :=
  broadcast roomID MsgMemberLeft (MemberLeftP userID) None h.
Definition BroadcastMemberPresent (roomID userID : uuid) (h : Hub) : Hub :=
  broadcast roomID MsgMemberPresent (MemberPresentP userID) (Some userID) h.
Definition BroadcastMemberAbsent (roomID userID : uuid) (h : Hub) : Hub :=
  broadcast roomID MsgMemberAbsent (MemberAbsentP userID) (Some userID) h.
Definition BroadcastEmergency (roomID userID : uuid) (active : bool) (h : Hub) : Hub :=
  broadcast roomID MsgEmergency (EmergencyP userID active) None h.
Definition BroadcastMute (roomID userID : uuid) (muted : bool) (by_ : uuid) (h : Hub) : Hub :=
  broadcast roomID MsgMuted (MutedP userID muted by_) None h.
Definition BroadcastDestination (roomID : uuid) (dest : option Destination) (h : Hub) : Hub :=
  broadcast roomID MsgDestination (DestinationP dest) None h.
Definition BroadcastStops (roomID : uuid) (stops : list Stop) (h : Hub) : Hub :=
  broadcast roomID MsgStops (StopsP stops) None h.
Definition BroadcastRoomRenamed (roomID : uuid) (name : option string) (h : Hub) : Hub :=
  broadcast roomID MsgRoomRenamed (RoomRenamedP name) None h.
Definition BroadcastOwnerChanged (roomID new old : uuid) (h : Hub) : Hub :=
  broadcast roomID MsgOwnerChanged (OwnerChangedP new old) None h.
Definition BroadcastChatMessage (roomID : uuid) (msg : ChatMessage) (h : Hub) : Hub :=
  broadcast roomID MsgChat (ChatP msg) (Some (Msg_UserID msg)) h.

(** The client a user has in a room. *)
Definition client_of (roomID userID : uuid) (h : Hub) : option cid :=
  rs ← room_state roomID h; rs_clients rs !! userID.

Definition DisconnectUser (roomID userID : uuid) (h : Hub) : Hub :=
  match client_of roomID userID h with
  | Some c => upd_client (close_ "left room") c h
  | None => h
  end.

Definition KickConnection (roomID userID by_ : uuid) (h : Hub) : Hub :=
  let h1 := broadcast roomID MsgKicked (KickedP userID by_) (Some userID) h in
  match client_of roomID userID h1 with
  | Some c => upd_client (close_ "kicked") c (sendTo c MsgKicked (Some (KickedP userID by_)) h1)
  | None => h1
  end.

Definition BroadcastRoomEnded (roomID : uuid) (h : Hub) : Hub :=
  match room_state roomID h with
  | None => h
  | Some rs =>
      let conns := (map_to_list (rs_clients rs)).*2 in
      let h1 := foldl (fun h c => sendTo c MsgRoomEnded None h) h conns in
      foldl (fun h c => upd_client (close_ "room ended") c h) h1 conns
  end.
