(* ===== verification/HubFacts.v ===== *)
(** * Facts about the hub: its invariant and its view of the rooms

    [hub_wf] is what the pointers promise: rooms have states of their own, and
    a room's clients are sockets of that user in that room.  [rooms_view]
    reads the pointers away; the operations act on it as the abstract
    operations of [Presence] do. *)
From stdpp Require Import base gmap sets list strings.
From Stdlib Require Import ZArith Lia.
From S2P Require Import Prelude.
From S2P Require Import Types.
From S2P Require Import Messages.
From S2P Require Import Client.
From S2P Require Import Hub.

Record hub_wf (h : Hub) : Prop := {
  hw_states : forall l, is_Some (h_states h !! l) -> (l < h_next h)%N;
  hw_clients : forall c, is_Some (h_clients h !! c) -> (c < h_next h)%N;
  hw_rooms : forall r l, h_rooms h !! r = Some l -> is_Some (h_states h !! l);
  hw_inj : forall r1 r2 l, h_rooms h !! r1 = Some l -> h_rooms h !! r2 = Some l -> r1 = r2;
  hw_owner : forall r l rs u c, h_rooms h !! r = Some l -> h_states h !! l = Some rs ->
             rs_clients rs !! u = Some c ->
             exists k, h_clients h !! c = Some k /\ c_user k = u /\ c_roomID k = r;
}.

Lemma NewHub_wf : hub_wf NewHub.
Proof. split; simpl; intros *; rewrite ?lookup_empty; try done; by intros []. Qed.

(** ** The view *)

Definition rooms_view (h : Hub) : gmap uuid roomState := (fun l => state_at l h) <$> h_rooms h.

Lemma rooms_view_lookup h r : rooms_view h !! r = room_state r h.
Proof. unfold rooms_view, room_state. rewrite lookup_fmap. by destruct (h_rooms h !! r). Qed.

Lemma view_ext h h' : (forall r, room_state r h' = room_state r h) -> rooms_view h' = rooms_view h.
Proof. intros Hr. apply map_eq. intros r. by rewrite !rooms_view_lookup. Qed.

Lemma room_state_loc h r rs :
  hub_wf h -> room_state r h = Some rs -> exists l, h_rooms h !! r = Some l /\ h_states h !! l = Some rs.
Proof.
  intros Hwf. unfold room_state. destruct (h_rooms h !! r) as [l|] eqn:Hl; [|done].
  intros [= <-]. exists l. split; [done|]. unfold state_at.
  by destruct (hw_rooms _ Hwf _ _ Hl) as [rs ->].
Qed.

Lemma client_of_spec h r u c :
  hub_wf h -> client_of r u h = Some c ->
  exists k, h_clients h !! c = Some k /\ c_user k = u /\ c_roomID k = r.
Proof.
  intros Hwf. unfold client_of. destruct (room_state r h) as [rs|] eqn:Hrs; [|done]. simpl. intros Hc.
  apply room_state_loc in Hrs as (l & Hl & Hrs); [|done]. by eapply hw_owner.
Qed.

(** A client is the socket of one user in one room. *)
Lemma client_of_inj h r1 u1 r2 u2 c :
  hub_wf h -> client_of r1 u1 h = Some c -> client_of r2 u2 h = Some c -> r1 = r2 /\ u1 = u2.
Proof.
  intros Hwf (k1 & H1 & <- & <-)%client_of_spec (k2 & H2 & <- & <-)%client_of_spec; [|done..].
  by simplify_eq.
Qed.

(** ** Updates of a client object *)

(** What the queue and the close flag do not touch. *)
Definition same_owner (f : client -> client) : Prop :=
  forall k, c_user (f k) = c_user k /\ c_roomID (f k) = c_roomID k.

Lemma close_owner r : same_owner (close_ r).
Proof. intros k. unfold close_. by destruct (c_closed k). Qed.

Lemma enqueue_owner b : same_owner (enqueue b).
Proof. intros k. unfold enqueue. destruct (_ <? _); [done|]. apply close_owner. Qed.

#[export] Hint Resolve close_owner enqueue_owner : convoy.

Lemma upd_client_wf f c h : same_owner f -> hub_wf h -> hub_wf (upd_client f c h).
Proof.
  intros Hf [H1 H2 H3 H4 H5]. split; simpl; try done.
  - intros d. rewrite lookup_alter_is_Some. apply H2.
  - intros r l rs u d Hl Hs Hc. destruct (H5 r l rs u d Hl Hs Hc) as (k & Hk & Hu & Hr).
    rewrite lookup_alter. case_decide as Hd; [|by exists k]. subst d. rewrite Hk. simpl.
    exists (f k). destruct (Hf k) as [-> ->]. done.
Qed.

Lemma upd_client_view f c h r : room_state r (upd_client f c h) = room_state r h.
Proof. done. Qed.

Lemma client_user_upd f c d h : same_owner f -> client_user d (upd_client f c h) = client_user d h.
Proof.
  intros Hf. unfold client_user. simpl. rewrite lookup_alter. case_decide as Hd; [subst d|done].
  destruct (h_clients h !! c) as [k|]; simpl; [|done]. by destruct (Hf k).
Qed.

Lemma foldl_upd_wf (g : Hub -> cid -> Hub) cs h :
  (forall h c, hub_wf h -> hub_wf (g h c)) -> hub_wf h -> hub_wf (foldl g h cs).
Proof. intros Hg. revert h. induction cs as [|c cs IH]; intros h Hwf; simpl; auto. Qed.

Lemma foldl_upd_view (g : Hub -> cid -> Hub) cs h r :
  (forall h c, room_state r (g h c) = room_state r h) -> room_state r (foldl g h cs) = room_state r h.
Proof. intros Hg. revert h. induction cs as [|c cs IH]; intros h; simpl; [done|]. by rewrite IH, Hg. Qed.

Lemma sendTo_wf c t p h : hub_wf h -> hub_wf (sendTo c t p h).
Proof. unfold sendTo. destruct (pack t p); [|done]. apply upd_client_wf, enqueue_owner. Qed.

Lemma sendTo_view c t p h r : room_state r (sendTo c t p h) = room_state r h.
Proof. unfold sendTo. by destruct (pack t p). Qed.

Lemma broadcast_wf r t p ex h : hub_wf h -> hub_wf (broadcast r t p ex h).
Proof.
  intros Hwf. unfold broadcast. destruct (room_state r h); [|done]. destruct (pack t _); [|done].
  apply foldl_upd_wf; [|done]. intros h' c. apply upd_client_wf, enqueue_owner.
Qed.

Lemma broadcast_view r t p ex h r' : room_state r' (broadcast r t p ex h) = room_state r' h.
Proof.
  unfold broadcast. destruct (room_state r h); [|done]. destruct (pack t _); [|done].
  by apply foldl_upd_view.
Qed.

(** ** [roomFor] *)

Lemma roomFor_spec r h :
  hub_wf h ->
  exists l h', roomFor r true h = (Some l, h') /\ hub_wf h' /\ h_rooms h' !! r = Some l /\
    h_clients h' = h_clients h /\ state_at l h' = default newRoomState (room_state r h) /\
    (forall r', r' <> r -> room_state r' h' = room_state r' h).
Proof.
  intros Hwf. unfold roomFor, room_state. destruct (h_rooms h !! r) as [l|] eqn:Hl.
  { exists l, h. done. }
  exists (h_next h). eexists. split; [reflexivity|].
  assert (h_states h !! h_next h = None) as Hnew.
  { apply eq_None_not_Some. intros Hs%(hw_states _ Hwf). lia. }
  split; [|split; [|split; [|split]]]; simpl.
  - destruct Hwf as [H1 H2 H3 H4 H5]. split; simpl.
    + intros l. rewrite lookup_insert. case_decide; [lia|]. intros Hs%H1. lia.
    + intros c Hc%H2. lia.
    + intros r' l'. rewrite !lookup_insert. case_decide.
      * intros [= <-]. rewrite decide_True by done. by eexists.
      * intros Hl'. case_decide; [by eexists|by eapply H3].
    + intros r1 r2 l'. rewrite !lookup_insert. repeat case_decide; subst; try done.
      * intros [= <-] Hl2. apply H3, H1 in Hl2. lia.
      * intros Hl1 [= <-]. apply H3, H1 in Hl1. lia.
      * apply H4.
    + intros r' l' rs u c. rewrite !lookup_insert. case_decide; [subst|].
      * intros [= <-]. rewrite decide_True by done. intros [= <-]. simpl. by rewrite lookup_empty.
      * intros Hl'. rewrite decide_False by (intros <-; apply H3, H1 in Hl'; lia). by apply H5.
  - by rewrite lookup_insert_eq.
  - done.
  - unfold state_at. simpl. by rewrite lookup_insert_eq.
  - intros r' Hne. rewrite lookup_insert_ne by done.
    destruct (h_rooms h !! r') as [l'|] eqn:Hl'; simpl; [|done]. unfold state_at. simpl.
    rewrite lookup_insert_ne; [done|]. intros <-. by apply (hw_rooms _ Hwf), (hw_states _ Hwf) in Hl'; lia.
Qed.

(** ** Replacing the state of a room *)

Lemma set_state_wf r l rs h :
  hub_wf h -> h_rooms h !! r = Some l ->
  (forall u c, rs_clients rs !! u = Some c ->
     exists k, h_clients h !! c = Some k /\ c_user k = u /\ c_roomID k = r) ->
  hub_wf (set_state l rs h).
Proof.
  intros [H1 H2 H3 H4 H5] Hl Hown. split; simpl; try done.
  - intros l'. rewrite lookup_insert. case_decide; [subst; intros _; apply H1; by eapply H3|apply H1].
  - intros r' l' Hl'. rewrite lookup_insert. case_decide; [by eexists|by eapply H3].
  - intros r' l' rs' u c Hl'. rewrite lookup_insert. case_decide; [|by apply H5].
    subst l'. intros [= <-]. rewrite (H4 r' r l) by done. apply Hown.
Qed.

Lemma set_state_view r l rs h r' :
  hub_wf h -> h_rooms h !! r = Some l ->
  room_state r' (set_state l rs h) = if decide (r' = r) then Some rs else room_state r' h.
Proof.
  intros Hwf Hl. unfold room_state. simpl. case_decide as Hr.
  - subst r'. rewrite Hl. simpl. unfold state_at. simpl. by rewrite lookup_insert_eq.
  - destruct (h_rooms h !! r') as [l'|] eqn:Hl'; [|done]. simpl. unfold state_at. simpl.
    rewrite lookup_insert_ne; [done|]. intros <-. apply Hr. by eapply (hw_inj _ Hwf).
Qed.

Lemma state_at_clients h r l u c :
  hub_wf h -> h_rooms h !! r = Some l -> rs_clients (state_at l h) !! u = Some c ->
  exists k, h_clients h !! c = Some k /\ c_user k = u /\ c_roomID k = r.
Proof.
  intros Hwf Hl. destruct (hw_rooms _ Hwf _ _ Hl) as [rs Hrs]. unfold state_at. rewrite Hrs. simpl.
  by eapply hw_owner.
Qed.
