(* ===== verification/Presence.v ===== *)
(** * What the hub promises: who is present where

    The abstract hub: the current socket of each (room, user), the raised
    emergencies and the last locations, without rooms, pointers or locks.
    [hub_refines] shows that the hub implements it. *)
From stdpp Require Import base gmap sets list strings.
From Stdlib Require Import ZArith Lia.
From S2P Require Import Prelude.
From S2P Require Import Types.
From S2P Require Import Messages.
From S2P Require Import Client.
From S2P Require Import Hub.
From S2P Require Import HubFacts.

Record presence := mkPresence {
  p_current : gmap (uuid * uuid) cid;
  p_emergency : gset (uuid * uuid);
  p_location : gmap (uuid * uuid) LocationEvent;
}.

Definition nobody : presence := mkPresence ∅ ∅ ∅.

(** No socket is open on the room. *)
Definition deserted (r : uuid) (p : presence) : Prop :=
  map_Forall (fun k _ => k.1 <> r) (p_current p).

#[export] Instance deserted_dec r p : Decision (deserted r p).
Proof. unfold deserted. apply _. Defined.

(** A deserted room forgets its emergencies and locations. *)
Definition forget (r : uuid) (p : presence) : presence :=
  if decide (deserted r p) then
    mkPresence (p_current p) (filter (fun k => k.1 <> r) (p_emergency p))
      (filter (fun kv => kv.1.1 <> r) (p_location p))
  else p.

Definition p_join (r u : uuid) (c : cid) (p : presence) : bool * presence :=
  (bool_decide (p_current p !! (r, u) = None),
   mkPresence (<[(r, u) := c]> (p_current p)) (p_emergency p) (p_location p)).

Definition p_leave (r u : uuid) (c : cid) (p : presence) : bool * bool * presence :=
  if decide (p_current p !! (r, u) = Some c) then
    (true, bool_decide ((r, u) ∈ p_emergency p),
     forget r (mkPresence (delete (r, u) (p_current p)) (p_emergency p ∖ {[(r, u)]})
                 (delete (r, u) (p_location p))))
  else (false, false, forget r p).

Definition p_emergency_set (r u : uuid) (active : bool) (p : presence) : bool * presence :=
  let raised := bool_decide ((r, u) ∈ p_emergency p) in
  (xorb active raised,
   mkPresence (p_current p)
     (if active then {[(r, u)]} ∪ p_emergency p else p_emergency p ∖ {[(r, u)]}) (p_location p)).

Definition p_locate (r : uuid) (ev : LocationEvent) (p : presence) : presence :=
  mkPresence (p_current p) (p_emergency p) (<[(r, LE_UserID ev) := ev]> (p_location p)).

(** ** The operations of the hub, as a sequence of calls *)

Inductive hub_op :=
| OpNewClient (user room : uuid)
| OpJoin (room user : uuid) (c : cid)
| OpLeave (room user : uuid) (c : cid)
| OpEmergency (room user : uuid) (active : bool)
| OpLocation (room : uuid) (ev : LocationEvent)
| OpBroadcast (room : uuid) (t : string) (p : payload) (exclude : option uuid)
| OpSendTo (c : cid) (t : string) (p : option payload)
| OpKickConnection (room user by_ : uuid)
| OpDisconnect (room user : uuid)
| OpRoomEnded (room : uuid).

Definition hub_exec (op : hub_op) (h : Hub) : bool * bool * Hub :=
  match op with
  | OpNewClient u r => (false, false, (alloc_client u r h).2)
  | OpJoin r _ c => let '(b, h') := join r c h in (b, false, h')
  | OpLeave r _ c => leave r c h
  | OpEmergency r u a => let '(b, h') := SetEmergency r u a h in (b, false, h')
  | OpLocation r ev => (false, false, recordLocation r ev h)
  | OpBroadcast r t p ex => (false, false, broadcast r t p ex h)
  | OpSendTo c t p => (false, false, sendTo c t p h)
  | OpKickConnection r u b => (false, false, KickConnection r u b h)
  | OpDisconnect r u => (false, false, DisconnectUser r u h)
  | OpRoomEnded r => (false, false, BroadcastRoomEnded r h)
  end.

Definition presence_exec (op : hub_op) (p : presence) : bool * bool * presence :=
  match op with
  | OpJoin r u c => let '(b, p') := p_join r u c p in (b, false, p')
  | OpLeave r u c => p_leave r u c p
  | OpEmergency r u a => let '(b, p') := p_emergency_set r u a p in (b, false, p')
  | OpLocation r ev => (false, false, p_locate r ev p)
  | _ => (false, false, p)
  end.

(** A socket joins and leaves the room it was opened for, as its user. *)
Definition op_ok (op : hub_op) (h : Hub) : bool :=
  match op with
  | OpJoin r u c | OpLeave r u c =>
      match h_clients h !! c with
      | Some k => bool_decide (c_user k = u) && bool_decide (c_roomID k = r)
      | None => false
      end
  | _ => true
  end.

Fixpoint hub_run (ops : list hub_op) (h : Hub) : list (bool * bool) * Hub :=
  match ops with
  | [] => ([], h)
  | op :: ops' =>
      let '(b1, b2, h') := hub_exec op h in
      let '(bs, h'') := hub_run ops' h' in ((b1, b2) :: bs, h'')
  end.

Fixpoint presence_run (ops : list hub_op) (p : presence) : list (bool * bool) * presence :=
  match ops with
  | [] => ([], p)
  | op :: ops' =>
      let '(b1, b2, p') := presence_exec op p in
      let '(bs, p'') := presence_run ops' p' in ((b1, b2) :: bs, p'')
  end.

Fixpoint ops_ok (ops : list hub_op) (h : Hub) : bool :=
  match ops with
  | [] => true
  | op :: ops' => op_ok op h && ops_ok ops' (hub_exec op h).2
  end.

(** ** The simulation *)

Definition emergency_of (r u : uuid) (h : Hub) : bool :=
  match room_state r h with Some rs => bool_decide (u ∈ rs_emergencies rs) | None => false end.

Definition location_of (r u : uuid) (h : Hub) : option LocationEvent :=
  rs ← room_state r h; rs_locations rs !! u.

Record refines (h : Hub) (p : presence) : Prop := {
  rf_current : forall r u, p_current p !! (r, u) = client_of r u h;
  rf_emergency : forall r u, bool_decide ((r, u) ∈ p_emergency p) = emergency_of r u h;
  rf_location : forall r u, p_location p !! (r, u) = location_of r u h;
}.

Lemma NewHub_refines : refines NewHub nobody.
Proof. split; intros; reflexivity. Qed.

(** The relation only looks at the rooms' states. *)
Lemma refines_view h h' p :
  (forall r, room_state r h' = room_state r h) -> refines h p -> refines h' p.
Proof.
  intros Hv [H1 H2 H3]. split; intros r u.
  - rewrite H1. unfold client_of. by rewrite Hv.
  - rewrite H2. unfold emergency_of. by rewrite Hv.
  - rewrite H3. unfold location_of. by rewrite Hv.
Qed.

(** The state of a room, where no state is an empty one. *)
Definition view (r : uuid) (h : Hub) : roomState := default newRoomState (room_state r h).

Lemma refines_alt h p :
  refines h p <->
  forall r u, p_current p !! (r, u) = rs_clients (view r h) !! u /\
    ((r, u) ∈ p_emergency p <-> u ∈ rs_emergencies (view r h)) /\
    p_location p !! (r, u) = rs_locations (view r h) !! u.
Proof.
  unfold view. split.
  - intros [H1 H2 H3] r u. specialize (H1 r u). specialize (H2 r u). specialize (H3 r u).
    unfold client_of, emergency_of, location_of in *.
    destruct (room_state r h) as [rs|]; simpl in *.
    + split; [done|]. split; [|done]. repeat case_bool_decide; try done; tauto.
    + split; [done|]. split; [|done]. apply bool_decide_eq_false in H2. by rewrite elem_of_empty.
  - intros Hp. split; intros r u; destruct (Hp r u) as (H1 & H2 & H3).
    + rewrite H1. unfold client_of. by destruct (room_state r h).
    + unfold emergency_of. destruct (room_state r h) as [rs|]; simpl in *.
      * by apply bool_decide_ext.
      * apply bool_decide_eq_false. intros Hin. apply H2 in Hin. by apply not_elem_of_empty in Hin.
    + rewrite H3. unfold location_of. by destruct (room_state r h).
Qed.

Lemma roomFor_view r h :
  hub_wf h ->
  exists l h', roomFor r true h = (Some l, h') /\ hub_wf h' /\ h_rooms h' !! r = Some l /\
    h_clients h' = h_clients h /\ state_at l h' = view r h /\ (forall r', view r' h' = view r' h).
Proof.
  intros Hwf. destruct (roomFor_spec r h Hwf) as (l & h' & Hrun & Hwf' & Hl & Hc & Hs & Hv).
  exists l, h'. split; [done|]. split; [done|]. split; [done|]. split; [done|]. split; [done|].
  intros r'. unfold view. destruct (decide (r' = r)) as [->|Hne]; [|by rewrite Hv].
  unfold room_state at 1. by rewrite Hl.
Qed.

Lemma set_state_views r l rs h r' :
  hub_wf h -> h_rooms h !! r = Some l ->
  view r' (set_state l rs h) = if decide (r' = r) then rs else view r' h.
Proof.
  intros Hwf Hl. unfold view. rewrite (set_state_view r) by done. by case_decide.
Qed.

(** Which operations leave every room as it is. *)
Lemma refines_silent h h' p : (forall r, view r h' = view r h) -> refines h p -> refines h' p.
Proof. intros Hv. rewrite !refines_alt. intros Hp r u. rewrite Hv. apply Hp. Qed.

Lemma client_user_known h c k : h_clients h !! c = Some k -> client_user c h = c_user k.
Proof. unfold client_user. by intros ->. Qed.

(** A step that replaces the state of room [r]. *)
Lemma refines_set r l rs h p p' :
  hub_wf h -> h_rooms h !! r = Some l -> refines h p ->
  (forall r' u, r' <> r ->
     p_current p' !! (r', u) = p_current p !! (r', u) /\
     ((r', u) ∈ p_emergency p' <-> (r', u) ∈ p_emergency p) /\
     p_location p' !! (r', u) = p_location p !! (r', u)) ->
  (forall u, p_current p' !! (r, u) = rs_clients rs !! u /\
     ((r, u) ∈ p_emergency p' <-> u ∈ rs_emergencies rs) /\
     p_location p' !! (r, u) = rs_locations rs !! u) ->
  refines (set_state l rs h) p'.
Proof.
  intros Hwf Hl Hp Hother Hroom. rewrite refines_alt in *. intros r' u.
  rewrite (set_state_views r) by done. case_decide as Hr; [subst r'; apply Hroom|].
  destruct (Hother r' u Hr) as (-> & -> & ->). apply Hp.
Qed.

Lemma state_at_view r l h : h_rooms h !! r = Some l -> state_at l h = view r h.
Proof. intros Hl. unfold view, room_state. by rewrite Hl. Qed.

(** The client object behind [c] is user [u]'s socket in room [r]. *)
Definition socket_of (r u : uuid) (c : cid) (h : Hub) : Prop :=
  exists k, h_clients h !! c = Some k /\ c_user k = u /\ c_roomID k = r.

Lemma op_ok_socket r u c h : op_ok (OpJoin r u c) h = true -> socket_of r u c h.
Proof.
  simpl. unfold socket_of. destruct (h_clients h !! c) as [k|]; [|done].
  intros [?%bool_decide_eq_true ?%bool_decide_eq_true]%andb_true_iff. by exists k.
Qed.

Lemma socket_of_user r u c h : socket_of r u c h -> client_user c h = u.
Proof. unfold client_user. by intros (k & -> & Hu & _). Qed.

Lemma socket_of_upd r u c f d h : same_owner f -> socket_of r u c h -> socket_of r u c (upd_client f d h).
Proof.
  intros Hf (k & Hk & Hu & Hr). unfold socket_of. simpl. rewrite lookup_alter.
  case_decide as Hd; [subst d; rewrite Hk|by exists k]. exists (f k). by destruct (Hf k) as [-> ->].
Qed.

Lemma view_clients r l h u c :
  hub_wf h -> h_rooms h !! r = Some l -> rs_clients (view r h) !! u = Some c -> socket_of r u c h.
Proof. intros Hwf Hl. rewrite <-(state_at_view r l) by done. by apply state_at_clients. Qed.

Lemma set_joined r u c l h p :
  hub_wf h -> refines h p -> h_rooms h !! r = Some l -> socket_of r u c h ->
  let rs' := set_clients (<[u := c]> (rs_clients (view r h))) (view r h) in
  refines (set_state l rs' h) (p_join r u c p).2 /\ hub_wf (set_state l rs' h).
Proof.
  intros Hwf Hp Hl Hc rs'. split.
  - apply (refines_set r _ _ _ p); [done..| |]; simpl.
    + intros r' v Hne. by rewrite lookup_insert_ne by congruence.
    + rewrite refines_alt in Hp. intros v. destruct (Hp r v) as (H1 & H2 & H3).
      split; [|done]. rewrite !lookup_insert. destruct (decide (u = v)) as [->|Hne];
        [by rewrite decide_True|rewrite decide_False; [done|congruence]].
  - apply (set_state_wf r); [done..|]. intros v d. simpl. rewrite lookup_insert.
    case_decide; [subst v; by intros [= <-]|by apply (view_clients r l)].
Qed.

Lemma join_at_refines r u c l h p :
  hub_wf h -> refines h p -> h_rooms h !! r = Some l -> socket_of r u c h ->
  (join_at l c h).1 = (p_join r u c p).1 /\ refines (join_at l c h).2 (p_join r u c p).2 /\
  hub_wf (join_at l c h).2.
Proof.
  intros Hwf Hp Hl Hc. unfold join_at. rewrite (state_at_view r) by done. rewrite (socket_of_user r u) by done.
  assert (p_current p !! (r, u) = rs_clients (view r h) !! u) as Hcur.
  { rewrite refines_alt in Hp. by destruct (Hp r u). }
  cbn [p_join fst]. rewrite Hcur. destruct (rs_clients (view r h) !! u) as [d|]; simpl fst.
  - split; [by rewrite bool_decide_eq_false_2|].
    apply (set_joined r u c l (upd_client _ d h)); [|by apply (refines_silent h)|done|].
    + apply upd_client_wf; [apply close_owner|done].
    + apply socket_of_upd; [apply close_owner|done].
  - split; [by rewrite bool_decide_eq_true_2|]. by apply set_joined.
Qed.

Lemma join_refines r u c h p :
  hub_wf h -> refines h p -> socket_of r u c h ->
  (join r c h).1 = (p_join r u c p).1 /\ refines (join r c h).2 (p_join r u c p).2 /\ hub_wf (join r c h).2.
Proof.
  intros Hwf Hp Hc. destruct (roomFor_view r h Hwf) as (l & h1 & Hrun & Hwf1 & Hl & Hcs & _ & Hv).
  unfold join. rewrite Hrun. apply join_at_refines; [done|by eapply refines_silent|done|].
  unfold socket_of. by rewrite Hcs.
Qed.

(** ** Leaving *)

Lemma deserted_view r h p : refines h p -> deserted r p <-> rs_clients (view r h) = ∅.
Proof.
  rewrite refines_alt. intros Hp. split.
  - intros Hd. apply map_empty. intros u. destruct (Hp r u) as [<- _].
    destruct (p_current p !! (r, u)) as [c|] eqn:Hc; [|done]. by destruct (Hd _ _ Hc).
  - intros He [r' u] c Hc Hr. simpl in Hr. subst r'. destruct (Hp r u) as [Hcur _].
    rewrite Hc, He, lookup_empty in Hcur. done.
Qed.

Lemma forget_lookup r p r' u :
  p_current (forget r p) = p_current p /\
  ((r', u) ∈ p_emergency (forget r p) <-> (r', u) ∈ p_emergency p /\ ~ (r' = r /\ deserted r p)) /\
  p_location (forget r p) !! (r', u) =
    if decide (r' = r /\ deserted r p) then None else p_location p !! (r', u).
Proof.
  unfold forget. destruct (decide (deserted r p)) as [Hd|Hd]; simpl.
  - split; [done|]. split; [rewrite elem_of_filter; simpl; tauto|].
    case_decide as Hr.
    + apply map_lookup_filter_None. right. intros ev _. simpl. tauto.
    + destruct (p_location p !! (r', u)) as [ev|] eqn:He.
      * apply map_lookup_filter_Some. split; [done|]. simpl. tauto.
      * apply map_lookup_filter_None. by left.
  - split; [done|]. split; [tauto|]. rewrite decide_False by tauto. done.
Qed.

Lemma drop_if_empty_view r h r' :
  hub_wf h -> h_rooms h !! r <> None ->
  view r' (drop_if_empty r h) =
    if decide (r' = r /\ rs_clients (view r h) = ∅) then newRoomState else view r' h.
Proof.
  intros Hwf Hr. unfold drop_if_empty. destruct (h_rooms h !! r) as [l|] eqn:Hl; [|done].
  rewrite (state_at_view r) by done. case_bool_decide as He.
  - unfold view, room_state. simpl. rewrite lookup_delete. case_decide as Hd.
    + subst r'. by rewrite decide_True.
    + rewrite decide_False by (intros [-> _]; done). done.
  - rewrite decide_False by tauto. done.
Qed.

Lemma drop_if_empty_wf r h : hub_wf h -> hub_wf (drop_if_empty r h).
Proof.
  intros Hwf. unfold drop_if_empty. destruct (h_rooms h !! r) as [l|] eqn:Hl; [|done].
  case_bool_decide; [|done]. destruct Hwf as [H1 H2 H3 H4 H5]. split; simpl; try done.
  - intros r' l' [_ Hl']%lookup_delete_Some. by eapply H3.
  - intros r1 r2 l' [_ Hl1]%lookup_delete_Some [_ Hl2]%lookup_delete_Some. by eapply H4.
  - intros r' l' rs u c [_ Hl']%lookup_delete_Some. by apply H5.
Qed.

Lemma drop_refines r h p :
  hub_wf h -> refines h p -> h_rooms h !! r <> None -> refines (drop_if_empty r h) (forget r p).
Proof.
  intros Hwf Hp Hr. pose proof (deserted_view r h p Hp) as Hd. rewrite refines_alt in *. intros r' u.
  destruct (forget_lookup r p r' u) as (Hc & He & Hloc). rewrite Hc, He, Hloc, drop_if_empty_view by done.
  destruct (Hp r' u) as (H1 & H2 & H3).
  destruct (decide (r' = r /\ deserted r p)) as [[-> Hdes]|Hno].
  - rewrite decide_True by (split; [done|by apply Hd]). simpl. rewrite !lookup_empty.
    apply Hd in Hdes as Hempty. rewrite H1, Hempty, lookup_empty.
    split; [done|]. split; [|done]. rewrite elem_of_empty. tauto.
  - rewrite decide_False by (rewrite <-Hd; tauto). split; [done|]. split; [|done]. tauto.
Qed.

(** A leave that finds the room without clients would forget what is
    forgotten; one that finds clients does not look again. *)
Lemma forget_kept r h p : refines h p -> rs_clients (view r h) <> ∅ -> forget r p = p.
Proof.
  intros Hp Hne. unfold forget. rewrite decide_False; [done|]. by rewrite deserted_view.
Qed.

Lemma forget_missing r h p : refines h p -> h_rooms h !! r = None -> refines h (forget r p).
Proof.
  intros Hp Hr. rewrite refines_alt in *. intros r' u.
  destruct (forget_lookup r p r' u) as (-> & -> & ->). destruct (Hp r' u) as (H1 & H2 & H3).
  destruct (decide (r' = r /\ deserted r p)) as [[-> Hd]|Hno]; [|split; [done|]; split; [tauto|done]].
  assert (view r h = newRoomState) as Hv by (unfold view, room_state; by rewrite Hr).
  rewrite Hv in *. simpl in *. split; [done|]. rewrite elem_of_empty in *. split; [tauto|].
  by rewrite lookup_empty.
Qed.

(** [leave]'s first section, when the socket is the current one. *)
Lemma set_left r u l h p :
  hub_wf h -> refines h p -> h_rooms h !! r = Some l ->
  let rs' := mkRoomState (delete u (rs_clients (view r h))) (delete u (rs_locations (view r h)))
               (rs_emergencies (view r h) ∖ {[u]}) in
  refines (set_state l rs' h)
    (mkPresence (delete (r, u) (p_current p)) (p_emergency p ∖ {[(r, u)]}) (delete (r, u) (p_location p))) /\
  hub_wf (set_state l rs' h).
Proof.
  intros Hwf Hp Hl rs'. split.
  - apply (refines_set r _ _ _ p); [done..| |]; simpl.
    + intros r' v Hne. rewrite !lookup_delete_ne by congruence. split; [done|]. split; [|done].
      rewrite elem_of_difference, elem_of_singleton. split; [tauto|]. intros Hin. split; [done|]. congruence.
    + rewrite refines_alt in Hp. intros v. destruct (Hp r v) as (H1 & H2 & H3).
      rewrite !elem_of_difference, !elem_of_singleton, H2, !lookup_delete, H1, H3.
      assert ((r, v) = (r, u) <-> v = u) as -> by (split; congruence). split; [|split; [done|]];
        (destruct (decide (u = v)) as [->|Hne]; [by rewrite decide_True|by rewrite decide_False by congruence]).
  - apply (set_state_wf r); [done..|]. intros v d Hd. simpl in Hd. apply lookup_delete_Some in Hd as [_ Hd]. by apply (view_clients r l).
Qed.

Lemma leave_refines r u c h p :
  hub_wf h -> refines h p -> socket_of r u c h ->
  (leave r c h).1 = (p_leave r u c p).1 /\ refines (leave r c h).2 (p_leave r u c p).2 /\
  hub_wf (leave r c h).2.
Proof.
  intros Hwf Hp Hc. unfold leave, roomFor, p_leave.
  assert (p_current p !! (r, u) = rs_clients (view r h) !! u /\
          bool_decide ((r, u) ∈ p_emergency p) = bool_decide (u ∈ rs_emergencies (view r h))) as [Hcur Hem].
  { rewrite refines_alt in Hp. destruct (Hp r u) as (? & ? & _). by split; [|apply bool_decide_ext]. }
  rewrite Hcur, Hem. destruct (h_rooms h !! r) as [l|] eqn:Hl.
  2:{ assert (view r h = newRoomState) as Hv by (unfold view, room_state; by rewrite Hl).
      rewrite Hv. simpl. rewrite lookup_empty. rewrite decide_False by done. split; [done|].
      split; [by apply forget_missing|done]. }
  unfold leave_at. rewrite (state_at_view r) by done. rewrite (socket_of_user r u) by done.
  destruct (decide (rs_clients (view r h) !! u = Some c)) as [Hc'|Hc'].
  - rewrite bool_decide_eq_true_2 by done. simpl. split; [done|].
    destruct (set_left r u l h p Hwf Hp Hl) as [Hp' Hwf'].
    set (rs' := mkRoomState _ _ _) in *. set (p' := mkPresence _ _ _) in *.
    assert (view r (set_state l rs' h) = rs') as Hv by (rewrite (set_state_views r), decide_True by done; done).
    destruct (decide (delete u (rs_clients (view r h)) = ∅)) as [He|He].
    + rewrite (bool_decide_eq_true_2 _ He). split; [|by apply drop_if_empty_wf].
      apply drop_refines; [done..|]. simpl. by rewrite Hl.
    + rewrite (bool_decide_eq_false_2 _ He). rewrite (forget_kept r (set_state l rs' h)); [done..|]. by rewrite Hv.
  - rewrite bool_decide_eq_false_2 by done. simpl. split; [done|].
    destruct (decide (rs_clients (view r h) = ∅)) as [He|He];
      [rewrite (bool_decide_eq_true_2 _ He)|rewrite (bool_decide_eq_false_2 _ He)].
    + split; [|by apply drop_if_empty_wf]. apply drop_refines; [done..|]. by rewrite Hl.
    + rewrite (forget_kept r h); done.
Qed.

(** ** Emergencies and locations *)

Lemma set_emergency_refines r u active h p :
  hub_wf h -> refines h p ->
  (SetEmergency r u active h).1 = (p_emergency_set r u active p).1 /\
  refines (SetEmergency r u active h).2 (p_emergency_set r u active p).2 /\ hub_wf (SetEmergency r u active h).2.
Proof.
  intros Hwf Hp. destruct (roomFor_view r h Hwf) as (l & h1 & Hrun & Hwf1 & Hl & _ & _ & Hv).
  unfold SetEmergency. rewrite Hrun. apply (refines_silent h h1) in Hp; [|done]. clear h Hwf Hrun Hv.
  rewrite (state_at_view r) by done.
  assert (bool_decide ((r, u) ∈ p_emergency p) = bool_decide (u ∈ rs_emergencies (view r h1))) as Hem.
  { rewrite refines_alt in Hp. destruct (Hp r u) as (? & ? & _). by apply bool_decide_ext. }
  unfold p_emergency_set. rewrite Hem. cbn [fst snd].
  assert (forall em em', (forall r' v, r' <> r -> (r', v) ∈ em' <-> (r', v) ∈ p_emergency p) ->
            (forall v, (r, v) ∈ em' <-> v ∈ em) ->
            let rs' := mkRoomState (rs_clients (view r h1)) (rs_locations (view r h1)) em in
            refines (set_state l rs' h1) (mkPresence (p_current p) em' (p_location p)) /\
            hub_wf (set_state l rs' h1)) as Hset.
  { intros em em' Ho Hr rs'. split.
    - apply (refines_set r _ _ _ p); [done..| |]; simpl.
      + intros r' v Hne. split; [done|]. split; [by apply Ho|done].
      + intros v. rewrite refines_alt in Hp. destruct (Hp r v) as (? & _ & ?). by rewrite Hr.
    - apply (set_state_wf r); [done..|]. intros v d. by apply (view_clients r l). }
  assert (forall v, (r, v) ∈ p_emergency p <-> v ∈ rs_emergencies (view r h1)) as Hv.
  { rewrite refines_alt in Hp. intros v. by destruct (Hp r v) as (_ & ? & _). }
  assert (forall em', (forall r' v, (r', v) ∈ em' <-> (r', v) ∈ p_emergency p) ->
            refines h1 (mkPresence (p_current p) em' (p_location p))) as Hsame.
  { intros em' He. rewrite refines_alt in *. intros r' v. destruct (Hp r' v) as (? & ? & ?).
    simpl. by rewrite He. }
  destruct active, (decide (u ∈ rs_emergencies (view r h1))) as [Hin|Hin];
    rewrite ?(bool_decide_eq_true_2 _ Hin), ?(bool_decide_eq_false_2 _ Hin); simpl; (split; [done|]).
  - split; [|done]. apply Hsame. intros r' v. rewrite elem_of_union, elem_of_singleton. split; [|by right].
    intros [[= -> ->]|]; [by apply Hv|done].
  - apply Hset.
    + intros r' v Hne. rewrite elem_of_union, elem_of_singleton. split; [|by right]. by intros [[= -> ->]|].
    + intros v. rewrite !elem_of_union, !elem_of_singleton, Hv.
      by assert ((r, v) = (r, u) <-> v = u) as -> by (split; congruence).
  - apply Hset.
    + intros r' v Hne. rewrite elem_of_difference, elem_of_singleton. split; [tauto|].
      intros Hr'. split; [done|congruence].
    + intros v. rewrite !elem_of_difference, !elem_of_singleton, Hv.
      by assert ((r, v) = (r, u) <-> v = u) as -> by (split; congruence).
  - split; [|done]. apply Hsame. intros r' v. rewrite elem_of_difference, elem_of_singleton.
    split; [tauto|]. intros Hr'. split; [done|]. intros [= -> ->]. by apply Hin, Hv.
Qed.

Lemma recordLocation_refines r ev h p :
  hub_wf h -> refines h p ->
  refines (recordLocation r ev h) (p_locate r ev p) /\ hub_wf (recordLocation r ev h).
Proof.
  intros Hwf Hp. destruct (roomFor_view r h Hwf) as (l & h1 & Hrun & Hwf1 & Hl & _ & _ & Hv).
  unfold recordLocation. rewrite Hrun. apply (refines_silent h h1) in Hp; [|done].
  rewrite (state_at_view r) by done. split.
  - apply (refines_set r _ _ _ p); [done..| |]; simpl.
    + intros r' v Hne. by rewrite lookup_insert_ne by congruence.
    + intros v. rewrite refines_alt in Hp. destruct (Hp r v) as (? & ? & H3). split; [done|]. split; [done|].
      rewrite !lookup_insert. destruct (decide (LE_UserID ev = v)) as [->|Hne];
        [by rewrite decide_True|rewrite decide_False; [done|congruence]].
  - apply (set_state_wf r); [done..|]. intros v d. by apply (view_clients r l).
Qed.
