(* ===== verification/HubProps.v ===== *)
(** * What the hub guarantees

    The refinement of [Presence], the reach of a broadcast, and the terminal
    frames of a kick and of the end of a room. *)
From stdpp Require Import base gmap sets list strings.
From Stdlib Require Import ZArith Lia.
From S2P Require Import Prelude.
From S2P Require Import Types.
From S2P Require Import Messages.
From S2P Require Import Client.
From S2P Require Import ClientProps.
From S2P Require Import Hub.
From S2P Require Import HubFacts.
From S2P Require Import Presence.

(** ** Refinement *)

Lemma alloc_wf u r h : hub_wf h -> hub_wf (alloc_client u r h).2.
Proof.
  intros [H1 H2 H3 H4 H5]. split; simpl; try done.
  - intros l Hl%H1. lia.
  - intros c. rewrite lookup_insert. case_decide; [lia|]. intros Hc%H2. lia.
  - intros r' l rs v c Hl Hs Hc. destruct (H5 r' l rs v c Hl Hs Hc) as (k & Hk & Hu & Hr).
    rewrite lookup_insert_ne; [by exists k|]. intros <-. assert (h_next h < h_next h)%N; [|lia].
    apply H2. by eexists.
Qed.

(** The operations that leave every room's state alone. *)
Definition quiet_op (op : hub_op) : bool :=
  match op with OpJoin _ _ _ | OpLeave _ _ _ | OpEmergency _ _ _ | OpLocation _ _ => false | _ => true end.

Lemma KickConnection_wf r u b h : hub_wf h -> hub_wf (KickConnection r u b h).
Proof.
  intros Hwf. unfold KickConnection. destruct (client_of _ _ _); [|by apply broadcast_wf].
  apply upd_client_wf; [apply close_owner|]. by apply sendTo_wf, broadcast_wf.
Qed.

Lemma KickConnection_view r u b h r' : room_state r' (KickConnection r u b h) = room_state r' h.
Proof.
  unfold KickConnection. destruct (client_of _ _ _); [|by rewrite broadcast_view].
  by rewrite upd_client_view, sendTo_view, broadcast_view.
Qed.

Lemma quiet_exec op h :
  quiet_op op = true -> hub_wf h ->
  (hub_exec op h).1 = (false, false) /\ hub_wf (hub_exec op h).2 /\
  forall r, view r (hub_exec op h).2 = view r h.
Proof.
  intros Hq Hwf. unfold view. destruct op; try done; simpl; (split; [done|]).
  - split; [by apply (alloc_wf user room h)|done].
  - split; [by apply broadcast_wf|]. intros r. by rewrite broadcast_view.
  - split; [by apply sendTo_wf|]. intros r. by rewrite sendTo_view.
  - split; [by apply KickConnection_wf|]. intros r. by rewrite KickConnection_view.
  - unfold DisconnectUser. destruct (client_of _ _ _); [|done].
    split; [by apply upd_client_wf; [apply close_owner|]|done].
  - unfold BroadcastRoomEnded. destruct (room_state room h) as [rs|]; [|done]. split.
    + apply foldl_upd_wf; [intros; by apply upd_client_wf; [apply close_owner|]|].
      apply foldl_upd_wf; [intros; by apply sendTo_wf|done].
    + intros r. rewrite foldl_upd_view by done. by rewrite foldl_upd_view by (intros; apply sendTo_view).
Qed.

Lemma hub_step_refines op h p :
  hub_wf h -> refines h p -> op_ok op h = true ->
  (hub_exec op h).1 = (presence_exec op p).1 /\ refines (hub_exec op h).2 (presence_exec op p).2 /\
  hub_wf (hub_exec op h).2.
Proof.
  intros Hwf Hp Hok. destruct (quiet_op op) eqn:Hq.
  - destruct (quiet_exec op h Hq Hwf) as (Hr & Hwf' & Hv). rewrite Hr.
    assert (presence_exec op p = (false, false, p)) as -> by by destruct op.
    split; [done|]. split; [by apply (refines_silent h)|done].
  - destruct op as [|r u c|r u c|r u a|r ev| | | | |]; try done; cbn [hub_exec presence_exec].
    + pose proof (join_refines r u c h p Hwf Hp (op_ok_socket _ _ _ _ Hok)) as (H1 & H2 & H3).
      destruct (join r c h) as [b h'], (p_join r u c p) as [b' p']. simpl in *. by rewrite H1.
    + by apply leave_refines; [..|apply op_ok_socket].
    + pose proof (set_emergency_refines r u a h p Hwf Hp) as (H1 & H2 & H3).
      destruct (SetEmergency r u a h) as [b h'], (p_emergency_set r u a p) as [b' p']. simpl in *. by rewrite H1.
    + split; [done|]. by apply recordLocation_refines.
Qed.

Lemma hub_run_refines ops h p :
  hub_wf h -> refines h p -> ops_ok ops h = true ->
  let '(bs, h') := hub_run ops h in
  let '(bs', p') := presence_run ops p in
  bs = bs' /\ refines h' p' /\ hub_wf h'.
Proof.
  revert h p. induction ops as [|op ops IH]; intros h p Hwf Hp Hok; simpl in *; [done|].
  apply andb_true_iff in Hok as [Hok Hoks].
  destruct (hub_step_refines op h p Hwf Hp Hok) as (H1 & H2 & H3).
  destruct (hub_exec op h) as [[b1 b2] h1], (presence_exec op p) as [[d1 d2] p1]. simpl in *.
  specialize (IH h1 p1 H3 H2 Hoks). destruct (hub_run ops h1), (presence_run ops p1).
  destruct IH as (-> & ? & ?). by injection H1 as -> ->.
Qed.

(** A hub that a sequence of calls leaves is well-formed. *)
Lemma hub_run_wf ops : ops_ok ops NewHub = true -> hub_wf (hub_run ops NewHub).2.
Proof.
  intros Hok. pose proof (hub_run_refines ops _ _ NewHub_wf NewHub_refines Hok) as Hrun.
  destruct (hub_run ops NewHub), (presence_run ops nobody). apply Hrun.
Qed.

(** C8 The hub implements the abstract presence: for every sequence of joins,
    leaves, emergency and location reports, broadcasts, kicks and room ends in
    which sockets join and leave the room they were opened for, every call
    answers what the abstract one answers, and in the end the hub holds the
    same current sockets, emergencies and locations, its pointers intact. *)
Theorem hub_refines ops :
  ops_ok ops NewHub = true ->
  let '(bs, h) := hub_run ops NewHub in
  let '(bs', p) := presence_run ops nobody in
  bs = bs' /\ refines h p /\ hub_wf h.
Proof. apply hub_run_refines; [apply NewHub_wf|apply NewHub_refines]. Qed.

(** Ada and Bob on room 7, Bob's second phone, an emergency, and the leaves. *)
Definition busy_ops : list hub_op :=
  [OpNewClient 1 7; OpJoin 7 1 0; OpNewClient 2 7; OpJoin 7 2 2; OpEmergency 7 2 true;
   OpNewClient 2 7; OpJoin 7 2 3; OpLeave 7 2 2; OpLeave 7 2 3; OpKickConnection 7 1 2; OpLeave 7 1 0].

Lemma hub_refines_witness :
  ops_ok busy_ops NewHub = true /\
  let '(bs, h) := hub_run busy_ops NewHub in
  let '(bs', p) := presence_run busy_ops nobody in
  bs = bs' /\ refines h p /\ hub_wf h.
Proof.
  assert (ops_ok busy_ops NewHub = true) as Hok by (vm_compute; reflexivity).
  split; [exact Hok|exact (hub_refines busy_ops Hok)].
Defined.

Example busy_answers :
  (hub_run busy_ops NewHub).1 =
    [(false, false); (true, false); (false, false); (true, false); (true, false);
     (false, false); (false, false); (false, false); (true, true); (false, false); (true, false)].
Proof. vm_compute. reflexivity. Qed.

(** ** The reach of a broadcast *)

(** The client is the current socket of a user of the room, not excluded. *)
Definition reaches (r : uuid) (ex : option uuid) (c : cid) (h : Hub) : bool :=
  match h_clients h !! c with
  | Some k => bool_decide (client_of r (c_user k) h = Some c) && bool_decide (ex <> Some (c_user k))
  | None => false
  end.

Lemma upd_all_lookup (f : cid -> client -> client) cs h c :
  NoDup cs ->
  h_clients (foldl (fun h c => upd_client (f c) c h) h cs) !! c =
    (if bool_decide (c ∈ cs) then f c else id) <$> h_clients h !! c.
Proof.
  intros Hnd. revert h. induction Hnd as [|d cs Hd Hnd IH]; intros h; simpl.
  { rewrite option_fmap_id. done. }
  rewrite IH. simpl. rewrite lookup_alter. destruct (decide (d = c)) as [->|Hne].
  - rewrite (bool_decide_eq_false_2 _ Hd), bool_decide_eq_true_2 by apply list_elem_of_here.
    by rewrite option_fmap_id.
  - f_equal. rewrite (bool_decide_ext (c ∈ d :: cs) (c ∈ cs)); [done|]. rewrite elem_of_cons.
    split; [by intros [->|]|by right].
Qed.

Lemma upd_all_rooms (f : cid -> client -> client) cs h :
  let h' := foldl (fun h c => upd_client (f c) c h) h cs in
  h_rooms h' = h_rooms h /\ h_states h' = h_states h /\ h_next h' = h_next h.
Proof. revert h. induction cs as [|c cs IH]; intros h; simpl; [done|]. apply (IH (upd_client (f c) c h)). Qed.

Lemma targets_in h r rs ex c :
  hub_wf h -> room_state r h = Some rs ->
  c ∈ targets rs ex <-> reaches r ex c h = true.
Proof.
  intros Hwf Hrs. unfold targets, reaches. rewrite list_elem_of_fmap.
  assert (forall u, client_of r u h = rs_clients rs !! u) as Hco by (intros u; unfold client_of; by rewrite Hrs).
  split.
  - intros ([u d] & -> & Hin). apply list_elem_of_filter in Hin as [Hex Hin]. simpl in *.
    apply elem_of_map_to_list in Hin. rewrite <-Hco in Hin.
    destruct (client_of_spec _ _ _ _ Hwf Hin) as (k & -> & Hu & _). rewrite Hu.
    by rewrite !bool_decide_eq_true_2.
  - destruct (h_clients h !! c) as [k|]; [|done].
    intros [Hc%bool_decide_eq_true Hex%bool_decide_eq_true]%andb_true_iff.
    exists (c_user k, c). split; [done|]. apply list_elem_of_filter. split; [done|].
    by rewrite elem_of_map_to_list, <-Hco.
Qed.

Lemma targets_nodup h r rs ex : hub_wf h -> room_state r h = Some rs -> NoDup (targets rs ex).
Proof.
  intros Hwf Hrs. unfold targets. apply NoDup_fmap_2_strong; [|apply NoDup_filter, NoDup_map_to_list].
  intros [u1 c1] [u2 c2] H1 H2. apply list_elem_of_filter in H1 as [_ H1], H2 as [_ H2]. simpl.
  apply elem_of_map_to_list in H1, H2. intros <-.
  assert (client_of r u1 h = Some c1 /\ client_of r u2 h = Some c1) as [E1 E2]
    by (unfold client_of; by rewrite Hrs).
  by destruct (client_of_inj _ _ _ _ _ _ Hwf E1 E2) as [_ ->].
Qed.

Lemma broadcast_clients r t p ex h c :
  hub_wf h ->
  h_clients (broadcast r t p ex h) !! c =
    (fun k => match pack t (Some p) with
              | Some data => if reaches r ex c h then enqueue data k else k
              | None => k
              end) <$> h_clients h !! c.
Proof.
  intros Hwf. unfold broadcast. destruct (room_state r h) as [rs|] eqn:Hrs.
  - destruct (pack t (Some p)) as [data|]; [|by rewrite option_fmap_id].
    unfold enqueue_all. rewrite (upd_all_lookup (fun _ => enqueue data)) by by eapply targets_nodup.
    rewrite (bool_decide_ext _ _ (targets_in h r rs ex c Hwf Hrs)).
    by destruct (reaches r ex c h).
  - destruct (pack t (Some p)) as [data|]; [|by rewrite option_fmap_id].
    assert (reaches r ex c h = false) as ->; [|by rewrite option_fmap_id].
    unfold reaches, client_of. rewrite Hrs. by destruct (h_clients h !! c).
Qed.

(** C23 A broadcast reaches the current socket of every user of the room but
    the excluded one, once, and touches no other client and no room; the order
    in which the map is ranged over does not matter; a payload that cannot be
    marshalled reaches nobody. *)
Theorem broadcast_reaches r t p ex h :
  hub_wf h ->
  let h' := broadcast r t p ex h in
  (forall c, h_clients h' !! c =
     (fun k => match pack t (Some p) with
               | Some data => if reaches r ex c h then enqueue data k else k
               | None => k
               end) <$> h_clients h !! c) /\
  h_rooms h' = h_rooms h /\ h_states h' = h_states h /\
  forall rs data cs, room_state r h = Some rs -> pack t (Some p) = Some data ->
    cs ≡ₚ targets rs ex -> enqueue_all data cs h = h'.
Proof.
  intros Hwf h'. split; [intros c; by apply broadcast_clients|].
  assert (h_rooms h' = h_rooms h /\ h_states h' = h_states h /\ h_next h' = h_next h) as (Hr & Hs & Hn).
  { unfold h', broadcast. destruct (room_state r h); [|done]. destruct (pack t _) as [data|]; [|done].
    apply (upd_all_rooms (fun _ => enqueue data)). }
  split; [done|]. split; [done|]. intros rs data cs Hrs Hpack Hp.
  assert (NoDup cs) as Hnd by (rewrite Hp; by eapply targets_nodup).
  destruct (upd_all_rooms (fun _ => enqueue data) cs h) as (Hr' & Hs' & Hn').
  fold (enqueue_all data cs h) in Hr', Hs', Hn'.
  assert (h_clients (enqueue_all data cs h) = h_clients h') as Hc.
  { apply map_eq. intros c. unfold enqueue_all. rewrite (upd_all_lookup (fun _ => enqueue data)) by done.
    unfold h'. rewrite broadcast_clients, Hpack by done.
    assert (c ∈ cs <-> reaches r ex c h = true) as Hin by (rewrite Hp; by apply targets_in).
    rewrite (bool_decide_ext _ _ Hin). by destruct (reaches r ex c h). }
  clear Hp Hnd. destruct (enqueue_all data cs h), h'. simpl in *. congruence.
Qed.

(** Ada (socket 0) and Bob (socket 2) are in room 7; Carol's socket 3 is in
    room 8. *)
Definition two_rooms : Hub :=
  (hub_run [OpNewClient 1 7; OpJoin 7 1 0; OpNewClient 2 7; OpJoin 7 2 2;
            OpNewClient 3 8; OpJoin 8 3 3] NewHub).2.

Lemma two_rooms_wf : hub_wf two_rooms.
Proof. by apply hub_run_wf. Qed.

Lemma broadcast_reaches_witness :
  let h' := broadcast 7 MsgMemberAbsent (MemberAbsentP 2) (Some 2%N) two_rooms in
  (c_send <$> h_clients h' !! 0%N, c_send <$> h_clients h' !! 2%N, c_send <$> h_clients h' !! 3%N) =
    (Some [mkEnvelope MsgMemberAbsent (Some (MemberAbsentP 2))], Some [], Some []).
Proof.
  pose proof (broadcast_reaches 7 MsgMemberAbsent (MemberAbsentP 2) (Some 2%N) two_rooms two_rooms_wf)
    as (Hc & _). cbv zeta. rewrite !Hc. vm_compute. reflexivity.
Defined.

(** ** Terminal frames *)

Definition kicked_frame (u by_ : uuid) : Envelope := mkEnvelope MsgKicked (Some (KickedP u by_)).
Definition ended_frame : Envelope := mkEnvelope MsgRoomEnded None.

Lemma client_of_broadcast r u r' t p ex h : client_of r u (broadcast r' t p ex h) = client_of r u h.
Proof. unfold client_of. by rewrite broadcast_view. Qed.

Lemma KickConnection_clients r u b h c :
  hub_wf h ->
  h_clients (KickConnection r u b h) !! c =
    (fun k => if bool_decide (client_of r u h = Some c)
              then close_ "kicked" (enqueue (kicked_frame u b) k)
              else if reaches r (Some u) c h then enqueue (kicked_frame u b) k else k) <$> h_clients h !! c.
Proof.
  intros Hwf. unfold KickConnection. rewrite client_of_broadcast.
  destruct (client_of r u h) as [d|] eqn:Hd.
  - unfold sendTo. cbn [pack json_payload]. fold (kicked_frame u b). simpl. rewrite !lookup_alter.
    rewrite !broadcast_clients by done. cbn [pack json_payload]. fold (kicked_frame u b).
    destruct (decide (d = c)) as [->|Hne].
    + rewrite bool_decide_eq_true_2 by done.
      assert (reaches r (Some u) c h = false) as ->.
      { destruct (client_of_spec _ _ _ _ Hwf Hd) as (k & Hk & Hu & _). unfold reaches. rewrite Hk, Hu.
        apply andb_false_iff. right. apply bool_decide_eq_false. by intros []. }
      rewrite decide_True by done. by destruct (h_clients h !! c).
    + rewrite bool_decide_eq_false_2 by congruence. done.
  - rewrite broadcast_clients by done. done.
Qed.

Lemma BroadcastRoomEnded_clients r h c :
  hub_wf h ->
  h_clients (BroadcastRoomEnded r h) !! c =
    (fun k => if reaches r None c h then close_ "room ended" (enqueue ended_frame k) else k) <$> h_clients h !! c.
Proof.
  intros Hwf. unfold BroadcastRoomEnded. destruct (room_state r h) as [rs|] eqn:Hrs.
  - assert ((map_to_list (rs_clients rs)).*2 = targets rs None) as ->.
    { unfold targets. f_equal. induction (map_to_list (rs_clients rs)) as [|p l IH]; [done|].
      by rewrite filter_cons_True, <-IH. }
    rewrite (upd_all_lookup (fun _ => close_ "room ended")) by by eapply targets_nodup.
    unfold sendTo. cbn [pack]. fold ended_frame.
    rewrite (upd_all_lookup (fun _ => enqueue ended_frame)) by by eapply targets_nodup.
    rewrite (bool_decide_ext _ _ (targets_in h r rs None c Hwf Hrs)).
    destruct (reaches r None c h), (h_clients h !! c); done.
  - assert (reaches r None c h = false) as ->; [|by rewrite option_fmap_id].
    unfold reaches, client_of. rewrite Hrs. by destruct (h_clients h !! c).
Qed.

(** A client closed right after a frame went into its queue. *)
Lemma farewell f reason k :
  length (c_send k) < sendBuffer -> c_closed k = false ->
  let k' := close_ reason (enqueue f k) in
  c_closed k' = true /\ c_reason k' = reason /\ c_send k' = c_send k ++ [f].
Proof.
  intros Hlen Hopen. unfold enqueue. destruct (Nat.ltb_spec (length (c_send k)) sendBuffer); [|lia].
  unfold close_. simpl. by rewrite Hopen.
Qed.

(** C20 Kicking a user's connection, and ending a room: the other members get
    the frame, and a target that was open with room in its queue is closed with
    that reason, the frame last in its queue; every run of its pump without a
    failure that stops has written the frame and kept the reason. *)
Theorem terminal_frames_delivered r u b h c k :
  hub_wf h -> h_clients h !! c = Some k -> length (c_send k) < 32 -> c_closed k = false ->
  let delivered f reason k' :=
    c_closed k' = true /\ c_reason k' = reason /\ c_send k' = c_send k ++ [f] /\
    forall out evs s', forallb calm evs = true ->
      socket_run evs (mkSocket k' Pumping out None) = Some s' -> k_pump s' = Stopped ->
      f ∈ k_out s' /\ c_reason (k_client s') = reason in
  (exists k', h_clients (KickConnection r u b h) !! c = Some k' /\
     (client_of r u h = Some c -> delivered (kicked_frame u b) "kicked" k') /\
     (client_of r u h <> Some c -> reaches r (Some u) c h = true -> k' = enqueue (kicked_frame u b) k) /\
     (client_of r u h <> Some c -> reaches r (Some u) c h = false -> k' = k)) /\
  exists k', h_clients (BroadcastRoomEnded r h) !! c = Some k' /\
     (client_of r (c_user k) h = Some c -> delivered ended_frame "room ended" k') /\
     (client_of r (c_user k) h <> Some c -> k' = k).
Proof.
  intros Hwf Hk Hlen Hopen delivered.
  assert (forall f reason, delivered f reason (close_ reason (enqueue f k))) as Hdel.
  { intros f reason. destruct (farewell f reason k Hlen Hopen) as (H1 & H2 & H3). split; [done|].
    split; [done|]. split; [done|]. intros out evs s' Hcalm Hrun Hstop.
    pose proof (closed_run evs (mkSocket _ _ _ _) s' H1 Hrun) as [_ Hreason]. simpl in Hreason.
    rewrite Hreason. split; [|done]. apply (pending_run f) in Hrun; [by destruct Hrun as [[_ []]|]|done|].
    left. simpl. rewrite H3. split; [apply elem_of_app; right; apply list_elem_of_here|done]. }
  split.
  - rewrite KickConnection_clients, Hk by done. simpl. eexists. split; [reflexivity|].
    case_bool_decide as Hc; [split; [intros _; apply Hdel|by split]|].
    split; [done|]. split; intros _ ->; done.
  - rewrite BroadcastRoomEnded_clients, Hk by done. simpl. eexists. split; [reflexivity|].
    unfold reaches. rewrite Hk. destruct (decide (client_of r (c_user k) h = Some c)) as [Hc|Hc].
    + rewrite !bool_decide_eq_true_2 by done. split; [intros _; apply Hdel|done].
    + rewrite bool_decide_eq_false_2 by done. done.
Qed.

(** Ada kicks Bob out of room 7; his pump then sees the close and drains. *)
Lemma terminal_frames_delivered_witness :
  exists k, h_clients (KickConnection 7 2 1 two_rooms) !! 2%N = Some k /\
    forall out evs s', forallb calm evs = true ->
      socket_run evs (mkSocket k Pumping out None) = Some s' -> k_pump s' = Stopped ->
      kicked_frame 2 1 ∈ k_out s' /\ c_reason (k_client s') = "kicked".
Proof.
  destruct (terminal_frames_delivered 7 2 1 two_rooms 2 (newClient 2 7) two_rooms_wf)
    as [(k & Hk & Hd & _) _]; [vm_compute; reflexivity|simpl; lia|reflexivity|].
  exists k. split; [exact Hk|]. intros out evs s' H1 H2 H3.
  destruct (Hd ltac:(vm_compute; reflexivity)) as (_ & _ & _ & Hrun). exact (Hrun out evs s' H1 H2 H3).
Defined.
