(* ===== verification/HubBroadcaster.v ===== *)
(** * The hub as the service's [Broadcaster]

    The instance of the interface, its laws, and the service running on the
    hub. *)
From stdpp Require Import base gmap sets list strings.
From Stdlib Require Import ZArith Lia.
From S2P Require Import Prelude.
From S2P Require Import Httpx.
From S2P Require Import Types.
From S2P Require Import Db.
From S2P Require Import Store.
From S2P Require Import Broadcaster.
From S2P Require Import Messages.
From S2P Require Import Client.
From S2P Require Import Hub.
From S2P Require Import HubFacts.

Definition hub_broadcaster : Broadcaster.Broadcaster Hub := {|
  Broadcaster.BroadcastMemberJoined := BroadcastMemberJoined;
  Broadcaster.BroadcastMemberLeft := BroadcastMemberLeft;
  Broadcaster.BroadcastMute := BroadcastMute;
  Broadcaster.KickConnection := KickConnection;
  Broadcaster.BroadcastRoomEnded := BroadcastRoomEnded;
  Broadcaster.BroadcastDestination := BroadcastDestination;
  Broadcaster.BroadcastStops := BroadcastStops;
  Broadcaster.BroadcastOwnerChanged := BroadcastOwnerChanged;
  Broadcaster.BroadcastRoomRenamed := BroadcastRoomRenamed;
  Broadcaster.BroadcastChatMessage := BroadcastChatMessage;
  Broadcaster.DisconnectUser := DisconnectUser;
  Broadcaster.PresentUserIDs := PresentUserIDs;
  Broadcaster.PresentCount := PresentCount;
  Broadcaster.EmergencyUserIDs := EmergencyUserIDs;
|}.

#[export] Instance hub_broadcaster_laws : Broadcaster.BroadcasterLaws hub_broadcaster.
Proof.
  split; intros r h; simpl.
  - unfold PresentCount, PresentUserIDs. destruct (room_state r h) as [rs|]; [|done].
    by rewrite length_fmap, length_map_to_list.
  - unfold PresentUserIDs. destruct (room_state r h); [apply NoDup_fst_map_to_list|apply NoDup_nil_2].
  - unfold EmergencyUserIDs. destruct (room_state r h); [apply NoDup_elements|apply NoDup_nil_2].
Qed.
