(* ===== verification/Providers.v ===== *)
(** * [internal/auth/providers]: identities from ID tokens

    The checks of the Google and Apple verifiers on the claims of a token.  The
    JWT library, which checks signature, method and expiry, is a parameter. *)
From stdpp Require Import base gmap sets list strings.
From Stdlib Require Import ZArith Lia.
From S2P Require Import Prelude.
From S2P Require Import GoString.
From S2P Require Import Httpx.
From S2P Require Import Types.

(** [jwt.MapClaims]: the claims as [encoding/json] reads them. *)
Abbreviation MapClaims := (gmap string json) (only parsing).

Record Identity := mkIdentity {
  Id_Provider : string;
  Id_Subject : string;
  Id_Email : string;
  Id_DisplayName : string;
  Id_AvatarURL : string;
}.

#[export] Instance Identity_eq_dec : EqDecision Identity.
Proof. solve_decision. Defined.

Definition AppleIssuer : string := "https://appleid.apple.com".
Definition googleIssuers : list string := ["https://accounts.google.com"; "accounts.google.com"].

(** [s, ok := claims[k].(string)]. *)
Definition claim_string (claims : MapClaims) (k : string) : option string :=
  match claims !! k with Some (JStr s) => Some s | _ => None end.

Fixpoint contains (haystack : list string) (needle : string) : bool :=
  match haystack with
  | [] => false
  | s :: l => if bool_decide (s = needle) then true else contains l needle
  end.

Section providers.
(** The JWKS key function of a verifier. *)
Context {Keyfunc : Type}.
(** [jwt.ParseWithClaims] with [WithExpirationRequired], for the valid methods
    and at the given time: the claims of a valid token. *)
Variable ParseWithClaims : Keyfunc -> list string -> time -> string -> option MapClaims.
(** [MapClaims.GetExpirationTime], absent or malformed as [None]. *)
Variable GetExpirationTime : MapClaims -> option time.

Record GoogleVerifier := mkGoogleVerifier { gv_keyfunc : Keyfunc; gv_audiences : list string }.
Record AppleVerifier := mkAppleVerifier { av_keyfunc : Keyfunc; av_audiences : list string }.

(** The constructors, after [keyfunc.NewDefaultCtx] answered. *)
Definition NewGoogleVerifier (jwks : option Keyfunc) (audiences : list string) : GoogleVerifier + error :=
  if bool_decide (audiences = []) then inr (ErrText "google verifier: at least one audience (client id) required")
  else match jwks with
       | Some k => inl (mkGoogleVerifier k audiences)
       | None => inr (ErrText "fetch google jwks")
       end.

Definition NewAppleVerifier (jwks : option Keyfunc) (audiences : list string) : AppleVerifier + error :=
  if bool_decide (audiences = []) then inr (ErrText "apple verifier: at least one audience required")
  else match jwks with
       | Some k => inl (mkAppleVerifier k audiences)
       | None => inr (ErrText "fetch apple jwks")
       end.

Definition ErrInvalidToken : error := ErrText "invalid id token".

Definition expired (claims : MapClaims) (now : time) : bool :=
  match GetExpirationTime claims with Some exp => (exp <? now)%Z | None => false end.

(** The email of a Google token: [email_verified] must be literally true. *)
Definition google_email (claims : MapClaims) : string :=
  match claim_string claims "email" with
  | Some e =>
      match claims !! "email_verified" with
      | Some (JBool true) => e
      | Some (JStr v) => if bool_decide (v = "true") then e else ""
      | _ => ""
      end
  | None => ""
  end.

Definition GoogleVerify (v : GoogleVerifier) (now : time) (idToken : string) : Identity + error :=
  let idToken := TrimSpace idToken in
  if bool_decide (idToken = "") then inr ErrInvalidToken else
  match ParseWithClaims (gv_keyfunc v) ["RS256"] now idToken with
  | None => inr ErrInvalidToken
  | Some claims =>
      let iss := default "" (claim_string claims "iss") in
      if negb (contains googleIssuers iss) then inr ErrInvalidToken else
      let aud := default "" (claim_string claims "aud") in
      if negb (contains (gv_audiences v) aud) then inr ErrInvalidToken else
      let sub := default "" (claim_string claims "sub") in
      if bool_decide (sub = "") then inr ErrInvalidToken else
      if expired claims now then inr ErrInvalidToken else
      inl (mkIdentity "google" sub (google_email claims)
             (default "" (claim_string claims "name")) (default "" (claim_string claims "picture")))
  end.

(** The email of an Apple token: trusted unless [email_verified] says no. *)
Definition apple_email (claims : MapClaims) : string :=
  match claim_string claims "email" with
  | Some e =>
      match claims !! "email_verified" with
      | Some (JBool v) => if v then e else ""
      | Some (JStr v) => if bool_decide (v = "true") then e else ""
      | _ => e
      end
  | None => ""
  end.

Definition AppleVerify (v : AppleVerifier) (now : time) (idToken : string) : Identity + error :=
  let idToken := TrimSpace idToken in
  if bool_decide (idToken = "") then inr ErrInvalidToken else
  match ParseWithClaims (av_keyfunc v) ["ES256"] now idToken with
  | None => inr ErrInvalidToken
  | Some claims =>
      let iss := default "" (claim_string claims "iss") in
      if negb (bool_decide (iss = AppleIssuer)) then inr ErrInvalidToken else
      let aud := default "" (claim_string claims "aud") in
      if negb (contains (av_audiences v) aud) then inr ErrInvalidToken else
      let sub := default "" (claim_string claims "sub") in
      if bool_decide (sub = "") then inr ErrInvalidToken else
      if expired claims now then inr ErrInvalidToken else
      inl (mkIdentity "apple" sub (apple_email claims) "" "")
  end.

(** ** What a verified token establishes *)

Lemma contains_spec l s : contains l s = true <-> s ∈ l.
Proof.
  induction l as [|x l IH]; simpl; [by rewrite elem_of_nil|]. rewrite elem_of_cons.
  destruct (decide (x = s)) as [->|Hne].
  - rewrite bool_decide_eq_true_2 by done. split; [by left|done].
  - rewrite bool_decide_eq_false_2 by done. rewrite IH. split; [by right|]. intros [->|]; done.
Qed.

(** The claims a token must carry: who issued it, for whom, about whom, and
    until when. *)
Definition claims_ok (issuers audiences : list string) (now : time) (claims : MapClaims) (sub : string) : Prop :=
  (exists iss, claim_string claims "iss" = Some iss /\ iss ∈ issuers) /\
  default "" (claim_string claims "aud") ∈ audiences /\
  claim_string claims "sub" = Some sub /\ sub <> "" /\
  forall exp, GetExpirationTime claims = Some exp -> (now <= exp)%Z.

Lemma default_string o s : s <> "" -> default "" o = s <-> o = Some s.
Proof. intros Hs. destruct o; simpl; split; congruence. Qed.

Lemma expired_false claims now :
  expired claims now = false <-> forall exp, GetExpirationTime claims = Some exp -> (now <= exp)%Z.
Proof.
  unfold expired. destruct (GetExpirationTime claims) as [e|]; [|done]. rewrite Z.ltb_ge.
  split; [by intros ? ? [= <-]|auto].
Qed.
(** The checks of a verifier, in one step: [ok] the issuer test. *)
Lemma checks_iff claims now auds issuers (ok : string -> bool) sub :
  (forall s, ok s = true <-> s ∈ issuers) -> "" ∉ issuers ->
  (ok (default "" (claim_string claims "iss")) = true /\
   contains auds (default "" (claim_string claims "aud")) = true /\
   default "" (claim_string claims "sub") = sub /\ sub <> "" /\ expired claims now = false) <->
  claims_ok issuers auds now claims sub.
Proof.
  intros Hok Hempty. unfold claims_ok. rewrite Hok, contains_spec, expired_false.
  assert (default "" (claim_string claims "iss") ∈ issuers <->
          exists iss, claim_string claims "iss" = Some iss /\ iss ∈ issuers) as ->.
  { destruct (claim_string claims "iss") as [i|]; simpl; split; [by exists i|by intros (? & [= <-] & ?)|done|].
    by intros (? & [=] & _). }
  split.
  - intros (? & ? & Hsub & Hne & ?). split; [done|]. split; [done|]. apply default_string in Hsub; [|done]. done.
  - intros (? & ? & Hsub & Hne & ?). split; [done|]. split; [done|]. rewrite (default_string _ _ Hne). done.
Qed.

Lemma GoogleVerify_run v now tok id :
  GoogleVerify v now tok = inl id <->
  TrimSpace tok <> "" /\ exists claims,
    ParseWithClaims (gv_keyfunc v) ["RS256"] now (TrimSpace tok) = Some claims /\
    claims_ok googleIssuers (gv_audiences v) now claims (Id_Subject id) /\
    id = mkIdentity "google" (Id_Subject id) (google_email claims)
           (default "" (claim_string claims "name")) (default "" (claim_string claims "picture")).
Proof.
  unfold GoogleVerify. case_bool_decide as Htok; [by split; [|intros [[] _]]|].
  destruct (ParseWithClaims _ _ _ _) as [claims|]; [|split; [done|by intros (_ & ? & [=] & _)]].
  pose proof (checks_iff claims now (gv_audiences v) googleIssuers (contains googleIssuers)) as Hiff.
  transitivity (claims_ok googleIssuers (gv_audiences v) now claims (Id_Subject id) /\
    id = mkIdentity "google" (Id_Subject id) (google_email claims)
           (default "" (claim_string claims "name")) (default "" (claim_string claims "picture")));
    [|split; [intros []; split; [done|]; by exists claims|by intros (_ & ? & [= <-] & ?)]].
  rewrite <-Hiff; [clear Hiff|intros s; apply contains_spec|by unfold googleIssuers; rewrite !elem_of_cons, elem_of_nil; intros [[=]|[[=]|[]]]].
  destruct (contains googleIssuers _); simpl; [|split; [done|by intros [(? & _) _]]].
  destruct (contains (gv_audiences v) _); simpl; [|split; [done|by intros [(_ & ? & _) _]]].
  destruct (decide (default "" (claim_string claims "sub") = "")) as [E|E].
  { rewrite bool_decide_eq_true_2 by done. split; [done|]. intros [(_ & _ & Hs & Hne & _) _]. congruence. }
  rewrite bool_decide_eq_false_2 by done.
  destruct (expired claims now); [split; [done|by intros [(_ & _ & _ & _ & ?) _]]|].
  split; [intros [= <-]; done|]. intros [(_ & _ & <- & _) ->]. done.
Qed.

Lemma AppleVerify_run v now tok id :
  AppleVerify v now tok = inl id <->
  TrimSpace tok <> "" /\ exists claims,
    ParseWithClaims (av_keyfunc v) ["ES256"] now (TrimSpace tok) = Some claims /\
    claims_ok [AppleIssuer] (av_audiences v) now claims (Id_Subject id) /\
    id = mkIdentity "apple" (Id_Subject id) (apple_email claims) "" "".
Proof.
  unfold AppleVerify. case_bool_decide as Htok; [by split; [|intros [[] _]]|].
  destruct (ParseWithClaims _ _ _ _) as [claims|]; [|split; [done|by intros (_ & ? & [=] & _)]].
  pose proof (checks_iff claims now (av_audiences v) [AppleIssuer]
                (fun s => bool_decide (s = AppleIssuer))) as Hiff.
  transitivity (claims_ok [AppleIssuer] (av_audiences v) now claims (Id_Subject id) /\
    id = mkIdentity "apple" (Id_Subject id) (apple_email claims) "" "");
    [|split; [intros []; split; [done|]; by exists claims|by intros (_ & ? & [= <-] & ?)]].
  rewrite <-Hiff; [clear Hiff|intros s; by rewrite bool_decide_eq_true, list_elem_of_singleton|
                   by rewrite list_elem_of_singleton].
  destruct (bool_decide (_ = AppleIssuer)); simpl; [|split; [done|by intros [(? & _) _]]].
  destruct (contains (av_audiences v) _); simpl; [|split; [done|by intros [(_ & ? & _) _]]].
  destruct (decide (default "" (claim_string claims "sub") = "")) as [E|E].
  { rewrite bool_decide_eq_true_2 by done. split; [done|]. intros [(_ & _ & Hs & Hne & _) _]. congruence. }
  rewrite bool_decide_eq_false_2 by done.
  destruct (expired claims now); [split; [done|by intros [(_ & _ & _ & _ & ?) _]]|].
  split; [intros [= <-]; done|]. intros [(_ & _ & <- & _) ->]. done.
Qed.

(** The provider vouches for the address: its [email_verified] claim says so. *)
Definition email_vouched (claims : MapClaims) : Prop :=
  claims !! "email_verified" = Some (JBool true) \/ claims !! "email_verified" = Some (JStr "true").

(** The token carries no verdict at all: [email_verified] is absent, or neither
    a boolean nor a string. *)
Definition email_unjudged (claims : MapClaims) : Prop :=
  (forall b, claims !! "email_verified" <> Some (JBool b)) /\
  (forall x, claims !! "email_verified" <> Some (JStr x)).

Lemma google_email_spec claims e :
  e <> "" ->
  google_email claims = e <-> claim_string claims "email" = Some e /\ email_vouched claims.
Proof.
  intros He. unfold google_email, email_vouched.
  destruct (claim_string claims "email") as [e'|]; [|naive_solver].
  destruct (claims !! "email_verified") as [[| [] | |v| |]|]; try naive_solver.
  case_bool_decide; naive_solver.
Qed.

Lemma apple_email_spec claims e :
  e <> "" ->
  apple_email claims = e <->
  claim_string claims "email" = Some e /\ (email_vouched claims \/ email_unjudged claims).
Proof.
  intros He. unfold apple_email, email_vouched, email_unjudged.
  destruct (claim_string claims "email") as [e'|]; [|naive_solver].
  destruct (claims !! "email_verified") as [[| [] | |v| |]|]; try naive_solver.
  case_bool_decide; naive_solver.
Qed.

(** C27 A verifier answers an identity exactly for a token that the JWT library
    accepts under the provider's method and whose issuer, audience, subject and
    expiry it has checked; the identity carries the subject of the token and
    nothing the token does not say. Its email is the token's exactly when the
    provider vouches for it, [email_verified] being [true] or the string
    "true"; from Apple also when [email_verified] is neither a boolean nor a
    string, an absent one included; any other value leaves the email out. *)
Theorem id_tokens_checked (g : GoogleVerifier) (a : AppleVerifier) now tok id :
  (GoogleVerify g now tok = inl id ->
   exists claims, ParseWithClaims (gv_keyfunc g) ["RS256"] now (TrimSpace tok) = Some claims /\
     claims_ok googleIssuers (gv_audiences g) now claims (Id_Subject id) /\ Id_Provider id = "google" /\
     Id_DisplayName id = default "" (claim_string claims "name") /\
     Id_AvatarURL id = default "" (claim_string claims "picture") /\
     forall e, e <> "" ->
       Id_Email id = e <-> claim_string claims "email" = Some e /\ email_vouched claims) /\
  (AppleVerify a now tok = inl id ->
   exists claims, ParseWithClaims (av_keyfunc a) ["ES256"] now (TrimSpace tok) = Some claims /\
     claims_ok [AppleIssuer] (av_audiences a) now claims (Id_Subject id) /\ Id_Provider id = "apple" /\
     Id_DisplayName id = "" /\ Id_AvatarURL id = "" /\
     forall e, e <> "" ->
       Id_Email id = e <->
       claim_string claims "email" = Some e /\ (email_vouched claims \/ email_unjudged claims)) /\
  (forall claims sub, TrimSpace tok <> "" ->
     ParseWithClaims (gv_keyfunc g) ["RS256"] now (TrimSpace tok) = Some claims ->
     claims_ok googleIssuers (gv_audiences g) now claims sub ->
     exists id', GoogleVerify g now tok = inl id' /\ Id_Subject id' = sub) /\
  (forall claims sub, TrimSpace tok <> "" ->
     ParseWithClaims (av_keyfunc a) ["ES256"] now (TrimSpace tok) = Some claims ->
     claims_ok [AppleIssuer] (av_audiences a) now claims sub ->
     exists id', AppleVerify a now tok = inl id' /\ Id_Subject id' = sub).
Proof.
  split; [|split; [|split]].
  - rewrite GoogleVerify_run. intros (_ & claims & Hp & Hok & Hid). exists claims.
    split; [done|]. split; [done|]. rewrite Hid. do 3 (split; [done|]). apply google_email_spec.
  - rewrite AppleVerify_run. intros (_ & claims & Hp & Hok & Hid). exists claims.
    split; [done|]. split; [done|]. rewrite Hid. do 3 (split; [done|]). apply apple_email_spec.
  - intros claims sub Htok Hp Hok. eexists (mkIdentity _ sub _ _ _).
    split; [|reflexivity]. apply GoogleVerify_run. split; [done|]. by exists claims.
  - intros claims sub Htok Hp Hok. eexists (mkIdentity _ sub _ _ _).
    split; [|reflexivity]. apply AppleVerify_run. split; [done|]. by exists claims.
Qed.
End providers.
Arguments mkGoogleVerifier {Keyfunc} _ _.
Arguments mkAppleVerifier {Keyfunc} _ _.
