(* ===== verification/Auth.v ===== *)
(** * [internal/auth/auth.go]: accounts, tokens, sign-in

    The handlers of the auth service on the [users] and [user_identities]
    tables.  The JWT and UUID libraries are parameters. *)
From stdpp Require Import base gmap sets list strings.
From Stdlib Require Import ZArith Lia.
From S2P Require Import Prelude.
From S2P Require Import GoString.
From S2P Require Import Httpx.
From S2P Require Import Types.
From S2P Require Import Db.
From S2P Require Import Store.
From S2P Require Import Providers.

Open Scope convoy_scope.

(** ** Entitlements and users *)

(** [map[string]any], the nil map as [None]. *)
Abbreviation Entitlements := (option (list (string * json))) (only parsing).

(** [MarshalJSON]: a nil map is written as an empty object. *)
Definition MarshalJSON (e : Entitlements) : json := JObj (default [] e).

(** [Scan] of the [jsonb] column; [json.Unmarshal] of [null] into a map makes
    it nil, and anything but an object is an error. *)
Definition Scan (src : option json) : option Entitlements :=
  match src with
  | None => Some (Some [])
  | Some (JObj fields) => Some (Some fields)
  | Some JNull => Some None
  | Some _ => None
  end.

Record User := mkUser {
  U_ID : uuid;
  U_DisplayName : string;
  U_AvatarURL : option string;
  U_Email : option string;
  U_Entitlements : Entitlements;
}.

(** The zero value of [User]. *)
Definition noUser : User := mkUser 0 "" None None None.

Record guestRequest := mkGuestRequest { Guest_DisplayName : string; Guest_AvatarURL : option string }.
Record updateProfileRequest := mkUpdateProfileRequest { Profile_DisplayName : string }.
Record oauthRequest := mkOauthRequest { OAuth_IDToken : string; OAuth_DisplayName : string; OAuth_Email : string }.
Record tokenResponse := mkTokenResponse { TR_Token : string; TR_User : User }.

(** A handler: what it throws is what it hands to [httpx.WriteErr]. *)
Definition serve {H B} (m : M H (reply B)) : M H (reply B) :=
  catch m (fun e => ret (WriteErr e)).

(** [if err := httpx.Decode(r, &req); err != nil { httpx.WriteErr(w, err); return }]. *)
Definition decode {H A} (d : decoded A) : M H A :=
  match Decode d with Some e => throw e | None => ret (dec_value d) end.

(** [w.WriteHeader(http.StatusNoContent)]. *)
Definition NoContent {B} : reply B := mkReply 204 NoBody.

Definition authorised {H} (ctx : option User) : M H User :=
  match ctx with Some u => ret u | None => throw (ErrAPI ErrUnauthorized) end.

(** ** Statements *)

(** [Scan(&u.ID, &u.DisplayName, &u.AvatarURL, &u.Email, &u.Entitlements)]. *)
Definition scan_user {H} (p : uuid * UserRow) : M H User :=
  match Scan (Some (u_entitlements p.2)) with
  | Some e => ret (mkUser p.1 (u_display_name p.2) (u_avatar_url p.2) (u_email p.2) e)
  | None => throw ErrScan
  end.

Definition user_live (u : UserRow) : bool := bool_decide (u_deleted_at u = None).

Definition select_user (id : uuid) (t : Tables) : option (uuid * UserRow) :=
  u ← t_users t !! id; if user_live u then Some (id, u) else None.

Definition insert_user (name : string) (avatar email : option string) : Sql (option (uuid * UserRow)) :=
  fun now id t =>
    let u := mkUserRow name avatar now email (JObj []) None in
    if has (t_users t) id then inl unique_violation
    else inr (Some (id, u), set_users <[id := u]> t).

Definition set_display_name (name : string) (u : UserRow) : UserRow :=
  mkUserRow name (u_avatar_url u) (u_created_at u) (u_email u) (u_entitlements u) (u_deleted_at u).

Definition update_display_name (id : uuid) (name : string) : Sql (option (uuid * UserRow)) :=
  fun _ _ t =>
    match t_users t !! id with
    | Some u =>
        if user_live u
        then inr (Some (id, set_display_name name u), set_users <[id := set_display_name name u]> t)
        else inr (None, t)
    | None => inr (None, t)
    end.

Section auth.
Context {H : Type}.

Definition LoadUser (id : uuid) : M H User :=
  on_error (fun e => match e with ErrNoRows => ErrAPI ErrUnauthorized | _ => e end)
    (p <- scan_row (exec [] (select (select_user id))) ;; scan_user p).

(** ** Tokens *)

(** The libraries: the text of a UUID, and the two halves of [jwt]; a key
    function answers the secret for the signing methods it accepts. *)
Inductive signing_method := HMAC (bits : N) | OtherMethod (name : string).

Variable uuid_String : uuid -> string.
Variable uuid_Parse : string -> option uuid.
Variable jwt_SignedString : signing_method -> string -> MapClaims -> option string.
Variable jwt_Parse : string -> (signing_method -> option string) -> time -> option MapClaims.

Context {Keyfunc : Type}.
Variable ParseWithClaims : Keyfunc -> list string -> time -> string -> option MapClaims.
Variable GetExpirationTime : MapClaims -> option time.

Record Service := mkService {
  secret : string;
  ttl : time;
  google : option (GoogleVerifier (Keyfunc:=Keyfunc));
  apple : option (AppleVerifier (Keyfunc:=Keyfunc));
}.

Definition NewService (secret : string) (ttl : time) : Service := mkService secret ttl None None.
Definition WithGoogleVerifier (v : option (GoogleVerifier (Keyfunc:=Keyfunc))) (s : Service) : Service :=
  mkService (secret s) (ttl s) v (apple s).
Definition WithAppleVerifier (v : option (AppleVerifier (Keyfunc:=Keyfunc))) (s : Service) : Service :=
  mkService (secret s) (ttl s) (google s) v.

Variable s : Service.

(** [time.Time.Unix] on microseconds. *)
Definition Unix (t : time) : Z := (t / 1000000)%Z.

(** An [int64] as [encoding/json] writes it and reads it back. *)
Definition json_int (z : Z) : json := JNum (binary_normalize 53 1024 z 0 false).

(** [Issue]; the two readings of the clock are its arguments. *)
Definition Issue (userID : uuid) (now now' : time) : string + error :=
  let claims := <["sub" := JStr (uuid_String userID)]>
                (<["exp" := json_int (Unix (now + ttl s))]>
                 (<["iat" := json_int (Unix now')]> (∅ : gmap string json))) in
  match jwt_SignedString (HMAC 256) (secret s) claims with
  | Some tok => inl tok
  | None => inr (ErrText "jwt")
  end.

Definition hmac_only (m : signing_method) : option string :=
  match m with HMAC _ => Some (secret s) | OtherMethod _ => None end.

Definition Verify (tokenStr : string) (now : time) : option uuid :=
  match jwt_Parse tokenStr hmac_only now with
  | None => None
  | Some claims => uuid_Parse (default "" (claim_string claims "sub"))
  end.

(** The bearer token of a request, checked, and the user it stands for. *)
Definition Middleware {B} (header : string) (now : time) (next : option User -> M H (reply B)) :
    M H (reply B) :=
  if negb (HasPrefix header "Bearer ") then ret (WriteErr (ErrAPI ErrUnauthorized)) else
  match Verify (TrimPrefix header "Bearer ") now with
  | None => ret (WriteErr (ErrAPI ErrUnauthorized))
  | Some userID =>
      u <- try (LoadUser userID) ;;
      match u with
      | Fail e => ret (WriteErr e)
      | Ok u => next (Some u)
      end
  end.

Definition throw_err {A} (r : A + error) : M H A :=
  match r with inl a => ret a | inr e => throw e end.

(** ** Guests and profiles *)

(** [if len(name) > 40 { name = name[:40] }]: bytes. *)
Definition clip40 (name : string) : string := if 40 <? go_len name then byte_prefix 40 name else name.

Definition ErrNameRequired : APIError := Err 400 "invalid_name" "displayName required".
Definition ErrNameTooShort : APIError := Err 400 "name_too_short" "displayName must be at least 2 characters".

Definition HandleGuest (now now' : time) (req : decoded guestRequest) : M H (reply tokenResponse) :=
  serve (
    req <- decode req ;;
    let name := TrimSpace (Guest_DisplayName req) in
    check (bool_decide (name = "")) (ErrAPI ErrNameRequired) ;;;
    let name := clip40 name in
    p <- scan_row (exec (name :: opt_text (Guest_AvatarURL req))
                     (insert_user name (Guest_AvatarURL req) None)) ;;
    u <- scan_user p ;;
    token <- throw_err (Issue (U_ID u) now now') ;;
    ret (JSON 201 (mkTokenResponse token u))).

Definition HandleMe (ctx : option User) : M H (reply User) :=
  serve (u <- authorised ctx ;; ret (JSON 200 u)).

Definition HandlePatchMe (ctx : option User) (req : decoded updateProfileRequest) : M H (reply User) :=
  serve (
    u <- authorised ctx ;;
    req <- decode req ;;
    let name := TrimSpace (Profile_DisplayName req) in
    check (bool_decide (name = "")) (ErrAPI ErrNameRequired) ;;;
    let runeLen := RuneCountInString name in
    check (runeLen <? 2) (ErrAPI ErrNameTooShort) ;;;
    let name := if 40 <? runeLen then rune_prefix 40 name else name in
    updated <- on_error (fun e => match e with ErrNoRows => ErrAPI ErrUnauthorized | _ => e end)
                 (p <- scan_row (exec [name] (update_display_name (U_ID u) name)) ;; scan_user p) ;;
    ret (JSON 200 updated)).

(** ** OAuth *)

Definition check_violation : string := "23514".
Definition in_failed_sql_transaction : string := "25P02".

(** The next statement of a transaction after one that failed. *)
Definition after_failed (e : error) : error :=
  match e with ErrPg _ => ErrPg in_failed_sql_transaction | _ => e end.

Definition find_identity (provider subject : string) (t : Tables) : option uuid :=
  (fun p => i_user_id p.2) <$>
    head (filter (fun p => i_provider p.2 = provider /\ i_subject p.2 = subject) (map_to_list (t_identities t))).

Definition set_email (email : string) (u : UserRow) : UserRow :=
  mkUserRow (u_display_name u) (u_avatar_url u) (u_created_at u) (Some email) (u_entitlements u) (u_deleted_at u).

Definition update_email (id : uuid) (email : string) : Sql unit :=
  fun _ _ t =>
    match t_users t !! id with
    | Some u =>
        if bool_decide (u_email u = Some email) then inr (tt, t)
        else inr (tt, set_users <[id := set_email email u]> t)
    | None => inr (tt, t)
    end.

Definition insert_identity (user : uuid) (provider subject : string) (email : option string) : Sql unit :=
  fun now id t =>
    if negb (contains ["google"; "apple"; "guest"] provider) then inl check_violation
    else if has (t_identities t) id || bool_decide (is_Some (find_identity provider subject t)) then inl unique_violation
    else if negb (has (t_users t) user) then inl foreign_key_violation
    else inr (tt, set_identities <[id := mkIdentityRow user provider subject email now]> t).

(** [var p *string; if x != "" { p = &x }]. *)
Definition nonempty (x : string) : option string := if bool_decide (x = "") then None else Some x.

(** What the transaction does for an identity it found. *)
Definition refresh_user (userID : uuid) (email : string) : M H (result unit) :=
  if bool_decide (email = "") then ret (Ok tt)
  else try (tx_exec [email] (update_email userID email)).

(** What it does for a new one. *)
Definition register_user (id : Identity) : M H uuid :=
  let avatar := nonempty (Id_AvatarURL id) in
  let email := nonempty (Id_Email id) in
  p <- scan_row (tx_exec (Id_DisplayName id :: opt_text avatar ++ opt_text email)
                   (insert_user (Id_DisplayName id) avatar email)) ;;
  tx_exec (Id_Provider id :: Id_Subject id :: opt_text email)
    (insert_identity p.1 (Id_Provider id) (Id_Subject id) email) ;;;
  ret p.1.

(** The last statement of the transaction: the canonical row. *)
Definition tx_load (userID : uuid) : M H User :=
  p <- scan_row (tx_exec [] (select (select_user userID))) ;; scan_user p.

Definition upsertOAuthUser (id : Identity) : M H User :=
  in_tx (
    found <- try (scan_row (tx_exec [Id_Provider id; Id_Subject id]
                              (select (find_identity (Id_Provider id) (Id_Subject id))))) ;;
    match found with
    | Ok userID =>
        r <- refresh_user userID (Id_Email id) ;;
        match r with
        | Ok _ => tx_load userID
        | Fail e => throw (after_failed e)
        end
    | Fail ErrNoRows => userID <- register_user id ;; tx_load userID
    | Fail e => throw e
    end).

(** [strings.Index(s, "@")]: the bytes before the first at sign, if any. *)
Definition before_at (e : string) : option string :=
  match list_find (fun c => byte_val c = 64%N) (to_bytes e) with
  | Some (at_, _) => if 0 <? at_ then Some (byte_prefix at_ e) else None
  | None => None
  end.

(** The email and the name the account gets. *)
Definition fill_identity (id : Identity) (req : oauthRequest) : Identity :=
  let email := if bool_decide (Id_Email id = "") && negb (bool_decide (OAuth_Email req = ""))
               then TrimSpace (OAuth_Email req) else Id_Email id in
  let name := if bool_decide (Id_DisplayName id = "") && negb (bool_decide (OAuth_DisplayName req = ""))
              then TrimSpace (OAuth_DisplayName req) else Id_DisplayName id in
  let name := if bool_decide (name = "") then
                default "convoy_user" (if bool_decide (email = "") then None else before_at email)
              else name in
  mkIdentity (Id_Provider id) (Id_Subject id) email (clip40 name) (Id_AvatarURL id).

Definition handleOAuth (verify : string -> Identity + error) (now now' : time)
    (req : decoded oauthRequest) : M H (reply tokenResponse) :=
  serve (
    req <- decode req ;;
    match verify (OAuth_IDToken req) with
    | inr _ => throw (ErrAPI (Err 401 "invalid_id_token" "could not verify id token"))
    | inl id =>
        u <- upsertOAuthUser (fill_identity id req) ;;
        token <- throw_err (Issue (U_ID u) now now') ;;
        ret (JSON 200 (mkTokenResponse token u))
    end).

Definition HandleGoogle (now now' : time) (req : decoded oauthRequest) : M H (reply tokenResponse) :=
  match google s with
  | None => ret (WriteErr (ErrAPI (Err 503 "google_disabled" "google sign-in is not configured")))
  | Some v => handleOAuth (GoogleVerify ParseWithClaims GetExpirationTime v now) now now' req
  end.

Definition HandleApple (now now' : time) (req : decoded oauthRequest) : M H (reply tokenResponse) :=
  match apple s with
  | None => ret (WriteErr (ErrAPI (Err 503 "apple_disabled" "sign in with apple is not configured")))
  | Some v => handleOAuth (AppleVerify ParseWithClaims GetExpirationTime v now) now now' req
  end.

(** ** Account deletion *)

Definition mark_deleted (now : time) (u : UserRow) : UserRow :=
  mkUserRow (u_display_name u) (u_avatar_url u) (u_created_at u) (u_email u) (u_entitlements u) (Some now).

Definition delete_user (id : uuid) : Sql unit :=
  fun now _ t =>
    match t_users t !! id with
    | Some u =>
        if user_live u then inr (tt, set_users <[id := mark_deleted now u]> t) else inr (tt, t)
    | None => inr (tt, t)
    end.

Definition end_owned (now : time) (id : uuid) (r : RoomRow) : RoomRow :=
  if bool_decide (r_owner_id r = id) && room_active r then set_ended now r else r.

Definition end_owned_rooms (id : uuid) : Sql unit :=
  fun now _ t => inr (tt, set_rooms (fmap (end_owned now id)) t).

Definition drop_member (now : time) (id : uuid) (k : uuid * uuid) (m : MemberRow) : MemberRow :=
  if bool_decide (k.2 = id) && member_present m then mark_kicked now m else m.

Definition drop_memberships (id : uuid) : Sql unit :=
  fun now _ t => inr (tt, set_members (map_imap (fun k m => Some (drop_member now id k m))) t).

Definition HandleDeleteAccount {B} (ctx : option User) : M H (reply B) :=
  serve (
    u <- authorised ctx ;;
    in_tx (
      tx_exec [] (delete_user (U_ID u)) ;;;
      tx_exec [] (end_owned_rooms (U_ID u)) ;;;
      tx_exec [] (drop_memberships (U_ID u))) ;;;
    ret NoContent).
End auth.
