(* ===== verification/AuthFacts.v ===== *)
(** * Facts about the auth service

    The schema invariant of the accounts, what preserves it, and the auth
    operations as functions of the tables when nothing fails. *)
From stdpp Require Import base gmap sets list strings sorting.
From Stdlib Require Import ZArith Lia.
From S2P Require Import Prelude.
From S2P Require Import GoString.
From S2P Require Import Httpx.
From S2P Require Import Types.
From S2P Require Import Db.
From S2P Require Import Store.
From S2P Require Import StoreFacts.
From S2P Require Import Broadcaster.
From S2P Require Import Service.
From S2P Require Import ServiceFacts.
From S2P Require Import Runs.
From S2P Require Import Providers.
From S2P Require Import Auth.

Open Scope convoy_scope.

(** ** The invariant *)

(** An identity belongs to a user, and to one only. *)
Record accounts_wf (t : Tables) : Prop := {
  aw_user : forall i x, t_identities t !! i = Some x -> is_Some (t_users t !! i_user_id x);
  aw_unique : forall i j x y, t_identities t !! i = Some x -> t_identities t !! j = Some y ->
              i_provider x = i_provider y -> i_subject x = i_subject y -> i = j;
}.

Definition full_wf (t : Tables) : Prop := db_wf t /\ accounts_wf t.

Lemma wf_more_users t f :
  (forall u, is_Some (t_users t !! u) -> is_Some (f (t_users t) !! u)) -> full_wf t -> full_wf (set_users f t).
Proof.
  intros Hf [[Hr Hc Hm Ho Hk Hs Hp Hg] [Hu Hi]]. split; [split|split]; simpl; try done.
  - intros rid r Hrid. destruct (Hr rid r Hrid) as [? ? ?]. split; [auto| |done]. intros u Hset; auto.
  - intros rid uid m Hmem. destruct (Hm rid uid m Hmem) as [? ? ?]. split; [auto|done..].
  - intros rid uid k Hkey. destruct (Hk rid uid k Hkey). auto.
  - intros sid s Hsid. destruct (Hs sid s Hsid) as (? & (u & ? & ?) & ?). split; [done|].
    split; [|done]. exists u. auto.
  - intros gid g Hgid. destruct (Hg gid g Hgid). auto.
  - intros i x Hx. apply Hf. by eapply Hu.
Qed.

Lemma wf_set_user t id u : full_wf t -> full_wf (set_users <[id := u]> t).
Proof. apply wf_more_users. intros v. rewrite lookup_insert. by case_decide. Qed.

Lemma wf_end_rooms t now id : full_wf t -> full_wf (set_rooms (fmap (end_owned now id)) t).
Proof.
  intros [[Hr Hc Hm Ho Hk Hs Hp Hg] Ha].
  assert (forall i x, (end_owned now id <$> t_rooms t) !! i = Some x -> exists y, t_rooms t !! i = Some y /\
    r_code x = r_code y /\ r_owner_id x = r_owner_id y /\ (r_ended_at x = None -> r_ended_at y = None) /\
    r_dest_set_by x = r_dest_set_by y /\ (dest_ok y -> dest_ok x)) as Hback.
  { intros i x Hi. apply lookup_fmap_Some in Hi as (y & <- & Hy). exists y. unfold end_owned, set_ended.
    destruct (_ && _); [|done]. split; [done|]. done. }
  assert (forall i, is_Some (t_rooms t !! i) -> is_Some ((end_owned now id <$> t_rooms t) !! i)) as Hdom.
  { intros i. by rewrite lookup_fmap, fmap_is_Some. }
  split; [split|by destruct Ha; split]; simpl; try done.
  - intros i x (y & Hy & _ & Hown & _ & Hby & Hd)%Hback. destruct (Hr i y Hy) as [? ? ?].
    split; [by rewrite Hown|by rewrite Hby|auto].
  - intros i1 i2 x1 x2 (y1 & H1 & E1 & _ & D1 & _)%Hback (y2 & H2 & E2 & _ & D2 & _)%Hback A1 A2 E.
    apply (Hc i1 i2 y1 y2); auto. congruence.
  - intros i u m Him. destruct (Hm i u m Him) as [Hu Hkick (y & Hy & Hrole)]. split; [done|done|].
    exists (end_owned now id y). rewrite lookup_fmap, Hy. split; [done|].
    unfold end_owned, set_ended. by destruct (_ && _).
  - intros i x (y & Hy & _ & -> & _)%Hback. by apply (Ho i).
  - intros i u k Hi. destruct (Hk i u k Hi). auto.
  - intros i st Hi. destruct (Hs i st Hi) as (? & ? & ?). auto.
  - intros i g Hi. destruct (Hg i g Hi). auto.
Qed.

Lemma wf_drop_members t now id :
  full_wf t -> full_wf (set_members (map_imap (fun k m => Some (drop_member now id k m))) t).
Proof.
  intros [[Hr Hc Hm Ho Hk Hs Hp Hg] Ha]. split; [split|by destruct Ha; split]; simpl; try done.
  - intros i u m. rewrite map_lookup_imap. destruct (t_members t !! (i, u)) as [m0|] eqn:Hm0; [|done].
    intros [= <-]. destruct (Hm i u m0 Hm0) as [Hu Hkick Hrole]. unfold drop_member.
    destruct (_ && _); [|done]. split; [done|by simpl|done].
  - intros i r Hi. destruct (Ho i r Hi) as [m Hmi]. rewrite map_lookup_imap, Hmi. by eexists.
Qed.

Lemma find_identity_some p sub t u :
  find_identity p sub t = Some u ->
  exists i x, t_identities t !! i = Some x /\ i_provider x = p /\ i_subject x = sub /\ i_user_id x = u.
Proof.
  unfold find_identity. destruct (head _) as [[i x]|] eqn:Hh; [|done]. simpl. intros [= <-].
  apply head_Some_elem_of, list_elem_of_filter in Hh as [[Hp Hs] Hin].
  apply elem_of_map_to_list in Hin. by exists i, x.
Qed.

Lemma find_identity_none p sub t i x :
  find_identity p sub t = None -> t_identities t !! i = Some x -> i_provider x = p -> i_subject x <> sub.
Proof.
  unfold find_identity. intros Hh Hx Hp Hs. apply fmap_None, head_None in Hh.
  assert ((i, x) ∈ @nil (uuid * IdentityRow)) as Hin; [|by apply not_elem_of_nil in Hin].
  rewrite <-Hh. apply list_elem_of_filter. by rewrite elem_of_map_to_list.
Qed.

(** Under the unique index, the identity found is the one there is. *)
Lemma find_identity_spec p sub t i x :
  accounts_wf t -> t_identities t !! i = Some x -> i_provider x = p -> i_subject x = sub ->
  find_identity p sub t = Some (i_user_id x).
Proof.
  intros [_ Hu] Hx Hp Hs. destruct (find_identity p sub t) as [u|] eqn:Hf.
  - apply find_identity_some in Hf as (j & y & Hy & Hpy & Hsy & <-).
    assert (i = j) as <- by (eapply Hu; eauto; congruence). congruence.
  - by destruct (find_identity_none p sub t i x).
Qed.

Lemma wf_insert_identity t id user p sub email now :
  full_wf t -> is_Some (t_users t !! user) -> t_identities t !! id = None ->
  find_identity p sub t = None ->
  full_wf (set_identities <[id := mkIdentityRow user p sub email now]> t).
Proof.
  intros [Hwf [Hu Hi]] Huser Hid Hf. split; [|split]; simpl.
  - destruct Hwf as [Hr Hc Hm Ho Hk Hs Hp Hg]. by split.
  - intros i x. rewrite lookup_insert. case_decide; [by intros [= <-]|by apply Hu].
  - intros i j x y. rewrite !lookup_insert. repeat case_decide; subst; try done.
    + intros [= <-] Hy. simpl. intros Hp Hs. by destruct (find_identity_none p sub t j y).
    + intros Hx [= <-]. simpl. intros Hp Hs. by destruct (find_identity_none p sub t i x).
    + apply Hi.
Qed.

(** ** What preserves it *)

Section preservation.
Context {H : Type}.

Lemma ret_preserves {A} P (a : A) : preserves (H:=H) P (ret a).
Proof. by intros w. Qed.
Lemma throw_preserves {A} P e : preserves (H:=H) P (throw (A:=A) e).
Proof. by intros w. Qed.
Lemma check_preserves P b e : preserves (H:=H) P (check b e).
Proof. by destruct b; intros w. Qed.

Lemma in_tx_keeps {A} P (body : M H A) : preserves P body -> preserves P (in_tx body).
Proof. intros Hb. apply in_tx_preserves. intros w a w' HP E. specialize (Hb w HP). by rewrite E in Hb. Qed.

Lemma scan_user_preserves P p : preserves (H:=H) P (scan_user p).
Proof. unfold scan_user. by destruct (Scan _); intros w. Qed.

Lemma decode_preserves {A} P (d : decoded A) : preserves (H:=H) P (decode d).
Proof. unfold decode. by destruct (Decode d); intros w. Qed.

Lemma authorised_preserves P ctx : preserves (H:=H) P (authorised ctx).
Proof. by destruct ctx; intros w. Qed.

Lemma throw_err_preserves {A} P (r : A + error) : preserves (H:=H) P (throw_err r).
Proof. by destruct r; intros w. Qed.

Lemma serve_preserves {B} P (m : M H (reply B)) : preserves P m -> preserves P (serve m).
Proof. intros Hm. apply catch_preserves; [done|]. intros e. apply ret_preserves. Qed.

Lemma select_preserves {A} P tick params (f : Tables -> A) : preserves (H:=H) P (stmt tick params (select f)).
Proof. apply read_only_preserves, select_read_only. Qed.

Lemma insert_user_wf tick params name avatar email :
  preserves (H:=H) full_wf (stmt tick params (insert_user name avatar email)).
Proof.
  apply stmt_preserves. intros now id t a t' Hwf. unfold insert_user.
  destruct (has _ _); [done|]. intros [= <- <-]. by apply wf_set_user.
Qed.

Lemma update_display_name_wf tick params id name :
  preserves (H:=H) full_wf (stmt tick params (update_display_name id name)).
Proof.
  apply stmt_preserves. intros now x t a t' Hwf. unfold update_display_name.
  destruct (t_users t !! id) as [u|]; [destruct (user_live u)|]; intros [= <- <-]; [|done..].
  by apply wf_set_user.
Qed.

Lemma update_email_wf tick params id email :
  preserves (H:=H) full_wf (stmt tick params (update_email id email)).
Proof.
  apply stmt_preserves. intros now x t a t' Hwf. unfold update_email.
  destruct (t_users t !! id) as [u|]; [case_bool_decide|]; intros [= <- <-]; try done.
  by apply wf_set_user.
Qed.

Lemma insert_identity_wf tick params user p sub email :
  preserves (H:=H) full_wf (stmt tick params (insert_identity user p sub email)).
Proof.
  apply stmt_preserves. intros now id t a t' Hwf. unfold insert_identity.
  destruct (negb (contains _ p)); [done|]. destruct (has (t_identities t) id) eqn:Hid; [done|].
  case_bool_decide as Hf; [done|]. destruct (has (t_users t) user) eqn:Hu; [|done].
  intros [= <- <-]. apply wf_insert_identity; [done|by apply has_spec|by apply has_false|by apply eq_None_not_Some].
Qed.

Lemma delete_user_wf tick id : preserves (H:=H) full_wf (stmt tick [] (delete_user id)).
Proof.
  apply stmt_preserves. intros now x t a t' Hwf. unfold delete_user.
  destruct (t_users t !! id) as [u|]; [destruct (user_live u)|]; intros [= <- <-]; try done.
  by apply wf_set_user.
Qed.

Lemma end_owned_rooms_wf tick id : preserves (H:=H) full_wf (stmt tick [] (end_owned_rooms id)).
Proof. apply stmt_preserves. intros now x t a t' Hwf [= <- <-]. by apply wf_end_rooms. Qed.

Lemma drop_memberships_wf tick id : preserves (H:=H) full_wf (stmt tick [] (drop_memberships id)).
Proof. apply stmt_preserves. intros now x t a t' Hwf [= <- <-]. by apply wf_drop_members. Qed.
End preservation.

(** ** Runs without faults *)

(** The columns of a row as [Scan] reads them. *)
Definition user_of (p : uuid * UserRow) : result User :=
  match Scan (Some (u_entitlements p.2)) with
  | Some e => Ok (mkUser p.1 (u_display_name p.2) (u_avatar_url p.2) (u_email p.2) e)
  | None => Fail ErrScan
  end.

Lemma scan_user_run {H} p (w : World H) : scan_user p w = (user_of p, w).
Proof. unfold scan_user, user_of. by destruct (Scan _). Qed.

Lemma decode_run {H A} (d : decoded A) (w : World H) :
  decode d w = (match Decode d with Some e => Fail e | None => Ok (dec_value d) end, w).
Proof. unfold decode. by destruct (Decode d). Qed.

Lemma throw_err_run {H A} (r : A + error) (w : World H) :
  throw_err r w = (match r with inl a => Ok a | inr e => Fail e end, w).
Proof. by destruct r. Qed.

Lemma serve_run {H B} (m : M H (reply B)) (w : World H) :
  serve m w = (Ok (match (m w).1 with Ok r => r | Fail e => WriteErr e end), (m w).2).
Proof. unfold serve, catch. by destruct (m w) as [[r|e] w']. Qed.

(** The reply to what a handler's body comes to. *)
Definition answer {B} (r : result (reply B)) : reply B :=
  match r with Ok a => a | Fail e => WriteErr e end.

Lemma obs_serve {H B} (m : M H (reply B)) (w0 w : World H) r t k :
  m w0 = (r, set_db t (skip k w)) -> obs (serve m w0) = (Ok (answer r), t, w_rt w).
Proof. intros Hm. rewrite serve_run, Hm. unfold obs, answer. simpl. by rewrite skip_rt. Qed.

Lemma scan_row_bind_run {H A B} (m : M H (option A)) (k : A -> M H B) (w : World H) :
  bind (scan_row m) k w =
    match m w with
    | (Ok (Some a), w') => k a w'
    | (Ok None, w') => (Fail ErrNoRows, w')
    | (Fail e, w') => (Fail e, w')
    end.
Proof. unfold scan_row, bind. by destruct (m w) as [[[a|]|e] w']. Qed.

(** A handler, statement by statement. *)
Section serving.
Context {H A B : Type}.
Implicit Types w : World H.

(** Nothing happened but the reply. *)
Definition refused (e : error) w : result (reply B) * Tables * H := (Ok (WriteErr e), w_db w, w_rt w).

Lemma serve_decode (d : decoded A) (k : A -> M H (reply B)) w :
  obs (serve (bind (decode d) k) w) =
    match Decode d with Some e => refused e w | None => obs (serve (k (dec_value d)) w) end.
Proof. rewrite !serve_run, bind_unfold, decode_run. by destruct (Decode d). Qed.

Lemma serve_check b e (m : M H (reply B)) w :
  obs (serve (bind (check b e) (fun _ => m)) w) = if b then refused e w else obs (serve m w).
Proof. rewrite !serve_run, bind_unfold, check_run. by destruct b. Qed.

Lemma serve_authorised ctx (k : User -> M H (reply B)) w :
  obs (serve (bind (authorised ctx) k) w) =
    match ctx with Some u => obs (serve (k u) w) | None => refused (ErrAPI ErrUnauthorized) w end.
Proof. destruct ctx as [u|]; by rewrite !serve_run. Qed.

(** A call whose run is known. *)
Lemma serve_bind (m : M H A) (k : A -> M H (reply B)) w p :
  m w = p ->
  obs (serve (bind m k) w) =
    match p with (Ok a, w') => obs (serve (k a) w') | (Fail e, w') => refused e w' end.
Proof.
  intros Hm. rewrite !serve_run, bind_unfold, Hm. destruct p as [[a|e] w']; [by rewrite serve_run|done].
Qed.

Lemma serve_obs (m : M H A) (k : A -> reply B) w r t h :
  obs (m w) = (r, t, h) ->
  obs (serve (bind m (fun a => ret (k a))) w) =
    (Ok (match r with Ok a => k a | Fail e => WriteErr e end), t, h).
Proof. rewrite !serve_run, bind_unfold. unfold obs. destruct (m w) as [[a|e] w']; by intros [= <- <- <-]. Qed.

(** A row by [QueryRow(...).Scan(...)]. *)
Lemma scan_row_bind_serve (m : M H (option A)) (k : A -> M H (reply B)) w :
  obs (serve (bind (scan_row m) k) w) =
    match m w with
    | (Ok (Some a), w') => obs (serve (k a) w')
    | (Ok None, w') => refused ErrNoRows w'
    | (Fail e, w') => refused e w'
    end.
Proof.
  rewrite serve_run, scan_row_bind_run. destruct (m w) as [[[a|]|e] w']; [by rewrite serve_run|done..].
Qed.

Lemma refused_skip e t k w : refused e (set_db t (skip k w)) = (Ok (WriteErr e), t, w_rt w).
Proof. unfold refused. simpl. by rewrite skip_rt. Qed.
End serving.

(** A handler always replies. *)
Lemma serve_replies {H B} (m : M H (reply B)) (w : World H) : exists r, (serve m w).1 = Ok r.
Proof. rewrite serve_run. by eexists. Qed.

(** [QueryRow(...).Scan(...)] of a user row. *)
Lemma scan_user_row_run {H} (m : M H (option (uuid * UserRow))) (w : World H) :
  (p <- scan_row m ;; scan_user p) w =
    match m w with
    | (Ok (Some p), w') => (user_of p, w')
    | (Ok None, w') => (Fail ErrNoRows, w')
    | (Fail e, w') => (Fail e, w')
    end.
Proof.
  unfold scan_row, bind. destruct (m w) as [[[p|]|e] w']; [|done..]. simpl. apply scan_user_run.
Qed.

Lemma LoadUser_run {H} id k t (w : World H) :
  fault_free w ->
  LoadUser id (set_db t (skip k w)) =
    (match select_user id t with
     | Some p => user_of p
     | None => Fail (ErrAPI ErrUnauthorized)
     end, set_db t (skip (S k) w)).
Proof.
  intros Hw. unfold LoadUser, on_error, catch. rewrite scan_user_row_run, exec_run by done. simpl.
  destruct (select_user id t) as [p|]; [|done]. unfold user_of. by destruct (Scan _).
Qed.

Lemma select_user_spec id t p :
  select_user id t = Some p <-> exists u, t_users t !! id = Some u /\ u_deleted_at u = None /\ p = (id, u).
Proof.
  unfold select_user, user_live. destruct (t_users t !! id) as [u|]; simpl;
    [|split; [done|by intros (? & [=] & _)]].
  destruct (decide (u_deleted_at u = None)) as [Hl|Hl].
  - rewrite bool_decide_eq_true_2 by done. split; [intros [= <-]; by exists u|by intros (? & [= <-] & _ & ->)].
  - rewrite bool_decide_eq_false_2 by done. split; [done|]. by intros (? & [= <-] & ? & _).
Qed.

(** ** Deleted accounts stay deleted *)

Definition deleted (id : uuid) (t : Tables) : Prop :=
  exists u, t_users t !! id = Some u /\ u_deleted_at u <> None.

Lemma deleted_select id t : deleted id t -> select_user id t = None.
Proof.
  intros (u & Hu & Hd). destruct (select_user id t) as [p|] eqn:Hp; [|done].
  apply select_user_spec in Hp as (v & Hv & Hl & _). congruence.
Qed.

Lemma deleted_set_user id t i v :
  deleted id t -> (forall u, t_users t !! i = Some u -> u_deleted_at u <> None -> u_deleted_at v <> None) ->
  deleted id (set_users <[i := v]> t).
Proof.
  intros (u & Hu & Hd) Hv. unfold deleted. simpl. rewrite lookup_insert.
  case_decide; [subst|by exists u]. exists v. split; [done|]. by apply (Hv u).
Qed.

Section stays_deleted.
Context {H : Type} (id : uuid).

Lemma insert_user_del tick params name avatar email :
  preserves (H:=H) (deleted id) (stmt tick params (insert_user name avatar email)).
Proof.
  apply stmt_preserves. intros now x t a t' Hd. unfold insert_user. destruct (has (t_users t) x) eqn:Hx; [done|].
  intros [= <- <-]. apply deleted_set_user; [done|]. apply has_false in Hx. intros u Hu. congruence.
Qed.

Lemma update_display_name_del tick params i name :
  preserves (H:=H) (deleted id) (stmt tick params (update_display_name i name)).
Proof.
  apply stmt_preserves. intros now x t a t' Hd. unfold update_display_name.
  destruct (t_users t !! i) as [u|] eqn:Hi; [destruct (user_live u)|]; intros [= <- <-]; try done.
  apply deleted_set_user; [done|]. intros u' Hu'. by simplify_eq.
Qed.

Lemma update_email_del tick params i email :
  preserves (H:=H) (deleted id) (stmt tick params (update_email i email)).
Proof.
  apply stmt_preserves. intros now x t a t' Hd. unfold update_email.
  destruct (t_users t !! i) as [u|] eqn:Hi; [case_bool_decide|]; intros [= <- <-]; try done.
  apply deleted_set_user; [done|]. intros u' Hu'. by simplify_eq.
Qed.

Lemma insert_identity_del tick params user p sub email :
  preserves (H:=H) (deleted id) (stmt tick params (insert_identity user p sub email)).
Proof.
  apply stmt_preserves. intros now x t a t' Hd. unfold insert_identity.
  destruct (negb (contains _ p)); [done|]. destruct (_ || _); [done|]. destruct (negb _); [done|].
  by intros [= <- <-].
Qed.

Lemma delete_user_del tick i : preserves (H:=H) (deleted id) (stmt tick [] (delete_user i)).
Proof.
  apply stmt_preserves. intros now x t a t' Hd. unfold delete_user.
  destruct (t_users t !! i) as [u|]; [destruct (user_live u)|]; intros [= <- <-]; try done.
  by apply deleted_set_user.
Qed.

Lemma end_owned_rooms_del tick i : preserves (H:=H) (deleted id) (stmt tick [] (end_owned_rooms i)).
Proof. by apply stmt_preserves; intros now x t a t' Hd [= <- <-]. Qed.

Lemma drop_memberships_del tick i : preserves (H:=H) (deleted id) (stmt tick [] (drop_memberships i)).
Proof. by apply stmt_preserves; intros now x t a t' Hd [= <- <-]. Qed.
End stays_deleted.

(** ** What every operation preserves *)

(** A property of the tables that each statement of the service keeps. *)
Class AuthStable {H : Type} (P : Tables -> Prop) : Prop := {
  st_insert_user : forall tick params name avatar email,
    preserves (H:=H) P (stmt tick params (insert_user name avatar email));
  st_update_display_name : forall tick params i name,
    preserves (H:=H) P (stmt tick params (update_display_name i name));
  st_update_email : forall tick params i email,
    preserves (H:=H) P (stmt tick params (update_email i email));
  st_insert_identity : forall tick params user p sub email,
    preserves (H:=H) P (stmt tick params (insert_identity user p sub email));
  st_delete_user : forall tick i, preserves (H:=H) P (stmt tick [] (delete_user i));
  st_end_owned_rooms : forall tick i, preserves (H:=H) P (stmt tick [] (end_owned_rooms i));
  st_drop_memberships : forall tick i, preserves (H:=H) P (stmt tick [] (drop_memberships i));
}.

#[export] Instance full_wf_stable {H} : AuthStable (H:=H) full_wf.
Proof.
  split; intros; [apply insert_user_wf|apply update_display_name_wf|apply update_email_wf|
    apply insert_identity_wf|apply delete_user_wf|apply end_owned_rooms_wf|apply drop_memberships_wf].
Qed.

#[export] Instance deleted_stable {H} id : AuthStable (H:=H) (deleted id).
Proof.
  split; intros; [apply insert_user_del|apply update_display_name_del|apply update_email_del|
    apply insert_identity_del|apply delete_user_del|apply end_owned_rooms_del|apply drop_memberships_del].
Qed.

(** Both invariants, for any set of deleted accounts. *)
Definition auth_inv (gone : gset uuid) (t : Tables) : Prop :=
  full_wf t /\ forall id, id ∈ gone -> deleted id t.

Create HintDb auth_wf.
#[export] Hint Resolve ret_preserves throw_preserves check_preserves scan_user_preserves decode_preserves
  authorised_preserves throw_err_preserves select_preserves st_insert_user st_update_display_name
  st_update_email st_insert_identity st_delete_user st_end_owned_rooms st_drop_memberships : auth_wf.

(** Preservation, operation by operation. *)
Ltac keeps_wf :=
  cbv zeta; unfold exec, tx_exec;
  repeat (intros;
    lazymatch goal with
    | |- preserves _ (bind _ _) => apply bind_preserves
    | |- preserves _ (serve _) => apply serve_preserves
    | |- preserves _ (in_tx _) => apply in_tx_keeps
    | |- preserves _ (scan_row _) => apply scan_row_preserves
    | |- preserves _ (on_error _ _) => apply on_error_preserves
    | |- preserves _ (try _) => apply try_preserves
    | |- preserves _ (match _ with _ => _ end) => case_goal
    | |- _ => solve [eauto with auth_wf]
    end).

Section operations.
Context {H : Type} (P : Tables -> Prop) `{!AuthStable (H:=H) P}.

Lemma register_user_stable id : preserves (H:=H) P (register_user id).
Proof. unfold register_user. keeps_wf. Qed.

Lemma tx_load_stable id : preserves (H:=H) P (tx_load id).
Proof. unfold tx_load. keeps_wf. Qed.

Lemma refresh_user_stable id email : preserves (H:=H) P (refresh_user id email).
Proof. unfold refresh_user. keeps_wf. Qed.

#[local] Hint Resolve register_user_stable tx_load_stable refresh_user_stable : auth_wf.

Lemma upsertOAuthUser_stable id : preserves (H:=H) P (upsertOAuthUser id).
Proof. unfold upsertOAuthUser. keeps_wf. Qed.

Lemma LoadUser_stable id : preserves (H:=H) P (LoadUser id).
Proof. unfold LoadUser. keeps_wf. Qed.

Lemma HandlePatchMe_stable ctx req : preserves (H:=H) P (HandlePatchMe ctx req).
Proof. unfold HandlePatchMe. keeps_wf. Qed.

Lemma HandleDeleteAccount_stable {B} ctx : preserves (H:=H) P (HandleDeleteAccount (B:=B) ctx).
Proof. unfold HandleDeleteAccount. keeps_wf. Qed.
End operations.

(** ** Transactions without faults *)

(** The world inside a transaction, after [Begin] and [k] statements. *)
Fixpoint in_txn {H} (k : nat) (w : World H) : World H :=
  match k with 0 => skip 1 w | S k' => advance false (in_txn k' w) end.

Section transactions.
Context {H : Type}.
Implicit Types w : World H.

Lemma in_txn_rt k w : w_rt (in_txn k w) = w_rt w.
Proof. by induction k as [|k IH]. Qed.
Lemma in_txn_env k w : w_env (in_txn k w) = w_env w.
Proof. by induction k as [|k IH]. Qed.
Lemma in_txn_pos k w : w_pos (in_txn k w) = w_pos w + S k.
Proof. induction k as [|k IH]; simpl; [rewrite skip_pos; lia|]. rewrite IH. lia. Qed.
Lemma in_txn_now k w : w_now (in_txn k w) = clock 1 w.
Proof. induction k as [|k IH]; [apply (skip_now 1)|exact IH]. Qed.

Lemma tx_run {A} params (f : Sql A) k t w :
  fault_free w ->
  tx_exec params f (set_db t (in_txn k w)) =
    if forallb pg_text_ok params then
      match f (clock 1 w) (fresh_id (S k) w) t with
      | inl code => (Fail (ErrPg code), set_db t (in_txn (S k) w))
      | inr (a, t') => (Ok a, set_db t' (in_txn (S k) w))
      end
    else (Fail (ErrPg bad_text), set_db t (in_txn (S k) w)).
Proof.
  intros Hw. unfold tx_exec, stmt. change (w_env (set_db t (in_txn k w))) with (w_env (in_txn k w)).
  rewrite in_txn_env, (Hw _). unfold run_sql. simpl.
  rewrite in_txn_now, in_txn_pos. unfold fresh_id.
  destruct (forallb pg_text_ok params); [|done]. by destruct (f _ _ t) as [c|[a t']].
Qed.

Lemma in_tx_obs {A} (body : M H A) w r t' k :
  fault_free w -> body (set_db (w_db w) (in_txn 0 w)) = (r, set_db t' (in_txn k w)) ->
  obs (in_tx body w) =
    match r with Ok a => (Ok a, t', w_rt w) | Fail e => (Fail e, w_db w, w_rt w) end.
Proof.
  intros Hw Hbody. unfold in_tx.
  assert (stmt true [] (select (fun _ : Tables => tt)) w = (Ok tt, set_db (w_db w) (in_txn 0 w))) as ->.
  { unfold stmt. rewrite (Hw _). unfold run_sql. simpl. done. }
  rewrite Hbody. destruct r as [a|e]; [|unfold obs; simpl; by rewrite in_txn_rt].
  change (w_env (set_db t' (in_txn k w))) with (w_env (in_txn k w)). rewrite in_txn_env, (Hw _).
  unfold obs. simpl. by rewrite in_txn_rt.
Qed.

Lemma tx_load_run id k t w :
  fault_free w ->
  tx_load id (set_db t (in_txn k w)) =
    (match select_user id t with Some p => user_of p | None => Fail ErrNoRows end, set_db t (in_txn (S k) w)).
Proof.
  intros Hw. unfold tx_load. rewrite scan_user_row_run, tx_run by done. simpl.
  by destruct (select_user id t).
Qed.
End transactions.

(** ** Deleting an account *)

(** The tables after the account [id] was deleted, with the times its three
    statements see. *)
Definition account_deleted (now1 now2 now3 : time) (id : uuid) (t : Tables) : Tables :=
  set_members (map_imap (fun k m => Some (drop_member now3 id k m)))
    (set_rooms (fmap (end_owned now2 id))
       (match t_users t !! id with
        | Some u => if user_live u then set_users <[id := mark_deleted now1 u]> t else t
        | None => t
        end)).

(** What is left of the account, and what is not touched. *)
Record account_gone (id : uuid) (t t' : Tables) : Prop := {
  ag_user : deleted id t';
  ag_rooms : forall r x, t_rooms t' !! r = Some x -> r_owner_id x = id -> r_ended_at x <> None;
  ag_members : forall r m, t_members t' !! (r, id) = Some m -> m_left_at m <> None;
  ag_others : forall v, v <> id -> t_users t' !! v = t_users t !! v;
  ag_other_rooms : forall r x, t_rooms t !! r = Some x -> r_owner_id x <> id -> t_rooms t' !! r = Some x;
  ag_other_members : forall r v, v <> id -> t_members t' !! (r, v) = t_members t !! (r, v);
  ag_rest : t_markers t' = t_markers t /\ t_stops t' = t_stops t /\ t_messages t' = t_messages t /\
            t_identities t' = t_identities t /\ t_push_tokens t' = t_push_tokens t /\ t_feedback t' = t_feedback t;
}.

Lemma account_deleted_gone n1 n2 n3 id t :
  is_Some (t_users t !! id) -> account_gone id t (account_deleted n1 n2 n3 id t).
Proof.
  intros [u Hu]. unfold account_deleted. rewrite Hu.
  set (t1 := if user_live u then _ else t).
  assert (deleted id t1 /\ (forall v, v <> id -> t_users t1 !! v = t_users t !! v) /\ t_rooms t1 = t_rooms t /\
          t_members t1 = t_members t /\ t_markers t1 = t_markers t /\ t_stops t1 = t_stops t /\
          t_messages t1 = t_messages t /\ t_identities t1 = t_identities t /\
          t_push_tokens t1 = t_push_tokens t /\ t_feedback t1 = t_feedback t)
    as (Hdel & Hother & Hr & Hm & ? & ? & ? & ? & ? & ?).
  { unfold t1, user_live, deleted. destruct (decide (u_deleted_at u = None)) as [Hl|Hl].
    - rewrite bool_decide_eq_true_2 by done. simpl. split; [|split; [|done]].
      + eexists. rewrite lookup_insert_eq. split; [reflexivity|done].
      + intros v Hv. by rewrite lookup_insert_ne.
    - rewrite bool_decide_eq_false_2 by done. split; [by exists u|done]. }
  split; simpl; rewrite ?Hr, ?Hm; try done.
  - intros r x. rewrite lookup_fmap. destruct (t_rooms t !! r) as [y|]; [|done]. intros [= <-].
    unfold end_owned, room_active, set_ended. destruct (decide (r_owner_id y = id)) as [Ho|Ho];
      [rewrite (bool_decide_eq_true_2 _ Ho)|by rewrite (bool_decide_eq_false_2 _ Ho)].
    destruct (decide (r_ended_at y = None)) as [He|He];
      [by rewrite (bool_decide_eq_true_2 _ He)|by rewrite (bool_decide_eq_false_2 _ He)].
  - intros r m. rewrite map_lookup_imap. destruct (t_members t !! (r, id)) as [y|]; [|done]. intros [= <-].
    unfold drop_member, member_present, mark_kicked. simpl. rewrite bool_decide_eq_true_2 by done.
    destruct (decide (m_left_at y = None)) as [He|He];
      [by rewrite (bool_decide_eq_true_2 _ He)|by rewrite (bool_decide_eq_false_2 _ He)].
  - intros r x Hx Ho. rewrite lookup_fmap, Hx. simpl. unfold end_owned.
    by rewrite (bool_decide_eq_false_2 _ Ho).
  - intros r v Hv. rewrite map_lookup_imap. destruct (t_members t !! (r, v)) as [y|]; [|done]. simpl.
    unfold drop_member. simpl. by rewrite (bool_decide_eq_false_2 _ Hv).
Qed.

(** The three statements of the deletion. *)
Lemma deletion_ok {H} id (w w' : World H) a :
  (tx_exec [] (delete_user id) ;;; tx_exec [] (end_owned_rooms id) ;;; tx_exec [] (drop_memberships id)) w =
    (Ok a, w') ->
  exists now1 now2 now3, w_db w' = account_deleted now1 now2 now3 id (w_db w).
Proof.
  intros Hrun. apply bind_ok in Hrun as ([] & w1 & H1 & Hrun). apply bind_ok in Hrun as ([] & w2 & H2 & H3).
  apply stmt_ok in H1 as (n1 & i1 & H1 & _), H2 as (n2 & i2 & H2 & _), H3 as (n3 & i3 & H3 & _).
  exists n1, n2, n3. unfold account_deleted, delete_user, end_owned_rooms, drop_memberships in *.
  injection H3 as _ <-. injection H2 as <-.
  destruct (t_users (w_db w) !! id) as [u|]; [destruct (user_live u)|]; injection H1 as <-; done.
Qed.

Lemma deletion_run {H} id (w : World H) :
  fault_free w -> exists t',
  (tx_exec [] (delete_user id) ;;; tx_exec [] (end_owned_rooms id) ;;; tx_exec [] (drop_memberships id))
    (set_db (w_db w) (in_txn 0 w)) = (Ok tt, set_db t' (in_txn 3 w)).
Proof.
  intros Hw. eexists. rewrite bind_unfold, tx_run by done. cbn [forallb]. unfold delete_user at 1.
  assert (forall t, (tx_exec [] (end_owned_rooms id) ;;; tx_exec [] (drop_memberships id)) (set_db t (in_txn 1 w)) =
    (Ok tt, set_db (set_members (map_imap (fun k m => Some (drop_member (clock 1 w) id k m)))
              (set_rooms (fmap (end_owned (clock 1 w) id)) t)) (in_txn 3 w))) as Hrest.
  { intros t. rewrite bind_unfold, tx_run by done. cbn [forallb]. unfold end_owned_rooms at 1. cbv beta iota.
    rewrite tx_run by done. reflexivity. }
  instantiate (1 := account_deleted (clock 1 w) (clock 1 w) (clock 1 w) id (w_db w)). unfold account_deleted.
  destruct (t_users (w_db w) !! id) as [x|]; [destruct (user_live x)|]; apply Hrest.
Qed.

(** ** What a computation can fail with *)

Definition raises {H A} (Q : error -> Prop) (m : M H A) : Prop :=
  forall w e w', m w = (Fail e, w') -> Q e.

(** An error of the database or the driver: [httpx.WriteErr] answers 500. *)
Definition db_error (e : error) : Prop :=
  match e with ErrAPI _ => False | _ => True end.

Section raising.
Context {H : Type} (Q : error -> Prop).

Lemma ret_raises {A} (a : A) : raises (H:=H) Q (ret a).
Proof. done. Qed.

Lemma throw_raises {A} e : Q e -> raises (H:=H) Q (throw (A:=A) e).
Proof. by intros HQ w e' w' [= <- _]. Qed.

Lemma bind_raises {A B} (m : M H A) (k : A -> M H B) :
  raises Q m -> (forall a, raises Q (k a)) -> raises Q (bind m k).
Proof.
  intros Hm Hk w e w'. unfold bind. destruct (m w) as [[a|x] w1] eqn:E; [apply Hk|].
  intros [= <- _]. by eapply Hm.
Qed.

Lemma try_raises {A} (m : M H A) : raises Q (try m).
Proof. by intros w e w'. Qed.
End raising.

Lemma bind_fail {H A B} (m : M H A) (k : A -> M H B) w e w' :
  bind m k w = (Fail e, w') -> m w = (Fail e, w') \/ exists a w1, m w = (Ok a, w1) /\ k a w1 = (Fail e, w').
Proof.
  unfold bind. destruct (m w) as [[a|x] w1]; [intros Hk; right; by exists a, w1|].
  intros [= -> ->]. by left.
Qed.

Lemma stmt_raises {H A} tick params (f : Sql A) : raises (H:=H) db_error (stmt tick params f).
Proof.
  intros w e w'. unfold stmt, run_sql. repeat case_match; intros [= <- _]; done.
Qed.

(** A statement itself never answers [pgx.ErrNoRows]. *)
Lemma stmt_raises_not_rows {H A} tick params (f : Sql A) (w w' : World H) :
  stmt tick params f w = (Fail ErrNoRows, w') -> False.
Proof. unfold stmt, run_sql. repeat case_match; by intros [=]. Qed.

Lemma scan_row_raises {H A} (m : M H (option A)) : raises db_error m -> raises db_error (scan_row m).
Proof. intros Hm. apply bind_raises; [done|]. by intros [a|]; [apply ret_raises|apply throw_raises]. Qed.

Lemma scan_user_raises {H} p : raises (H:=H) db_error (scan_user p).
Proof. unfold scan_user. by destruct (Scan _); [apply ret_raises|apply throw_raises]. Qed.

Lemma in_tx_raises {H A} (body : M H A) : raises db_error body -> raises db_error (in_tx body).
Proof.
  intros Hb w e w'. unfold in_tx. destruct (stmt true [] _ w) as [[[]|x] w1] eqn:E.
  - destruct (body w1) as [[a|x] w2] eqn:E2; [destruct (si_fault _); intros [= <- _]; done|].
    intros [= <- _]. by eapply Hb.
  - intros [= <- _]. by eapply stmt_raises.
Qed.

Lemma tx_load_raises {H} id : raises (H:=H) db_error (tx_load id).
Proof. apply bind_raises; [apply scan_row_raises, stmt_raises|apply scan_user_raises]. Qed.

Lemma register_user_raises {H} id : raises (H:=H) db_error (register_user id).
Proof.
  unfold register_user. apply bind_raises; [apply scan_row_raises, stmt_raises|intros p].
  apply bind_raises; [apply stmt_raises|intros _; apply ret_raises].
Qed.

Lemma tx_failed {H A} (m : M H A) : raises db_error m -> forall w e w', m w = (Fail e, w') -> db_error (after_failed e).
Proof. intros Hm w e w' Hrun%Hm. by destruct e. Qed.

(** The sign-in fails with nothing that [httpx.WriteErr] gives a status. *)
Lemma upsertOAuthUser_raises {H} id : raises (H:=H) db_error (upsertOAuthUser id).
Proof.
  apply in_tx_raises. intros w e w' Hrun. apply bind_fail in Hrun as [Hrun|(found & w1 & Hf & Hrun)]; [done|].
  unfold try in Hf. injection Hf as Hf _.
  pose proof (scan_row_raises (tx_exec (H:=H) [Id_Provider id; Id_Subject id]
    (select (find_identity (Id_Provider id) (Id_Subject id)))) (stmt_raises _ _ _)) as Hsel.
  assert (forall x, found = Fail x -> db_error x) as Hfound.
  { intros x ->. destruct (scan_row _ w) as [r w2] eqn:E. simpl in Hf. subst r. by eapply Hsel. }
  destruct found as [uid|x].
  - apply bind_fail in Hrun as [Hrun|(r & w2 & Hr & Hrun)].
    { unfold refresh_user in Hrun. by destruct (bool_decide _). }
    destruct r as [[]|x]; [by eapply tx_load_raises|].
    injection Hrun as <- _. unfold refresh_user in Hr. destruct (bool_decide _); [done|].
    unfold try in Hr. injection Hr as Hr _.
    destruct (tx_exec [Id_Email id] _ w1) as [r w3] eqn:E. simpl in Hr. subst r.
    by eapply tx_failed; [apply stmt_raises|exact E].
  - specialize (Hfound x eq_refl). destruct x; try (by injection Hrun as <- _).
    revert Hrun. apply bind_raises; [apply register_user_raises|apply tx_load_raises].
Qed.

(** ** The account behind an identity *)

(** The provider's subject signs in as user [u]. *)
Definition identity_of (p sub : string) (u : uuid) (t : Tables) : Prop :=
  exists i x, t_identities t !! i = Some x /\ i_provider x = p /\ i_subject x = sub /\ i_user_id x = u.

Lemma identity_of_found p sub u t : accounts_wf t -> identity_of p sub u t -> find_identity p sub t = Some u.
Proof. intros Hwf (i & x & Hx & Hp & Hs & <-). by eapply find_identity_spec. Qed.

#[export] Instance identity_of_stable {H} p sub u : AuthStable (H:=H) (identity_of p sub u).
Proof.
  split; intros; apply stmt_preserves; intros now x t a t' Hid; unfold insert_user, update_display_name,
    update_email, delete_user, end_owned_rooms, drop_memberships;
    try (repeat case_goal; intros [= <- <-] || intros [=]; exact Hid).
  unfold insert_identity. destruct (negb (contains _ _)); [done|].
  destruct (has (t_identities t) x) eqn:Hx; [done|]. destruct (bool_decide _); [done|].
  destruct (has (t_users t) _); [|done]. intros [= <- <-]. destruct Hid as (i & y & Hy & ?).
  exists i, y. simpl. rewrite lookup_insert_ne; [done|]. intros <-. apply has_false in Hx. congruence.
Qed.

(** Two kept properties are kept together. *)
#[export] Instance and_stable {H} P Q :
  AuthStable (H:=H) P -> AuthStable (H:=H) Q -> AuthStable (H:=H) (fun t => P t /\ Q t).
Proof.
  intros HP HQ.
  assert (forall A (m : M H A), preserves P m -> preserves Q m -> preserves (fun t => P t /\ Q t) m) as Hand.
  { intros A m H1 H2 w [Hp Hq]. split; [by apply H1|by apply H2]. }
  split; intros; apply Hand; (apply HP || apply HQ).
Qed.

(** The body of the transaction never gets to [Commit] for a deleted user. *)
Lemma upsert_deleted {H} id u (w : World H) :
  accounts_wf (w_db w) -> identity_of (Id_Provider id) (Id_Subject id) u (w_db w) -> deleted u (w_db w) ->
  exists e w', upsertOAuthUser id w = (Fail e, w') /\ w_db w' = w_db w /\ db_error e.
Proof.
  intros Hwf Hid Hdel. pose proof (upsertOAuthUser_raises id w) as Herr. unfold upsertOAuthUser in *.
  match goal with |- context [in_tx ?b w] => set (body := b) in * end.
  destruct (in_tx_atomic body w) as [(e & He & Hdb)|(w1 & a & w2 & Hw1 & Hb & _)].
  { destruct (in_tx body w) as [r w']. simpl in *. subst r. exists e, w'. split; [done|]. split; [done|].
    by eapply Herr. }
  exfalso. rewrite <-Hw1 in Hwf, Hid, Hdel. pose proof (identity_of_found _ _ _ _ Hwf Hid) as Hfind.
  unfold body in Hb. apply bind_ok in Hb as (found & w3 & Hf & Hb). unfold try in Hf. injection Hf as Hf Hw3.
  assert (w_db w3 = w_db w1) as Hdb3.
  { rewrite <-Hw3. apply scan_row_read_only, select_read_only. }
  destruct (scan_row (tx_exec [Id_Provider id; Id_Subject id] _) w1) as [r w4] eqn:Hs. simpl in *. subst r w4.
  destruct found as [v|e].
  - unfold scan_row in Hs. apply bind_ok in Hs as ([v'|] & w4 & Hs & Hv); [|done].
    apply ret_ok in Hv as [-> ->]. apply stmt_ok in Hs as (now & i & Hs & _). unfold select in Hs.
    injection Hs as Hs _. assert (v = u) as -> by congruence.
    apply bind_ok in Hb as (r & w4 & Hr & Hb).
    assert (deleted u (w_db w4)) as Hdel4.
    { pose proof (refresh_user_stable (H:=H) (deleted u) u (Id_Email id) w3) as Hst. rewrite Hr in Hst.
      apply Hst. by rewrite Hdb3. }
    destruct r as [[]|e]; [|done]. unfold tx_load in Hb. rewrite scan_user_row_run in Hb.
    destruct (tx_exec [] (select (select_user u)) w4) as [[[p|]|e] w5] eqn:Hl; try done.
    apply stmt_ok in Hl as (n & j & Hl & _). unfold select in Hl. injection Hl as Hl _.
    by rewrite (deleted_select u) in Hl.
  - destruct e; try done. unfold scan_row in Hs.
    apply bind_fail in Hs as [Hs|([v|] & w4 & Hs & Hv)]; [by apply stmt_raises_not_rows in Hs|done|].
    apply stmt_ok in Hs as (n & j & Hs & _). unfold select in Hs. injection Hs as Hs _. congruence.
Qed.
