(* ===== verification/AuthProps.v ===== *)
(** * What the auth service guarantees

    Names, sign-in, deletion of accounts, tokens. *)
From stdpp Require Import base gmap sets list strings sorting.
From Stdlib Require Import ZArith Lia Ascii DecimalString DecimalN DecimalPos.
From S2P Require Import Prelude.
From S2P Require Import GoString.
From S2P Require Import Httpx.
From S2P Require Import Types.
From S2P Require Import Db.
From S2P Require Import Store.
From S2P Require Import StoreFacts.
From S2P Require Import Broadcaster.
From S2P Require Import Service.
From S2P Require Import ServiceFacts.
From S2P Require Import Runs.
From S2P Require Import Samples.
From S2P Require Import TextProps.
From S2P Require Import Providers.
From S2P Require Import Auth.
From S2P Require Import AuthFacts.

Open Scope convoy_scope.

Section requests.
Context {H : Type}.
Variable uuid_String : uuid -> string.
Variable uuid_Parse : string -> option uuid.
Variable jwt_SignedString : signing_method -> string -> MapClaims -> option string.
Variable jwt_Parse : string -> (signing_method -> option string) -> time -> option MapClaims.
Context {Keyfunc : Type}.
Variable ParseWithClaims : Keyfunc -> list string -> time -> string -> option MapClaims.
Variable GetExpirationTime : MapClaims -> option time.
Variable s : Service (Keyfunc:=Keyfunc).

(** The requests the service answers, as [main] routes them. *)
Inductive auth_call :=
| CallGuest (now now' : time) (req : decoded guestRequest)
| CallGoogle (now now' : time) (req : decoded oauthRequest)
| CallApple (now now' : time) (req : decoded oauthRequest)
| CallMe (header : string) (now : time)
| CallPatchMe (header : string) (now : time) (req : decoded updateProfileRequest)
| CallDeleteAccount (header : string) (now : time).

Definition status {B} (m : M H (reply B)) : M H Z := r <- m ;; ret (reply_status r).

Definition through {B} (header : string) (now : time) (next : option User -> M H (reply B)) : M H (reply B) :=
  Middleware uuid_Parse jwt_Parse s header now next.

Definition auth_exec (c : auth_call) : M H Z :=
  match c with
  | CallGuest now now' req => status (HandleGuest uuid_String jwt_SignedString s now now' req)
  | CallGoogle now now' req =>
      status (HandleGoogle uuid_String jwt_SignedString ParseWithClaims GetExpirationTime s now now' req)
  | CallApple now now' req =>
      status (HandleApple uuid_String jwt_SignedString ParseWithClaims GetExpirationTime s now now' req)
  | CallMe header now => status (through header now HandleMe)
  | CallPatchMe header now req => status (through header now (fun ctx => HandlePatchMe ctx req))
  | CallDeleteAccount header now => status (through (B:=unit) header now HandleDeleteAccount)
  end.

Definition run_auth (calls : list auth_call) (w : World H) : World H :=
  foldl (fun w c => (auth_exec c w).2) w calls.

Section stable.
Variable P : Tables -> Prop.
Context `{!AuthStable (H:=H) P}.

Lemma HandleGuest_stable now now' req :
  preserves (H:=H) P (HandleGuest uuid_String jwt_SignedString s now now' req).
Proof. unfold HandleGuest. keeps_wf. Qed.

Lemma handleOAuth_stable verify now now' req :
  preserves (H:=H) P (handleOAuth uuid_String jwt_SignedString s verify now now' req).
Proof.
  pose proof (upsertOAuthUser_stable (H:=H) P). unfold handleOAuth. keeps_wf.
Qed.

Lemma Middleware_stable {B} header now (next : option User -> M H (reply B)) :
  (forall ctx, preserves P (next ctx)) -> preserves P (through header now next).
Proof.
  intros Hnext. pose proof (LoadUser_stable (H:=H) P). unfold through, Middleware. keeps_wf.
Qed.

Lemma auth_exec_stable c : preserves P (auth_exec c).
Proof.
  destruct c; simpl; (apply bind_preserves; [|intros; apply ret_preserves]).
  - apply HandleGuest_stable.
  - unfold HandleGoogle. case_goal; [apply handleOAuth_stable|apply ret_preserves].
  - unfold HandleApple. case_goal; [apply handleOAuth_stable|apply ret_preserves].
  - apply Middleware_stable. intros ctx. unfold HandleMe. keeps_wf.
  - apply Middleware_stable. intros ctx. apply (HandlePatchMe_stable P).
  - apply Middleware_stable. intros ctx. apply (HandleDeleteAccount_stable P).
Qed.

Lemma run_auth_stable calls w : P (w_db w) -> P (w_db (run_auth calls w)).
Proof.
  revert w. induction calls as [|c calls IH]; intros w HP; [done|]. by apply IH, auth_exec_stable.
Qed.
End stable.

(** Every sequence of requests to the auth service keeps the schema
    invariant, the identities of different accounts apart, and the deleted
    accounts deleted, whatever statements fail. *)
Theorem auth_keeps_schema calls w gone :
  auth_inv gone (w_db w) -> auth_inv gone (w_db (run_auth calls w)).
Proof.
  intros [Hwf Hgone]. split; [by apply run_auth_stable; [apply _|]|].
  intros id Hid. by apply run_auth_stable; [apply _|apply Hgone].
Qed.
(** ** Names *)

Definition internal_error {B} : reply B := mkReply 500 (ErrorBody ErrInternal).

Lemma clip40_length n : go_len (clip40 n) <= 40.
Proof.
  unfold clip40, go_len, byte_prefix. destruct (Nat.ltb_spec 40 (length (to_bytes n))); [|done].
  rewrite to_of_bytes, length_take. lia.
Qed.

Lemma HandleGuest_run now now' req (w : World H) :
  fault_free w ->
  let name := TrimSpace (Guest_DisplayName (dec_value req)) in
  let avatar := Guest_AvatarURL (dec_value req) in
  let id := fresh_id 0 w in
  obs (HandleGuest uuid_String jwt_SignedString s now now' req w) =
    match dec_error req with
    | Some m => (Ok (WriteErr (ErrAPI (Err 400 "invalid_body" m))), w_db w, w_rt w)
    | None =>
        if bool_decide (name = "") then (Ok (WriteErr (ErrAPI ErrNameRequired)), w_db w, w_rt w)
        else if negb (forallb pg_text_ok (clip40 name :: opt_text avatar)) || has (t_users (w_db w)) id
        then (Ok internal_error, w_db w, w_rt w)
        else (Ok (match Issue uuid_String jwt_SignedString s id now now' with
                  | inl tok => JSON 201 (mkTokenResponse tok (mkUser id (clip40 name) avatar None (Some [])))
                  | inr e => WriteErr e
                  end),
              set_users <[id := mkUserRow (clip40 name) avatar (clock 1 w) None (JObj []) None]> (w_db w), w_rt w)
    end.
Proof.
  intros Hw name avatar id. unfold HandleGuest. rewrite serve_decode. unfold Decode.
  destruct (dec_error req) as [m|]; cbn [fmap option_fmap option_map]; [done|].
  rewrite serve_check. fold name avatar. destruct (bool_decide (name = "")); [done|]. run_start w.
  rewrite scan_row_bind_serve, exec_run by done.
  destruct (forallb pg_text_ok (clip40 name :: opt_text avatar)); [|by rewrite refused_skip].
  unfold insert_user. fold id. destruct (has (t_users (w_db w)) id); [by rewrite refused_skip|].
  cbn [negb orb]. rewrite (serve_bind _ _ _ _ (scan_user_run _ _)). cbn [user_of Scan u_entitlements snd].
  erewrite serve_obs by (rewrite throw_err_run; apply obs_set_db).
  by destruct (Issue _ _ _ _ _ _).
Qed.

(** A guest account: a body that does not decode and a blank name are
    refused with 400; otherwise the name, cut to 40 bytes, and the avatar are
    stored under the fresh identifier with an empty entitlement object, no email
    and no deletion mark, and the reply carries the row and its token; a text
    the database does not take is answered 500 and stores nothing. *)
Theorem guest_spec now now' req (w : World H) :
  fault_free w ->
  let name := TrimSpace (Guest_DisplayName (dec_value req)) in
  let avatar := Guest_AvatarURL (dec_value req) in
  let id := fresh_id 0 w in
  go_len (clip40 name) <= 40 /\
  obs (HandleGuest uuid_String jwt_SignedString s now now' req w) =
    match dec_error req with
    | Some m => (Ok (WriteErr (ErrAPI (Err 400 "invalid_body" m))), w_db w, w_rt w)
    | None =>
        if bool_decide (name = "") then (Ok (WriteErr (ErrAPI ErrNameRequired)), w_db w, w_rt w)
        else if negb (forallb pg_text_ok (clip40 name :: opt_text avatar)) || has (t_users (w_db w)) id
        then (Ok internal_error, w_db w, w_rt w)
        else (Ok (match Issue uuid_String jwt_SignedString s id now now' with
                  | inl tok => JSON 201 (mkTokenResponse tok (mkUser id (clip40 name) avatar None (Some [])))
                  | inr e => WriteErr e
                  end),
              set_users <[id := mkUserRow (clip40 name) avatar (clock 1 w) None (JObj []) None]> (w_db w), w_rt w)
    end.
Proof. intros Hw name avatar id. split; [apply clip40_length|by apply HandleGuest_run]. Qed.

(** Thirty-nine letters and one that takes two bytes. *)
Definition forty_letters : string := "aaaaaaaaaabbbbbbbbbbccccccccccdddddddddé".

(** The cut is by bytes and can fall inside a letter: a valid name of 40
    letters that a profile update would store as it is makes the registration
    of a guest fail with 500. *)
Theorem guest_name_cut :
  RuneCountInString forty_letters = 40 /\ pg_text_ok forty_letters = true /\
  trim_text 40 (Some forty_letters) = Some forty_letters /\
  forall now now' (w : World H), fault_free w ->
    obs (HandleGuest uuid_String jwt_SignedString s now now'
           (mkDecoded (mkGuestRequest forty_letters None) None) w) =
      (Ok internal_error, w_db w, w_rt w).
Proof.
  split; [by vm_compute|]. split; [by vm_compute|]. split; [by vm_compute|].
  intros now now' w Hw. rewrite HandleGuest_run by done. cbn [dec_error dec_value Guest_DisplayName Guest_AvatarURL].
  assert (TrimSpace forty_letters = forty_letters) as -> by by vm_compute.
  assert (pg_text_ok (clip40 forty_letters) = false) as Hcut by by vm_compute.
  rewrite bool_decide_eq_false_2 by done. cbn [forallb opt_text]. by rewrite Hcut.
Qed.

Lemma patch_row_run id v k t (w : World H) :
  fault_free w -> pg_text_ok v = true ->
  on_error (fun e => match e with ErrNoRows => ErrAPI ErrUnauthorized | _ => e end)
    (p <- scan_row (exec [v] (update_display_name id v)) ;; scan_user p) (set_db t (skip k w)) =
    match select_user id t with
    | None => (Fail (ErrAPI ErrUnauthorized), set_db t (skip (S k) w))
    | Some p => (user_of (p.1, set_display_name v p.2),
                 set_db (set_users <[id := set_display_name v p.2]> t) (skip (S k) w))
    end.
Proof.
  intros Hw Hv. unfold on_error, catch. rewrite scan_user_row_run, exec_run by done. cbn [forallb].
  rewrite Hv. cbn [andb]. unfold update_display_name, select_user.
  destruct (t_users t !! id) as [row|]; [simpl; destruct (user_live row)|]; try done.
  unfold user_of. cbn [fst snd]. set (sc := Scan _). by destruct sc.
Qed.

Lemma HandlePatchMe_run u req v (w : World H) :
  fault_free w -> pg_text_ok (Profile_DisplayName (dec_value req)) = true ->
  dec_error req = None -> trim_text 40 (Some (Profile_DisplayName (dec_value req))) = Some v ->
  2 <= RuneCountInString v ->
  obs (HandlePatchMe (Some u) req w) =
    match select_user (U_ID u) (w_db w) with
    | None => (Ok (WriteErr (ErrAPI ErrUnauthorized)), w_db w, w_rt w)
    | Some p =>
        (Ok (answer (match user_of (p.1, set_display_name v p.2) with Ok u' => Ok (JSON 200 u') | Fail e => Fail e end)),
         set_users <[U_ID u := set_display_name v p.2]> (w_db w), w_rt w)
    end.
Proof.
  intros Hw Htext Hdec Hv Hlen. pose proof (trim_text_storable _ _ _ Htext Hv) as Hok.
  unfold HandlePatchMe. rewrite serve_authorised, serve_decode. unfold Decode. rewrite Hdec.
  cbn [fmap option_fmap option_map]. cbv zeta. revert Hv. unfold trim_text.
  set (name := TrimSpace _). rewrite serve_check. destruct (bool_decide (name = "")); [done|].
  intros Hv. assert ((if 40 <? RuneCountInString name then rune_prefix 40 name else name) = v) as Hv'
    by (destruct (40 <? _); congruence). clear Hv. rewrite serve_check.
  assert ((RuneCountInString name <? 2) = false) as ->.
  { apply Nat.ltb_ge. destruct (Nat.ltb_spec 40 (RuneCountInString name)); [lia|by subst v]. }
  rewrite Hv'. run_start w. rewrite (serve_bind _ _ _ _ (patch_row_run _ _ _ _ _ Hw Hok)).
  destruct (select_user (U_ID u) (w_db w)) as [p|]; [|by rewrite refused_skip].
  destruct (user_of _) as [u'|e]; [|by rewrite refused_skip].
  rewrite serve_run. unfold obs. simpl. by rewrite skip_rt.
Qed.

(** A profile update with a text the database takes stores the first 40
    letters of the trimmed name, which are valid and at least 2, in the row of
    a live user and nowhere else, and answers that row; a blank or one-letter
    name is refused with 400, a deleted or missing user with 401, and nothing
    is stored then. *)
Theorem patch_me_spec u req (w : World H) :
  fault_free w -> dec_error req = None ->
  pg_text_ok (Profile_DisplayName (dec_value req)) = true ->
  match trim_text 40 (Some (Profile_DisplayName (dec_value req))) with
  | None => obs (HandlePatchMe (Some u) req w) = refused (ErrAPI ErrNameRequired) w
  | Some v =>
      if RuneCountInString v <? 2
      then obs (HandlePatchMe (Some u) req w) = refused (ErrAPI ErrNameTooShort) w
      else
        (RuneCountInString v <= 40 /\ ValidString v = true) /\
        obs (HandlePatchMe (Some u) req w) =
          match select_user (U_ID u) (w_db w) with
          | None => refused (ErrAPI ErrUnauthorized) w
          | Some p =>
              (Ok (answer (match user_of (p.1, set_display_name v p.2) with
                           | Ok u' => Ok (JSON 200 u')
                           | Fail e => Fail e
                           end)),
               set_users <[U_ID u := set_display_name v p.2]> (w_db w), w_rt w)
          end
  end.
Proof.
  intros Hw Hdec Htext.
  assert (ValidString (Profile_DisplayName (dec_value req)) = true) as Hvalid.
  { unfold pg_text_ok in Htext. by apply andb_true_iff in Htext as [? _]. }
  destruct (trim_text 40 _) as [v|] eqn:Hv.
  - destruct (Nat.ltb_spec (RuneCountInString v) 2) as [Hlt|Hge].
    + unfold HandlePatchMe. rewrite serve_authorised, serve_decode. unfold Decode. rewrite Hdec.
      cbn [fmap option_fmap option_map]. cbv zeta. revert Hv. unfold trim_text.
      set (name := TrimSpace _). rewrite serve_check. destruct (bool_decide (name = "")); [done|].
      intros Hv. rewrite serve_check.
      assert ((RuneCountInString name <? 2) = true) as ->; [|done]. apply Nat.ltb_lt.
      destruct (Nat.ltb_spec 40 (RuneCountInString name)) as [Hlong|]; [|by injection Hv as ->].
      injection Hv as <-. rewrite rune_prefix_count in Hlt. lia.
    + split; [|by apply HandlePatchMe_run]. split; [|by eapply trim_text_valid].
      by apply (trim_text_bounds 40 (Profile_DisplayName (dec_value req))); [lia|..].
  - unfold HandlePatchMe. rewrite serve_authorised, serve_decode. unfold Decode. rewrite Hdec.
    cbn [fmap option_fmap option_map]. cbv zeta. revert Hv. unfold trim_text.
    set (name := TrimSpace _). rewrite serve_check. destruct (bool_decide (name = "")); [done|].
    by destruct (40 <? _).
Qed.

(** ** Deletion *)

Lemma deleted_refused id (w : World H) : deleted id (w_db w) -> exists e, (LoadUser id w).1 = Fail e.
Proof.
  intros Hd. destruct (LoadUser id w) as [[u|e] w'] eqn:Hrun; [|by exists e]. exfalso.
  unfold LoadUser, on_error, catch in Hrun. rewrite scan_user_row_run in Hrun.
  destruct (exec [] (select (select_user id)) w) as [[[p|]|e] w1] eqn:He; [|done|by destruct e].
  apply stmt_ok in He as (now & i & Hs & _). unfold select in Hs. injection Hs as Hs _.
  by rewrite (deleted_select id) in Hs.
Qed.

(** C13 Deleting an account is all or nothing: either nothing happened and the
    reply is an error, or the user is marked, every room the user owns is ended
    and every membership of the user left, while other users, their rooms,
    memberships and the rest stay as they were; only a lost answer of the
    commit hides a success.  From then on no sequence of requests to the auth
    service makes the account load again, whatever fails. *)
Theorem account_deletion u calls (w : World H) :
  is_Some (t_users (w_db w) !! U_ID u) ->
  let '(r, w') := HandleDeleteAccount (B:=unit) (Some u) w in
  w_rt w' = w_rt w /\
  ((w_db w' = w_db w /\ exists e, r = Ok (WriteErr e)) \/
   ((r = Ok NoContent \/ r = Ok (WriteErr ErrConn)) /\
    account_gone (U_ID u) (w_db w) (w_db w') /\
    exists e, (LoadUser (U_ID u) (run_auth calls w')).1 = Fail e)) /\
  (fault_free w -> r = Ok NoContent).
Proof.
  intros Hu.
  set (body := tx_exec (H:=H) [] (delete_user (U_ID u)) ;;; tx_exec [] (end_owned_rooms (U_ID u)) ;;;
               tx_exec [] (drop_memberships (U_ID u))).
  assert (HandleDeleteAccount (B:=unit) (Some u) w =
    (match (in_tx body w).1 with Ok _ => Ok NoContent | Fail e => Ok (WriteErr e) end, (in_tx body w).2)) as Hserve.
  { unfold HandleDeleteAccount. rewrite serve_run. unfold authorised. rewrite !bind_unfold. cbn [ret]. fold body. rewrite !bind_unfold.
    by destruct (in_tx body w) as [[[]|e] w1]. }
  rewrite Hserve. split; [|split].
  - apply in_tx_rt_silent. apply bind_rt_silent; [apply stmt_rt|intros _].
    apply bind_rt_silent; [apply stmt_rt|intros _]. apply stmt_rt.
  - destruct (in_tx_atomic body w) as [(e & He & Hdb)|(w1 & [] & w2 & Hw1 & Hb & Hdb & Hres)].
    { left. rewrite He. eauto. }
    right. assert (account_gone (U_ID u) (w_db w) (w_db (in_tx body w).2)) as Hgone.
    { apply deletion_ok in Hb as (n1 & n2 & n3 & Hb). rewrite Hdb, Hb, Hw1. by apply account_deleted_gone. }
    split; [by destruct Hres as [->| ->]; [left|right]|]. split; [done|].
    apply deleted_refused, run_auth_stable; [apply _|]. apply Hgone.
  - intros Hw. destruct (deletion_run (U_ID u) w Hw) as [t' Hb]. fold body in Hb.
    pose proof (in_tx_obs body w _ _ _ Hw Hb) as Hobs. unfold obs in Hobs. by injection Hobs as -> _ _.
Qed.

(** ** Sign-in with a provider *)

(** A deleted account that signed in with a provider is locked out for good:
    after any sequence of requests every later sign-in of that subject is
    answered 500 and stores nothing, instead of a 401 or a fresh account,
    whatever fails. *)
Theorem deleted_account_locked_out calls u id verify now now' req (w : World H) :
  full_wf (w_db w) -> deleted u (w_db w) -> identity_of (Id_Provider id) (Id_Subject id) u (w_db w) ->
  dec_error req = None -> verify (OAuth_IDToken (dec_value req)) = inl id ->
  let w1 := run_auth calls w in
  let '(r, w2) := handleOAuth uuid_String jwt_SignedString s verify now now' req w1 in
  r = Ok internal_error /\ w_db w2 = w_db w1.
Proof.
  intros Hwf Hdel Hid Hdec Hver w1.
  assert (full_wf (w_db w1) /\ deleted u (w_db w1) /\ identity_of (Id_Provider id) (Id_Subject id) u (w_db w1))
    as ([_ Hwf1] & Hdel1 & Hid1)
    by by apply (run_auth_stable (fun t => full_wf t /\ deleted u t /\ identity_of _ _ u t)).
  clearbody w1. clear w Hwf Hdel Hid. unfold handleOAuth. rewrite serve_run, bind_unfold, decode_run.
  unfold Decode. rewrite Hdec. cbn [fmap option_fmap option_map]. rewrite Hver, bind_unfold.
  destruct (upsert_deleted (fill_identity id (dec_value req)) u w1 Hwf1 Hid1 Hdel1) as (e & w' & -> & Hdb & He).
  split; [|done]. simpl. by destruct e.
Qed.

Lemma upsert_select_run id (w : World H) :
  fault_free w -> pg_text_ok (Id_Provider id) = true -> pg_text_ok (Id_Subject id) = true ->
  try (scan_row (tx_exec [Id_Provider id; Id_Subject id]
         (select (find_identity (Id_Provider id) (Id_Subject id))))) (set_db (w_db w) (in_txn 0 w)) =
    (Ok (match find_identity (Id_Provider id) (Id_Subject id) (w_db w) with
         | Some u => Ok u | None => Fail ErrNoRows end), set_db (w_db w) (in_txn 1 w)).
Proof.
  intros Hw Hp Hs. unfold try, scan_row. rewrite bind_unfold, tx_run by done. cbn [forallb]. rewrite Hp, Hs.
  cbn [andb]. unfold select. by destruct (find_identity _ _ _).
Qed.

(** The tables after a sign-in of user [u] whose provider sends [email]. *)
Definition email_refreshed (u : uuid) (email : string) (t : Tables) : Tables :=
  match t_users t !! u with
  | Some row => if bool_decide (email = "") || bool_decide (u_email row = Some email) then t
                else set_users <[u := set_email email row]> t
  | None => t
  end.

Lemma upsert_found_run id u (w : World H) :
  fault_free w -> pg_text_ok (Id_Provider id) = true -> pg_text_ok (Id_Subject id) = true ->
  pg_text_ok (Id_Email id) = true ->
  find_identity (Id_Provider id) (Id_Subject id) (w_db w) = Some u ->
  obs (upsertOAuthUser id w) =
    match select_user u (email_refreshed u (Id_Email id) (w_db w)) with
    | Some p => match user_of p with
                | Ok x => (Ok x, email_refreshed u (Id_Email id) (w_db w), w_rt w)
                | Fail e => (Fail e, w_db w, w_rt w)
                end
    | None => (Fail ErrNoRows, w_db w, w_rt w)
    end.
Proof.
  intros Hw Hp Hs He Hf. unfold upsertOAuthUser.
  assert (exists k, refresh_user u (Id_Email id) (set_db (w_db w) (in_txn 1 w)) =
    (Ok (Ok tt), set_db (email_refreshed u (Id_Email id) (w_db w)) (in_txn k w))) as [k Hr].
  { unfold refresh_user, email_refreshed. destruct (bool_decide (Id_Email id = "")).
    - exists 1. by destruct (t_users (w_db w) !! u).
    - exists 2. unfold try. rewrite tx_run by done. cbn [forallb]. rewrite He. cbn [andb orb]. unfold update_email.
      destruct (t_users (w_db w) !! u) as [row|]; [|done]. by destruct (bool_decide _). }
  erewrite in_tx_obs; [|done|]. 2:{
    rewrite bind_unfold, upsert_select_run, Hf by done. cbv iota beta. rewrite bind_unfold, Hr.
    apply tx_load_run. done. }
  destruct (select_user u _) as [p|]; [|done]. by destruct (user_of p).
Qed.

Lemma upsert_new_run id (w : World H) :
  fault_free w -> forallb pg_text_ok [Id_Provider id; Id_Subject id; Id_DisplayName id; Id_Email id; Id_AvatarURL id] = true ->
  contains ["google"; "apple"; "guest"] (Id_Provider id) = true ->
  find_identity (Id_Provider id) (Id_Subject id) (w_db w) = None ->
  t_users (w_db w) !! fresh_id 2 w = None -> t_identities (w_db w) !! fresh_id 3 w = None ->
  let u := fresh_id 2 w in let email := nonempty (Id_Email id) in let avatar := nonempty (Id_AvatarURL id) in
  obs (upsertOAuthUser id w) =
    (Ok (mkUser u (Id_DisplayName id) avatar email (Some [])),
     set_identities <[fresh_id 3 w := mkIdentityRow u (Id_Provider id) (Id_Subject id) email (clock 1 w)]>
       (set_users <[u := mkUserRow (Id_DisplayName id) avatar (clock 1 w) email (JObj []) None]> (w_db w)), w_rt w).
Proof.
  intros Hw Hok Hprov Hf Hu Hi u email avatar. cbn [forallb] in Hok. rewrite !andb_true_iff in Hok.
  destruct Hok as (Hp & Hs & Hn & He & Ha & _). unfold upsertOAuthUser.
  assert (forallb pg_text_ok (opt_text email) = true /\ forallb pg_text_ok (opt_text avatar) = true) as [Hem Hav].
  { unfold email, avatar, nonempty. split; case_bool_decide; simpl; by rewrite ?He, ?Ha. }
  assert (register_user id (set_db (w_db w) (in_txn 1 w)) = (Ok u,
    set_db (set_identities <[fresh_id 3 w := mkIdentityRow u (Id_Provider id) (Id_Subject id) email (clock 1 w)]>
       (set_users <[u := mkUserRow (Id_DisplayName id) avatar (clock 1 w) email (JObj []) None]> (w_db w))) (in_txn 3 w))) as Hr.
  { unfold register_user. fold email avatar. rewrite scan_row_bind_run, tx_run by done.
    cbn [forallb]. rewrite forallb_app, Hn, Hav, Hem. cbn [andb]. unfold insert_user. fold u.
    assert (has (t_users (w_db w)) u = false) as -> by by apply has_false. cbn [fst].
    rewrite bind_unfold, tx_run by done. cbn [forallb]. rewrite Hp, Hs, Hem. cbn [andb].
    unfold insert_identity. rewrite Hprov. cbn [negb].
    assert (has (t_identities (w_db w)) (fresh_id 3 w) = false) as Hfree by by apply has_false.
    cbn [t_identities set_users t_users]. rewrite Hfree. unfold find_identity in *. cbn [t_identities set_users].
    rewrite Hf. cbn [orb]. rewrite bool_decide_eq_false_2 by (by intros []).
    assert (has (<[u:=mkUserRow (Id_DisplayName id) avatar (clock 1 w) email (JObj []) None]> (t_users (w_db w))) u = true) as ->
      by (apply has_spec; rewrite lookup_insert_eq; by eexists).
    reflexivity. }
  erewrite in_tx_obs; [|done|]. 2:{
    rewrite bind_unfold, upsert_select_run, Hf by done. cbv iota beta. rewrite bind_unfold, Hr.
    apply tx_load_run. done. }
  unfold select_user. cbn [t_users set_identities set_users]. rewrite lookup_insert_eq. reflexivity.
Qed.

Lemma email_refreshed_row u e t row :
  t_users t !! u = Some row ->
  t_users (email_refreshed u e t) !! u = Some (if bool_decide (e = "") then row else set_email e row).
Proof.
  intros Hu. unfold email_refreshed. rewrite Hu. destruct (bool_decide (e = "")); cbn [orb]; [done|].
  destruct (decide (u_email row = Some e)) as [He|He].
  - rewrite bool_decide_eq_true_2 by done. rewrite Hu. destruct row. unfold set_email. simpl in *. by subst.
  - rewrite bool_decide_eq_false_2 by done. simpl. by rewrite lookup_insert_eq.
Qed.

(** The texts the statements of the sign-in send. *)
Definition upsert_texts (id : Identity) (t : Tables) : list string :=
  Id_Provider id :: Id_Subject id ::
  match find_identity (Id_Provider id) (Id_Subject id) t with
  | Some _ => [Id_Email id]
  | None => [Id_DisplayName id; Id_Email id; Id_AvatarURL id]
  end.

(** What a sign-in answers for a known, live account. *)
Definition signed_in (u : uuid) (email : string) (row : UserRow) : result User :=
  user_of (u, if bool_decide (email = "") then row else set_email email row).

Lemma upsert_live_run id u row (w : World H) :
  fault_free w -> pg_text_ok (Id_Provider id) = true -> pg_text_ok (Id_Subject id) = true ->
  pg_text_ok (Id_Email id) = true ->
  find_identity (Id_Provider id) (Id_Subject id) (w_db w) = Some u ->
  t_users (w_db w) !! u = Some row -> u_deleted_at row = None ->
  obs (upsertOAuthUser id w) =
    match signed_in u (Id_Email id) row with
    | Ok x => (Ok x, email_refreshed u (Id_Email id) (w_db w), w_rt w)
    | Fail e => (Fail e, w_db w, w_rt w)
    end.
Proof.
  intros Hw Hp Hs He Hf Hrow Hlive. rewrite (upsert_found_run id u w) by done.
  set (t' := email_refreshed u (Id_Email id) (w_db w)).
  assert (select_user u t' = Some (u, if bool_decide (Id_Email id = "") then row else set_email (Id_Email id) row)) as ->.
  { apply select_user_spec. eexists. split; [by apply email_refreshed_row|]. split; [|done]. by destruct (bool_decide _). }
  done.
Qed.

Lemma opt_text_nonempty x : forallb pg_text_ok (opt_text (nonempty x)) = pg_text_ok x.
Proof. unfold nonempty. case_bool_decide as Hx; simpl; [by rewrite Hx|apply andb_true_r]. Qed.

Lemma signed_in_fails u email row e : signed_in u email row = Fail e -> e = ErrScan.
Proof. unfold signed_in, user_of. by destruct (Scan _); intros [=]. Qed.

Lemma signed_in_user u email row x :
  signed_in u email row = Ok x ->
  U_ID x = u /\ U_DisplayName x = u_display_name row /\ U_AvatarURL x = u_avatar_url row /\
  U_Email x = (if bool_decide (email = "") then u_email row else Some email).
Proof.
  unfold signed_in, user_of. destruct (Scan _); intros [= <-]. by destruct (bool_decide (email = "")).
Qed.

Lemma upsert_dead_run id u row d (w : World H) :
  fault_free w -> pg_text_ok (Id_Provider id) = true -> pg_text_ok (Id_Subject id) = true ->
  pg_text_ok (Id_Email id) = true ->
  find_identity (Id_Provider id) (Id_Subject id) (w_db w) = Some u ->
  t_users (w_db w) !! u = Some row -> u_deleted_at row = Some d ->
  obs (upsertOAuthUser id w) = (Fail ErrNoRows, w_db w, w_rt w).
Proof.
  intros Hw Hp Hs He Hf Hrow Hdead. rewrite (upsert_found_run id u w) by done.
  unfold select_user. rewrite (email_refreshed_row _ _ _ _ Hrow). unfold user_live.
  destruct (bool_decide (Id_Email id = "")); simpl; by rewrite Hdead.
Qed.

(** A text PostgreSQL does not take fails the transaction. *)
Lemma upsert_bad_text_run id (w : World H) :
  fault_free w ->
  forallb pg_text_ok (upsert_texts id (w_db w)) = false ->
  exists e, obs (upsertOAuthUser id w) = (Fail e, w_db w, w_rt w) /\ db_error e.
Proof.
  intros Hw Hbad.
  assert (exists e, obs (upsertOAuthUser id w) = (Fail e, w_db w, w_rt w)) as [e He].
  2:{ exists e. split; [done|]. pose proof (upsertOAuthUser_raises id w) as Hr.
      destruct (upsertOAuthUser id w) as [r w']. unfold obs in He. simpl in He. injection He as -> _ _. by eapply Hr. }
  revert Hbad. unfold upsert_texts, upsertOAuthUser. cbn [forallb].
  destruct (pg_text_ok (Id_Provider id) && pg_text_ok (Id_Subject id)) eqn:Hps.
  - apply andb_true_iff in Hps as [Hp Hs]. rewrite Hp, Hs. cbn [andb].
    destruct (find_identity _ _ _) as [u|] eqn:Hf; intros Hbad.
    + cbn [forallb] in Hbad. rewrite andb_true_r in Hbad. eexists. erewrite in_tx_obs; [|done|].
      2:{ rewrite bind_unfold, upsert_select_run, Hf by done. cbv iota beta. rewrite bind_unfold.
          unfold refresh_user. rewrite bool_decide_eq_false_2 by (intros E; by rewrite E in Hbad).
          unfold try. rewrite tx_run by done. cbn [forallb]. rewrite Hbad. reflexivity. }
      reflexivity.
    + eexists. erewrite in_tx_obs; [|done|].
      2:{ rewrite bind_unfold, upsert_select_run, Hf by done. cbv iota beta. rewrite bind_unfold.
          unfold register_user. rewrite scan_row_bind_run, tx_run by done. cbn [forallb].
          rewrite forallb_app, !opt_text_nonempty, (andb_comm (pg_text_ok (Id_AvatarURL id))).
          cbn [forallb] in Hbad. rewrite andb_true_r in Hbad. rewrite Hbad. reflexivity. }
      reflexivity.
  - intros _. eexists. erewrite in_tx_obs; [|done|].
    2:{ rewrite bind_unfold. unfold try, scan_row. rewrite bind_unfold, tx_run by done. cbn [forallb].
        rewrite andb_true_r, Hps. reflexivity. }
    reflexivity.
Qed.

(** The session a sign-in of user [r] answers. *)
Definition session_of (now now' : time) (r : result User) : reply tokenResponse :=
  answer (match r with
          | Ok x => match Issue uuid_String jwt_SignedString s (U_ID x) now now' with
                    | inl tok => Ok (JSON 200 (mkTokenResponse tok x))
                    | inr e => Fail e
                    end
          | Fail e => Fail e
          end).

Lemma handleOAuth_run verify now now' req id (w : World H) r t h :
  dec_error req = None -> verify (OAuth_IDToken (dec_value req)) = inl id ->
  obs (upsertOAuthUser (fill_identity id (dec_value req)) w) = (r, t, h) ->
  obs (handleOAuth uuid_String jwt_SignedString s verify now now' req w) = (Ok (session_of now now' r), t, h).
Proof.
  intros Hdec Hver Hrun. unfold handleOAuth. rewrite serve_run, bind_unfold, decode_run.
  unfold Decode. rewrite Hdec. cbn [fmap option_fmap option_map]. rewrite Hver, bind_unfold.
  destruct (upsertOAuthUser _ w) as [r' w']. unfold obs in Hrun. simpl in Hrun. injection Hrun as -> <- <-.
  destruct r as [x|e]; [|done]. rewrite bind_unfold, throw_err_run. unfold session_of.
  by destruct (Issue _ _ _ _ _ _).
Qed.

(** The first of several texts that is not empty. *)
Definition first_text (l : list string) : string := default "" (head (filter (fun x => x <> "") l)).

(** What the account is told about the person: the token's word first, then
    the body's, then what is left of the email before the at sign. *)
Definition filled (id : Identity) (body : oauthRequest) (f : Identity) : Prop :=
  Id_Provider f = Id_Provider id /\ Id_Subject f = Id_Subject id /\ Id_AvatarURL f = Id_AvatarURL id /\
  Id_Email f = first_text [Id_Email id; TrimSpace (OAuth_Email body)] /\
  Id_DisplayName f = clip40 (first_text [Id_DisplayName id; TrimSpace (OAuth_DisplayName body);
                                         default "" (before_at (Id_Email f)); "convoy_user"]).

Lemma fill_text a b :
  (if bool_decide (a = "") && negb (bool_decide (b = "")) then TrimSpace b else a) = first_text [a; TrimSpace b].
Proof.
  unfold first_text. rewrite !filter_cons, filter_nil. case_bool_decide as Ha; simpl.
  - rewrite decide_False by auto. case_bool_decide as Hb; simpl; [subst; vm_compute; reflexivity|].
    case_decide as Ht; [done|]. simpl. destruct (decide (TrimSpace b = "")); [done|by destruct Ht].
  - by rewrite decide_True.
Qed.

Lemma before_at_nonempty e x : before_at e = Some x -> x <> "".
Proof.
  unfold before_at. destruct (list_find _ (to_bytes e)) as [[i c]|] eqn:Hf; [|done].
  apply list_find_Some in Hf as (Hi & _). apply lookup_lt_Some in Hi.
  destruct (Nat.ltb_spec 0 i); [|done]. intros [= <-] Hx. unfold byte_prefix in Hx.
  apply (f_equal to_bytes) in Hx. rewrite to_of_bytes in Hx. apply (f_equal length) in Hx.
  rewrite length_take in Hx. simpl in Hx. lia.
Qed.

Lemma first_text_cons a l : first_text (a :: l) = if bool_decide (a = "") then first_text l else a.
Proof.
  unfold first_text. rewrite filter_cons. case_bool_decide; [by rewrite decide_False by auto|by rewrite decide_True].
Qed.

Lemma fill_identity_filled id body : filled id body (fill_identity id body).
Proof.
  unfold filled, fill_identity. cbn [Id_Provider Id_Subject Id_AvatarURL Id_Email Id_DisplayName].
  do 3 (split; [done|]).
  set (email := if bool_decide (Id_Email id = "") && _ then _ else _).
  assert (email = first_text [Id_Email id; TrimSpace (OAuth_Email body)]) as <-.
  { subst email. by apply fill_text. }
  split; [done|]. f_equal. rewrite fill_text, !first_text_cons.
  set (o := if bool_decide (email = "") then None else before_at email).
  assert (default "" o = default "" (before_at email)) as <-.
  { unfold o. case_bool_decide as He; [by rewrite He|done]. }
  assert (forall x, o = Some x -> x <> "") as Ho.
  { unfold o. case_bool_decide; [done|]. intros x. apply before_at_nonempty. }
  change (first_text []) with "". clearbody o.
  destruct (decide (Id_DisplayName id = "")) as [Hn|Hn]; [|by rewrite !(bool_decide_eq_false_2 _ Hn)].
  rewrite !(bool_decide_eq_true_2 _ Hn).
  destruct (decide (TrimSpace (OAuth_DisplayName body) = "")) as [Hb|Hb]; [|by rewrite !(bool_decide_eq_false_2 _ Hb)].
  rewrite !(bool_decide_eq_true_2 _ Hb). cbn. destruct o as [x|]; [|done]. simpl.
  by rewrite bool_decide_eq_false_2 by auto.
Qed.

(** C28 Signing in with a provider, on every branch of [handleOAuth]: a body
    that does not decode is answered 400 and a token the provider's verifier
    refuses 401, and nothing is stored. Otherwise the account is told what the
    token says, the body filling the gaps ([filled]). The first sign-in of a
    subject of Google or Apple stores one user and one identity and nothing else,
    under fresh identifiers, and the subject is that user after any later requests to
    [auth]. A known subject is the same user with the name the account has; a
    sign-in changes at most the account's email, to the token's or, when the
    token has none, to the one in the body, verified by nobody. A deleted
    account and a text PostgreSQL does not take are answered 500, and nothing
    is stored. *)
Theorem oauth_sign_in_spec verify now now' req (w : World H) :
  fault_free w -> full_wf (w_db w) ->
  let run := obs (handleOAuth uuid_String jwt_SignedString s verify now now' req w) in
  match dec_error req, verify (OAuth_IDToken (dec_value req)) with
  | Some m, _ => run = refused (ErrAPI (Err 400 "invalid_body" m)) w
  | None, inr _ => run = refused (ErrAPI (Err 401 "invalid_id_token" "could not verify id token")) w
  | None, inl id =>
      let f := fill_identity id (dec_value req) in
      filled id (dec_value req) f /\
      if negb (forallb pg_text_ok (upsert_texts f (w_db w))) then run = (Ok internal_error, w_db w, w_rt w) else
      match find_identity (Id_Provider id) (Id_Subject id) (w_db w) with
      | None =>
          contains ["google"; "apple"; "guest"] (Id_Provider id) = true ->
          t_users (w_db w) !! fresh_id 2 w = None -> t_identities (w_db w) !! fresh_id 3 w = None ->
          let u := fresh_id 2 w in
          let x := mkUser u (Id_DisplayName f) (nonempty (Id_AvatarURL f)) (nonempty (Id_Email f)) (Some []) in
          let t' := set_identities <[fresh_id 3 w := mkIdentityRow u (Id_Provider id) (Id_Subject id)
                                                       (nonempty (Id_Email f)) (clock 1 w)]>
                      (set_users <[u := mkUserRow (Id_DisplayName f) (nonempty (Id_AvatarURL f)) (clock 1 w)
                                          (nonempty (Id_Email f)) (JObj []) None]> (w_db w)) in
          run = (Ok (session_of now now' (Ok x)), t', w_rt w) /\
          forall calls (w2 : World H), w_db w2 = t' ->
            find_identity (Id_Provider id) (Id_Subject id) (w_db (run_auth calls w2)) = Some u
      | Some u =>
          forall row, t_users (w_db w) !! u = Some row ->
          run = match u_deleted_at row, signed_in u (Id_Email f) row with
                | None, Ok x => (Ok (session_of now now' (Ok x)), email_refreshed u (Id_Email f) (w_db w), w_rt w)
                | _, _ => (Ok internal_error, w_db w, w_rt w)
                end /\
          forall x, signed_in u (Id_Email f) row = Ok x ->
            U_ID x = u /\ U_DisplayName x = u_display_name row /\ U_AvatarURL x = u_avatar_url row /\
            U_Email x = (if bool_decide (Id_Email f = "") then u_email row else Some (Id_Email f))
      end
  end.
Proof.
  intros Hw Hwf run. unfold run.
  destruct (dec_error req) as [m|] eqn:Hdec.
  { unfold handleOAuth. rewrite serve_run, bind_unfold, decode_run. unfold Decode. by rewrite Hdec. }
  destruct (verify _) as [id|e] eqn:Hver.
  2:{ unfold handleOAuth. rewrite serve_run, bind_unfold, decode_run. unfold Decode. rewrite Hdec.
      cbn [fmap option_fmap option_map]. by rewrite Hver. }
  set (f := fill_identity id (dec_value req)). split; [apply fill_identity_filled|].
  pose proof (fill_identity_filled id (dec_value req)) as (Hp & Hs & _). fold f in Hp, Hs.
  pose proof (fun r t h => handleOAuth_run verify now now' req id w r t h Hdec Hver) as Hrun. fold f in Hrun.
  destruct (forallb pg_text_ok (upsert_texts f (w_db w))) eqn:Htexts; cbn [negb].
  2:{ destruct (upsert_bad_text_run f w Hw Htexts) as (e & He & Herr). rewrite (Hrun _ _ _ He). by destruct e. }
  unfold upsert_texts in Htexts. rewrite Hp, Hs in Htexts.
  destruct (find_identity _ _ _) as [u|] eqn:Hf.
  - intros row Hrow. cbn [forallb] in Htexts. rewrite !andb_true_iff in Htexts. destruct Htexts as (? & ? & ? & _).
    split; [|by apply signed_in_user].
    destruct (u_deleted_at row) as [d|] eqn:Hlive.
    + assert (obs (upsertOAuthUser f w) = (Fail ErrNoRows, w_db w, w_rt w)) as Hu
        by (apply (upsert_dead_run f u row d w); congruence).
      by rewrite (Hrun _ _ _ Hu).
    + pose proof (signed_in_fails u (Id_Email f) row) as Herr.
      assert (find_identity (Id_Provider f) (Id_Subject f) (w_db w) = Some u) as Hf' by congruence.
      pose proof (upsert_live_run f u row w Hw) as Hu. rewrite Hp, Hs in Hu. specialize (Hu ltac:(done) ltac:(done) ltac:(done) Hf Hrow Hlive).
      destruct (signed_in _ _ row) as [x|e]; rewrite (Hrun _ _ _ Hu); [done|]. by rewrite (Herr e).
  - intros Hprov Hu Hi. set (u := fresh_id 2 w). set (t' := set_identities _ _).
    pose proof (upsert_new_run f w Hw) as Hnew. rewrite Hp, Hs in Hnew. cbv zeta in Hnew.
    rewrite (Hrun _ _ _ (Hnew Htexts Hprov Hf Hu Hi)). split; [done|].
    intros calls w2 Hdb.
    assert (full_wf t') as Hwf'.
    { apply wf_insert_identity; [by apply wf_set_user|apply lookup_insert_is_Some'; by left|done|exact Hf]. }
    apply identity_of_found; [apply (run_auth_stable full_wf calls w2); by rewrite Hdb|].
    apply (run_auth_stable (identity_of _ _ u)). rewrite Hdb. eexists _, _. split; [apply lookup_insert_eq|done].
Qed.

(** ** Tokens and the middleware *)

Lemma LoadUser_live id (w w' : World H) u :
  LoadUser id w = (Ok u, w') ->
  U_ID u = id /\ w_db w' = w_db w /\ w_rt w' = w_rt w /\
  exists row, t_users (w_db w) !! id = Some row /\ u_deleted_at row = None.
Proof.
  intros Hrun. unfold LoadUser, on_error, catch in Hrun. rewrite scan_user_row_run in Hrun.
  destruct (exec [] (select (select_user id)) w) as [[[p|]|e] w1] eqn:He; [|done|by destruct e].
  pose proof (select_read_only (H:=H) true [] (select_user id) w) as [Hdb Hrt]. unfold exec in He.
  rewrite He in Hdb, Hrt. simpl in Hdb, Hrt.
  apply stmt_ok in He as (now & i & Hs & _). unfold select in Hs. injection Hs as Hs _.
  apply select_user_spec in Hs as (row & Hrow & Hlive & ->). unfold user_of in Hrun. cbn [fst snd] in Hrun.
  set (sc := Scan _) in Hrun. destruct sc; [|done].
  injection Hrun as <- <-. simpl. split; [done|]. split; [done|]. split; [done|]. by exists row.
Qed.

Lemma LoadUser_read_only id : read_only (H:=H) (LoadUser id).
Proof.
  apply on_error_read_only, bind_read_only; [apply scan_row_read_only, select_read_only|].
  intros p. unfold scan_user. by destruct (Scan _).
Qed.

(** C15 The middleware lets a request through only with a bearer token that
    verifies and stands for a user who exists and is not deleted, and hands the
    handler that user; otherwise the reply is an error and nothing happened. *)
Theorem middleware_gate {B} header now (next : option User -> M H (reply B)) (w : World H) :
  let '(r, w') := Middleware uuid_Parse jwt_Parse s header now next w in
  (exists u row w1,
     HasPrefix header "Bearer " = true /\
     Verify uuid_Parse jwt_Parse s (TrimPrefix header "Bearer ") now = Some (U_ID u) /\
     t_users (w_db w) !! U_ID u = Some row /\ u_deleted_at row = None /\
     w_db w1 = w_db w /\ w_rt w1 = w_rt w /\ (r, w') = next (Some u) w1) \/
  (w_db w' = w_db w /\ w_rt w' = w_rt w /\ exists e, r = Ok (WriteErr e) /\
     (HasPrefix header "Bearer " = false \/
      Verify uuid_Parse jwt_Parse s (TrimPrefix header "Bearer ") now = None -> e = ErrAPI ErrUnauthorized)).
Proof.
  unfold Middleware. destruct (HasPrefix header "Bearer ") eqn:Hpre; [|right; split; [done|]; split; [done|]; by exists (ErrAPI ErrUnauthorized)]. cbn [negb].
  destruct (Verify _ _ _ _ _) as [id|] eqn:Hver; [|right; split; [done|]; split; [done|]; by exists (ErrAPI ErrUnauthorized)].
  rewrite bind_unfold. unfold try. pose proof (LoadUser_read_only id w) as [Hdb Hrt].
  destruct (LoadUser id w) as [[u|e] w1] eqn:Hl; simpl in *.
  - destruct (next (Some u) w1) as [r w'] eqn:Hnext. left.
    destruct (LoadUser_live _ _ _ _ Hl) as (Hid & _ & _ & row & Hrow & Hlive). subst id.
    exists u, row, w1. done.
  - right. split; [done|]. split; [done|]. exists e. split; [done|]. by intros [|].
Qed.
End requests.

(** ** Issued tokens *)

Section tokens.
Variable uuid_String : uuid -> string.
Variable uuid_Parse : string -> option uuid.
Variable jwt_SignedString : signing_method -> string -> MapClaims -> option string.
Variable jwt_Parse : string -> (signing_method -> option string) -> time -> option MapClaims.
Context {Keyfunc : Type}.
Variable s : Service (Keyfunc:=Keyfunc).

(** The text of a UUID reads back. *)
Definition uuid_law : Prop := forall u, uuid_Parse (uuid_String u) = Some u.

(** The claims of a token of this service. *)
Definition issued_claims (u : uuid) (exp iat : Z) : MapClaims :=
  <["sub" := JStr (uuid_String u)]> (<["exp" := json_int exp]> (<["iat" := json_int iat]> (∅ : gmap string json))).

(** Seconds a JSON number holds exactly, from 1970 on. *)
Definition epoch_second (z : Z) : Prop := (0 <= z < 2 ^ 53)%Z.

(** What [jwt] does with the tokens of this service, signed with HMAC and
    carrying a subject, an expiry and a time of issue, and no [nbf]: such a
    token is accepted until its [exp], under a key function that gives HMAC the
    secret it was signed with, and its subject reads back. *)
Definition jwt_law : Prop :=
  forall u sec exp iat tok kf now,
    epoch_second exp -> epoch_second iat ->
    jwt_SignedString (HMAC 256) sec (issued_claims u exp iat) = Some tok ->
    kf (HMAC 256) = Some sec -> (now < exp * 1000000)%Z ->
    exists claims, jwt_Parse tok kf now = Some claims /\
      claim_string claims "sub" = Some (uuid_String u).

(** C26 A token that was issued to a user, on a clock that runs between 1970 and
    the year 285 million, verifies as that user until the whole second at which
    it expires, and as a bearer token opens the middleware for as long as the
    account is live. *)
Theorem issued_token_admits {H B} u now now' t tok (next : option User -> M H (reply B)) (w : World H) row x :
  uuid_law -> jwt_law ->
  epoch_second (Unix (now + ttl s)) -> epoch_second (Unix now') ->
  Issue uuid_String jwt_SignedString s u now now' = inl tok ->
  (t < Unix (now + ttl s) * 1000000)%Z ->
  fault_free w -> t_users (w_db w) !! u = Some row -> u_deleted_at row = None -> user_of (u, row) = Ok x ->
  Verify uuid_Parse jwt_Parse s tok t = Some u /\
  exists w1, w_db w1 = w_db w /\ w_rt w1 = w_rt w /\
    Middleware uuid_Parse jwt_Parse s (of_bytes (to_bytes "Bearer " ++ to_bytes tok)) t next w = next (Some x) w1.
Proof.
  intros Huuid Hjwt Hexp Hiat Hissue Ht Hw Hrow Hlive Hx.
  assert (Verify uuid_Parse jwt_Parse s tok t = Some u) as Hver.
  { unfold Issue in Hissue. destruct (jwt_SignedString _ _ _) as [tok'|] eqn:Hsign; [|done].
    injection Hissue as <-.
    destruct (Hjwt u _ _ _ _ (hmac_only s) t Hexp Hiat Hsign eq_refl Ht) as (claims & Hparse & Hsub).
    unfold Verify. rewrite Hparse, Hsub. apply Huuid. }
  split; [done|]. set (header := of_bytes _).
  assert (HasPrefix header "Bearer " = true /\ TrimPrefix header "Bearer " = tok) as [Hpre Htrim].
  { unfold header. assert (HasPrefix (of_bytes (to_bytes "Bearer " ++ to_bytes tok)) "Bearer " = true) as Hp.
    { unfold HasPrefix. rewrite to_of_bytes, bool_decide_eq_true. apply take_app_length. }
    split; [done|]. unfold TrimPrefix. rewrite Hp, to_of_bytes, drop_app_length. apply of_to_bytes. }
  assert (LoadUser u w = (Ok x, skip 1 w)) as Hload.
  { rewrite <-(set_db_skip 0 w) at 1. rewrite LoadUser_run by done.
    assert (select_user u (w_db w) = Some (u, row)) as -> by (apply select_user_spec; by exists row).
    by rewrite Hx, set_db_skip. }
  exists (skip 1 w). rewrite skip_db, skip_rt. split; [done|]. split; [done|].
  unfold Middleware. rewrite Hpre, Htrim, Hver. cbn [negb]. rewrite bind_unfold. unfold try. by rewrite Hload.
Qed.
End tokens.

(** ** Concrete requests

    Libraries that keep their promises: decimal identifiers, and tokens that
    are the secret followed by the subject. *)
Definition plain_String (u : uuid) : string := NilZero.string_of_uint (N.to_uint u).
Definition plain_Parse (x : string) : option uuid := N.of_uint <$> NilZero.uint_of_string x.

Definition plain_sign (m : signing_method) (sec : string) (claims : MapClaims) : option string :=
  match m with
  | HMAC 256 => (fun sub => of_bytes (to_bytes sec ++ to_bytes sub)) <$> claim_string claims "sub"
  | _ => None
  end.

Definition plain_jwt (tok : string) (kf : signing_method -> option string) (now : time) : option MapClaims :=
  match kf (HMAC 256) with
  | Some sec => if HasPrefix tok sec then Some (<["sub" := JStr (TrimPrefix tok sec)]> (∅ : gmap string json)) else None
  | None => None
  end.

Definition desk : Service (Keyfunc:=unit) := NewService "key" 3600000000.

Lemma plain_uuid_law : uuid_law plain_String plain_Parse.
Proof.
  intros u. unfold plain_String, plain_Parse. rewrite NilZero.usu; [|destruct u; [done|apply DecimalPos.Unsigned.to_uint_nonnil]].
  simpl. by rewrite DecimalN.Unsigned.of_to.
Qed.

Lemma plain_jwt_law : jwt_law plain_String plain_sign plain_jwt.
Proof.
  intros u sec exp iat tok kf now _ _ Hsign Hkf _. unfold plain_sign in Hsign.
  assert (claim_string (issued_claims plain_String u exp iat) "sub" = Some (plain_String u)) as Hsub
    by (unfold claim_string, issued_claims; by rewrite lookup_insert_eq).
  rewrite Hsub in Hsign. injection Hsign as <-. unfold plain_jwt. rewrite Hkf.
  assert (HasPrefix (of_bytes (to_bytes sec ++ to_bytes (plain_String u))) sec = true) as Hp.
  { unfold HasPrefix. rewrite to_of_bytes, bool_decide_eq_true. apply take_app_length. }
  rewrite Hp. eexists. split; [reflexivity|]. unfold claim_string. rewrite lookup_insert_eq.
  unfold TrimPrefix. by rewrite Hp, to_of_bytes, drop_app_length, of_to_bytes.
Qed.

Definition ada : User := mkUser 1 "ada" None None (Some []).

Definition guest_body (name : string) : decoded guestRequest := mkDecoded (mkGuestRequest name None) None.

Lemma start_wf : full_wf (w_db start_world).
Proof. split; [apply users_only_wf|]. split; simpl; intros *; rewrite lookup_empty; done. Qed.

Lemma auth_keeps_schema_witness :
  auth_inv ∅ (w_db start_world) /\
  auth_inv ∅ (w_db (run_auth plain_String plain_Parse plain_sign plain_jwt (fun _ _ _ _ => None) (fun _ => None)
    desk [CallGuest 0 0 (guest_body "Dee"); CallDeleteAccount "Bearer key1" 5; CallMe "Bearer key1" 6] start_world)).
Proof.
  assert (auth_inv ∅ (w_db start_world)) as Hinv.
  { split; [exact start_wf|]. intros id []%not_elem_of_empty. }
  split; [exact Hinv|]. apply auth_keeps_schema. exact Hinv.
Defined.

Lemma guest_spec_witness :
  fst (fst (obs (HandleGuest plain_String plain_sign desk 0 0 (guest_body " Dee ") start_world))) =
    Ok (JSON 201 (mkTokenResponse "key100" (mkUser 100 "Dee" None None (Some [])))).
Proof.
  destruct (guest_spec plain_String plain_sign desk 0 0 (guest_body " Dee ") start_world)
    as [_ Hobs]; [intros n; reflexivity|].
  rewrite Hobs. vm_compute. reflexivity.
Defined.

Lemma patch_me_spec_witness :
  let req := mkDecoded (mkUpdateProfileRequest "  Ada L ") None in
  fst (fst (obs (HandlePatchMe (Some ada) req start_world))) = Ok (JSON 200 (mkUser 1 "Ada L" None None (Some []))).
Proof.
  cbv zeta.
  pose proof (patch_me_spec ada (mkDecoded (mkUpdateProfileRequest "  Ada L ") None) start_world) as Hp.
  assert (trim_text 40 (Some (Profile_DisplayName (dec_value (mkDecoded (mkUpdateProfileRequest "  Ada L ") None)))) = Some "Ada L")
    as E by (vm_compute; reflexivity).
  rewrite E in Hp. assert ((RuneCountInString "Ada L" <? 2) = false) as E2 by (vm_compute; reflexivity).
  rewrite E2 in Hp. destruct Hp as [_ Hp]; [intros n; reflexivity|reflexivity|vm_compute; reflexivity|].
  rewrite Hp. vm_compute. reflexivity.
Defined.

Lemma account_deletion_witness :
  is_Some (t_users (w_db convoy_world) !! U_ID ada) /\
  let '(r, w') := HandleDeleteAccount (B:=unit) (Some ada) convoy_world in
  r = Ok NoContent /\ account_gone 1 (w_db convoy_world) (w_db w').
Proof.
  assert (is_Some (t_users (w_db convoy_world) !! U_ID ada)) as Hu by (vm_compute; eexists; reflexivity).
  split; [exact Hu|].
  pose proof (account_deletion plain_String plain_Parse plain_sign plain_jwt (Keyfunc:=unit) (fun _ _ _ _ => None)
    (fun _ => None) desk ada [] convoy_world Hu) as Hd.
  destruct (HandleDeleteAccount (Some ada) convoy_world) as [r w'].
  destruct Hd as (_ & Hcases & Hr). specialize (Hr convoy_world_calm). split; [exact Hr|].
  destruct Hcases as [[_ [e He]]|(_ & Hgone & _)]; [|exact Hgone].
  exfalso. rewrite Hr in He. destruct e; discriminate He.
Defined.

(** Eve signed in with Google as subject "s9" and deleted the account. *)
Definition eve_world : World (list rt_call) :=
  mkWorld (set_identities <[50%N := mkIdentityRow 9 "google" "s9" None 0]>
             (set_users <[9%N := mkUserRow "eve" None 0 None (JObj []) (Some 3%Z)]> empty_tables)) 0 calm_env 0 0 [].

Lemma eve_wf : full_wf (w_db eve_world).
Proof.
  apply wf_insert_identity; [|by eexists|done|done]. apply wf_set_user.
  split; [apply empty_wf|]. split; simpl; intros *; rewrite lookup_empty; done.
Qed.

Lemma deleted_account_locked_out_witness :
  let w1 := run_auth plain_String plain_Parse plain_sign plain_jwt (Keyfunc:=unit) (fun _ _ _ _ => None) (fun _ => None)
              desk [CallGuest 0 0 (guest_body "eve")] eve_world in
  let '(r, w2) := handleOAuth plain_String plain_sign desk (fun _ => inl (mkIdentity "google" "s9" "" "eve" ""))
                    0 0 (mkDecoded (mkOauthRequest "t" "" "") None) w1 in
  r = Ok internal_error /\ w_db w2 = w_db w1.
Proof.
  apply (deleted_account_locked_out plain_String plain_Parse plain_sign plain_jwt (fun _ _ _ _ => None) (fun _ => None)
           desk [CallGuest 0 0 (guest_body "eve")] 9 (mkIdentity "google" "s9" "" "eve" "")).
  - exact eve_wf.
  - eexists. split; [vm_compute; reflexivity|discriminate].
  - exists 50%N. eexists. split; [vm_compute; reflexivity|split; [|split]; reflexivity].
  - reflexivity.
  - reflexivity.
Defined.

(** Ann, whom Google vouches for, and her first request. *)
Definition ann : Identity := mkIdentity "google" "s1" "a@x.org" "Ann" "".
Definition token_body (email : string) : decoded oauthRequest := mkDecoded (mkOauthRequest "t" "" email) None.

Lemma oauth_sign_in_spec_witness :
  fst (fst (obs (handleOAuth plain_String plain_sign desk (fun _ => inl ann) 0 0 (token_body "") start_world))) =
    Ok (JSON 200 (mkTokenResponse "key102" (mkUser 102 "Ann" None (Some "a@x.org") (Some [])))).
Proof.
  pose proof (oauth_sign_in_spec plain_String plain_Parse plain_sign plain_jwt (fun _ _ _ _ => None) (fun _ => None)
                desk (fun _ => inl ann) 0 0 (token_body "") start_world) as Hs.
  assert (dec_error (token_body "") = None) as E0 by reflexivity. rewrite E0 in Hs. cbv beta iota zeta in Hs.
  assert (negb (forallb pg_text_ok (upsert_texts (fill_identity ann (dec_value (token_body ""))) (w_db start_world))) = false)
    as E1 by (vm_compute; reflexivity).
  assert (find_identity (Id_Provider ann) (Id_Subject ann) (w_db start_world) = None) as E by (vm_compute; reflexivity).
  rewrite E1, E in Hs.
  destruct Hs as [_ Hs]; [intros n; reflexivity|exact start_wf|].
  destruct Hs as [Hobs _]; [vm_compute; reflexivity..|].
  rewrite Hobs. vm_compute. reflexivity.
Defined.

(** The body of the request is believed long after the first sign-in: when a
    later token of Ann's has no email, the one in the body replaces the email
    Google had verified. *)
Example body_email_overwrites :
  let w1 := (handleOAuth plain_String plain_sign desk (fun _ => inl ann) 0 0 (token_body "") start_world).2 in
  let w2 := (handleOAuth plain_String plain_sign desk (fun _ => inl (mkIdentity "google" "s1" "" "Ann" "")) 0 0
               (token_body "eve@y.org") w1).2 in
  (u_email <$> t_users (w_db w1) !! 102%N) = Some (Some "a@x.org") /\
  (u_email <$> t_users (w_db w2) !! 102%N) = Some (Some "eve@y.org").
Proof. vm_compute. split; reflexivity. Qed.

Lemma issued_token_admits_witness :
  uuid_law plain_String plain_Parse /\ jwt_law plain_String plain_sign plain_jwt /\
  Verify plain_Parse plain_jwt desk "key1" 5 = Some 1%N.
Proof.
  split; [exact plain_uuid_law|]. split; [exact plain_jwt_law|].
  refine (proj1 (issued_token_admits plain_String plain_Parse plain_sign plain_jwt desk 1 0 0 5 "key1"
    (B:=User) HandleMe start_world (person "ada") ada plain_uuid_law plain_jwt_law _ _ _ _ _ _ _ _)).
  - vm_compute. split; [discriminate|reflexivity].
  - vm_compute. split; [discriminate|reflexivity].
  - vm_compute. reflexivity.
  - vm_compute. reflexivity.
  - intros n. reflexivity.
  - vm_compute. reflexivity.
  - reflexivity.
  - reflexivity.
Defined.
