(* ===== verification/Livekit.v ===== *)
(** * [internal/livekit/token.go]: voice tokens

    The configuration, the normalisation of the server's URL and the grant of
    a room token; LiveKit's own token library is a parameter. *)
From stdpp Require Import base gmap sets list strings.
From Stdlib Require Import ZArith Lia.
From S2P Require Import Prelude.
From S2P Require Import GoString.
From S2P Require Import Httpx.
From S2P Require Import Types.

Record Config := mkConfig { URL : string; APIKey : string; APISecret : string }.

Definition Enabled (c : Config) : bool :=
  negb (bool_decide (URL c = "")) && negb (bool_decide (APIKey c = "")) && negb (bool_decide (APISecret c = "")).

(** [a + b] on strings. *)
Definition plus (a b : string) : string := of_bytes (to_bytes a ++ to_bytes b).

Definition NormalizeURL (raw : string) : string :=
  let raw := TrimSpace raw in
  if bool_decide (raw = "") then ""
  else if HasPrefix raw "wss://" || HasPrefix raw "ws://" then raw
  else if HasPrefix raw "https://" then plus "wss://" (TrimPrefix raw "https://")
  else if HasPrefix raw "http://" then plus "ws://" (TrimPrefix raw "http://")
  else plus "wss://" raw.

(** What a token grants: joining one room, as one identity, for a time. *)
Record grant := mkGrant {
  g_identity : string;
  g_valid_for : time;
  g_room_join : bool;
  g_room : string;
  g_name : option string;
}.

Section livekit.
Variable uuid_String : uuid -> string.
(** [AccessToken.ToJWT] under a key and its secret. *)
Variable ToJWT : string -> string -> grant -> option string.

Definition six_hours : time := 21600000000.

Definition IssueRoomToken (cfg : Config) (roomID userID : uuid) (displayName : string) : string + error :=
  if negb (Enabled cfg) then inr (ErrText "livekit is not configured") else
  let at_ := mkGrant (uuid_String userID) six_hours true (uuid_String roomID)
               (if bool_decide (displayName = "") then None else Some displayName) in
  match ToJWT (APIKey cfg) (APISecret cfg) at_ with
  | Some tok => inl tok
  | None => inr (ErrText "livekit")
  end.
End livekit.

(** ** The URL *)

Lemma HasPrefix_plus a b : HasPrefix (plus a b) a = true.
Proof. unfold HasPrefix, plus. rewrite to_of_bytes, bool_decide_eq_true. apply take_app_length. Qed.

(** A configured URL always names a WebSocket scheme. *)
Lemma NormalizeURL_scheme raw :
  NormalizeURL raw = "" /\ TrimSpace raw = "" \/
  HasPrefix (NormalizeURL raw) "wss://" = true \/ HasPrefix (NormalizeURL raw) "ws://" = true.
Proof.
  unfold NormalizeURL. destruct (decide (TrimSpace raw = "")) as [E|E].
  { rewrite bool_decide_eq_true_2 by done. by left. }
  rewrite bool_decide_eq_false_2 by done. right.
  destruct (HasPrefix (TrimSpace raw) "wss://") eqn:E1; cbn [orb]; [by left; rewrite E1|].
  destruct (HasPrefix (TrimSpace raw) "ws://") eqn:E2; [by right; rewrite E2|]. destruct (HasPrefix _ "https://"); [left; apply HasPrefix_plus|].
  destruct (HasPrefix _ "http://"); [right|left]; apply HasPrefix_plus.
Qed.
