(* ===== verification/Handlers.v ===== *)
(** * [internal/rooms/handlers.go]: the rooms API

    One definition per handler, from the path parameters, the decoded body and
    the user the middleware left in the context to the reply. *)
From stdpp Require Import base gmap sets list strings.
From Stdlib Require Import ZArith Lia Ascii.
From S2P Require Import Prelude.
From S2P Require Import GoString.
From S2P Require Import Httpx.
From S2P Require Import Types.
From S2P Require Import Db.
From S2P Require Import Store.
From S2P Require Import Broadcaster.
From S2P Require Import Service.
From S2P Require Import Auth.
From S2P Require Import Livekit.

Open Scope convoy_scope.

(** ** [strconv.Atoi] on 64 bits *)

Definition digit (c : ascii) : option Z :=
  let n := byte_val c in if in_range 48 57 n then Some (Z.of_N n - 48)%Z else None.

Fixpoint digits (acc : Z) (b : bytes) : option Z :=
  match b with
  | [] => Some acc
  | c :: b' => d ← digit c; digits (10 * acc + d)%Z b'
  end.

Definition Atoi (x : string) : option Z :=
  let parse (sign : Z) (b : bytes) :=
    match b with
    | [] => None
    | _ => n ← digits 0 b;
           let v := (sign * n)%Z in
           if (-9223372036854775808 <=? v)%Z && (v <=? 9223372036854775807)%Z then Some v else None
    end in
  match to_bytes x with
  | c :: b => if (byte_val c =? 45)%N then parse (-1)%Z b
              else if (byte_val c =? 43)%N then parse 1%Z b else parse 1%Z (c :: b)
  | [] => None
  end.

(** ** Bodies and replies *)

Record createReq := mkCreateReq { CR_Name : option string }.
Record joinReq := mkJoinReq { JR_Code : string }.
Record renameReq := mkRenameReq { RR_Name : string }.
Record muteReq := mkMuteReq { MR_Muted : bool }.
Record destinationReq := mkDestinationReq {
  DR_Lat : float64; DR_Lng : float64; DR_Name : option string; DR_Notes : option string }.
Record destinationMetaReq := mkDestinationMetaReq { DM_Name : option string; DM_Notes : option string }.
Record personalMarkerReq := mkPersonalMarkerReq { PR_Lat : float64; PR_Lng : float64; PR_Label : option string }.
Record addStopReq := mkAddStopReq { AS_Lat : float64; AS_Lng : float64; AS_Label : option string }.
Record updateStopReq := mkUpdateStopReq { US_Label : option string }.
Record sendMessageReq := mkSendMessageReq { SM_Body : string }.
Record voiceTokenRes := mkVoiceTokenRes { VT_Token : string; VT_URL : string }.

(** The JSON bodies of the replies. *)
Inductive room_json :=
| ActiveJ (l : list ActiveRoom)
| DetailJ (d : RoomDetail)
| RoomJ (r : Room)
| DestinationJ (d : Destination)
| MarkerJ (m : PersonalMarker)
| StopJ (x : Stop)
| MessageJ (m : ChatMessage)
| MessagesJ (l : list ChatMessage)
| VoiceJ (v : voiceTokenRes).

Abbreviation room_reply := (reply room_json) (only parsing).

Section handlers.
Context {H : Type}.
Variable rt : option (Broadcaster H).
Variable unicode_upper : rune -> rune.
Variable uuid_String : uuid -> string.
Variable uuid_Parse : string -> option uuid.
Variable ToJWT : string -> string -> grant -> option string.
Variable livekit : Config.

(** [user, _ := auth.FromContext(r.Context())]. *)
Definition context_user (ctx : option User) : User := default noUser ctx.

(** [uuid.Parse(chi.URLParam(r, ...))]. *)
Definition path_uuid (p : string) : M H uuid :=
  match uuid_Parse p with Some u => ret u | None => throw (ErrAPI ErrBadRequest) end.

Definition voiceToken (ctx : option User) (room : string) : M H room_reply :=
  serve (
    check (negb (Enabled livekit)) (ErrAPI (Err 503 "voice_unavailable" "voice is not configured on the server")) ;;;
    let user := context_user ctx in
    roomID <- path_uuid room ;;
    AssertMember roomID (U_ID user) ;;;
    match IssueRoomToken uuid_String ToJWT livekit roomID (U_ID user) (U_DisplayName user) with
    | inr _ => throw (ErrAPI (Err 500 "voice_token_failed" "could not create voice token"))
    | inl token => ret (JSON 200 (VoiceJ (mkVoiceTokenRes token (NormalizeURL (URL livekit)))))
    end).

Definition listActive (ctx : option User) : M H room_reply :=
  serve (list <- ListActiveForUser rt (U_ID (context_user ctx)) ;; ret (JSON 200 (ActiveJ list))).

(** The body is optional: a decoding error is ignored, the fields read before
    it are not. *)
Definition create (ctx : option User) (req : decoded createReq) : M H room_reply :=
  let user := context_user ctx in
  serve (
    room <- Create (U_ID user) (CR_Name (dec_value req)) ;;
    detail <- Detail rt (Room_ID room) (U_ID user) ;;
    ret (JSON 201 (DetailJ detail))).

Definition join (ctx : option User) (req : decoded joinReq) : M H room_reply :=
  let user := context_user ctx in
  serve (
    req <- decode req ;;
    room <- Join rt unicode_upper (U_ID user) (JR_Code req) ;;
    detail <- Detail rt (Room_ID room) (U_ID user) ;;
    ret (JSON 200 (DetailJ detail))).

Definition get (ctx : option User) (room : string) : M H room_reply :=
  let user := context_user ctx in
  serve (
    roomID <- path_uuid room ;;
    AssertMember roomID (U_ID user) ;;;
    detail <- on_error (fun e => match e with RoomsErrNotFound => ErrAPI Httpx.ErrNotFound | _ => e end)
                (Detail rt roomID (U_ID user)) ;;
    ret (JSON 200 (DetailJ detail))).

Definition leave (ctx : option User) (room : string) : M H room_reply :=
  serve (
    roomID <- path_uuid room ;;
    Leave rt roomID (U_ID (context_user ctx)) ;;;
    ret NoContent).

Definition rename (ctx : option User) (room : string) (req : decoded renameReq) : M H room_reply :=
  serve (
    roomID <- path_uuid room ;;
    req <- decode req ;;
    room <- Rename rt roomID (U_ID (context_user ctx)) (RR_Name req) ;;
    ret (JSON 200 (RoomJ room))).

Definition mute (ctx : option User) (room member : string) (req : decoded muteReq) : M H room_reply :=
  serve (
    roomID <- path_uuid room ;;
    targetID <- path_uuid member ;;
    req <- decode req ;;
    Mute rt roomID (U_ID (context_user ctx)) targetID (MR_Muted req) ;;;
    ret NoContent).

Definition kick (ctx : option User) (room member : string) : M H room_reply :=
  serve (
    roomID <- path_uuid room ;;
    targetID <- path_uuid member ;;
    Kick rt roomID (U_ID (context_user ctx)) targetID ;;;
    ret NoContent).

Definition transferOwner (ctx : option User) (room member : string) : M H room_reply :=
  serve (
    roomID <- path_uuid room ;;
    targetID <- path_uuid member ;;
    TransferOwnership rt roomID (U_ID (context_user ctx)) targetID ;;;
    ret NoContent).

Definition putDestination (ctx : option User) (room : string) (req : decoded destinationReq) : M H room_reply :=
  serve (
    roomID <- path_uuid room ;;
    req <- decode req ;;
    d <- SetDestination rt roomID (U_ID (context_user ctx)) (DR_Lat req) (DR_Lng req) (DR_Name req) (DR_Notes req) ;;
    ret (JSON 200 (DestinationJ d))).

Definition patchDestination (ctx : option User) (room : string) (req : decoded destinationMetaReq) : M H room_reply :=
  serve (
    roomID <- path_uuid room ;;
    req <- decode req ;;
    d <- UpdateDestinationMeta rt roomID (U_ID (context_user ctx)) (DM_Name req) (DM_Notes req) ;;
    ret (JSON 200 (DestinationJ d))).

Definition deleteDestination (ctx : option User) (room : string) : M H room_reply :=
  serve (
    roomID <- path_uuid room ;;
    ClearDestination rt roomID (U_ID (context_user ctx)) ;;;
    ret NoContent).

Definition putPersonalMarker (ctx : option User) (room : string) (req : decoded personalMarkerReq) : M H room_reply :=
  serve (
    roomID <- path_uuid room ;;
    req <- decode req ;;
    pm <- SetPersonalMarker roomID (U_ID (context_user ctx)) (PR_Lat req) (PR_Lng req) (PR_Label req) ;;
    ret (JSON 200 (MarkerJ pm))).

Definition deletePersonalMarker (ctx : option User) (room : string) : M H room_reply :=
  serve (
    roomID <- path_uuid room ;;
    ClearPersonalMarker roomID (U_ID (context_user ctx)) ;;;
    ret NoContent).

Definition addStop (ctx : option User) (room : string) (req : decoded addStopReq) : M H room_reply :=
  serve (
    roomID <- path_uuid room ;;
    req <- decode req ;;
    stop <- AddStop rt roomID (U_ID (context_user ctx)) (AS_Lat req) (AS_Lng req) (AS_Label req) ;;
    ret (JSON 201 (StopJ stop))).

Definition patchStop (ctx : option User) (room stop : string) (req : decoded updateStopReq) : M H room_reply :=
  serve (
    roomID <- path_uuid room ;;
    stopID <- path_uuid stop ;;
    req <- decode req ;;
    stop <- UpdateStopLabel rt roomID (U_ID (context_user ctx)) stopID (US_Label req) ;;
    ret (JSON 200 (StopJ stop))).

Definition removeStop (ctx : option User) (room stop : string) : M H room_reply :=
  serve (
    roomID <- path_uuid room ;;
    stopID <- path_uuid stop ;;
    RemoveStop rt roomID (U_ID (context_user ctx)) stopID ;;;
    ret NoContent).

Definition clearStops (ctx : option User) (room : string) : M H room_reply :=
  serve (
    roomID <- path_uuid room ;;
    ClearStops rt roomID (U_ID (context_user ctx)) ;;;
    ret NoContent).

Definition postMessage (ctx : option User) (room : string) (req : decoded sendMessageReq) : M H room_reply :=
  serve (
    roomID <- path_uuid room ;;
    req <- decode req ;;
    msg <- PostMessage rt roomID (U_ID (context_user ctx)) (SM_Body req) ;;
    ret (JSON 201 (MessageJ msg))).

(** The query parameters [before] and [limit], empty when absent. *)
Definition query_before (before : string) : M H (option uuid) :=
  if bool_decide (before = "") then ret None else id <- path_uuid before ;; ret (Some id).

Definition query_limit (limit : string) : Z := default 0%Z (Atoi limit).

Definition listMessages (ctx : option User) (room before limit : string) : M H room_reply :=
  serve (
    roomID <- path_uuid room ;;
    beforeID <- query_before before ;;
    msgs <- ListMessages roomID (U_ID (context_user ctx)) beforeID (query_limit limit) ;;
    ret (JSON 200 (MessagesJ msgs))).

Definition end_ (ctx : option User) (room : string) : M H room_reply :=
  serve (
    roomID <- path_uuid room ;;
    End_ rt roomID (U_ID (context_user ctx)) ;;;
    ret NoContent).

(** ** [Routes] *)

(** What is asked of a room. *)
Inductive on_room :=
| GetRoom
| PutName (req : decoded renameReq)
| PostLeave
| PutDestination (req : decoded destinationReq)
| PatchDestination (req : decoded destinationMetaReq)
| DeleteDestination
| PutPersonalMarker (req : decoded personalMarkerReq)
| DeletePersonalMarker
| PostStop (req : decoded addStopReq)
| DeleteStops
| PatchStop (stop : string) (req : decoded updateStopReq)
| DeleteStop (stop : string)
| GetMessages (before limit : string)
| PostMessageTo (req : decoded sendMessageReq)
| PostMute (member : string) (req : decoded muteReq)
| PostKick (member : string)
| PostOwner (member : string)
| DeleteRoom
| PostVoiceToken.

Inductive room_request :=
| GetActive
| PostRoom (req : decoded createReq)
| PostJoin (req : decoded joinReq)
| OnRoom (room : string) (rq : on_room).

Definition route_room (ctx : option User) (room : string) (rq : on_room) : M H room_reply :=
  match rq with
  | GetRoom => get ctx room
  | PutName req => rename ctx room req
  | PostLeave => leave ctx room
  | PutDestination req => putDestination ctx room req
  | PatchDestination req => patchDestination ctx room req
  | DeleteDestination => deleteDestination ctx room
  | PutPersonalMarker req => putPersonalMarker ctx room req
  | DeletePersonalMarker => deletePersonalMarker ctx room
  | PostStop req => addStop ctx room req
  | DeleteStops => clearStops ctx room
  | PatchStop stop req => patchStop ctx room stop req
  | DeleteStop stop => removeStop ctx room stop
  | GetMessages before limit => listMessages ctx room before limit
  | PostMessageTo req => postMessage ctx room req
  | PostMute member req => mute ctx room member req
  | PostKick member => kick ctx room member
  | PostOwner member => transferOwner ctx room member
  | DeleteRoom => end_ ctx room
  | PostVoiceToken => voiceToken ctx room
  end.

Definition Routes (ctx : option User) (rq : room_request) : M H room_reply :=
  match rq with
  | GetActive => listActive ctx
  | PostRoom req => create ctx req
  | PostJoin req => join ctx req
  | OnRoom room rq => route_room ctx room rq
  end.
End handlers.
