(* ===== verification/HandlersProps.v ===== *)
(** * What the rooms API answers

    Malformed requests, outsiders, and the not-found errors of the service. *)
From stdpp Require Import base gmap sets list strings sorting.
From Stdlib Require Import ZArith Lia Ascii.
From S2P Require Import Prelude.
From S2P Require Import GoString.
From S2P Require Import Httpx.
From S2P Require Import Types.
From S2P Require Import Db.
From S2P Require Import Store.
From S2P Require Import StoreFacts.
From S2P Require Import Broadcaster.
From S2P Require Import Service.
From S2P Require Import ServiceFacts.
From S2P Require Import Runs.
From S2P Require Import Samples.
From S2P Require Import Providers.
From S2P Require Import Auth.
From S2P Require Import AuthFacts.
From S2P Require Import AuthProps.
From S2P Require Import Livekit.
From S2P Require Import Handlers.

Open Scope convoy_scope.

(** [strconv.Atoi] on page sizes. *)
Example Atoi_values :
  Atoi "50" = Some 50%Z /\ Atoi "-3" = Some (-3)%Z /\ Atoi "+7" = Some 7%Z /\ Atoi "" = None /\ Atoi "5x" = None /\
  Atoi "9223372036854775807" = Some 9223372036854775807%Z /\ Atoi "9223372036854775808" = None.
Proof. vm_compute. done. Qed.

Section api.
Context {H : Type}.
Variable rt : option (Broadcaster H).
Variable unicode_upper : rune -> rune.
Variable uuid_String : uuid -> string.
Variable uuid_Parse : string -> option uuid.
Variable ToJWT : string -> string -> grant -> option string.
Variable livekit : Config.

Definition bad_id (p : string) : option error :=
  match uuid_Parse p with Some _ => None | None => Some (ErrAPI ErrBadRequest) end.

(** The first of several complaints. *)
Definition first_error (a b : option error) : option error :=
  match a with Some e => Some e | None => b end.

(** What is wrong with a request before the service is asked, in the order in
    which the handlers look. *)
Definition room_request_error (room : string) (rq : on_room) : option error :=
  match rq with
  | PutName req => first_error (bad_id room) (Decode req)
  | PutDestination req => first_error (bad_id room) (Decode req)
  | PatchDestination req => first_error (bad_id room) (Decode req)
  | PutPersonalMarker req => first_error (bad_id room) (Decode req)
  | PostStop req => first_error (bad_id room) (Decode req)
  | PostMessageTo req => first_error (bad_id room) (Decode req)
  | PatchStop stop req => first_error (bad_id room) (first_error (bad_id stop) (Decode req))
  | DeleteStop stop => first_error (bad_id room) (bad_id stop)
  | GetMessages before _ =>
      first_error (bad_id room) (if bool_decide (before = "") then None else bad_id before)
  | PostMute member req => first_error (bad_id room) (first_error (bad_id member) (Decode req))
  | PostKick member | PostOwner member => first_error (bad_id room) (bad_id member)
  | PostVoiceToken =>
      if Enabled livekit then bad_id room
      else Some (ErrAPI (Err 503 "voice_unavailable" "voice is not configured on the server"))
  | GetRoom | PostLeave | DeleteDestination | DeletePersonalMarker | DeleteStops | DeleteRoom => bad_id room
  end.

Definition request_error (rq : room_request) : option error :=
  match rq with
  | GetActive | PostRoom _ => None
  | PostJoin req => Decode req
  | OnRoom room rq => room_request_error room rq
  end.

Definition route (ctx : option User) (rq : room_request) : M H (reply room_json) :=
  Routes rt unicode_upper uuid_String uuid_Parse ToJWT livekit ctx rq.

(** ** The heads of the handlers *)

Lemma serve_path {B} p (k : uuid -> M H (reply B)) w :
  serve (bind (path_uuid uuid_Parse p) k) w =
    match uuid_Parse p with Some u => serve (k u) w | None => (Ok (WriteErr (ErrAPI ErrBadRequest)), w) end.
Proof. rewrite serve_run, bind_unfold. unfold path_uuid. destruct (uuid_Parse p); [by rewrite serve_run|done]. Qed.

Lemma serve_decoding {A B} (d : decoded A) (k : A -> M H (reply B)) w :
  serve (bind (decode d) k) w =
    match Decode d with Some e => (Ok (WriteErr e), w) | None => serve (k (dec_value d)) w end.
Proof. rewrite serve_run, bind_unfold, decode_run. destruct (Decode d); [done|by rewrite serve_run]. Qed.

Lemma serve_checking {B} b e (m : M H (reply B)) w :
  serve (bind (check b e) (fun _ => m)) w = if b then (Ok (WriteErr e), w) else serve m w.
Proof. rewrite serve_run, bind_unfold, check_run. destruct b; [done|by rewrite serve_run]. Qed.

Lemma serve_before {B} before (k : option uuid -> M H (reply B)) w :
  serve (bind (query_before uuid_Parse before) k) w =
    if bool_decide (before = "") then serve (k None) w
    else match uuid_Parse before with
         | Some u => serve (k (Some u)) w
         | None => (Ok (WriteErr (ErrAPI ErrBadRequest)), w)
         end.
Proof.
  rewrite serve_run, bind_unfold. unfold query_before. destruct (bool_decide _); [by rewrite serve_run|].
  rewrite bind_unfold. unfold path_uuid. destruct (uuid_Parse before); [by rewrite serve_run|done].
Qed.

(** A call that fails decides the reply. *)
Lemma serve_failing {A B} (m : M H A) (k : A -> M H (reply B)) w e w' :
  m w = (Fail e, w') -> serve (bind m k) w = (Ok (WriteErr e), w').
Proof. intros Hm. by rewrite serve_run, bind_unfold, Hm. Qed.

Lemma malformed_run ctx rq e (w : World H) :
  request_error rq = Some e -> route ctx rq w = (Ok (WriteErr e), w).
Proof.
  unfold route. destruct rq as [|req|req|room rq]; cbn [request_error Routes]; [done|done| |].
  { intros He. unfold join. rewrite serve_decoding. by rewrite He. }
  destruct rq; cbn [room_request_error route_room]; unfold bad_id, get, rename, leave, putDestination,
    patchDestination, deleteDestination, putPersonalMarker, deletePersonalMarker, addStop, clearStops,
    patchStop, removeStop, listMessages, postMessage, mute, kick, transferOwner, end_, voiceToken;
    rewrite ?serve_checking; try (destruct (Enabled livekit); cbn [negb]; [|by intros [= <-]]);
    rewrite serve_path; (destruct (uuid_Parse room); cbn [first_error]; [|by intros [= <-]]);
    rewrite ?serve_path, ?serve_before; try done;
    try (destruct (bool_decide _); [done|]);
    repeat match goal with
    | |- context [uuid_Parse ?x] => destruct (uuid_Parse x); cbn [first_error]; [|by intros [= <-]]
    end; rewrite ?serve_decoding; try done; by intros ->.
Qed.

(** A request with an identifier that does not parse or a body that does
    not decode is answered with that error, before anything is asked of the
    database: the world is as it was. *)
Theorem malformed_requests ctx rq e (w : World H) :
  request_error rq = Some e -> route ctx rq w = (Ok (WriteErr e), w).
Proof. apply malformed_run. Qed.

(** ** Outsiders *)

Lemma not_member_not_owner t r u : is_member t r u = false -> is_owner t r u = false.
Proof. unfold is_member, is_owner. destruct (t_members t !! (r, u)) as [m|]; [|done]. by intros ->. Qed.

(** The refusal of the membership check. *)
Definition refusal (w : World H) : error := if decide (next_ok w) then ErrAPI ErrForbidden else ErrConn.

Lemma outsider_run ctx room r rq (w : World H) :
  uuid_Parse room = Some r -> is_member (w_db w) r (U_ID (context_user ctx)) = false -> rq <> PostLeave ->
  let '(res, w') := route ctx (OnRoom room rq) w in
  res = Ok (WriteErr (default (refusal w) (room_request_error room rq))) /\
  w_db w' = w_db w /\ w_rt w' = w_rt w.
Proof.
  intros Hroom Hno Hleave. destruct (room_request_error room rq) as [e|] eqn:He.
  { by rewrite (malformed_run ctx (OnRoom room rq) e w He). }
  assert (route ctx (OnRoom room rq) w = (Ok (WriteErr (refusal w)), advance true w)) as ->; [|done].
  pose proof (not_member_not_owner _ _ _ Hno) as Hno'. unfold refusal, route.
  destruct rq; cbn [Routes route_room room_request_error] in *; try done;
    unfold bad_id, get, rename, putDestination,
    patchDestination, deleteDestination, putPersonalMarker, deletePersonalMarker, addStop, clearStops,
    patchStop, removeStop, listMessages, postMessage, mute, kick, transferOwner, end_, voiceToken in *;
    rewrite ?serve_checking; try (destruct (Enabled livekit); cbn [negb]; [|done]);
    rewrite serve_path, Hroom in *; cbn [first_error] in *; rewrite ?serve_path, ?serve_before;
    try (destruct (bool_decide _));
    repeat match type of He with
    | context [uuid_Parse ?x] => destruct (uuid_Parse x); cbn [first_error] in He; [|done]
    end; rewrite ?serve_decoding, ?He;
    first [by apply serve_failing, requireOwner_refused|by apply serve_failing, AssertMember_refused
          |by rewrite serve_run, AssertMember_refused].
Qed.

(** C3 Whatever somebody who is not a present member asks of a room - save to
    leave it - is refused: with the complaint about the request if it has one,
    else with 403, or 500 when the check itself fails; the tables and the
    realtime side stay as they were. *)
Theorem outsider_refused ctx room r rq (w : World H) :
  uuid_Parse room = Some r -> is_member (w_db w) r (U_ID (context_user ctx)) = false -> rq <> PostLeave ->
  let '(res, w') := route ctx (OnRoom room rq) w in
  res = Ok (WriteErr (default (refusal w) (room_request_error room rq))) /\
  w_db w' = w_db w /\ w_rt w' = w_rt w.
Proof. apply outsider_run. Qed.

(** ** Not-found errors *)

Lemma Kick_absent r actor target (w : World H) :
  fault_free w -> is_owner (w_db w) r actor = true -> actor <> target ->
  (forall m, t_members (w_db w) !! (r, target) = Some m -> member_present m = false) ->
  Kick rt r actor target w = (Fail RoomsErrNotFound, skip 2 w).
Proof.
  intros Hw Ho Hne Habs. run_start w. unfold Kick. run_step requireOwner_skip. rewrite Ho. cbn iota.
  run_step check_run. rewrite (bool_decide_eq_false_2 _ Hne). run_cases StoreKick_run.
  destruct (t_members (w_db w) !! (r, target)) as [m|]; [rewrite (Habs m) by done|]; by rewrite set_db_skip.
Qed.

Lemma Mute_absent r actor target b (w : World H) :
  fault_free w -> is_owner (w_db w) r actor = true -> actor <> target ->
  (forall m, t_members (w_db w) !! (r, target) = Some m -> member_present m = false) ->
  Mute rt r actor target b w = (Fail RoomsErrNotFound, skip 2 w).
Proof.
  intros Hw Ho Hne Habs. run_start w. unfold Mute. run_step requireOwner_skip. rewrite Ho. cbn iota.
  run_step check_run. rewrite (bool_decide_eq_false_2 _ Hne). run_cases SetMuted_run.
  destruct (t_members (w_db w) !! (r, target)) as [m|]; [rewrite (Habs m) by done|]; by rewrite set_db_skip.
Qed.

(** [rooms.ErrNotFound] has no status outside of reading a room: an owner
    who mutes or kicks somebody who is not in the room is answered 500, as if
    the server had failed, though the service found out what is wrong. *)
Theorem absent_target_is_500 u room member r target req (w : World H) :
  uuid_Parse room = Some r -> uuid_Parse member = Some target -> dec_error req = None ->
  fault_free w -> is_owner (w_db w) r (U_ID u) = true -> U_ID u <> target ->
  (forall m, t_members (w_db w) !! (r, target) = Some m -> member_present m = false) ->
  obs (route (Some u) (OnRoom room (PostKick member)) w) = (Ok internal_error, w_db w, w_rt w) /\
  obs (route (Some u) (OnRoom room (PostMute member req)) w) = (Ok internal_error, w_db w, w_rt w).
Proof.
  intros Hr Hm Hdec Hw Ho Hne Habs. unfold route. cbn [Routes route_room]. unfold kick, mute.
  rewrite !serve_path, Hr, !serve_path, Hm, serve_decoding. unfold Decode. rewrite Hdec.
  cbn [fmap option_fmap option_map context_user default]. split.
  - erewrite serve_failing by (by apply Kick_absent). unfold obs. simpl. by rewrite skip_db, skip_rt.
  - erewrite serve_failing by (by apply Mute_absent). unfold obs. simpl. by rewrite skip_db, skip_rt.
Qed.
End api.

(** ** Concrete requests *)

Definition no_voice : Config := mkConfig "" "" "".

Definition ask (ctx : option User) (rq : room_request) : M (list rt_call) (reply room_json) :=
  route (Some trace_broadcaster) (fun r => r) plain_String plain_Parse (fun _ _ _ => None) no_voice ctx rq.

Lemma malformed_requests_witness :
  ask (Some ada) (OnRoom "101" (PostKick "bob")) convoy_world = (Ok (WriteErr (ErrAPI ErrBadRequest)), convoy_world).
Proof. apply malformed_requests. vm_compute. reflexivity. Defined.

Lemma outsider_refused_witness :
  let '(res, w') := ask (Some (mkUser 9 "eve" None None None)) (OnRoom "101" DeleteRoom) convoy_world in
  res = Ok (WriteErr (ErrAPI ErrForbidden)) /\ w_db w' = w_db convoy_world /\ w_rt w' = w_rt convoy_world.
Proof.
  pose proof (outsider_refused (Some trace_broadcaster) (fun r => r) plain_String plain_Parse (fun _ _ _ => None) no_voice
    (Some (mkUser 9 "eve" None None None)) "101" 101 DeleteRoom convoy_world) as Ho.
  unfold ask. destruct (route _ _ _ _ _ _ _ _ _) as [res w'].
  apply Ho; [vm_compute; reflexivity|vm_compute; reflexivity|discriminate].
Defined.

Lemma absent_target_is_500_witness :
  fst (fst (obs (ask (Some ada) (OnRoom "101" (PostKick "77")) convoy_world))) = Ok internal_error.
Proof.
  destruct (absent_target_is_500 (Some trace_broadcaster) (fun r => r) plain_String plain_Parse (fun _ _ _ => None)
    no_voice ada "101" "77" 101 77 (mkDecoded (mkMuteReq true) None) convoy_world) as [Hk _].
  - vm_compute. reflexivity.
  - vm_compute. reflexivity.
  - reflexivity.
  - exact convoy_world_calm.
  - vm_compute. reflexivity.
  - discriminate.
  - intros m Hm. vm_compute in Hm. discriminate.
  - unfold ask. rewrite Hk. reflexivity.
Defined.
