(* ===== verification/Session.v ===== *)
(** * [internal/realtime/handler.go] and the read pump: a socket's life

    What [ServeHTTP] checks before the upgrade, what it does to the hub when a
    socket opens and when it ends, and what the read pump makes of a frame. *)
From stdpp Require Import base gmap sets list strings.
From Stdlib Require Import ZArith Lia.
From S2P Require Import Prelude.
From S2P Require Import GoString.
From S2P Require Import Httpx.
From S2P Require Import Types.
From S2P Require Import Db.
From S2P Require Import Store.
From S2P Require Import Providers.
From S2P Require Import Auth.
From S2P Require Import Messages.
From S2P Require Import Client.
From S2P Require Import Hub.

Open Scope convoy_scope.

(** A call into the hub that answers. *)
Definition rt_call {H A} (f : H -> A * H) : M H A :=
  fun w => let p := f (w_rt w) in
           (Ok p.1, mkWorld (w_db w) (w_now w) (w_env w) (w_pos w) (w_rpos w) p.2).

(** ** Frames from the client *)

(** A frame as [encoding/json] reads it: the envelope's type, and what its
    payload is as a location and as an emergency report. *)
Inductive inbound :=
| Undecodable
| Frame (type : string) (loc : option Location) (active : option bool).

Definition client_room (c : cid) (h : Hub) : uuid :=
  match h_clients h !! c with Some k => c_roomID k | None => 0%N end.

Definition send_error (c : cid) (msg : string) (h : Hub) : Hub := sendTo c MsgError (Some (ErrorP msg)) h.

(** A location report: remembered, and told to the others. *)
Definition on_location (c : cid) (loc : Location) (now_ms : Z) (h : Hub) : Hub :=
  let self := client_user c h in let roomID := client_room c h in
  let ev := mkLocationEvent self (Loc_Lat loc) (Loc_Lng loc) (Loc_Heading loc) (Loc_Speed loc) now_ms in
  broadcast roomID MsgLocation (LocationP ev) (Some self) (recordLocation roomID ev h).

Definition on_emergency (c : cid) (active : bool) (h : Hub) : Hub :=
  let self := client_user c h in let roomID := client_room c h in
  let '(changed, h1) := SetEmergency roomID self active h in
  if changed then BroadcastEmergency roomID self active h1 else h1.

(** One round of [readPump]'s loop. *)
Definition on_frame (c : cid) (now_ms : Z) (f : inbound) (h : Hub) : Hub :=
  match f with
  | Undecodable => send_error c "invalid frame" h
  | Frame type loc active =>
      if bool_decide (type = ClientMsgPing) then sendTo c MsgPong None h
      else if bool_decide (type = ClientMsgLocation) then
        match loc with
        | None => send_error c "invalid location" h
        | Some l => on_location c l now_ms h
        end
      else if bool_decide (type = ClientMsgEmergency) then
        match active with
        | None => send_error c "invalid emergency" h
        | Some a => on_emergency c a h
        end
      else send_error c "unknown message type" h
  end.

(** [readPump]: the frames that arrive, each with its time, until the
    connection fails. *)
Definition readPump (c : cid) (frames : list (Z * inbound)) (h : Hub) : Hub :=
  upd_client (close_ "read loop ended") c (foldl (fun h f => on_frame c f.1 f.2 h) h frames).

(** ** The handler *)

Inductive opened :=
| HTTPError (status : Z) (msg : string)
| NotUpgraded
| Opened (c : cid).

Section session.
Variable uuid_Parse : string -> option uuid.
Variable jwt_Parse : string -> (signing_method -> option string) -> time -> option MapClaims.
Context {Keyfunc : Type}.
Variable s : Service (Keyfunc:=Keyfunc).

(** The hub's part of opening a socket: [newClient] and [join]. *)
Definition enter (roomID userID : uuid) (h : Hub) : cid * bool * Hub :=
  let '(c, h1) := alloc_client userID roomID h in
  let '(became, h2) := join roomID c h1 in (c, became, h2).

(** [ServeHTTP] up to the pumps; [accepted] is [websocket.Accept]'s answer. *)
Definition ServeHTTP (room token : string) (now : time) (accepted : bool) : M Hub opened :=
  match uuid_Parse room with
  | None => ret (HTTPError 400 "invalid room")
  | Some roomID =>
  match Verify uuid_Parse jwt_Parse s token now with
  | None => ret (HTTPError 401 "unauthorized")
  | Some userID =>
      r <- try (GetByID roomID) ;;
      match r with
      | Fail RoomsErrNotFound => ret (HTTPError 404 "room not found")
      | Fail _ => ret (HTTPError 500 "server error")
      | Ok row =>
          if bool_decide (Room_EndedAt row <> None) then ret (HTTPError 410 "room ended") else
          m <- try (ActiveMembership roomID userID) ;;
          match m with
          | Fail _ => ret (HTTPError 403 "forbidden")
          | Ok _ =>
              u <- try (LoadUser userID) ;;
              match u with
              | Fail _ => ret (HTTPError 500 "server error")
              | Ok user =>
                  if negb accepted then ret NotUpgraded else
                  cb <- rt_call (enter roomID (U_ID user)) ;;
                  snap <- try (snapshot roomID userID) ;;
                  match snap with
                  | Ok p => rt_do (sendTo cb.1 MsgSnapshot (Some (SnapshotP p)))
                  | Fail _ => ret tt
                  end ;;;
                  (if cb.2 then rt_do (BroadcastMemberPresent roomID userID) else ret tt) ;;;
                  ret (Opened cb.1)
              end
          end
      end
  end
  end.
End session.

(** [ServeHTTP] after the read pump returned. *)
Definition disconnect (roomID userID : uuid) (c : cid) (h : Hub) : Hub :=
  let '(wasPresent, clearedEmergency, h1) := leave roomID c h in
  if wasPresent then
    let h2 := if clearedEmergency then BroadcastEmergency roomID userID false h1 else h1 in
    BroadcastMemberAbsent roomID userID h2
  else h1.
