(* ===== verification/SessionProps.v ===== *)
(** * What a socket's life does to the room

    Disconnects, and the emergencies and locations of those who are gone. *)
From stdpp Require Import base gmap sets list strings.
From Stdlib Require Import ZArith Lia.
From S2P Require Import Prelude.
From S2P Require Import Httpx.
From S2P Require Import Types.
From S2P Require Import Db.
From S2P Require Import Store.
From S2P Require Import Messages.
From S2P Require Import Client.
From S2P Require Import ClientProps.
From S2P Require Import Hub.
From S2P Require Import HubFacts.
From S2P Require Import Presence.
From S2P Require Import HubProps.
From S2P Require Import Session.

Open Scope convoy_scope.

(** ** Disconnecting *)

Definition absent_frame (u : uuid) : Envelope := mkEnvelope MsgMemberAbsent (Some (MemberAbsentP u)).
Definition alarm_frame (u : uuid) (active : bool) : Envelope :=
  mkEnvelope MsgEmergency (Some (EmergencyP u active)).

Lemma leave_clients r c h : h_clients (leave r c h).2 = h_clients h.
Proof.
  unfold leave, roomFor. destruct (h_rooms h !! r) as [l|]; [|done]. unfold leave_at.
  destruct (bool_decide _); simpl; destruct (bool_decide _); try done; unfold drop_if_empty;
    simpl; destruct (h_rooms h !! r); try done; by destruct (bool_decide _).
Qed.

Lemma forget_emergency r p r' u : (r', u) ∈ p_emergency (forget r p) -> (r', u) ∈ p_emergency p.
Proof. intros Hin. by apply (forget_lookup r p r' u) in Hin as []. Qed.

Lemma forget_current r p : p_current (forget r p) = p_current p.
Proof. apply (forget_lookup r p 0%N 0%N). Qed.

Lemma leave_current r u c h p :
  hub_wf h -> refines h p -> socket_of r u c h -> client_of r u h = Some c ->
  (leave r c h).1 = (true, emergency_of r u h) /\ hub_wf (leave r c h).2 /\
  (forall r' v, client_of r' v (leave r c h).2 = if decide ((r', v) = (r, u)) then None else client_of r' v h) /\
  emergency_of r u (leave r c h).2 = false.
Proof.
  intros Hwf Hp Hs Hc. destruct (leave_refines r u c h p Hwf Hp Hs) as (Hres & Hp' & Hwf').
  unfold p_leave in Hres, Hp'. rewrite (rf_current _ _ Hp), decide_True in Hres, Hp' by done.
  rewrite (rf_emergency _ _ Hp) in Hres. split; [done|]. split; [done|]. split.
  - intros r' v. rewrite <-(rf_current _ _ Hp'). cbn [snd]. rewrite forget_current. simpl.
    rewrite lookup_delete, (rf_current _ _ Hp).
    destruct (decide ((r, u) = (r', v))) as [E|E]; [rewrite decide_True by done|rewrite decide_False by congruence]; done.
  - rewrite <-(rf_emergency _ _ Hp'). apply bool_decide_eq_false. cbn [snd]. intros Hin%forget_emergency.
    simpl in Hin. apply elem_of_difference in Hin as [_ Hin]. by destruct Hin; apply elem_of_singleton.
Qed.

Lemma leave_superseded r u c h p :
  hub_wf h -> refines h p -> socket_of r u c h -> client_of r u h <> Some c ->
  (leave r c h).1 = (false, false) /\ forall r' v, client_of r' v (leave r c h).2 = client_of r' v h.
Proof.
  intros Hwf Hp Hs Hc. destruct (leave_refines r u c h p Hwf Hp Hs) as (Hres & Hp' & _).
  unfold p_leave in Hres, Hp'. rewrite (rf_current _ _ Hp), decide_False in Hres, Hp' by done.
  split; [done|]. intros r' v. rewrite <-(rf_current _ _ Hp'). cbn [snd].
  by rewrite forget_current, (rf_current _ _ Hp).
Qed.

(** Who a broadcast reaches does not change with what is queued. *)
Lemma reaches_broadcast r ex d r' t p ex' h :
  hub_wf h -> reaches r ex d (broadcast r' t p ex' h) = reaches r ex d h.
Proof.
  intros Hwf. unfold reaches at 1. rewrite broadcast_clients by done.
  set (b := reaches r' ex' d h). unfold reaches.
  destruct (h_clients h !! d) as [k|]; [|done]. cbn [fmap option_fmap option_map]. rewrite client_of_broadcast.
  destruct (pack t (Some p)) as [data|]; [|done]. destruct b; [|done].
  by destruct (enqueue_owner data k) as [-> _].
Qed.

(** C24 When a user's current socket ends, the user is no longer present and
    not in an emergency, and every other member of the room is told: first that
    the emergency is over, if there was one, then that the user is absent.  When
    a socket ends that a newer one of the same user replaced, nobody is told
    anything and everybody's presence stays. *)
Theorem disconnect_spec r u c h p :
  hub_wf h -> refines h p -> socket_of r u c h ->
  let h' := disconnect r u c h in
  if decide (client_of r u h = Some c) then
    IsPresent r u h' = false /\ emergency_of r u h' = false /\
    forall d, h_clients h' !! d =
      (fun k => if reaches r (Some u) d h
                then enqueue (absent_frame u) (if emergency_of r u h then enqueue (alarm_frame u false) k else k)
                else k) <$> h_clients h !! d
  else h_clients h' = h_clients h /\ forall r' v, client_of r' v h' = client_of r' v h.
Proof.
  intros Hwf Hp Hs h'. unfold h', disconnect. clear h'. pose proof (leave_clients r c h) as Hcl.
  destruct (decide (client_of r u h = Some c)) as [Hc|Hc].
  - destruct (leave_current r u c h p Hwf Hp Hs Hc) as (Hres & Hwf1 & Hco & Hem).
    destruct (leave r c h) as [[was cleared] h1]. simpl in *. injection Hres as -> ->.
    set (h2 := if emergency_of r u h then BroadcastEmergency r u false h1 else h1).
    assert (hub_wf h2) as Hwf2 by (unfold h2; destruct (emergency_of r u h); [by apply broadcast_wf|done]).
    assert (forall r', room_state r' h2 = room_state r' h1) as Hv.
    { intros r'. unfold h2. destruct (emergency_of r u h); [apply broadcast_view|done]. }
    assert (forall d, reaches r (Some u) d h2 = reaches r (Some u) d h /\ reaches r None d h1 = reaches r (Some u) d h) as Hreach.
    { intros d. assert (reaches r None d h1 = reaches r (Some u) d h) as Hnone.
      { unfold reaches. rewrite Hcl. destruct (h_clients h !! d) as [k|]; [|done]. rewrite Hco.
        rewrite (bool_decide_eq_true_2 (None <> Some (c_user k))) by done. rewrite andb_true_r.
        destruct (decide ((r, c_user k) = (r, u))) as [[= ->]|Hne].
        - rewrite (bool_decide_eq_false_2 (None = Some d)) by done.
          rewrite (bool_decide_eq_false_2 (Some u <> Some u)) by (by intros []). by rewrite andb_false_r.
        - rewrite (bool_decide_eq_true_2 (Some u <> Some (c_user k))) by congruence. by rewrite andb_true_r. }
      split; [|done]. rewrite <-Hnone. assert (reaches r (Some u) d h2 = reaches r (Some u) d h1) as ->.
      { unfold h2. destruct (emergency_of r u h); [by apply reaches_broadcast|done]. }
      rewrite Hnone. unfold reaches. rewrite Hcl. destruct (h_clients h !! d) as [k|]; [|done]. rewrite Hco.
      destruct (decide ((r, c_user k) = (r, u))) as [[= ->]|Hne]; [|done].
      rewrite (bool_decide_eq_false_2 (Some u <> Some u)) by (by intros []). by rewrite !andb_false_r. }
    split; [|split].
    + assert (client_of r u (BroadcastMemberAbsent r u h2) = None) as Hnone.
      { unfold BroadcastMemberAbsent. rewrite client_of_broadcast. unfold client_of. rewrite Hv.
        specialize (Hco r u). rewrite decide_True in Hco by done. exact Hco. }
      unfold IsPresent. unfold client_of in Hnone. destruct (room_state r _) as [rs|]; [|done].
      simpl in Hnone. rewrite Hnone. apply bool_decide_eq_false. by intros [].
    + unfold emergency_of, BroadcastMemberAbsent. rewrite broadcast_view, Hv. exact Hem.
    + intros d. unfold BroadcastMemberAbsent. rewrite broadcast_clients by done. cbn [pack json_payload].
      destruct (Hreach d) as [-> Hnone]. fold (absent_frame u). unfold h2. destruct (emergency_of r u h).
      * unfold BroadcastEmergency. rewrite broadcast_clients by done. cbn [pack json_payload].
        fold (alarm_frame u false). rewrite Hnone, Hcl. destruct (h_clients h !! d); [|done]. simpl.
        by destruct (reaches r (Some u) d h).
      * by rewrite Hcl.
  - destruct (leave_superseded r u c h p Hwf Hp Hs Hc) as [Hres Hco].
    destruct (leave r c h) as [[was cleared] h1]. simpl in *. injection Hres as -> ->. done.
Qed.

(** ** Emergencies and locations of those present *)

(** What the sockets and the service do to the hub, one step at a time, when
    frames come from current sockets only. *)
Inductive hub_step : Hub -> Hub -> Prop :=
| step_enter r u h : hub_step h (enter r u h).2
| step_frame c k now_ms f h :
    h_clients h !! c = Some k -> client_of (c_roomID k) (c_user k) h = Some c ->
    hub_step h (on_frame c now_ms f h)
| step_read_loop_ends c h : hub_step h (readPump c [] h)
| step_disconnect r u c h : socket_of r u c h -> hub_step h (disconnect r u c h)
| step_announce op h : quiet_op op = true -> hub_step h (hub_exec op h).2.

Inductive reachable : Hub -> Prop :=
| reach_start : reachable NewHub
| reach_step h h' : reachable h -> hub_step h h' -> reachable h'.

(** The abstract presence knows nothing of those who are not there. *)
Record tidy (p : presence) : Prop := {
  td_emergency : forall x, x ∈ p_emergency p -> is_Some (p_current p !! x);
  td_location : forall x, is_Some (p_location p !! x) -> is_Some (p_current p !! x);
}.

Definition good (h : Hub) : Prop := hub_wf h /\ exists p, refines h p /\ tidy p.

Lemma tidy_join r u c p : tidy p -> tidy (p_join r u c p).2.
Proof. intros [H1 H2]. split; simpl; intros x Hx; rewrite lookup_insert; case_decide; eauto. Qed.

Lemma tidy_forget r p : tidy p -> tidy (forget r p).
Proof.
  intros [H1 H2]. unfold forget. destruct (decide (deserted r p)); [|done]. split; simpl.
  - intros x [_ Hx]%elem_of_filter. auto.
  - intros x [ev [Hx _]%map_lookup_filter_Some]. apply H2. by eexists.
Qed.

Lemma tidy_leave r u c p : tidy p -> tidy (p_leave r u c p).2.
Proof.
  intros Ht. pose proof Ht as [H1 H2]. unfold p_leave. case_decide; [|by apply tidy_forget].
  apply tidy_forget. split; simpl; intros x.
  - intros [Hx Hne]%elem_of_difference. rewrite lookup_delete_ne; [auto|].
    intros <-. by apply Hne, elem_of_singleton.
  - rewrite lookup_delete. case_decide; [by intros []|]. intros Hx. rewrite lookup_delete_ne; auto.
Qed.

Lemma tidy_emergency r u a p :
  is_Some (p_current p !! (r, u)) -> tidy p -> tidy (p_emergency_set r u a p).2.
Proof.
  intros Hc [H1 H2]. split; simpl; [|done]. intros x. destruct a.
  - intros [->%elem_of_singleton|Hx]%elem_of_union; auto.
  - intros [Hx _]%elem_of_difference. auto.
Qed.

Lemma tidy_locate r ev p :
  is_Some (p_current p !! (r, LE_UserID ev)) -> tidy p -> tidy (p_locate r ev p).
Proof. intros Hc [H1 H2]. split; simpl; [done|]. intros x. rewrite lookup_insert. case_decide; [by subst|auto]. Qed.

Lemma good_silent h h' : good h -> hub_wf h' -> (forall r, view r h' = view r h) -> good h'.
Proof. intros (_ & p & Hp & Ht) Hwf Hv. split; [done|]. exists p. split; [by eapply refines_silent|done]. Qed.

Lemma good_broadcast r t p ex h : good h -> good (broadcast r t p ex h).
Proof.
  intros Hg. apply (good_silent h); [done|apply broadcast_wf, Hg|]. intros r'. unfold view.
  by rewrite broadcast_view.
Qed.

Lemma good_sendTo c t p h : good h -> good (sendTo c t p h).
Proof.
  intros Hg. apply (good_silent h); [done|apply sendTo_wf, Hg|]. intros r'. unfold view. by rewrite sendTo_view.
Qed.

Lemma alloc_socket r u h : socket_of r u (alloc_client u r h).1 (alloc_client u r h).2.
Proof. exists (newClient u r). simpl. by rewrite lookup_insert_eq. Qed.

Lemma good_enter r u h : good h -> good (enter r u h).2.
Proof.
  intros (Hwf & p & Hp & Ht). unfold enter. pose proof (alloc_wf u r h Hwf) as Hwf1.
  pose proof (alloc_socket r u h) as Hs. destruct (alloc_client u r h) as [c h1] eqn:Hal. simpl in *.
  assert (refines h1 p) as Hp1.
  { apply (refines_silent h); [|done]. intros r'. injection Hal as <- <-. done. }
  destruct (join_refines r u c h1 p Hwf1 Hp1 Hs) as (_ & Hp2 & Hwf2).
  destruct (join r c h1) as [b h2]. simpl in *. split; [done|]. eexists. split; [exact Hp2|by apply tidy_join].
Qed.

Lemma good_emergency r u a h : good h -> is_Some (client_of r u h) -> good (SetEmergency r u a h).2.
Proof.
  intros (Hwf & p & Hp & Ht) Hc. destruct (set_emergency_refines r u a h p Hwf Hp) as (_ & Hp' & Hwf').
  split; [done|]. eexists. split; [exact Hp'|]. apply tidy_emergency; [by rewrite (rf_current _ _ Hp)|done].
Qed.

Lemma good_location r ev h : good h -> is_Some (client_of r (LE_UserID ev) h) -> good (recordLocation r ev h).
Proof.
  intros (Hwf & p & Hp & Ht) Hc. destruct (recordLocation_refines r ev h p Hwf Hp) as (Hp' & Hwf').
  split; [done|]. eexists. split; [exact Hp'|]. apply tidy_locate; [by rewrite (rf_current _ _ Hp)|done].
Qed.

Lemma good_disconnect r u c h : good h -> socket_of r u c h -> good (disconnect r u c h).
Proof.
  intros (Hwf & p & Hp & Ht) Hs. destruct (leave_refines r u c h p Hwf Hp Hs) as (_ & Hp' & Hwf').
  assert (good (leave r c h).2) as Hg by (split; [done|]; eexists; split; [exact Hp'|by apply tidy_leave]).
  unfold disconnect. destruct (leave r c h) as [[was cleared] h1]. simpl in Hg.
  destruct was; [|done]. apply good_broadcast. destruct cleared; [by apply good_broadcast|done].
Qed.

Lemma good_frame c k now_ms f h :
  good h -> h_clients h !! c = Some k -> client_of (c_roomID k) (c_user k) h = Some c ->
  good (on_frame c now_ms f h).
Proof.
  intros Hg Hk Hc. unfold on_frame, send_error. destruct f as [|type loc active]; [by apply good_sendTo|].
  destruct (bool_decide _); [by apply good_sendTo|].
  destruct (bool_decide _).
  { destruct loc as [l|]; [|by apply good_sendTo]. apply good_broadcast, good_location; [done|].
    simpl. unfold client_user, client_room. rewrite Hk. by eexists. }
  destruct (bool_decide _); [|by apply good_sendTo].
  destruct active as [a|]; [|by apply good_sendTo]. unfold on_emergency.
  pose proof (good_emergency (client_room c h) (client_user c h) a h Hg) as Hg'.
  destruct (SetEmergency _ _ _ h) as [changed h1]. simpl in Hg'.
  assert (good h1) by (apply Hg'; unfold client_user, client_room; rewrite Hk; by eexists).
  destruct changed; [by apply good_broadcast|done].
Qed.

Lemma step_good h h' : hub_step h h' -> good h -> good h'.
Proof.
  destruct 1 as [r u h|c k ms f h Hk Hc|c h|r u c h Hs|op h Hq]; intros Hg.
  - by apply good_enter.
  - by eapply good_frame.
  - apply (good_silent h); [done| |done]. apply upd_client_wf; [apply close_owner|apply Hg].
  - by apply good_disconnect.
  - pose proof Hg as [Hwf _]. destruct (quiet_exec op h Hq Hwf) as (_ & Hwf' & Hv).
    by apply (good_silent h).
Qed.

Lemma reachable_good h : reachable h -> good h.
Proof.
  induction 1 as [|h h' _ IH Hstep]; [|by eapply step_good].
  split; [apply NewHub_wf|]. exists nobody. split; [apply NewHub_refines|].
  split; simpl; intros x; [by intros ?%not_elem_of_empty|rewrite lookup_empty; by intros []].
Qed.

Lemma good_alarms h :
  good h ->
  forall r u,
    (u ∈ EmergencyUserIDs r h -> IsPresent r u h = true) /\
    (forall self ms d st, let snap := snapshot_of r self ms d st h in
       (is_Some (SP_Locations snap !! u) -> u ∈ SP_PresentUserIDs snap) /\
       (u ∈ SP_EmergencyUserIDs snap -> u ∈ SP_PresentUserIDs snap)).
Proof.
  intros (Hwf & p & Hp & Ht) r u. rewrite refines_alt in Hp. destruct (Hp r u) as (Hc & He & Hl).
  assert (forall cs, is_Some (cs !! u) -> u ∈ (map_to_list (cs : gmap uuid cid)).*1) as Hin.
  { intros cs [c Hc']. apply list_elem_of_fmap. exists (u, c). split; [done|]. by apply elem_of_map_to_list. }
  split.
  - intros Hu. unfold EmergencyUserIDs in Hu. unfold IsPresent, view in *.
    destruct (room_state r h) as [rs|]; [|by apply not_elem_of_nil in Hu]. apply elem_of_elements in Hu.
    apply bool_decide_eq_true. simpl in *. rewrite <-Hc. by apply (td_emergency _ Ht), He.
  - intros self ms d st. unfold snapshot_of. fold (view r h). cbn [SP_Locations SP_PresentUserIDs SP_EmergencyUserIDs].
    split; intros Hu; apply Hin; rewrite <-Hc.
    + apply (td_location _ Ht). by rewrite Hl.
    + by apply (td_emergency _ Ht), He, elem_of_elements.
Qed.

(** As long as frames come from current sockets, an emergency and a
    remembered location are always those of somebody present: what a snapshot
    or the room's details say about them never speaks of the absent, whatever
    the order of connects, frames, disconnects and announcements. *)
Theorem alarms_of_present h :
  reachable h ->
  forall r u,
    (u ∈ EmergencyUserIDs r h -> IsPresent r u h = true) /\
    (forall self ms d st, let snap := snapshot_of r self ms d st h in
       (is_Some (SP_Locations snap !! u) -> u ∈ SP_PresentUserIDs snap) /\
       (u ∈ SP_EmergencyUserIDs snap -> u ∈ SP_PresentUserIDs snap)).
Proof. intros Hr r u. by apply good_alarms, reachable_good. Qed.

Definition alarm_on : inbound := Frame ClientMsgEmergency None (Some true).

(** Ada and Bob are in room 7; Bob raises the alarm and his socket ends. *)
Definition ada_in : Hub := (enter 7 1 NewHub).2.
Definition both_in : Hub := (enter 7 2 ada_in).2.
Definition alarm_raised : Hub := on_frame 2 0 alarm_on both_in.
Definition alarm_hub : Hub := disconnect 7 2 2 alarm_raised.

Lemma disconnect_spec_witness :
  let h := on_frame 2 0 alarm_on two_rooms in
  c_send <$> h_clients (disconnect 7 2 2 h) !! 0%N =
    Some [alarm_frame 2 true; alarm_frame 2 false; absent_frame 2].
Proof.
  cbv zeta.
  assert (ops_ok [OpNewClient 1 7; OpJoin 7 1 0; OpNewClient 2 7; OpJoin 7 2 2; OpNewClient 3 8; OpJoin 8 3 3;
                  OpEmergency 7 2 true; OpBroadcast 7 MsgEmergency (EmergencyP 2 true) None] NewHub = true) as Hok
    by (vm_compute; reflexivity).
  pose proof (hub_run_refines _ _ _ NewHub_wf NewHub_refines Hok) as Hrun.
  destruct (presence_run _ nobody) as [bs p].
  assert ((hub_run [OpNewClient 1 7; OpJoin 7 1 0; OpNewClient 2 7; OpJoin 7 2 2; OpNewClient 3 8; OpJoin 8 3 3;
             OpEmergency 7 2 true; OpBroadcast 7 MsgEmergency (EmergencyP 2 true) None] NewHub).2 =
          on_frame 2 0 alarm_on two_rooms) as E by (vm_compute; reflexivity).
  destruct (hub_run _ NewHub) as [bs' h]. simpl in E. subst h. destruct Hrun as (_ & Hp & Hwf).
  pose proof (disconnect_spec 7 2 2 (on_frame 2 0 alarm_on two_rooms) p Hwf Hp) as Hd.
  assert (socket_of 7 2 2 (on_frame 2 0 alarm_on two_rooms)) as Hs
    by (eexists; split; [vm_compute; reflexivity|split; reflexivity]).
  specialize (Hd Hs). cbv zeta in Hd. rewrite decide_True in Hd by (vm_compute; reflexivity).
  destruct Hd as (_ & _ & Hcl). rewrite Hcl. vm_compute. reflexivity.
Defined.

Lemma alarms_of_present_witness :
  reachable alarm_hub /\
  forall r u, u ∈ EmergencyUserIDs r alarm_hub -> IsPresent r u alarm_hub = true.
Proof.
  assert (hub_step NewHub ada_in) as H1 by apply step_enter.
  assert (hub_step ada_in both_in) as H2 by apply step_enter.
  assert (hub_step both_in alarm_raised) as H3.
  { apply (step_frame 2 (newClient 2 7)); vm_compute; reflexivity. }
  assert (hub_step alarm_raised alarm_hub) as H4.
  { apply step_disconnect. destruct (h_clients alarm_raised !! 2%N) as [k|] eqn:Hk;
      [exists k|vm_compute in Hk; discriminate].
    split; [exact Hk|]. vm_compute in Hk. injection Hk as <-. split; reflexivity. }
  assert (reachable alarm_hub) as Hr
    by exact (reach_step _ _ (reach_step _ _ (reach_step _ _ (reach_step _ _ reach_start H1) H2) H3) H4).
  split; [exact Hr|]. intros r u. exact (proj1 (alarms_of_present alarm_hub Hr r u)).
Defined.

(** ** What the code does not rule out *)

(** A frame of a socket that a newer one replaced still counts: Bob's first
    phone reports an emergency after his second one left, and the alarm of
    somebody absent stays on for those in the room. *)
Theorem superseded_socket_raises_alarm :
  let h1 := (enter 7 1 NewHub).2 in
  let h2 := (enter 7 2 h1).2 in
  let h3 := (enter 7 2 h2).2 in
  let h4 := disconnect 7 2 3 h3 in
  let h5 := on_frame 2 0 alarm_on h4 in
  let h6 := disconnect 7 2 2 (readPump 2 [] h5) in
  IsPresent 7 2 h4 = false /\ EmergencyUserIDs 7 h4 = [] /\
  EmergencyUserIDs 7 h6 = [2%N] /\ IsPresent 7 2 h6 = false /\ PresentUserIDs 7 h6 = [1%N].
Proof. vm_compute. done. Qed.

(** The room's state is looked up and used in two critical sections: between
    them the last member's departure can drop it.  Ada's join then ends in a
    state no longer in the map: she is told she joined, but is not present and
    gets no broadcast. *)
Theorem join_leave_race_orphans :
  let h0 := (enter 7 2 NewHub).2 in
  let '(c, h1) := alloc_client 1 7 h0 in
  match roomFor 7 true h1 with
  | (Some l, h2) =>
      let h3 := drop_if_empty 7 (leave_at l 0 h2).2 in
      let '(joined, h4) := join_at l c h3 in
      joined = true /\ IsPresent 7 1 h4 = false /\
      c_send <$> h_clients (BroadcastRoomRenamed 7 None h4) !! c = Some []
  | (None, _) => False
  end.
Proof. vm_compute. done. Qed.
