(* ===== verification/Threads.v ===== *)
(** * The hub's operations as programs of critical sections

    [Hub] gives every operation of [internal/realtime/hub.go] as one step.  In
    the program each is a sequence of critical sections and channel operations
    of a goroutine, and the goroutines of other requests and sockets run in
    between.  Here an operation is such a sequence, and a system is a pool of
    them on one hub, scheduled one section at a time. *)
From stdpp Require Import base gmap sets list strings.
From Stdlib Require Import ZArith Lia.
From S2P Require Import Prelude.
From S2P Require Import Types.
From S2P Require Import Broadcaster.
From S2P Require Import Messages.
From S2P Require Import Client.
From S2P Require Import Hub.
From S2P Require Import Session.

(** ** Programs *)

(** The order in which Go ranges over a map, chosen anew each time. *)
Definition ordering := list cid -> list cid.

Definition ranging (ord : ordering) : Prop := forall l, ord l ≡ₚ l.

(** A program: a result, or an atomic section on the hub and what follows. *)
Inductive prog (A : Type) : Type :=
| Ret (a : A)
| Act {B : Type} (f : ordering -> Hub -> B * Hub) (k : B -> prog A).
Arguments Ret {A} a.
Arguments Act {A B} f k.

Fixpoint seq {A B} (p : prog A) (k : A -> prog B) : prog B :=
  match p with
  | Ret a => k a
  | Act f j => Act f (fun b => seq (j b) k)
  end.

Declare Scope prog_scope.
Delimit Scope prog_scope with prog.
Notation "'let*' x ':=' p 'in' q" := (seq p (fun x => q))
  (at level 10, x name, p at level 200, q at level 200) : prog_scope.
Notation "p ';>' q" := (seq p (fun _ => q)) (at level 60, right associativity) : prog_scope.
Open Scope prog_scope.

Definition section {B} (f : Hub -> B * Hub) : prog B := Act (fun _ => f) Ret.
Definition look {B} (f : Hub -> B) : prog B := section (fun h => (f h, h)).
Definition change (f : Hub -> Hub) : prog unit := section (fun h => (tt, f h)).

Fixpoint for_each {X} (body : X -> prog unit) (xs : list X) : prog unit :=
  match xs with
  | [] => Ret tt
  | x :: xs' => body x ;> for_each body xs'
  end.

(** A program that nothing interrupts. *)
Fixpoint run {A} (ord : ordering) (p : prog A) (h : Hub) : A * Hub :=
  match p with
  | Ret a => (a, h)
  | Act f k => let r := f ord h in run ord (k r.1) r.2
  end.

(** ** The operations *)

(** [roomFor]: a look under the read lock, and a second one, which may
    insert, under the write lock. *)
Definition roomFor_p (id : uuid) (createIfMissing : bool) : prog (option loc) :=
  let* rs := look (fun h => h_rooms h !! id) in
  match rs with
  | Some l => Ret (Some l)
  | None => if createIfMissing then section (roomFor id true) else Ret None
  end.

(** With the room's state, when there is one. *)
Definition with_room {A} (id : uuid) (createIfMissing : bool) (none : A) (k : loc -> prog A) : prog A :=
  let* rs := roomFor_p id createIfMissing in
  match rs with Some l => k l | None => Ret none end.

Definition join_p (roomID : uuid) (c : cid) : prog bool :=
  with_room roomID true false (fun l => section (join_at l c)).

Definition leave_p (roomID : uuid) (c : cid) : prog (bool * bool) :=
  with_room roomID false (false, false) (fun l =>
    let* r := section (leave_at l c) in
    (if l_empty r then change (drop_if_empty roomID) else Ret tt) ;>
    Ret (l_transitioned r, l_cleared r)).

(** [SetEmergency]'s section under [rs.mu]. *)
Definition set_emergency_at (l : loc) (userID : uuid) (active : bool) (h : Hub) : bool * Hub :=
  let rs := state_at l h in
  let has := bool_decide (userID ∈ rs_emergencies rs) in
  if active && negb has then
    (true, set_state l (mkRoomState (rs_clients rs) (rs_locations rs) ({[userID]} ∪ rs_emergencies rs)) h)
  else if negb active && has then
    (true, set_state l (mkRoomState (rs_clients rs) (rs_locations rs) (rs_emergencies rs ∖ {[userID]})) h)
  else (false, h).

Definition SetEmergency_p (roomID userID : uuid) (active : bool) : prog bool :=
  with_room roomID true false (fun l => section (set_emergency_at l userID active)).

(** [recordLocation]'s section under [rs.mu]. *)
Definition record_at (l : loc) (ev : LocationEvent) (h : Hub) : Hub :=
  let rs := state_at l h in
  set_state l (mkRoomState (rs_clients rs) (<[LE_UserID ev := ev]> (rs_locations rs)) (rs_emergencies rs)) h.

Definition recordLocation_p (roomID : uuid) (ev : LocationEvent) : prog unit :=
  with_room roomID true tt (fun l => change (record_at l ev)).

(** [snapshot]'s section under [rs.mu]. *)
Definition snapshot_at (l : loc) (selfID : uuid) (members : list Member) (dest : option Destination)
    (stops : list Stop) (h : Hub) : SnapshotPayload :=
  let rs := state_at l h in
  mkSnapshotPayload selfID members (rs_locations rs) dest stops (map_to_list (rs_clients rs)).*1
    (elements (rs_emergencies rs)).

(** [enqueue] is one operation on the channel, [close_] one of the [Once]. *)
Definition enqueue_p (data : Envelope) (c : cid) : prog unit := change (upd_client (enqueue data) c).
Definition close_p (reason : string) (c : cid) : prog unit := change (upd_client (close_ reason) c).

Definition broadcast_p (roomID : uuid) (t : string) (p : payload) (exclude : option uuid) : prog unit :=
  with_room roomID false tt (fun l =>
    match pack t (Some p) with
    | None => Ret tt
    | Some data =>
        let* cs := Act (fun ord h => (ord (targets (state_at l h) exclude), h)) Ret in
        for_each (enqueue_p data) cs
    end).

Definition sendTo_p (t : string) (p : option payload) (c : cid) : prog unit :=
  match pack t p with
  | None => Ret tt
  | Some data => enqueue_p data c
  end.

(** The client a user has in a room: the room's look-up and a section. *)
Definition client_of_p (roomID userID : uuid) : prog (option cid) :=
  with_room roomID false None (fun l => look (fun h => rs_clients (state_at l h) !! userID)).

Definition DisconnectUser_p (roomID userID : uuid) : prog unit :=
  let* c := client_of_p roomID userID in
  match c with Some c => close_p "left room" c | None => Ret tt end.

Definition KickConnection_p (roomID userID by_ : uuid) : prog unit :=
  broadcast_p roomID MsgKicked (KickedP userID by_) (Some userID) ;>
  let* c := client_of_p roomID userID in
  match c with
  | Some c => sendTo_p MsgKicked (Some (KickedP userID by_)) c ;> close_p "kicked" c
  | None => Ret tt
  end.

Definition BroadcastRoomEnded_p (roomID : uuid) : prog unit :=
  with_room roomID false tt (fun l =>
    let* conns := Act (fun ord h => (ord ((map_to_list (rs_clients (state_at l h))).*2), h)) Ret in
    for_each (sendTo_p MsgRoomEnded None) conns ;>
    for_each (close_p "room ended") conns).

(** What the service calls. *)
Definition call_p (x : Broadcaster.rt_call) : prog unit :=
  match x with
  | CallMemberJoined r m => broadcast_p r MsgMemberJoined (MemberJoinedP m) None
  | CallMemberLeft r u => broadcast_p r MsgMemberLeft (MemberLeftP u) None
  | CallMute r u m b => broadcast_p r MsgMuted (MutedP u m b) None
  | CallKick r u b => KickConnection_p r u b
  | CallRoomEnded r => BroadcastRoomEnded_p r
  | CallDestination r d => broadcast_p r MsgDestination (DestinationP d) None
  | CallStops r l => broadcast_p r MsgStops (StopsP l) None
  | CallOwnerChanged r n o => broadcast_p r MsgOwnerChanged (OwnerChangedP n o) None
  | CallRoomRenamed r n => broadcast_p r MsgRoomRenamed (RoomRenamedP n) None
  | CallChat r m => broadcast_p r MsgChat (ChatP m) (Some (Msg_UserID m))
  | CallDisconnect r u => DisconnectUser_p r u
  end.

(** ** A socket *)

Definition on_frame_p (roomID self : uuid) (c : cid) (now_ms : Z) (f : inbound) : prog unit :=
  let send_error msg := sendTo_p MsgError (Some (ErrorP msg)) c in
  match f with
  | Undecodable => send_error "invalid frame"
  | Frame type loc active =>
      if bool_decide (type = ClientMsgPing) then sendTo_p MsgPong None c
      else if bool_decide (type = ClientMsgLocation) then
        match loc with
        | None => send_error "invalid location"
        | Some l =>
            let ev := mkLocationEvent self (Loc_Lat l) (Loc_Lng l) (Loc_Heading l) (Loc_Speed l) now_ms in
            recordLocation_p roomID ev ;> broadcast_p roomID MsgLocation (LocationP ev) (Some self)
        end
      else if bool_decide (type = ClientMsgEmergency) then
        match active with
        | None => send_error "invalid emergency"
        | Some a =>
            let* changed := SetEmergency_p roomID self a in
            if changed then broadcast_p roomID MsgEmergency (EmergencyP self a) None else Ret tt
        end
      else send_error "unknown message type"
  end.

Definition readPump_p (roomID self : uuid) (c : cid) (frames : list (Z * inbound)) : prog unit :=
  for_each (fun f => on_frame_p roomID self c f.1 f.2) frames ;> close_p "read loop ended" c.

(** What the store answers to [snapshot]. *)
Definition room_reads := option (list Member * option Destination * list Stop).

Definition greet_p (roomID self : uuid) (c : cid) (reads : room_reads) : prog unit :=
  match reads with
  | None => Ret tt
  | Some (members, dest, stops) =>
      with_room roomID true tt (fun l =>
        let* snap := look (snapshot_at l self members dest stops) in
        sendTo_p MsgSnapshot (Some (SnapshotP snap)) c)
  end.

Definition disconnect_p (roomID self : uuid) (c : cid) : prog unit :=
  let* left := leave_p roomID c in
  if left.1 then
    (if left.2 then broadcast_p roomID MsgEmergency (EmergencyP self false) None else Ret tt) ;>
    broadcast_p roomID MsgMemberAbsent (MemberAbsentP self) (Some self)
  else Ret tt.

(** [ServeHTTP] from the join to its return. *)
Definition socket_p (roomID self : uuid) (c : cid) (reads : room_reads) (frames : list (Z * inbound)) : prog unit :=
  let* became := join_p roomID c in
  greet_p roomID self c reads ;>
  (if became then broadcast_p roomID MsgMemberPresent (MemberPresentP self) (Some self) else Ret tt) ;>
  readPump_p roomID self c frames ;>
  disconnect_p roomID self c.

(** ** The system *)

(** A goroutine, with the socket it serves if it serves one. *)
Record thread := mkThread { th_socket : option cid; th_prog : prog unit }.

Record system := mkSystem { sy_threads : list thread; sy_hub : Hub }.

(** The next section of a thread. *)
Definition exec_thread (ord : ordering) (i : nat) (s : system) : option system :=
  match sy_threads s !! i with
  | Some (mkThread o (Act f k)) =>
      let r := f ord (sy_hub s) in
      Some (mkSystem (<[i := mkThread o (k r.1)]> (sy_threads s)) r.2)
  | _ => None
  end.

Definition spawn_call (x : Broadcaster.rt_call) (s : system) : system :=
  mkSystem (sy_threads s ++ [mkThread None (call_p x)]) (sy_hub s).

(** [newClient], and the goroutine of the request goes on. *)
Definition spawn_socket (r u : uuid) (reads : room_reads) (frames : list (Z * inbound)) (s : system) : system :=
  let '(c, h) := alloc_client u r (sy_hub s) in
  mkSystem (sy_threads s ++ [mkThread (Some c) (socket_p r u c reads frames)]) h.

(** A step of a write pump, of which the hub only has the client. *)
Definition pump_client (st : pump_state) (ev : pump_event) (c : cid) (h : Hub) : option Hub :=
  k ← h_clients h !! c;
  s ← pump_step ev (mkSocket k st [] None);
  Some (mkHub (h_rooms h) (h_states h) (<[c := k_client s]> (h_clients h)) (h_next h)).

Inductive sys_step : system -> system -> Prop :=
| sys_thread ord i s s' : ranging ord -> exec_thread ord i s = Some s' -> sys_step s s'
| sys_call x s : sys_step s (spawn_call x s)
| sys_socket r u reads frames s : sys_step s (spawn_socket r u reads frames s)
| sys_pump st ev c h' s : pump_client st ev c (sy_hub s) = Some h' -> sys_step s (mkSystem (sy_threads s) h').

Inductive sys_reachable : system -> Prop :=
| sys_start : sys_reachable (mkSystem [] NewHub)
| sys_next s s' : sys_reachable s -> sys_step s s' -> sys_reachable s'.

(** A run of a list of thread numbers, each executing one section. *)
Fixpoint schedule (turns : list nat) (s : system) : option system :=
  match turns with
  | [] => Some s
  | i :: turns' => s' ← exec_thread (fun l => l) i s; schedule turns' s'
  end.
