(* ===== verification/ThreadFacts.v ===== *)
(** * Reasoning about interleaved hub operations

    What every section keeps ([hub_safe]), how the hub evolves under the
    sections of others ([evolves]), and the rules for what a program
    establishes whatever runs between its sections ([wp]). *)
From stdpp Require Import base gmap sets list strings.
From Stdlib Require Import ZArith Lia.
From S2P Require Import Prelude.
From S2P Require Import Types.
From S2P Require Import Messages.
From S2P Require Import Client.
From S2P Require Import ClientProps.
From S2P Require Import Hub.
From S2P Require Import HubFacts.
From S2P Require Import Presence.
From S2P Require Import HubProps.
From S2P Require Import Session.
From S2P Require Import Threads.

(** ** Frames and clients *)

(** The type of the frames a payload struct is sent in. *)
Definition payload_type (p : payload) : string :=
  match p with
  | SnapshotP _ => "snapshot"
  | DestinationP _ => "destination"
  | StopsP _ => "stops"
  | RoomRenamedP _ => "room_renamed"
  | OwnerChangedP _ _ => "owner_changed"
  | ChatP _ => "chat"
  | MemberJoinedP _ => "member_joined"
  | MemberLeftP _ => "member_left"
  | MemberPresentP _ => "member_present"
  | MemberAbsentP _ => "member_absent"
  | MutedP _ _ _ => "muted"
  | KickedP _ _ => "kicked"
  | EmergencyP _ _ => "emergency"
  | ErrorP _ => "error"
  | LocationP _ => "loc"
  end.

(** A frame that the app of user [self] can read: its type announces its
    payload, which can be written as JSON, and a snapshot is of [self]. *)
Definition frame_typed (self : uuid) (e : Envelope) : bool :=
  match Env_Payload e with
  | None => bool_decide (Env_Type e = "room_ended") || bool_decide (Env_Type e = "pong")
  | Some p =>
      bool_decide (Env_Type e = payload_type p) && json_payload p &&
      match p with SnapshotP s => bool_decide (SP_Self s = self) | _ => true end
  end.

(** What a client's queue holds, and that a reason is given when it is closed. *)
Record client_ok (k : client) : Prop := {
  ck_bound : length (c_send k) <= sendBuffer;
  ck_typed : Forall (fun e => frame_typed (c_user k) e = true) (c_send k);
  ck_reason : c_closed k = negb (bool_decide (c_reason k = ""));
}.

Lemma newClient_ok u r : client_ok (newClient u r).
Proof. split; simpl; [unfold sendBuffer; lia|constructor|done]. Qed.

Lemma close_ok reason k : reason <> "" -> client_ok k -> client_ok (close_ reason k).
Proof.
  intros Hr [H1 H2 H3]. unfold close_. destruct (c_closed k) eqn:E; split; simpl; try done.
  - by rewrite <-H3, E.
  - by rewrite bool_decide_eq_false_2.
Qed.

Lemma enqueue_ok data k : frame_typed (c_user k) data = true -> client_ok k -> client_ok (enqueue data k).
Proof.
  intros Hd Hk. pose proof Hk as [H1 H2 H3]. unfold enqueue.
  destruct (Nat.ltb_spec (length (c_send k)) sendBuffer); [|by apply close_ok].
  split; simpl; [rewrite length_app; simpl; lia| |done]. apply Forall_app. auto.
Qed.

Lemma pop_ok e q k : c_send k = e :: q -> client_ok k -> client_ok (set_send q k).
Proof.
  intros E [H1 H2 H3]. rewrite E in *. simpl in H1. apply Forall_cons in H2 as [_ H2]. split; simpl; [lia|done|done].
Qed.

Lemma write_client ok m s p :
  k_client (write ok m s p) = if ok then k_client s else close_ "write error" (k_client s).
Proof. by destruct ok. Qed.

Lemma pump_ok st ev k out sd s :
  pump_step ev (mkSocket k st out sd) = Some s -> client_ok k ->
  client_ok (k_client s) /\ c_user (k_client s) = c_user k /\ c_roomID (k_client s) = c_roomID k.
Proof.
  intros Hs Hk.
  assert (forall reason, c_user (close_ reason k) = c_user k /\ c_roomID (close_ reason k) = c_roomID k) as Hc
    by (intros reason; apply close_owner).
  assert (forall e q, c_send k = e :: q -> forall ok p out sd,
            let k' := k_client (write ok e (mkSocket (set_send q k) p out sd) p) in
            client_ok k' /\ c_user k' = c_user k /\ c_roomID k' = c_roomID k) as Hpop.
  { intros e q E ok p out' sd'. cbv zeta. rewrite write_client. pose proof (pop_ok e q k E Hk).
    destruct ok; simpl; [done|]. split; [by apply close_ok|]. by destruct (close_owner "write error" (set_send q k)) as [-> ->]. }
  unfold pump_step, drainSend in Hs. destruct st, ev as [| |ok|ok|[]]; cbn [k_pump k_client k_out k_shutdown] in Hs; repeat case_match;
    simplify_eq; try (by eapply Hpop); try (cbn [shutdown k_client]; by auto).
  split; [by apply close_ok|apply Hc].
Qed.

(** ** The invariant of every section *)

Definition clients_ok (h : Hub) : Prop := forall c k, h_clients h !! c = Some k -> client_ok k.

Definition hub_safe (h : Hub) : Prop := hub_wf h /\ clients_ok h.

Lemma NewHub_safe : hub_safe NewHub.
Proof. split; [apply NewHub_wf|]. intros c k. simpl. by rewrite lookup_empty. Qed.

(** An update of a client that keeps its owner and its form. *)
Lemma upd_client_safe f c h :
  same_owner f -> (forall k, h_clients h !! c = Some k -> client_ok k -> client_ok (f k)) ->
  hub_safe h -> hub_safe (upd_client f c h).
Proof.
  intros Hf Hok [Hwf Hcl]. split; [by apply upd_client_wf|]. intros d k. simpl. rewrite lookup_alter.
  case_decide; [subst d|by apply Hcl]. intros (k' & Hk' & ->)%fmap_Some. apply Hok; [done|by eapply Hcl].
Qed.

Lemma set_state_safe l rs h :
  hub_safe h -> is_Some (h_states h !! l) ->
  (forall r, h_rooms h !! r = Some l -> forall u c, rs_clients rs !! u = Some c -> socket_of r u c h) ->
  hub_safe (set_state l rs h).
Proof.
  intros [[H1 H2 H3 H4 H5] Hcl] Hl Hown. split; [|exact Hcl]. split; simpl; try done.
  - intros l'. rewrite lookup_insert. case_decide; [by subst; intros _; apply H1|apply H1].
  - intros r' l' Hl'. rewrite lookup_insert. case_decide; [by eexists|by eapply H3].
  - intros r' l' rs' u c Hl'. rewrite lookup_insert. case_decide; [|by apply H5].
    subst l'. intros [= <-]. by apply Hown.
Qed.

Lemma state_socket_of r l h u c :
  hub_safe h -> h_rooms h !! r = Some l -> rs_clients (state_at l h) !! u = Some c -> socket_of r u c h.
Proof. intros [Hwf _]. by apply state_at_clients. Qed.

(** A state with the clients of the one it replaces. *)
Lemma set_same_clients_safe l rs h :
  hub_safe h -> is_Some (h_states h !! l) -> rs_clients rs ⊆ rs_clients (state_at l h) -> hub_safe (set_state l rs h).
Proof.
  intros Hs Hl Hsub. apply set_state_safe; [done..|]. intros r Hr u c Hc.
  eapply state_socket_of; [done|exact Hr|]. by eapply lookup_weaken.
Qed.

(** ** How the hub evolves *)

(** From [h] to [h'], where only the sockets of [may] are registered anew. *)
Record evolves (may : cid -> Prop) (h h' : Hub) : Prop := {
  ev_next : (h_next h <= h_next h')%N;
  ev_states : forall l, is_Some (h_states h !! l) -> is_Some (h_states h' !! l);
  ev_clients : forall r u c, socket_of r u c h -> socket_of r u c h';
  ev_rooms : forall r l, h_rooms h' !! r = Some l -> h_rooms h !! r = Some l \/ (h_next h <= l)%N;
  ev_sockets : forall l u c, rs_clients (state_at l h') !! u = Some c ->
               rs_clients (state_at l h) !! u = Some c \/ may c;
}.

#[export] Instance evolves_pre may : PreOrder (evolves may).
Proof.
  split.
  - intros h. split; auto; lia.
  - intros h1 h2 h3 [A1 A2 A3 A4 A5] [B1 B2 B3 B4 B5]. split; auto; [lia| |].
    + intros r l [H|H]%B4; [auto|right; lia].
    + intros l u c [H|H]%B5; auto.
Qed.

Lemma evolves_weaken (P Q : cid -> Prop) h h' : (forall c, P c -> Q c) -> evolves P h h' -> evolves Q h h'.
Proof. intros HPQ [A1 A2 A3 A4 A5]. split; auto. intros l u c [H|H]%A5; auto. Qed.

Lemma upd_client_evolves may f c h : same_owner f -> evolves may h (upd_client f c h).
Proof. intros Hf. split; simpl; [lia|done| |by auto|by auto]. intros r u d. by apply socket_of_upd. Qed.

Lemma set_state_evolves may l rs h :
  (forall u c, rs_clients rs !! u = Some c -> rs_clients (state_at l h) !! u = Some c \/ may c) ->
  evolves may h (set_state l rs h).
Proof.
  intros Hrs. split; simpl; [lia| |done|by auto|].
  - intros l' Hl'. rewrite lookup_insert. case_decide; [by eexists|done].
  - intros l' u c. unfold state_at at 1. simpl. rewrite lookup_insert. case_decide; [subst l'; apply Hrs|auto].
Qed.

(** No state: no clients. *)
Lemma state_at_fresh l h u c : hub_wf h -> rs_clients (state_at l h) !! u = Some c -> (l < h_next h)%N.
Proof.
  intros Hwf. unfold state_at. destruct (h_states h !! l) as [rs|] eqn:E; [|simpl; by rewrite lookup_empty].
  intros _. apply (hw_states _ Hwf). by eexists.
Qed.

Lemma roomFor_safe r create h : hub_safe h -> hub_safe (roomFor r create h).2.
Proof.
  intros [Hwf Hcl]. destruct create.
  - destruct (roomFor_spec r h Hwf) as (l & h' & -> & Hwf' & _ & Hc & _). split; [done|].
    intros c k. simpl. rewrite Hc. apply Hcl.
  - unfold roomFor. by destruct (h_rooms h !! r).
Qed.

Lemma roomFor_evolves may r create h : hub_wf h -> evolves may h (roomFor r create h).2.
Proof.
  intros Hwf. unfold roomFor. destruct (h_rooms h !! r) as [l|] eqn:Hl; [reflexivity|].
  destruct create; [|reflexivity]. split; simpl; [lia| |done| |].
  - intros l. rewrite lookup_insert. case_decide; [by eexists|done].
  - intros r' l. rewrite lookup_insert. case_decide; [intros [= <-]; right; lia|auto].
  - intros l u c. unfold state_at at 1. simpl. rewrite lookup_insert. case_decide; [|auto].
    simpl. by rewrite lookup_empty.
Qed.

Lemma drop_if_empty_safe r h : hub_safe h -> hub_safe (drop_if_empty r h).
Proof.
  intros [Hwf Hcl]. split; [by apply drop_if_empty_wf|]. unfold drop_if_empty. by repeat case_match.
Qed.

Lemma drop_if_empty_evolves may r h : evolves may h (drop_if_empty r h).
Proof.
  unfold drop_if_empty. repeat case_match; try reflexivity. split; simpl; [lia|done|done| |by auto].
  intros r' l [_ Hl]%lookup_delete_Some. auto.
Qed.

Lemma alloc_evolves may u r h : hub_wf h -> evolves may h (alloc_client u r h).2.
Proof.
  intros Hwf. split; simpl; [lia|done| |by auto|by auto]. intros r' u' c (k & Hk & Hu & Hr). exists k. split; [|done]. simpl.
  rewrite lookup_insert_ne; [done|]. intros <-.
  assert (h_next h < h_next h)%N by (apply (hw_clients _ Hwf); by eexists). lia.
Qed.

Lemma alloc_safe u r h : hub_safe h -> hub_safe (alloc_client u r h).2.
Proof.
  intros [Hwf Hcl]. split; [by apply alloc_wf|]. intros c k. simpl. rewrite lookup_insert. case_decide.
  - intros [= <-]. apply newClient_ok.
  - apply Hcl.
Qed.

(** ** Assertions that the others keep *)

(** A location that room [r], and no other, has or had. *)
Definition names (r : uuid) (l : loc) (h : Hub) : Prop :=
  is_Some (h_states h !! l) /\ forall r', h_rooms h !! r' = Some l -> r' = r.

(** A location that no room has any more. *)
Definition orphan (l : loc) (h : Hub) : Prop :=
  is_Some (h_states h !! l) /\ forall r, h_rooms h !! r <> Some l.

(** Socket [c] is registered nowhere but, as [u]'s, at [l]. *)
Definition only_at (c : cid) (u : uuid) (l : loc) (h : Hub) : Prop :=
  forall l' v, rs_clients (state_at l' h) !! v = Some c -> l' = l /\ v = u.

Definition unregistered (c : cid) (h : Hub) : Prop :=
  forall l v, rs_clients (state_at l h) !! v <> Some c.

(** Socket [c] is no room's. *)
Definition gone (c : cid) (h : Hub) : Prop :=
  forall r l v, h_rooms h !! r = Some l -> rs_clients (state_at l h) !! v <> Some c.

Lemma names_stable may r l h h' : hub_wf h -> evolves may h h' -> names r l h -> names r l h'.
Proof.
  intros Hwf Hev [Hl Hn]. split; [by apply (ev_states _ _ _ Hev)|]. intros r' [Hr|Hr]%(ev_rooms _ _ _ Hev); [auto|].
  apply (hw_states _ Hwf) in Hl. lia.
Qed.

Lemma orphan_stable may l h h' : hub_wf h -> evolves may h h' -> orphan l h -> orphan l h'.
Proof.
  intros Hwf Hev [Hl Hn]. split; [by apply (ev_states _ _ _ Hev)|]. intros r' [Hr|Hr]%(ev_rooms _ _ _ Hev); [by eapply Hn|].
  apply (hw_states _ Hwf) in Hl. lia.
Qed.

Lemma only_at_stable may c u l h h' : ~ may c -> evolves may h h' -> only_at c u l h -> only_at c u l h'.
Proof. intros Hc Hev Ho l' v [H|H]%(ev_sockets _ _ _ Hev); [by apply Ho|done]. Qed.

Lemma unregistered_stable may c h h' : ~ may c -> evolves may h h' -> unregistered c h -> unregistered c h'.
Proof. intros Hc Hev Ho l' v [H|H]%(ev_sockets _ _ _ Hev); [by eapply Ho|done]. Qed.

Lemma gone_stable may c h h' : hub_wf h -> ~ may c -> evolves may h h' -> gone c h -> gone c h'.
Proof.
  intros Hwf Hc Hev Hg r l v Hr [H|H]%(ev_sockets _ _ _ Hev); [|done].
  apply (ev_rooms _ _ _ Hev) in Hr as [Hr|Hr]; [by eapply Hg|]. apply state_at_fresh in H; [lia|done].
Qed.

Lemma only_at_orphan c u l h : only_at c u l h -> orphan l h -> gone c h.
Proof. intros Ho [_ Hn] r l' v Hr Hc. apply Ho in Hc as [-> _]. by eapply Hn. Qed.

(** ** What a program establishes *)

(** Run from [h], whatever changes under [R] the others make between its
    sections, every section of [p] keeps the hub safe and changes it only as
    [G] allows, and at the end [Q] holds of the result. *)
Fixpoint wp {A} (R G : Hub -> Hub -> Prop) (p : prog A) (Q : A -> Hub -> Prop) (h : Hub) : Prop :=
  match p with
  | Ret a => Q a h
  | Act f k => forall ord h', R h h' -> hub_safe h' ->
      let r := f ord h' in hub_safe r.2 /\ G h' r.2 /\ wp R G (k r.1) Q r.2
  end.

Section rules.
Variable R G : Hub -> Hub -> Prop.

Lemma wp_mono {A} (p : prog A) (Q Q' : A -> Hub -> Prop) h :
  (forall a h, Q a h -> Q' a h) -> wp R G p Q h -> wp R G p Q' h.
Proof.
  intros HQ. revert h. induction p as [a|B f k IH]; intros h; simpl; [apply HQ|].
  intros Hp ord h' Hr Hs. destruct (Hp ord h' Hr Hs) as (H1 & H2 & H3). auto.
Qed.

Lemma wp_seq {A B} (p : prog A) (k : A -> prog B) Q h :
  wp R G p (fun a h => wp R G (k a) Q h) h -> wp R G (seq p k) Q h.
Proof.
  revert h. induction p as [a|C f j IH]; intros h; simpl; [done|].
  intros Hp ord h' Hr Hs. destruct (Hp ord h' Hr Hs) as (H1 & H2 & H3). auto.
Qed.

Lemma wp_for_each {X} (body : X -> prog unit) xs Q h :
  Q h -> (forall x h, x ∈ xs -> Q h -> wp R G (body x) (fun _ h' => Q h') h) ->
  wp R G (for_each body xs) (fun _ h' => Q h') h.
Proof.
  revert h. induction xs as [|x xs IH]; intros h HQ Hb; simpl; [done|]. apply wp_seq.
  apply (wp_mono _ (fun _ h' => Q h')); [|apply Hb; [left|done]]. intros _ h' HQ'. apply IH; [done|].
  intros y h2 Hy. apply Hb. by right.
Qed.

(** Framing: what the others and the program itself keep. *)
Lemma wp_frame {A} (R' G' : Hub -> Hub -> Prop) (P : Hub -> Prop) (p : prog A) Q h :
  (forall h h', R' h h' -> R h h') -> (forall h h', G h h' -> G' h h') ->
  (forall h h', hub_safe h -> R' h h' -> P h -> P h') -> (forall h h', hub_safe h -> G h h' -> P h -> P h') ->
  hub_safe h -> P h -> wp R G p Q h -> wp R' G' p (fun a h => Q a h /\ P h) h.
Proof.
  intros HR HG HRP HGP. revert h. induction p as [a|B f k IH]; intros h Hs0 HP; simpl; [done|].
  intros Hp ord h' Hr Hs. destruct (Hp ord h' (HR _ _ Hr) Hs) as (H1 & H2 & H3). split; [done|]. split; [auto|].
  apply IH; [done| |done]. eapply HGP; [exact Hs|exact H2|]. exact (HRP h h' Hs0 Hr HP).
Qed.

(** A suspended program does not mind what the others do. *)
Lemma wp_stable {A} (p : prog A) Q h h' :
  (forall h1 h2 h3, R h1 h2 -> R h2 h3 -> R h1 h3) ->
  (forall a h h', hub_safe h -> R h h' -> Q a h -> Q a h') ->
  hub_safe h -> R h h' -> wp R G p Q h -> wp R G p Q h'.
Proof.
  intros Ht HQ Hs Hr. destruct p as [a|B f k]; simpl; [by eapply HQ|]. intros Hp ord h2 Hr2. eapply Hp, Ht; eauto.
Qed.
End rules.

(** The relations of a goroutine that serves a socket, or none. *)
Definition others (o : option cid) : Hub -> Hub -> Prop := evolves (fun d => o <> Some d).
Definition mine (o : option cid) : Hub -> Hub -> Prop := evolves (fun d => o = Some d).

(** A program that registers no socket does what it does in any goroutine,
    and keeps what the goroutine knows. *)
Lemma wp_quiet {A} o (P : Hub -> Prop) (p : prog A) Q h :
  (forall h h', hub_safe h -> others o h h' -> P h -> P h') -> hub_safe h -> P h ->
  wp (others None) (mine None) p Q h -> wp (others o) (mine o) p (fun a h => Q a h /\ P h) h.
Proof.
  intros HP. apply wp_frame; [| |done|].
  - intros h1 h2. by apply evolves_weaken.
  - intros h1 h2. by apply evolves_weaken.
  - intros h1 h2 Hs Hev. apply HP; [done|]. by eapply evolves_weaken; [|exact Hev].
Qed.
