(* ===== verification/ThreadRules.v ===== *)
(** * What each interleaved hub operation establishes

    The operations of [Threads] under the rules of [ThreadFacts]: those that
    only announce or record keep the hub safe wherever they run, and a socket's
    own goroutine ends with the socket in no room. *)
From stdpp Require Import base gmap sets list strings.
From Stdlib Require Import ZArith Lia.
From S2P Require Import Prelude.
From S2P Require Import Types.
From S2P Require Import Broadcaster.
From S2P Require Import Messages.
From S2P Require Import Client.
From S2P Require Import Hub.
From S2P Require Import HubFacts.
From S2P Require Import Presence.
From S2P Require Import Session.
From S2P Require Import Threads.
From S2P Require Import ThreadFacts.

#[export] Hint Resolve upd_client_evolves upd_client_safe roomFor_safe roomFor_evolves drop_if_empty_safe
  drop_if_empty_evolves : convoy.

(** ** Rooms *)

Lemma room_names r l h : hub_wf h -> h_rooms h !! r = Some l -> names r l h.
Proof. intros Hwf Hl. split; [by eapply hw_rooms|]. intros r' Hr'. by eapply hw_inj. Qed.

Lemma wp_with_room {A} o r create none (k : loc -> prog A) Q h :
  hub_safe h ->
  (forall h', others o h h' -> hub_safe h' -> create = false -> h_rooms h' !! r = None -> Q none h') ->
  (forall l h', others o h h' -> hub_safe h' -> h_rooms h' !! r = Some l -> names r l h' ->
     wp (others o) (mine o) (k l) Q h') ->
  wp (others o) (mine o) (with_room r create none k) Q h.
Proof.
  intros Hs Hnone Hsome. unfold with_room, roomFor_p. apply wp_seq, wp_seq. simpl. intros _ h1 Hr1 Hs1.
  split; [done|]. split; [reflexivity|]. destruct (h_rooms h1 !! r) as [l|] eqn:Hl.
  { simpl. apply Hsome; [done..|]. by apply room_names; [apply Hs1|]. }
  destruct create; simpl; [|by apply Hnone]. intros _ h2 Hr2 Hs2.
  split; [by apply roomFor_safe|]. split; [apply roomFor_evolves, Hs2|].
  pose proof (roomFor_safe r true h2 Hs2) as Hs3.
  assert (others o h (roomFor r true h2).2) as Hev.
  { unfold others in *. etransitivity; [exact Hr1|]. etransitivity; [exact Hr2|]. apply roomFor_evolves, Hs2. }
  destruct (roomFor_spec r h2 (proj1 Hs2)) as (l & h3 & E & Hwf3 & Hl3 & _). rewrite E in *. simpl in *.
  apply Hsome; [done..|]. by apply room_names.
Qed.

(** ** Programs that register no socket *)

Definition quiet (p : prog unit) : Prop :=
  forall h, hub_safe h -> wp (others None) (mine None) p (fun _ h' => hub_safe h') h.

Lemma quiet_ret : quiet (Ret tt).
Proof. by intros h Hs. Qed.

Lemma quiet_seq p q : quiet p -> quiet q -> quiet (p ;> q)%prog.
Proof. intros Hp Hq h Hs. apply wp_seq. apply (wp_mono _ _ _ (fun _ h' => hub_safe h')); [|by apply Hp].
  intros _ h' Hs'. by apply Hq. Qed.

Lemma quiet_for_each {X} (body : X -> prog unit) xs : (forall x, quiet (body x)) -> quiet (for_each body xs).
Proof. intros Hb h Hs. apply wp_for_each; [done|]. intros x h' _ Hs'. by apply Hb. Qed.

Lemma quiet_change f :
  (forall h, hub_safe h -> hub_safe (f h) /\ evolves (fun d => None = Some d) h (f h)) -> quiet (change f).
Proof. intros Hf h Hs _ h' _ Hs'. destruct (Hf h' Hs'). simpl. done. Qed.

Lemma quiet_close reason c : reason <> "" -> quiet (close_p reason c).
Proof.
  intros Hr. apply quiet_change. intros h Hs. split; [|auto with convoy].
  apply upd_client_safe; auto with convoy. intros k _. by apply close_ok.
Qed.

(** A message whose frame any app can read. *)
Definition plain (t : string) (p : option payload) : Prop :=
  forall u data, pack t p = Some data -> frame_typed u data = true.

Lemma plain_none t : t = MsgRoomEnded \/ t = MsgPong -> plain t None.
Proof. by intros [-> | ->] u data [= <-]. Qed.

Definition is_snapshot (p : payload) : bool := match p with SnapshotP _ => true | _ => false end.

Lemma plain_payload t p : t = payload_type p -> is_snapshot p = false -> plain t (Some p).
Proof.
  intros -> Hp u data. unfold pack. destruct (json_payload p) eqn:Hj; [|done]. intros [= <-].
  unfold frame_typed. cbn [Env_Payload Env_Type]. rewrite bool_decide_eq_true_2, Hj by done. by destruct p.
Qed.

Lemma quiet_enqueue data c : (forall u, frame_typed u data = true) -> quiet (enqueue_p data c).
Proof.
  intros Hd. apply quiet_change. intros h Hs. split; [|auto with convoy].
  apply upd_client_safe; auto with convoy. intros k _. by apply enqueue_ok.
Qed.

Lemma quiet_sendTo t p c : plain t p -> quiet (sendTo_p t p c).
Proof.
  intros Hp. unfold sendTo_p. destruct (pack t p) eqn:E; [|apply quiet_ret]. apply quiet_enqueue. intros u. by eapply Hp.
Qed.

Lemma quiet_broadcast r t p ex : plain t (Some p) -> quiet (broadcast_p r t p ex).
Proof.
  intros Hp h Hs. apply wp_with_room; [done..|]. intros l h1 _ Hs1 _ _.
  destruct (pack t (Some p)) as [data|] eqn:E; [|done]. apply wp_seq. intros ord h2 _ Hs2.
  split; [done|]. split; [reflexivity|]. simpl. apply quiet_for_each; [|done].
  intros c. apply quiet_enqueue. intros u. by eapply Hp.
Qed.

Lemma wp_client_of r u h (Q : option cid -> Hub -> Prop) :
  hub_safe h -> (forall c h', hub_safe h' -> Q c h') ->
  wp (others None) (mine None) (client_of_p r u) Q h.
Proof.
  intros Hs HQ. apply wp_with_room; [done|auto|]. intros l h1 _ _ _ _ _ h2 _ Hs2. simpl.
  split; [done|]. split; [reflexivity|auto].
Qed.

Ltac plain_tac := by apply plain_payload.

Lemma quiet_DisconnectUser r u : quiet (DisconnectUser_p r u).
Proof.
  intros h Hs. apply wp_seq, wp_client_of; [done|]. intros [c|] h' Hs'; [by apply quiet_close|done].
Qed.

Lemma quiet_KickConnection r u b : quiet (KickConnection_p r u b).
Proof.
  apply quiet_seq; [apply quiet_broadcast; plain_tac|]. intros h Hs. apply wp_seq, wp_client_of; [done|].
  intros [c|] h' Hs'; [|done].
  apply (quiet_seq (sendTo_p _ _ c)); [apply quiet_sendTo; plain_tac|by apply quiet_close|done].
Qed.

Lemma quiet_BroadcastRoomEnded r : quiet (BroadcastRoomEnded_p r).
Proof.
  intros h Hs. apply wp_with_room; [done..|]. intros l h1 _ _ _ _. apply wp_seq. intros ord h2 _ Hs2.
  split; [done|]. split; [reflexivity|]. simpl. apply quiet_seq; [| |done]; apply quiet_for_each; intros c.
  - apply quiet_sendTo, plain_none. by left.
  - by apply quiet_close.
Qed.

(** Every call of the service. *)
Lemma quiet_call x : quiet (call_p x).
Proof.
  destruct x; simpl; try (apply quiet_broadcast; plain_tac).
  - apply quiet_KickConnection.
  - apply quiet_BroadcastRoomEnded.
  - apply quiet_DisconnectUser.
Qed.

(** ** What a socket's goroutine does besides *)

Lemma set_same_clients_evolves may l rs h :
  rs_clients rs = rs_clients (state_at l h) -> evolves may h (set_state l rs h).
Proof. intros E. apply set_state_evolves. rewrite E. auto. Qed.

Lemma set_emergency_at_ok l u a h :
  hub_safe h -> is_Some (h_states h !! l) ->
  hub_safe (set_emergency_at l u a h).2 /\ mine None h (set_emergency_at l u a h).2.
Proof.
  intros Hs Hl. unfold set_emergency_at. destruct (a && _); [|destruct (negb a && _)]; simpl;
    (split; [|first [by apply set_same_clients_evolves | by apply evolves_pre]]); try done; by apply set_same_clients_safe.
Qed.

(** A section on a named room's state. *)
Lemma wp_at {B} o r l (f : Hub -> B * Hub) Q h :
  hub_safe h -> names r l h ->
  (forall h', others o h h' -> hub_safe h' -> names r l h' ->
     hub_safe (f h').2 /\ mine o h' (f h').2 /\ Q (f h').1 (f h').2) ->
  wp (others o) (mine o) (section f) Q h.
Proof. intros Hs Hn Hf ord h' Hr Hs'. simpl. apply Hf; [done..|]. by apply (names_stable _ _ _ _ _ (proj1 Hs) Hr). Qed.

Lemma quiet_SetEmergency r u a (k : bool -> prog unit) :
  (forall b, quiet (k b)) -> quiet (let* b := SetEmergency_p r u a in k b)%prog.
Proof.
  intros Hk h Hs. apply wp_seq, wp_with_room; [done..|]. intros l h1 _ Hs1 _ Hn.
  apply (wp_at None r l); [done..|]. intros h2 _ Hs2 [Hl _]. destruct (set_emergency_at_ok l u a h2 Hs2 Hl).
  split; [done|]. split; [done|]. by apply Hk.
Qed.

Lemma quiet_recordLocation r ev : quiet (recordLocation_p r ev).
Proof.
  intros h Hs. apply wp_with_room; [done..|]. intros l h1 _ Hs1 _ Hn. apply (wp_at None r l); [done..|].
  intros h2 _ Hs2 [Hl _]. simpl.
  assert (hub_safe (record_at l ev h2)) by (by apply set_same_clients_safe).
  split; [done|]. split; [by apply set_same_clients_evolves|done].
Qed.

Lemma quiet_on_frame r u c now f : quiet (on_frame_p r u c now f).
Proof.
  unfold on_frame_p. destruct f as [|type pos active]; [apply quiet_sendTo; plain_tac|].
  case_bool_decide; [apply quiet_sendTo, plain_none; by right|]. case_bool_decide.
  { destruct pos; [|apply quiet_sendTo; plain_tac].
    apply quiet_seq; [apply quiet_recordLocation|apply quiet_broadcast; plain_tac]. }
  case_bool_decide; [|apply quiet_sendTo; plain_tac]. destruct active; [|apply quiet_sendTo; plain_tac].
  apply quiet_SetEmergency. intros []; [apply quiet_broadcast; plain_tac|apply quiet_ret].
Qed.

Lemma quiet_readPump r u c frames : quiet (readPump_p r u c frames).
Proof.
  apply quiet_seq; [apply quiet_for_each; intros f; apply quiet_on_frame|by apply quiet_close].
Qed.

(** The snapshot is the new user's. *)
Lemma wp_greet r u c reads h :
  hub_safe h -> socket_of r u c h ->
  wp (others None) (mine None) (greet_p r u c reads) (fun _ h' => hub_safe h') h.
Proof.
  intros Hs Hc. destruct reads as [[[ms d] st]|]; [|done]. apply wp_with_room; [done..|].
  intros l h1 Hr1 _ _ _. apply wp_seq. intros _ h2 Hr2 Hs2. split; [done|]. split; [reflexivity|]. simpl.
  unfold sendTo_p. destruct (pack _ _) as [data|] eqn:E; [|done]. intros _ h3 Hr3 Hs3. simpl.
  assert (socket_of r u c h3) as (k & Hk & Hu & _) by (by apply (ev_clients _ _ _ Hr3), (ev_clients _ _ _ Hr2), (ev_clients _ _ _ Hr1)).
  assert (hub_safe (upd_client (enqueue data) c h3)).
  { apply upd_client_safe; auto with convoy. rewrite Hk. intros k' [= <-]. apply enqueue_ok. rewrite Hu.
    revert E. unfold pack. destruct (json_payload _) eqn:Hj; [|done]. intros [= <-].
    unfold frame_typed. cbn [Env_Payload Env_Type payload_type]. rewrite Hj. by rewrite !bool_decide_eq_true_2. }
  split; [done|]. split; [apply upd_client_evolves; auto with convoy|done].
Qed.

(** ** Joining *)

Lemma join_at_ok r u l c h :
  hub_safe h -> names r l h -> socket_of r u c h -> unregistered c h ->
  hub_safe (join_at l c h).2 /\ mine (Some c) h (join_at l c h).2 /\ only_at c u l (join_at l c h).2.
Proof.
  intros Hs [Hl Hn] Hc Hun. unfold join_at. rewrite (socket_of_user r u) by done.
  set (rs := state_at l h). set (rs' := set_clients (<[u:=c]> (rs_clients rs)) rs).
  assert (forall h', hub_safe h' -> h_states h' = h_states h -> h_rooms h' = h_rooms h -> socket_of r u c h' ->
    (evolves (fun d => Some c = Some d) h h') ->
    hub_safe (set_state l rs' h') /\ mine (Some c) h (set_state l rs' h') /\ only_at c u l (set_state l rs' h')) as Hset.
  { intros h' Hs' Est Ero Hc' Hev. assert (forall l', state_at l' h' = state_at l' h) as Hat
      by (intros l'; unfold state_at; by rewrite Est).
    split; [|split].
    - apply set_state_safe; [done|by rewrite Est|]. rewrite Ero. intros r' Hr' v d. simpl. rewrite lookup_insert.
      rewrite (Hn r' Hr'). case_decide; [subst v; by intros [= <-]|]. intros Hd.
      apply (state_socket_of r l); [done| |by rewrite Hat]. rewrite Ero. by rewrite <-(Hn r' Hr').
    - unfold mine. etransitivity; [exact Hev|]. apply set_state_evolves. intros v d. simpl. rewrite lookup_insert, Hat.
      case_decide; [intros [= <-]; by right|by left].
    - intros l' v. unfold state_at at 1. simpl. rewrite lookup_insert. case_decide as El.
      + subst l'. simpl. rewrite lookup_insert. case_decide; [by subst|]. intros H'. by apply Hun in H'.
      + fold (state_at l' h'). rewrite Hat. intros H'. by apply Hun in H'. }
  destruct (rs_clients rs !! u) as [d|]; simpl.
  - apply Hset; auto with convoy; [|by apply socket_of_upd; auto with convoy]. apply upd_client_safe; auto with convoy.
    intros k _. by apply close_ok.
  - apply Hset; [done..|reflexivity].
Qed.

(** ** Leaving *)

Lemma leave_at_ok r u l c h :
  hub_safe h -> names r l h -> socket_of r u c h -> only_at c u l h ->
  hub_safe (leave_at l c h).2 /\ mine (Some c) h (leave_at l c h).2 /\ gone c (leave_at l c h).2.
Proof.
  intros Hs [Hl Hn] Hc Ho. unfold leave_at. rewrite (socket_of_user r u) by done.
  set (rs := state_at l h). case_bool_decide as Hcur; simpl.
  - split; [|split].
    + apply set_same_clients_safe; [done..|]. apply delete_subseteq.
    + apply set_state_evolves. simpl. intros v d [_ Hd]%lookup_delete_Some. by left.
    + intros r' l' v _. unfold state_at. simpl. rewrite lookup_insert. case_decide as El.
      * simpl. rewrite lookup_delete. case_decide; [done|]. intros H'. by apply Ho in H' as [_ ->].
      * fold (state_at l' h). intros H'. by apply Ho in H' as [-> _].
  - split; [done|]. split; [reflexivity|]. intros r' l' v _ H'. by apply Ho in H' as H2; destruct H2 as [-> ->].
Qed.

(** ** The goroutine of a socket *)

Section socket.
Variable r u : uuid.
Variable c : cid.

Abbreviation wp_c := (wp (others (Some c)) (mine (Some c))).

Lemma quiet_keeping (P : Hub -> Prop) p h :
  (forall h h' may, hub_safe h -> ~ may c -> evolves may h h' -> P h -> P h') ->
  quiet p -> hub_safe h -> P h -> wp_c p (fun _ h' => hub_safe h' /\ P h') h.
Proof. intros HP Hp Hs HPh. apply wp_quiet; [|done..|by apply Hp]. intros h1 h2 Hs1 Hev. eapply HP; [done| |exact Hev]. by intros H. Qed.

(** After the join: known at [l] only. *)
Definition joined (l : loc) (h : Hub) : Prop := socket_of r u c h /\ names r l h /\ only_at c u l h.

Lemma joined_stable l h h' may : hub_safe h -> ~ may c -> evolves may h h' -> joined l h -> joined l h'.
Proof.
  intros [Hwf _] Hc Hev (H1 & H2 & H3). split; [by apply (ev_clients _ _ _ Hev)|].
  split; [by eapply names_stable|by eapply only_at_stable].
Qed.

Lemma wp_join h (Q : bool -> Hub -> Prop) :
  hub_safe h -> socket_of r u c h -> unregistered c h ->
  (forall b l h', hub_safe h' -> joined l h' -> Q b h') -> wp_c (join_p r c) Q h.
Proof.
  intros Hs Hc Hun HQ. apply wp_with_room; [done..|]. intros l h1 Hr1 Hs1 _ Hn. apply (wp_at (Some c) r l); [done..|].
  intros h2 Hr2 Hs2 Hn2.
  assert (socket_of r u c h2) as Hc2 by (by apply (ev_clients _ _ _ Hr2), (ev_clients _ _ _ Hr1)).
  assert (unregistered c h2) as Hun2.
  { eapply (unregistered_stable _ c h1); [|exact Hr2|]; [by intros H|].
    eapply (unregistered_stable _ c h); [|exact Hr1|done]. by intros H. }
  destruct (join_at_ok r u l c h2 Hs2 Hn2 Hc2 Hun2) as (H1 & H2 & H3). split; [done|]. split; [done|].
  apply (HQ _ l); [done|]. split; [by apply (ev_clients _ _ _ H2)|]. split; [|done].
  by eapply names_stable; [apply Hs2|exact H2|].
Qed.

(** Whether [leave] finds the state that was joined or, the room having been
    dropped meanwhile, a newer one. *)
Lemma leave_section l l0 h :
  hub_safe h -> names r l h -> joined l0 h -> (l <> l0 -> orphan l0 h) ->
  hub_safe (leave_at l c h).2 /\ mine (Some c) h (leave_at l c h).2 /\ gone c (leave_at l c h).2.
Proof.
  intros Hs Hn (Hc & Hn0 & Ho) Hor. destruct (decide (l = l0)) as [->|Hne]; [by apply (leave_at_ok r u)|].
  assert ((leave_at l c h).2 = h) as ->.
  { unfold leave_at. rewrite (socket_of_user r u) by done. case_bool_decide as Hcur; [|done].
    by apply Ho in Hcur as [-> _]. }
  split; [done|]. split; [unfold mine; reflexivity|]. by apply (only_at_orphan c u l0); [|apply Hor].
Qed.

Lemma gone_kept h h' may : hub_safe h -> ~ may c -> evolves may h h' -> gone c h -> gone c h'.
Proof. intros [Hwf _] Hc Hev. by eapply gone_stable. Qed.

Lemma joined_orphan l0 l h : names r l0 h -> h_rooms h !! r = l -> l <> Some l0 -> orphan l0 h.
Proof. intros [Hl Hn] Hr Hne. split; [done|]. intros r' Hr'. rewrite (Hn r' Hr') in Hr'. congruence. Qed.

Lemma wp_leave l0 h :
  hub_safe h -> joined l0 h -> wp_c (leave_p r c) (fun _ h' => hub_safe h' /\ gone c h') h.
Proof.
  intros Hs Hj. assert (forall h', others (Some c) h h' -> joined l0 h') as Hj'.
  { intros h' Hr. eapply joined_stable; [exact Hs| |exact Hr|done]. by intros H. }
  apply wp_with_room; [done| |].
  - intros h1 Hr1 Hs1 _ Hnone. split; [done|]. destruct (Hj' h1 Hr1) as (_ & Hn0 & Ho).
    apply (only_at_orphan c u l0); [done|]. by eapply (joined_orphan l0 None).
  - intros l h1 Hr1 Hs1 Hl Hn. apply wp_seq, (wp_at (Some c) r l); [done..|]. intros h2 Hr2 Hs2 Hn2.
    assert (joined l0 h2) as Hj2 by (apply Hj'; unfold others; by etransitivity).
    destruct (leave_section l l0 h2 Hs2 Hn2 Hj2) as (H1 & H2 & H3).
    { intros Hne. apply (orphan_stable _ l0 h1 h2 (proj1 Hs1) Hr2).
      destruct (Hj' h1 Hr1) as (_ & Hn0 & _). eapply (joined_orphan l0); [done|exact Hl|congruence]. }
    split; [done|]. split; [done|]. apply wp_seq.
    apply (wp_mono _ _ _ (fun _ h' => hub_safe h' /\ gone c h')); [done|].
    apply quiet_keeping; [apply gone_kept| |done..]. destruct (l_empty _); [|apply quiet_ret].
    apply quiet_change. intros h3 Hs3. auto with convoy.
Qed.

Lemma quiet_when (b : bool) p : quiet p -> quiet (if b then p else Ret tt).
Proof. intros Hp. destruct b; [done|apply quiet_ret]. Qed.

Lemma wp_disconnect l0 h :
  hub_safe h -> joined l0 h -> wp_c (disconnect_p r u c) (fun _ h' => gone c h') h.
Proof.
  intros Hs Hj. apply wp_seq. apply (wp_mono _ _ _ (fun _ h' => hub_safe h' /\ gone c h')); [|by apply (wp_leave l0)].
  intros [was cleared] h1 [Hs1 Hg]. apply (wp_mono _ _ _ (fun _ h' => hub_safe h' /\ gone c h')); [by intros _ h' []|].
  apply quiet_keeping; [apply gone_kept| |done..]. apply quiet_when, quiet_seq; [apply quiet_when|];
    apply quiet_broadcast; plain_tac.
Qed.

(** A socket's goroutine, from the join on: at its end the socket is in no
    room, whatever the other goroutines did. *)
Lemma wp_socket reads frames h :
  hub_safe h -> socket_of r u c h -> unregistered c h ->
  wp_c (socket_p r u c reads frames) (fun _ h' => gone c h') h.
Proof.
  intros Hs Hc Hun. apply wp_seq, wp_join; [done..|]. intros became l h1 Hs1 Hj1. apply wp_seq.
  apply (wp_mono _ _ _ (fun _ h' => hub_safe h' /\ joined l h')).
  2:{ apply wp_quiet; [|done..|by apply wp_greet; [|apply Hj1]].
      intros h2 h3 Hs2 Hev. eapply joined_stable; [exact Hs2| |exact Hev]. by intros H. }
  intros _ h2 [Hs2 Hj2]. apply wp_seq. apply (wp_mono _ _ _ (fun _ h' => hub_safe h' /\ joined l h')).
  2:{ apply quiet_keeping; [apply joined_stable| |done..]. apply quiet_when, quiet_broadcast; plain_tac. }
  intros _ h3 [Hs3 Hj3]. apply wp_seq. apply (wp_mono _ _ _ (fun _ h' => hub_safe h' /\ joined l h')).
  2:{ apply quiet_keeping; [apply joined_stable|apply quiet_readPump|done..]. }
  intros _ h4 [Hs4 Hj4]. by apply (wp_disconnect l).
Qed.
End socket.
