(* ===== verification/ThreadProps.v ===== *)
(** * The hub under every interleaving

    Goroutines of sockets and of requests run their critical sections in any
    order; what the hub keeps, who is present, and, as a check of the model on
    itself, that its programs run alone are the operations of [Hub] and
    [Session]. *)
From stdpp Require Import base gmap sets list strings.
From Stdlib Require Import ZArith Lia.
From S2P Require Import Prelude.
From S2P Require Import Types.
From S2P Require Import Samples.
From S2P Require Import Broadcaster.
From S2P Require Import Messages.
From S2P Require Import Client.
From S2P Require Import Hub.
From S2P Require Import HubFacts.
From S2P Require Import Presence.
From S2P Require Import HubProps.
From S2P Require Import HubBroadcaster.
From S2P Require Import Session.
From S2P Require Import SessionProps.
From S2P Require Import Threads.
From S2P Require Import ThreadFacts.
From S2P Require Import ThreadRules.

(** ** The invariant of the pool *)

(** What a goroutine leaves behind. *)
Definition leaves_behind (o : option cid) (_ : unit) (h : Hub) : Prop :=
  match o with Some c => gone c h | None => True end.

Definition thread_ok (t : thread) (h : Hub) : Prop :=
  wp (others (th_socket t)) (mine (th_socket t)) (th_prog t) (leaves_behind (th_socket t)) h.

Definition serves (c : cid) (s : system) : Prop :=
  exists i t, sy_threads s !! i = Some t /\ th_socket t = Some c.

Record sys_ok (s : system) : Prop := {
  so_safe : hub_safe (sy_hub s);
  so_threads : forall i t, sy_threads s !! i = Some t -> thread_ok t (sy_hub s);
  so_distinct : forall i j t1 t2 c, sy_threads s !! i = Some t1 -> sy_threads s !! j = Some t2 ->
    th_socket t1 = Some c -> th_socket t2 = Some c -> i = j;
  so_sockets : forall c, serves c s -> is_Some (h_clients (sy_hub s) !! c);
  so_registered : forall l u c, rs_clients (state_at l (sy_hub s)) !! u = Some c -> serves c s;
}.

Lemma client_kept may c h h' : evolves may h h' -> is_Some (h_clients h !! c) -> is_Some (h_clients h' !! c).
Proof.
  intros Hev [k Hk]. destruct (ev_clients _ _ _ Hev (c_roomID k) (c_user k) c) as (k' & Hk' & _); [by exists k|].
  by eexists.
Qed.

Lemma thread_stable t h h' :
  hub_safe h -> others (th_socket t) h h' -> thread_ok t h -> thread_ok t h'.
Proof.
  intros Hs Hev. apply wp_stable; [|..|done|done].
  - intros h1 h2 h3. unfold others. by apply evolves_pre.
  - intros [] h1 h2 Hs1 Hr. unfold leaves_behind. destruct (th_socket t) as [c|]; [|done].
    apply (gone_stable _ c h1 h2 (proj1 Hs1)) with (2 := Hr). by intros Hx.
Qed.

(** A change of the hub that registers nobody. *)
Lemma sys_hub_step s h' :
  sys_ok s -> hub_safe h' -> (forall may, evolves may (sy_hub s) h') -> sys_ok (mkSystem (sy_threads s) h').
Proof.
  intros [H1 H2 H3 H4 H5] Hs Hev. split; simpl; [done| |done| |].
  - intros i t Ht. apply (thread_stable t (sy_hub s)); [done|apply Hev|by eapply H2].
  - intros c Hc. apply (client_kept (fun _ => False) c (sy_hub s)); [apply Hev|by apply H4].
  - intros l u c [Hc|[]]%(ev_sockets (fun _ => False) _ _ (Hev _)). by eapply H5.
Qed.

(** A new goroutine. *)
Lemma sys_spawn s t :
  sys_ok s -> thread_ok t (sy_hub s) ->
  (forall c, th_socket t = Some c -> ~ serves c s /\ is_Some (h_clients (sy_hub s) !! c)) ->
  sys_ok (mkSystem (sy_threads s ++ [t]) (sy_hub s)).
Proof.
  intros [H1 H2 H3 H4 H5] Ht Hc.
  assert (forall i t', (sy_threads s ++ [t]) !! i = Some t' ->
            sy_threads s !! i = Some t' \/ (i = length (sy_threads s) /\ t' = t)) as Hcase.
  { intros i t' [Hi|[Hge Hi]]%lookup_app_Some; [by left|]. apply list_lookup_singleton_Some in Hi as [Hi ->].
    right. split; [lia|done]. }
  split; simpl; [done| | | |].
  - intros i t' [Hi|[_ ->]]%Hcase; [by eapply H2|done].
  - intros i j t1 t2 c [Hi|[-> ->]]%Hcase [Hj|[-> ->]]%Hcase E1 E2; [by eapply H3| | |done].
    + destruct (Hc c E2) as [[] _]. by exists i, t1.
    + destruct (Hc c E1) as [[] _]. by exists j, t2.
  - intros c (i & t' & [Hi|[_ ->]]%Hcase & E); [apply H4; by exists i, t'|by apply Hc].
  - intros l u c (i & t' & Hi & E)%H5. exists i, t'. split; [by apply lookup_app_l_Some|done].
Qed.

Lemma sys_thread_ok ord i s s' : sys_ok s -> exec_thread ord i s = Some s' -> sys_ok s'.
Proof.
  intros [H1 H2 H3 H4 H5]. unfold exec_thread. destruct (sy_threads s !! i) as [[o [|B f k]]|] eqn:Hi; try done.
  intros [= <-]. pose proof (H2 i _ Hi) as Ht. simpl in Ht.
  destruct (Ht ord (sy_hub s)) as (Hs & Hm & Hk); [unfold others; reflexivity|done|].
  set (h' := (f ord (sy_hub s)).2) in *.
  assert (forall j t, sy_threads (mkSystem (<[i:=mkThread o (k (f ord (sy_hub s)).1)]> (sy_threads s)) h') !! j = Some t ->
            (j = i /\ t = mkThread o (k (f ord (sy_hub s)).1)) \/ (j <> i /\ sy_threads s !! j = Some t)) as Hcase.
  { intros j t. simpl. intros [(-> & <- & _)|[Hne Hj]]%list_lookup_insert_Some; auto. }
  assert (forall j t, sy_threads s !! j = Some t -> exists t', sy_threads (mkSystem (<[i:=mkThread o (k (f ord (sy_hub s)).1)]> (sy_threads s)) h') !! j = Some t' /\
            th_socket t' = th_socket t) as Hold.
  { intros j t Hj. simpl. destruct (decide (j = i)) as [->|Hne].
    - rewrite list_lookup_insert_eq by (by apply lookup_lt_Some in Hi). eexists. split; [reflexivity|].
      rewrite Hi in Hj. by injection Hj as <-.
    - rewrite list_lookup_insert_ne by done. by exists t. }
  assert (forall c, serves c (mkSystem (<[i:=mkThread o (k (f ord (sy_hub s)).1)]> (sy_threads s)) h') <-> serves c s) as Hserve.
  { intros c. split.
    - intros (j & t & [[-> ->]|[_ Hj]]%Hcase & E); [by exists i, (mkThread o (Act f k))|by exists j, t].
    - intros (j & t & Hj & E). destruct (Hold j t Hj) as (t' & Hj' & E'). exists j, t'. by rewrite E'. }
  split; [done| | | |].
  - intros j t [[-> ->]|[Hne Hj]]%Hcase; [done|]. apply (thread_stable t (sy_hub s)); [done| |by eapply H2].
    eapply evolves_weaken; [|exact Hm]. simpl. intros c -> Hc. by destruct (Hne (H3 j i t _ c Hj Hi Hc eq_refl)).
  - intros j1 j2 t1 t2 c [[-> ->]|[Hne1 Hj1]]%Hcase [[-> ->]|[Hne2 Hj2]]%Hcase E1 E2; [done| | |by eapply H3].
    + by eapply H3; [exact Hi|exact Hj2| |].
    + by eapply H3; [exact Hj1|exact Hi| |].
  - intros c Hc%Hserve. eapply client_kept; [exact Hm|by apply H4].
  - intros l u c Hc. apply Hserve. apply (ev_sockets _ _ _ Hm) in Hc as [Hc|Hc]; [by eapply H5|].
    simpl in Hc. by exists i, (mkThread o (Act f k)).
Qed.

Lemma pump_client_safe st ev c h h' :
  pump_client st ev c h = Some h' -> hub_safe h -> hub_safe h' /\ forall may, evolves may h h'.
Proof.
  unfold pump_client. destruct (h_clients h !! c) as [k|] eqn:Hk; [|done]. simpl.
  destruct (pump_step ev _) as [s|] eqn:Hs; [|done]. simpl. intros [= <-] Hsafe.
  destruct (pump_ok _ _ _ _ _ _ Hs (proj2 Hsafe c k Hk)) as (Hok & Hu & Hr).
  assert (forall f, f = (fun _ : client => k_client s) -> <[c:=k_client s]> (h_clients h) = alter f c (h_clients h)) as E.
  { intros f ->. apply map_eq. intros d. rewrite lookup_insert, lookup_alter. case_decide; [subst d|done]. by rewrite Hk. }
  split.
  - split.
    + destruct Hsafe as [[A1 A2 A3 A4 A5] _]. split; simpl; try done.
      * intros d. rewrite lookup_insert. case_decide; [subst d; intros _; apply A2; by eexists|apply A2].
      * intros r l rs u d Hl Hst Hd. destruct (A5 r l rs u d Hl Hst Hd) as (k' & Hk' & Hu' & Hr').
        rewrite lookup_insert. case_decide; [subst d|by exists k']. rewrite Hk in Hk'. injection Hk' as <-.
        exists (k_client s). by rewrite Hu, Hr.
    + intros d k'. simpl. rewrite lookup_insert. case_decide; [by intros [= <-]|apply Hsafe].
  - intros may. split; simpl; [lia|done| |by auto|by auto]. intros r u d (k' & Hk' & Hu' & Hr').
    unfold socket_of. simpl. rewrite lookup_insert. case_decide; [subst d|by exists k'].
    rewrite Hk in Hk'. injection Hk' as <-. exists (k_client s). by rewrite Hu, Hr.
Qed.

Lemma spawn_socket_ok r u reads frames s : sys_ok s -> sys_ok (spawn_socket r u reads frames s).
Proof.
  intros Hok. pose proof Hok as [H1 H2 H3 H4 H5]. unfold spawn_socket.
  pose proof (alloc_safe u r _ H1) as Hs. pose proof (fun may => alloc_evolves may u r _ (proj1 H1)) as Hev.
  pose proof (alloc_socket r u (sy_hub s)) as Hc.
  assert ((alloc_client u r (sy_hub s)).1 = h_next (sy_hub s)) as Hid by done.
  assert (forall l, state_at l (alloc_client u r (sy_hub s)).2 = state_at l (sy_hub s)) as Hst by done.
  destruct (alloc_client u r (sy_hub s)) as [c h]. simpl in *.
  assert (~ serves c s) as Hnew.
  { intros Hs'. apply H4, (hw_clients _ (proj1 H1)) in Hs'. lia. }
  apply (sys_spawn (mkSystem (sy_threads s) h)); simpl.
  - by apply sys_hub_step.
  - unfold thread_ok. cbn [th_socket th_prog]. apply (wp_mono _ _ _ (fun _ h' => gone c h')); [done|]. apply wp_socket; [done..|].
    intros l v Hl. apply Hnew. rewrite Hst in Hl. by eapply H5.
  - intros d [= <-]. split; [done|]. destruct Hc as (k & -> & _). by eexists.
Qed.

Lemma sys_reachable_ok s : sys_reachable s -> sys_ok s.
Proof.
  induction 1 as [|s s' _ IH Hstep].
  - split; simpl; [apply NewHub_safe|done|done|by intros c (i & t & ? & _)|].
    intros l u c. unfold state_at. simpl. by rewrite lookup_empty.
  - destruct Hstep as [ord i s s' _ Hx|x s|r u reads frames s|st ev c h' s Hp].
    + by eapply sys_thread_ok.
    + apply sys_spawn; [done| |done]. unfold thread_ok. cbn [th_socket th_prog]. apply (wp_mono _ _ _ (fun _ h' => hub_safe h')); [done|apply quiet_call, IH].
    + by apply spawn_socket_ok.
    + destruct (pump_client_safe _ _ _ _ _ Hp (so_safe _ IH)). by apply sys_hub_step.
Qed.

(** C10 Whatever the interleaving of the critical sections of any number of
    requests, sockets and write pumps: every frame in every queue has the
    payload its type announces, can be written as JSON and, if it is a
    snapshot, is that of the queue's own user; no queue is longer than the
    channel's capacity; a client has a reason exactly when it is closed; and
    the hub's structures stay coherent. *)
Theorem frames_typed s :
  sys_reachable s ->
  hub_wf (sy_hub s) /\
  forall c k, h_clients (sy_hub s) !! c = Some k ->
    length (c_send k) <= sendBuffer /\
    (forall e, e ∈ c_send k -> frame_typed (c_user k) e = true) /\
    (c_closed k = true <-> c_reason k <> "").
Proof.
  intros [[Hwf Hcl] _ _ _ _]%sys_reachable_ok. split; [done|]. intros c k Hk. destruct (Hcl c k Hk) as [H1 H2 H3].
  split; [done|]. split; [intros e; by rewrite Forall_forall in H2; apply H2|].
  rewrite H3, negb_true_iff. apply bool_decide_eq_false.
Qed.

(** C9 Presence is backed by a connection: under every interleaving, a user
    who shows as present in a room has a socket there whose goroutine has not
    come to its end; a socket that ended is in no room, even when the room was
    dropped and made anew while it was leaving. *)
Theorem presence_backed s r u :
  sys_reachable s -> IsPresent r u (sy_hub s) = true ->
  exists c k i p, client_of r u (sy_hub s) = Some c /\
    h_clients (sy_hub s) !! c = Some k /\ c_user k = u /\ c_roomID k = r /\
    sy_threads s !! i = Some (mkThread (Some c) p) /\ p <> Ret tt.
Proof.
  intros [[Hwf Hcl] Hth _ _ Hreg]%sys_reachable_ok Hp.
  assert (exists c, client_of r u (sy_hub s) = Some c) as [c Hc].
  { unfold IsPresent, client_of in *. destruct (room_state r (sy_hub s)) as [rs|]; [|done].
    apply bool_decide_eq_true in Hp as [c Hc]. by exists c. }
  destruct (client_of_spec _ _ _ _ Hwf Hc) as (k & Hk & Hu & Hr). unfold client_of, room_state in Hc.
  destruct (h_rooms (sy_hub s) !! r) as [l|] eqn:Hl; [|done]. simpl in Hc.
  destruct (Hreg l u c Hc) as (i & [o p] & Hi & Ho). simpl in Ho. subst o. exists c, k, i, p.
  split; [unfold client_of, room_state; by rewrite Hl|]. split; [done|]. split; [done|]. split; [done|]. split; [done|].
  intros ->. exact (Hth _ _ Hi r l u Hl Hc).
Qed.

(** ** The programs run alone

    The two descriptions of the hub agree: [run_call] and [run_socket]. *)

Lemma run_seq {A B} ord (p : prog A) (k : A -> prog B) h :
  run ord (seq p k) h = run ord (k (run ord p h).1) (run ord p h).2.
Proof. revert h. induction p as [a|C f j IH]; intros h; simpl; [done|]. apply IH. Qed.

Lemma run_for_each {X} ord (body : X -> prog unit) (f : Hub -> X -> Hub) xs h :
  (forall x h, run ord (body x) h = (tt, f h x)) -> run ord (for_each body xs) h = (tt, foldl f h xs).
Proof. intros Hb. revert h. induction xs as [|x xs IH]; intros h; simpl; [done|]. by rewrite run_seq, Hb, IH. Qed.

Lemma run_roomFor ord r create h : run ord (roomFor_p r create) h = roomFor r create h.
Proof.
  unfold roomFor_p. rewrite run_seq. cbn [look section run fst snd]. unfold roomFor.
  destruct (h_rooms h !! r) eqn:Hl; [done|]. destruct create; simpl; [|done]. unfold roomFor. by rewrite Hl.
Qed.

Lemma run_with_room {A} ord r create none (k : loc -> prog A) h :
  run ord (with_room r create none k) h =
    match roomFor r create h with (Some l, h') => run ord (k l) h' | (None, h') => (none, h') end.
Proof. unfold with_room. rewrite run_seq, run_roomFor. by destruct (roomFor r create h) as [[l|] h']. Qed.

Lemma run_join ord r c h : run ord (join_p r c) h = join r c h.
Proof.
  unfold join_p, join. rewrite run_with_room. destruct (roomFor r true h) as [[l|] h']; [|done]. simpl.
  by destruct (join_at l c h').
Qed.

Lemma run_leave ord r c h : run ord (leave_p r c) h = leave r c h.
Proof.
  unfold leave_p, leave. rewrite run_with_room. destruct (roomFor r false h) as [[l|] h']; [|done].
  rewrite run_seq. cbn [section run]. destruct (leave_at l c h') as [x h2]. cbn [fst snd].
  rewrite run_seq. by destruct (l_empty x).
Qed.

Lemma run_SetEmergency ord r u a h : run ord (SetEmergency_p r u a) h = SetEmergency r u a h.
Proof.
  unfold SetEmergency_p, SetEmergency. rewrite run_with_room. destruct (roomFor r true h) as [[l|] h']; [|done].
  cbn [section run]. unfold set_emergency_at. by repeat case_match.
Qed.

Lemma run_recordLocation ord r ev h : run ord (recordLocation_p r ev) h = (tt, recordLocation r ev h).
Proof.
  unfold recordLocation_p, recordLocation. rewrite run_with_room. by destruct (roomFor r true h) as [[l|] h'].
Qed.

Lemma run_sendTo ord t p c h : run ord (sendTo_p t p c) h = (tt, sendTo c t p h).
Proof. unfold sendTo_p, sendTo. by destruct (pack t p). Qed.

(** The same update of several clients, in any order. *)
Lemma foldl_upd_perm f (cs cs' : list cid) h :
  cs ≡ₚ cs' -> foldl (fun h c => upd_client f c h) h cs = foldl (fun h c => upd_client f c h) h cs'.
Proof.
  intros Hp. revert h. induction Hp as [|x l1 l2 _ IH|x y l|l1 l2 l3 _ IH1 _ IH2]; intros h; simpl; [done|done| |].
  - assert (upd_client f x (upd_client f y h) = upd_client f y (upd_client f x h)) as ->; [|done].
    unfold upd_client. simpl. f_equal. destruct (decide (x = y)) as [->|Hne]; [done|]. by apply alter_alter_ne.
  - by rewrite IH1.
Qed.

Lemma sendTo_all_perm t p (cs cs' : list cid) h :
  cs ≡ₚ cs' -> foldl (fun h c => sendTo c t p h) h cs = foldl (fun h c => sendTo c t p h) h cs'.
Proof.
  intros Hp. unfold sendTo. destruct (pack t p) as [data|]; [by apply foldl_upd_perm|].
  clear Hp. revert cs'. induction cs as [|c cs IH]; simpl; [|exact IH]. intros cs'. by induction cs'.
Qed.

Section alone.
Variable ord : ordering.
Hypothesis Hord : ranging ord.

Lemma run_broadcast r t p ex h : run ord (broadcast_p r t p ex) h = (tt, broadcast r t p ex h).
Proof.
  unfold broadcast_p, broadcast, room_state. rewrite run_with_room. unfold roomFor.
  destruct (h_rooms h !! r) as [l|]; [|done]. cbn [mbind option_bind].
  destruct (pack t (Some p)) as [data|]; [|done].
  cbn [seq run fst snd]. rewrite (run_for_each ord _ (fun h c => upd_client (enqueue data) c h)) by done.
  f_equal. apply foldl_upd_perm, Hord.
Qed.

Lemma run_client_of r u h : run ord (client_of_p r u) h = (client_of r u h, h).
Proof.
  unfold client_of_p, client_of, room_state. rewrite run_with_room. unfold roomFor.
  by destruct (h_rooms h !! r) as [l|].
Qed.

Lemma run_KickConnection r u b h : run ord (KickConnection_p r u b) h = (tt, KickConnection r u b h).
Proof.
  unfold KickConnection_p, KickConnection. rewrite !run_seq, run_broadcast, run_client_of. cbn [fst snd].
  destruct (client_of r u _) as [c|]; [|done]. by rewrite run_seq, run_sendTo.
Qed.

Lemma run_DisconnectUser r u h : run ord (DisconnectUser_p r u) h = (tt, DisconnectUser r u h).
Proof.
  unfold DisconnectUser_p, DisconnectUser. rewrite run_seq, run_client_of. by destruct (client_of r u h).
Qed.

Lemma run_BroadcastRoomEnded r h : run ord (BroadcastRoomEnded_p r) h = (tt, BroadcastRoomEnded r h).
Proof.
  unfold BroadcastRoomEnded_p, BroadcastRoomEnded, room_state. rewrite run_with_room. unfold roomFor.
  destruct (h_rooms h !! r) as [l|]; [|done]. cbn [mbind option_bind]. rewrite !run_seq. cbn [run fst snd].
  rewrite (run_for_each ord (sendTo_p MsgRoomEnded None) (fun h c => sendTo c MsgRoomEnded None h)) by (intros; apply run_sendTo). cbn [fst snd].
  rewrite (run_for_each ord (close_p "room ended") (fun h c => upd_client (close_ "room ended") c h)) by done. f_equal.
  rewrite (sendTo_all_perm _ _ _ _ h (Hord _)). apply foldl_upd_perm, Hord.
Qed.

(** What the broadcaster does for a call. *)
Definition apply_call {H} (b : Broadcaster.Broadcaster H) (x : Broadcaster.rt_call) : H -> H :=
  match x with
  | CallMemberJoined r m => Broadcaster.BroadcastMemberJoined b r m
  | CallMemberLeft r u => Broadcaster.BroadcastMemberLeft b r u
  | CallMute r u m by_ => Broadcaster.BroadcastMute b r u m by_
  | CallKick r u by_ => Broadcaster.KickConnection b r u by_
  | CallRoomEnded r => Broadcaster.BroadcastRoomEnded b r
  | CallDestination r d => Broadcaster.BroadcastDestination b r d
  | CallStops r l => Broadcaster.BroadcastStops b r l
  | CallOwnerChanged r n o => Broadcaster.BroadcastOwnerChanged b r n o
  | CallRoomRenamed r n => Broadcaster.BroadcastRoomRenamed b r n
  | CallChat r m => Broadcaster.BroadcastChatMessage b r m
  | CallDisconnect r u => Broadcaster.DisconnectUser b r u
  end.

Lemma run_call x h : run ord (call_p x) h = (tt, apply_call hub_broadcaster x h).
Proof.
  destruct x; cbn [call_p];
    first [apply run_KickConnection | apply run_BroadcastRoomEnded | apply run_DisconnectUser | apply run_broadcast].
Qed.
End alone.

(** ** A socket's goroutine that nothing interrupts *)

Lemma run_wp {A} o ord (p : prog A) Q h :
  hub_safe h -> wp (others o) (mine o) p Q h ->
  hub_safe (run ord p h).2 /\ mine o h (run ord p h).2 /\ Q (run ord p h).1 (run ord p h).2.
Proof.
  revert h. induction p as [a|B f k IH]; intros h Hs; simpl; [split; [done|]; split; [unfold mine; reflexivity|done]|].
  intros Hp. destruct (Hp ord h) as (H1 & H2 & H3); [unfold others; reflexivity|done|].
  destruct (IH _ _ H1 H3) as (H4 & H5 & H6). split; [done|]. split; [|done]. unfold mine in *. by etransitivity.
Qed.

Lemma run_quiet ord p r u c h :
  quiet p -> hub_safe h -> socket_of r u c h ->
  hub_safe (run ord p h).2 /\ socket_of r u c (run ord p h).2.
Proof.
  intros Hp Hs Hc. destruct (run_wp None ord p _ h Hs (Hp h Hs)) as (H1 & H2 & _). split; [done|].
  by apply (ev_clients _ _ _ H2).
Qed.

(** [ServeHTTP] from the join to its return, as one step. *)
Definition greet (roomID self : uuid) (c : cid) (reads : room_reads) (h : Hub) : Hub :=
  match reads with
  | None => h
  | Some (members, dest, stops) =>
      let h' := (roomFor roomID true h).2 in
      sendTo c MsgSnapshot (Some (SnapshotP (snapshot_of roomID self members dest stops h'))) h'
  end.

Definition socket_life (roomID self : uuid) (c : cid) (reads : room_reads) (frames : list (Z * inbound)) (h : Hub) : Hub :=
  let '(became, h1) := join roomID c h in
  let h2 := greet roomID self c reads h1 in
  let h3 := if became then BroadcastMemberPresent roomID self h2 else h2 in
  disconnect roomID self c (readPump c frames h3).

Lemma run_greet ord r u c reads h : hub_wf h -> run ord (greet_p r u c reads) h = (tt, greet r u c reads h).
Proof.
  intros Hwf. destruct reads as [[[ms d] st]|]; [|done]. unfold greet_p. rewrite run_with_room. cbn [greet].
  destruct (roomFor_spec r h Hwf) as (l & h' & E & _ & Hl & _). rewrite E, run_seq, run_sendTo. cbn [look section run fst snd].
  unfold snapshot_of, room_state, snapshot_at. by rewrite Hl.
Qed.

Section alone_socket.
Variable ord : ordering.
Hypothesis Hord : ranging ord.
Variables r u : uuid.
Variable c : cid.

Lemma run_on_frame now f h : socket_of r u c h -> run ord (on_frame_p r u c now f) h = (tt, on_frame c now f h).
Proof.
  intros (k & Hk & Hu & Hr). unfold on_frame_p, on_frame, on_location, on_emergency, client_user, client_room. rewrite Hk, Hu, Hr.
  destruct f as [|type pos active]; [apply run_sendTo|]. case_bool_decide; [apply run_sendTo|]. case_bool_decide.
  { destruct pos; [|apply run_sendTo]. by rewrite run_seq, run_recordLocation, run_broadcast. }
  case_bool_decide; [|apply run_sendTo]. destruct active as [a|]; [|apply run_sendTo].
  rewrite run_seq, run_SetEmergency. destruct (SetEmergency r u a h) as [[] h']; [by apply run_broadcast|done].
Qed.

Lemma run_frames frames h :
  hub_safe h -> socket_of r u c h ->
  run ord (for_each (fun f => on_frame_p r u c f.1 f.2) frames) h =
    (tt, foldl (fun h f => on_frame c f.1 f.2 h) h frames).
Proof.
  revert h. induction frames as [|f frames IH]; intros h Hs Hc; simpl; [done|].
  destruct (run_quiet ord _ r u c h (quiet_on_frame r u c f.1 f.2) Hs Hc) as [Hs' Hc'].
  rewrite run_seq, run_on_frame in * by done. by apply IH.
Qed.

Lemma run_disconnect h : run ord (disconnect_p r u c) h = (tt, disconnect r u c h).
Proof.
  unfold disconnect_p, disconnect. rewrite run_seq, run_leave. destruct (leave r c h) as [[was cleared] h1]. cbn [fst snd].
  destruct was; [|done]. rewrite run_seq. destruct cleared; rewrite ?run_broadcast by done; done.
Qed.

Lemma run_socket reads frames h :
  hub_safe h -> socket_of r u c h -> unregistered c h ->
  run ord (socket_p r u c reads frames) h = (tt, socket_life r u c reads frames h).
Proof.
  intros Hs Hc Hun. unfold socket_p, socket_life. rewrite run_seq.
  destruct (run_wp (Some c) ord (join_p r c) (fun _ h' => hub_safe h' /\ socket_of r u c h') h Hs) as (_ & _ & Hs1 & Hc1).
  { apply (wp_join r u); [done..|]. intros b l h' Hs' (Hc' & _). done. }
  rewrite run_join in *. destruct (join r c h) as [became h1]. cbn [fst snd] in *.
  rewrite run_seq. destruct (run_wp None ord _ _ h1 Hs1 (wp_greet r u c reads h1 Hs1 Hc1)) as (Hs2 & Hev & _).
  apply (ev_clients _ _ _ Hev) in Hc1 as Hc2. rewrite run_greet in * by apply Hs1. cbn [fst snd] in *.
  rewrite run_seq. set (ann := if became then _ else _).
  assert (quiet ann) as Hq by (apply quiet_when, quiet_broadcast; plain_tac).
  destruct (run_quiet ord ann r u c _ Hq Hs2 Hc2) as [Hs3 Hc3].
  assert (run ord ann (greet r u c reads h1) =
    (tt, if became then BroadcastMemberPresent r u (greet r u c reads h1) else greet r u c reads h1)) as E.
  { unfold ann. destruct became; [by apply run_broadcast|done]. }
  rewrite E in *. cbn [fst snd] in *. rewrite run_seq. unfold readPump_p. rewrite run_seq, run_frames by done.
  apply run_disconnect.
Qed.
End alone_socket.

(** ** Two broadcasts at once *)

Lemma schedule_reachable turns s s' : sys_reachable s -> schedule turns s = Some s' -> sys_reachable s'.
Proof.
  revert s. induction turns as [|i turns IH]; intros s Hs; simpl; [by intros [= <-]|].
  destruct (exec_thread (fun l => l) i s) as [s1|] eqn:E; [|done]. simpl. apply IH. eapply sys_next; [exact Hs|].
  apply (sys_thread (fun l => l) i); [by intros l|exact E].
Qed.

Definition renamed (name : string) : Envelope := mkEnvelope MsgRoomRenamed (Some (RoomRenamedP (Some name))).

(** Ada and Bob open sockets on room 7, which is renamed twice. *)
Definition two_renames : system :=
  spawn_call (CallRoomRenamed 7 (Some "b")) (spawn_call (CallRoomRenamed 7 (Some "a"))
    (spawn_socket 7 2 None [] (spawn_socket 7 1 None [] (mkSystem [] NewHub)))).

Lemma two_renames_reachable : sys_reachable two_renames.
Proof.
  eapply sys_next; [|apply sys_call]. eapply sys_next; [|apply sys_call].
  eapply sys_next; [|apply sys_socket]. eapply sys_next; [|apply sys_socket]. apply sys_start.
Qed.

Definition crossing : list nat := [0; 0; 0; 1; 1; 2; 2; 2; 3; 3; 3; 3; 2].

Definition crossed : system := default two_renames (schedule crossing two_renames).

Lemma crossed_reachable : sys_reachable crossed.
Proof.
  destruct (schedule crossing two_renames) as [s|] eqn:E.
  - unfold crossed. rewrite E. by apply (schedule_reachable crossing two_renames), E; apply two_renames_reachable.
  - unfold crossed. rewrite E. apply two_renames_reachable.
Qed.

(** Two broadcasts to a room may arrive in different orders at different
    members: Ada hears of the name "b" and then of "a", Bob of "a" and then of
    "b", and each is left with another name. *)
Theorem broadcasts_cross :
  sys_reachable crossed /\
  (c_send <$> h_clients (sy_hub crossed) !! 0%N) = Some [renamed "b"; renamed "a"] /\
  (c_send <$> h_clients (sy_hub crossed) !! 1%N) = Some [renamed "a"; renamed "b"] /\
  sy_threads crossed !! 2 = Some (mkThread None (Ret tt)) /\
  sy_threads crossed !! 3 = Some (mkThread None (Ret tt)).
Proof. split; [exact crossed_reachable|]. vm_compute. done. Qed.

(** ** Witnesses *)

Lemma frames_typed_witness :
  hub_wf (sy_hub crossed) /\ frame_typed 1 (renamed "a") = true /\
  forall k, h_clients (sy_hub crossed) !! 0%N = Some k -> length (c_send k) <= sendBuffer.
Proof.
  destruct (frames_typed crossed crossed_reachable) as [Hwf Hk]. split; [exact Hwf|]. split.
  - destruct (h_clients (sy_hub crossed) !! 0%N) as [k|] eqn:E; [|vm_compute in E; discriminate].
    assert (c_send k = [renamed "b"; renamed "a"] /\ c_user k = 1%N) as [Es Eu].
    { assert (((fun k => (c_send k, c_user k)) <$> h_clients (sy_hub crossed) !! 0%N) =
              Some ([renamed "b"; renamed "a"], 1%N)) as Ek by (vm_compute; reflexivity).
      rewrite E in Ek. cbn [fmap option_fmap option_map] in Ek. split; congruence. }
    rewrite <-Eu. apply (Hk _ _ E). rewrite Es. right. left.
  - intros k E. apply (Hk _ _ E).
Defined.

Lemma presence_backed_witness :
  exists i p, sy_threads crossed !! i = Some (mkThread (Some 1%N) p) /\ p <> Ret tt.
Proof.
  destruct (presence_backed crossed 7 2 crossed_reachable ltac:(vm_compute; reflexivity)) as (c & k & i & p & Hc & _ & _ & _ & Hi).
  assert (client_of 7 2 (sy_hub crossed) = Some 1%N) as E by (vm_compute; reflexivity).
  rewrite E in Hc. injection Hc as <-. exists i, p. exact Hi.
Defined.
