(* ===== verification/Push.v ===== *)
(** * [internal/push]: push tokens and Expo

    The store of registered tokens, the endpoint that registers one, and the
    client that sends a notification to all of them in batches.  The network
    and what Expo answers are parameters. *)
From stdpp Require Import base gmap sets list strings sorting.
From Stdlib Require Import ZArith Lia.
From S2P Require Import Prelude.
From S2P Require Import GoString.
From S2P Require Import Httpx.
From S2P Require Import Types.
From S2P Require Import Db.
From S2P Require Import Store.
From S2P Require Import Providers.
From S2P Require Import Auth.

Open Scope convoy_scope.

(** ** [store.go] *)

Definition platform_ok (p : string) : bool := bool_decide (p = "ios") || bool_decide (p = "android").

Definition upsert_token_sql (user : uuid) (token platform : string) : Sql unit :=
  fun now _ t =>
    if negb (has (t_users t) user) then inl foreign_key_violation
    else inr (tt, set_push_tokens <[token := mkPushTokenRow user platform now]> t).

Section store.
Context {H : Type}.
(** Where a scan of the table meets the row of a token: a [SELECT] without an
    [ORDER BY] promises no order. *)
Variable heap : string -> N.

Definition Upsert (userID : uuid) (token platform : string) : M H unit :=
  check (negb (platform_ok platform)) (ErrText "invalid platform") ;;;
  exec [token; platform] (upsert_token_sql userID token platform).

Definition token_rows (t : Tables) : list string :=
  order_by (fun a b => (heap a <=? heap b)%N) (map_to_list (t_push_tokens t)).*1.

Definition AllTokens : M H (list string) := exec [] (select token_rows).

Definition PushCount : M H nat := exec [] (select (fun t => size (t_push_tokens t))).

Definition delete_tokens_sql (tokens : list string) : Sql unit :=
  fun _ _ t => inr (tt, set_push_tokens (filter (fun kv => kv.1 ∉ tokens)) t).

Definition DeleteTokens (tokens : list string) : M H unit :=
  if bool_decide (tokens = []) then ret tt else
  catch (exec tokens (delete_tokens_sql tokens))
    (fun e => match e with ErrNoRows => ret tt | _ => throw e end).
End store.

(** ** [handlers.go] *)

Record registerReq := mkRegisterReq { Reg_Token : string; Reg_Platform : string }.

Section handlers.
Context {H B : Type}.
Variable unicode_lower : rune -> rune.

Definition Save (ctx : option User) (req : decoded registerReq) : M H (reply B) :=
  serve (
    user <- authorised ctx ;;
    req <- decode req ;;
    let token := TrimSpace (Reg_Token req) in
    let platform := ToLower unicode_lower (TrimSpace (Reg_Platform req)) in
    check (bool_decide (token = "") || negb (platform_ok platform))
      (ErrAPI (Err 400 "invalid_token" "token and platform required")) ;;;
    check (negb (HasPrefix token "ExponentPushToken[") && negb (HasPrefix token "ExpoPushToken["))
      (ErrAPI (Err 400 "invalid_token" "expected Expo Push token")) ;;;
    Upsert (U_ID user) token platform ;;;
    ret NoContent).
End handlers.

(** ** [expo.go] *)

Definition expoSendURL : string := "https://exp.host/--/api/v2/push/send".
Definition expoBatchSize : nat := 100.

Record PushMessage := mkPushMessage {
  To : string;
  Title : string;
  Body : string;
  Data : list (string * json);
  Sound : string;
  Priority : string;
  ChannelID : string;
}.

Record Ticket := mkTicket {
  Tk_Status : string;
  Tk_ID : string;
  Tk_Message : string;
  Tk_Details : gmap string json;
}.

Record tickets := mkTickets { Tks_Data : list Ticket; Tks_Errors : list json }.

Record ExpoClient := mkExpoClient { accessToken : string }.
Definition NewExpoClient (accessToken : string) : ExpoClient := mkExpoClient accessToken.

Record SendResult := mkSendResult { Delivered : nat; Failed : nat; InvalidTokens : list string }.

(** A request of the client, and an answer: the status, and the body when it
    could be read, as [encoding/json] understands it. *)
Record http_request := mkHttpRequest {
  rq_method : string;
  rq_url : string;
  rq_header : list (string * string);
  rq_body : list PushMessage;
}.
Record http_response := mkHttpResponse {
  rs_status : Z;
  rs_body : option (option tickets);
}.

(** What [json.Marshal] can write. *)
Fixpoint json_writable (j : json) : bool :=
  match j with
  | JNum x => json_float x
  | JArr l => forallb json_writable l
  | JObj fields => forallb (fun kv => json_writable kv.2) fields
  | _ => true
  end.

Definition marshal_ok (msgs : list PushMessage) : bool :=
  forallb (fun m => json_writable (JObj (Data m))) msgs.

Section expo.
(** The [n]-th request of a [Send] and what comes back, if anything does. *)
Variable net : nat -> http_request -> option http_response.
Variable c : ExpoClient.

Definition send_request (msgs : list PushMessage) : http_request :=
  mkHttpRequest "POST" expoSendURL
    ([("Content-Type", "application/json"); ("Accept", "application/json");
      ("Accept-Encoding", "gzip, deflate")]
     ++ (if bool_decide (accessToken c = "") then [] else [("Authorization", "Bearer " +:+ accessToken c)]))
    msgs.

(** [send]: the tickets, and the error next to them. *)
Definition send (n : nat) (msgs : list PushMessage) : option tickets * option error :=
  if negb (marshal_ok msgs) then (None, Some (ErrText "json")) else
  match net n (send_request msgs) with
  | None => (None, Some (ErrText "http"))
  | Some resp =>
      match rs_body resp with
      | None => (None, Some (ErrText "read"))
      | Some raw =>
          if (400 <=? rs_status resp)%Z then (None, Some (ErrText "expo push")) else
          match raw with
          | None => (None, Some (ErrText "json"))
          | Some t =>
              if 0 <? length (Tks_Errors t)
              then (Some t, Some (ErrText "expo push returned errors")) else (Some t, None)
          end
      end
  end.

(** The loop over the tickets of a batch. *)
Fixpoint tally (batch : list PushMessage) (i : nat) (data : list Ticket) (res : SendResult) : SendResult :=
  match data with
  | [] => res
  | tk :: data =>
      if bool_decide (Tk_Status tk = "ok")
      then tally batch (S i) data (mkSendResult (S (Delivered res)) (Failed res) (InvalidTokens res))
      else
        let errCode := default "" (claim_string (Tk_Details tk) "error") in
        let invalid :=
          match batch !! i with
          | Some m => if bool_decide (errCode = "DeviceNotRegistered")
                      then InvalidTokens res ++ [To m] else InvalidTokens res
          | None => InvalidTokens res
          end in
        tally batch (S i) data (mkSendResult (Delivered res) (S (Failed res)) invalid)
  end.

Definition push_message (title body : string) (data : list (string * json)) (token : string) : PushMessage :=
  mkPushMessage token title body data "default" "high" "default".

(** The loop over the batches, from [start]; [None] when the fuel runs out. *)
Fixpoint send_loop (fuel : nat) (tokens : list string) (title body : string) (data : list (string * json))
    (start n : nat) (res : SendResult) : option SendResult :=
  if start <? length tokens then
    match fuel with
    | 0 => None
    | S fuel =>
        let end_ := if length tokens <? start + expoBatchSize then length tokens else start + expoBatchSize in
        let batch := push_message title body data <$> take (end_ - start) (drop start tokens) in
        let res' :=
          match send n batch with
          | (_, Some _) => mkSendResult (Delivered res) (Failed res + length batch) (InvalidTokens res)
          | (Some tks, None) => tally batch 0 (Tks_Data tks) res
          | (None, None) => res
          end in
        send_loop fuel tokens title body data (start + expoBatchSize) (S n) res'
    end
  else Some res.

Definition Send (tokens : list string) (title body : string) (data : list (string * json)) : option SendResult :=
  let res := mkSendResult 0 0 [] in
  if bool_decide (tokens = []) then Some res
  else send_loop (length tokens) tokens title body data 0 0 res.
End expo.

(** [maskToken], for the log. *)
Definition maskToken (t : string) : string :=
  let b := to_bytes t in
  if length b <=? 14 then t
  else of_bytes (take 14 b ++ encode_rune 8230 ++ drop (length b - 4) b).
