(* ===== verification/PushProps.v ===== *)
(** * What sending and registering push tokens does *)
From stdpp Require Import base gmap sets list strings sorting.
From Stdlib Require Import ZArith Lia.
From S2P Require Import Prelude.
From S2P Require Import GoString.
From S2P Require Import Httpx.
From S2P Require Import Types.
From S2P Require Import Db.
From S2P Require Import Store.
From S2P Require Import StoreFacts.
From S2P Require Import Broadcaster.
From S2P Require Import Service.
From S2P Require Import ServiceFacts.
From S2P Require Import Runs.
From S2P Require Import Samples.
From S2P Require Import Order.
From S2P Require Import Providers.
From S2P Require Import Auth.
From S2P Require Import AuthFacts.
From S2P Require Import Push.

Open Scope convoy_scope.

(** ** Sending in batches *)

(** What a batch adds to the result: delivered, failed, and the tokens to
    prune. *)
Record outcome := mkOutcome { o_delivered : nat; o_failed : nat; o_invalid : list string }.

Definition ticket_ok (tk : Ticket) : Prop := Tk_Status tk = "ok".
#[export] Instance ticket_ok_dec tk : Decision (ticket_ok tk).
Proof. apply _. Defined.

(** A ticket that says that its device is gone. *)
Definition unregistered (tk : Ticket) : Prop :=
  ~ ticket_ok tk /\ claim_string (Tk_Details tk) "error" = Some "DeviceNotRegistered".
#[export] Instance unregistered_dec tk : Decision (unregistered tk).
Proof. apply _. Defined.

Definition pruned (batch : list PushMessage) (data : list Ticket) : list string :=
  (fun p => To p.1) <$> filter (fun p => unregistered p.2) (zip batch data).

Definition tickets_outcome (batch : list PushMessage) (data : list Ticket) : outcome :=
  mkOutcome (length (filter ticket_ok data)) (length (filter (fun tk => ~ ticket_ok tk) data)) (pruned batch data).

Definition add_outcome (res : SendResult) (o : outcome) : SendResult :=
  mkSendResult (Delivered res + o_delivered o) (Failed res + o_failed o) (InvalidTokens res ++ o_invalid o).

Lemma drop_at {A} (l : list A) i :
  match drop i l with
  | [] => l !! i = None /\ drop (S i) l = []
  | x :: rest => l !! i = Some x /\ drop (S i) l = rest
  end.
Proof.
  revert i. induction l as [|a l IH]; intros [|i]; simpl; [done..|by rewrite drop_0|]. apply IH.
Qed.

Lemma pruned_cons m batch tk data :
  pruned (m :: batch) (tk :: data) = (if decide (unregistered tk) then [To m] else []) ++ pruned batch data.
Proof. unfold pruned. simpl. rewrite filter_cons. simpl. by destruct (decide (unregistered tk)). Qed.

(** The loop over the tickets counts them and collects the tokens to prune. *)
Lemma tally_spec batch i data res :
  tally batch i data res = add_outcome res (tickets_outcome (drop i batch) data).
Proof.
  revert i res. induction data as [|tk data IH]; intros i res.
  { unfold add_outcome, tickets_outcome, pruned. rewrite zip_with_nil_r. simpl.
    rewrite !Nat.add_0_r, app_nil_r. by destruct res. }
  cbn [tally]. pose proof (drop_at batch i) as Hd. unfold add_outcome, tickets_outcome.
  rewrite !filter_cons. destruct (decide (ticket_ok tk)) as [Hok|Hok].
  - rewrite bool_decide_eq_true_2 by done. rewrite IH. unfold add_outcome, tickets_outcome.
    rewrite (decide_False (P:=~ ticket_ok tk)) by tauto.
    cbn [Delivered Failed InvalidTokens o_delivered o_failed o_invalid length]. f_equal; [lia|]. f_equal.
    destruct (drop i batch) as [|m rest]; destruct Hd as [_ ->]; [done|].
    rewrite pruned_cons, decide_False by (by intros [? _]). done.
  - rewrite bool_decide_eq_false_2 by done. rewrite IH. unfold add_outcome, tickets_outcome.
    rewrite (decide_True (P:=~ ticket_ok tk)) by done.
    cbn [Delivered Failed InvalidTokens o_delivered o_failed o_invalid length]. f_equal; [lia|].
    destruct (drop i batch) as [|m rest]; destruct Hd as [-> ->]; [done|].
    rewrite pruned_cons, app_assoc. f_equal. destruct (decide (unregistered tk)) as [[_ He]|Hn].
    + by rewrite He.
    + rewrite app_nil_r, bool_decide_eq_false_2; [done|]. intros He. apply Hn. split; [done|].
      by destruct (claim_string _ _) as [e|]; simpl in He; subst.
Qed.

(** The batches of a list of tokens, by their number. *)
Definition n_batches (tokens : list string) : nat := (length tokens + 99) / 100.
Definition batch_tokens (tokens : list string) (n : nat) : list string := take 100 (drop (100 * n) tokens).

Lemma batches_concat tokens k n :
  length tokens <= 100 * (n + k) -> 100 * n <= length tokens + 99 ->
  concat (batch_tokens tokens <$> seq n k) = drop (100 * n) tokens.
Proof.
  assert (forall m, batch_tokens tokens m = [] <-> length tokens <= 100 * m) as Hnil.
  { intros m. unfold batch_tokens. rewrite <-length_zero_iff_nil, length_take, length_drop. lia. }
  revert n. induction k as [|k IH]; intros n Hle Hn; cbn [seq fmap list_fmap concat].
  { symmetry. apply drop_ge. lia. }
  destruct (decide (length tokens <= 100 * n)) as [Hge|Hlt].
  - rewrite (drop_ge tokens (100 * n)), (proj2 (Hnil n)) by lia. cbn [app].
    apply concat_nil_Forall, Forall_fmap, Forall_forall. intros m Hm%elem_of_seq. apply Hnil. lia.
  - fold (batch_tokens tokens <$> seq (S n) k). rewrite IH by lia. unfold batch_tokens.
    replace (100 * S n) with (100 * n + 100) by lia. rewrite <-drop_drop. apply take_drop.
Qed.

Section sending.
Variable net : nat -> http_request -> option http_response.
Variable c : ExpoClient.
Variables title body : string.
Variable data : list (string * json).

Definition batch_messages (tokens : list string) (n : nat) : list PushMessage :=
  push_message title body data <$> batch_tokens tokens n.

(** What the [n]-th batch comes to: all of it failed when the call did. *)
Definition batch_outcome (tokens : list string) (n : nat) : outcome :=
  let batch := batch_messages tokens n in
  match send net c n batch with
  | (Some tks, None) => tickets_outcome batch (Tks_Data tks)
  | (_, _) => mkOutcome 0 (length batch) []
  end.

Lemma send_total n msgs : send net c n msgs <> (None, None).
Proof. unfold send. by repeat case_match. Qed.

Lemma send_loop_spec fuel tokens n k res :
  length tokens - 100 * n <= fuel -> length tokens <= 100 * (n + k) ->
  (k = 0 \/ 100 * (n + k) < length tokens + 100) ->
  send_loop net c fuel tokens title body data (100 * n) n res =
    Some (foldl add_outcome res (batch_outcome tokens <$> seq n k)).
Proof.
  revert n k res. induction fuel as [|fuel IH]; intros n k res Hfuel Hle Hk.
  { cbn [send_loop]. destruct (Nat.ltb_spec (100 * n) (length tokens)); [lia|].
    destruct k as [|k]; [done|]. destruct Hk; lia. }
  cbn [send_loop]. destruct (Nat.ltb_spec (100 * n) (length tokens)) as [Hlt|Hge].
  2:{ destruct k as [|k]; [done|]. destruct Hk; lia. }
  destruct k as [|k]; [lia|]. destruct Hk as [|Hk]; [done|].
  change expoBatchSize with 100. replace (100 * n + 100) with (100 * S n) by lia.
  match goal with |- context [take ?e (drop _ _)] => set (len := e) end.
  assert (take len (drop (100 * n) tokens) = batch_tokens tokens n) as ->.
  { unfold batch_tokens, len. destruct (Nat.ltb_spec (length tokens) (100 * S n)).
    - rewrite !take_ge; [done|rewrite length_drop; lia..].
    - f_equal. lia. }
  clear len. cbv zeta. rewrite (IH (S n) k) by lia. simpl. f_equal. f_equal.
  fold (batch_messages tokens n). unfold batch_outcome. pose proof (send_total n (batch_messages tokens n)) as Ht.
  destruct (send net c n (batch_messages tokens n)) as [[tks|] [e|]]; [| | |done].
  - unfold add_outcome. simpl. rewrite app_nil_r. f_equal. lia.
  - rewrite tally_spec, drop_0. done.
  - unfold add_outcome. simpl. rewrite app_nil_r. f_equal. lia.
Qed.
End sending.

(** ** Sums over batches *)

Lemma pruned_sublist batch tks : pruned batch tks `sublist_of` (To <$> batch).
Proof.
  revert tks. induction batch as [|m batch IH]; intros [|tk tks]; simpl.
  - done.
  - done.
  - apply sublist_nil_l.
  - rewrite pruned_cons. destruct (decide _); simpl; [by apply sublist_skip|by apply sublist_cons].
Qed.

Lemma outcomes_sum os res :
  foldl add_outcome res os =
    mkSendResult (Delivered res + sum_list (o_delivered <$> os)) (Failed res + sum_list (o_failed <$> os))
      (InvalidTokens res ++ concat (o_invalid <$> os)).
Proof.
  revert res. induction os as [|o os IH]; intros res; simpl.
  - rewrite !Nat.add_0_r, app_nil_r. by destruct res.
  - rewrite IH. simpl. by rewrite !Nat.add_assoc, app_assoc.
Qed.

Lemma tickets_counted (tks : list Ticket) :
  length (filter ticket_ok tks) + length (filter (fun tk => ~ ticket_ok tk) tks) = length tks.
Proof.
  induction tks as [|tk tks IH]; [done|]. rewrite !filter_cons.
  destruct (decide (ticket_ok tk)); [rewrite decide_False by tauto|rewrite decide_True by done]; simpl; lia.
Qed.

Lemma concat_sublist {A} (f g : nat -> list A) ns :
  (forall n, f n `sublist_of` g n) -> concat (f <$> ns) `sublist_of` concat (g <$> ns).
Proof. intros Hfg. induction ns as [|n ns IH]; simpl; [done|]. by apply sublist_app. Qed.

Lemma batch_to title body data tokens n :
  To <$> batch_messages title body data tokens n = batch_tokens tokens n.
Proof. unfold batch_messages. rewrite <-list_fmap_compose. apply list_fmap_id. Qed.

Lemma sum_length {A} (f : nat -> list A) ns : sum_list ((fun n => length (f n)) <$> ns) = length (concat (f <$> ns)).
Proof. induction ns as [|n ns IH]; [done|]. rewrite !fmap_cons. simpl. by rewrite length_app, IH. Qed.

(** Each batch that was answered got a ticket for each message. *)
Definition answered_in_full (net : nat -> http_request -> option http_response) (c : ExpoClient)
    (title body : string) (data : list (string * json)) (tokens : list string) : Prop :=
  forall n tks, send net c n (batch_messages title body data tokens n) = (Some tks, None) ->
  length (Tks_Data tks) = length (batch_tokens tokens n).

(** The sums over the batches. *)
Definition send_total_of (os : list outcome) : SendResult :=
  mkSendResult (sum_list (o_delivered <$> os)) (sum_list (o_failed <$> os)) (concat (o_invalid <$> os)).

Section totals.
Variable net : nat -> http_request -> option http_response.
Variables (c : ExpoClient) (tokens : list string) (title body : string) (data : list (string * json)).

Let ns := seq 0 (n_batches tokens).
Let os := batch_outcome net c title body data tokens <$> ns.

Lemma n_batches_bounds :
  length tokens <= 100 * n_batches tokens /\ 100 * n_batches tokens < length tokens + 100.
Proof.
  pose proof (Nat.div_mod_eq (length tokens + 99) 100). pose proof (Nat.mod_upper_bound (length tokens + 99) 100).
  unfold n_batches. lia.
Qed.

Lemma all_batches : concat (batch_tokens tokens <$> ns) = tokens.
Proof. pose proof n_batches_bounds. unfold ns. rewrite batches_concat by lia. apply drop_0. Qed.

Lemma Send_run : Send net c tokens title body data = Some (send_total_of os).
Proof.
  pose proof n_batches_bounds as Hn.
  assert (Some (send_total_of os) = Some (foldl add_outcome (mkSendResult 0 0 []) os)) as ->
    by (by rewrite outcomes_sum).
  unfold Send. case_bool_decide as He; [unfold os, ns; by rewrite He|].
  assert (0 < length tokens) by (destruct tokens; [done|simpl; lia]).
  apply (send_loop_spec net c title body data (length tokens) tokens 0); lia.
Qed.

Lemma invalid_were_sent : InvalidTokens (send_total_of os) `sublist_of` tokens.
Proof.
  cbn [InvalidTokens send_total_of].
  enough (concat (o_invalid <$> os) `sublist_of` concat (batch_tokens tokens <$> ns)) as Hsub by (by rewrite all_batches in Hsub).
  unfold os. rewrite <-list_fmap_compose. apply concat_sublist. intros n.
  unfold compose, batch_outcome. rewrite <-(batch_to title body data tokens n).
  destruct (send _ _ _ _) as [[tks|] [e|]]; simpl; [apply sublist_nil_l| |apply sublist_nil_l..].
  apply pruned_sublist.
Qed.

Lemma batch_accounted n :
  answered_in_full net c title body data tokens ->
  let o := batch_outcome net c title body data tokens n in o_delivered o + o_failed o = length (batch_tokens tokens n).
Proof.
  intros Hfull. cbv zeta. unfold batch_outcome. rewrite <-(batch_to title body data tokens n), length_fmap.
  destruct (send _ _ _ _) as [[tks|] [e|]] eqn:Hs; simpl; try lia.
  rewrite tickets_counted, (Hfull n tks Hs). by rewrite <-(batch_to title body data tokens n), length_fmap.
Qed.

Lemma all_accounted :
  answered_in_full net c title body data tokens ->
  Delivered (send_total_of os) + Failed (send_total_of os) = length tokens.
Proof.
  intros Hfull. assert (length tokens = sum_list ((fun n => length (batch_tokens tokens n)) <$> ns)) as ->
    by (rewrite (sum_length (batch_tokens tokens)); by rewrite all_batches).
  cbn [Delivered Failed send_total_of]. unfold os. induction ns as [|n l IH]; [done|].
  rewrite !fmap_cons. simpl. rewrite <-IH. pose proof (batch_accounted n Hfull) as Hb. cbv zeta in Hb. lia.
Qed.

Lemma send_counts : exists res,
  Send net c tokens title body data = Some res /\ InvalidTokens res `sublist_of` tokens /\
  (answered_in_full net c title body data tokens -> Delivered res + Failed res = length tokens).
Proof. eexists. split; [apply Send_run|]. split; [apply invalid_were_sent|apply all_accounted]. Qed.

(** C25 Sending a notification always ends; it asks Expo once for every batch,
    the batches are the tokens in their order, each of 1 to 100, and the result
    adds up what each batch came to: its tickets, or all of it failed when the
    call did.  Only tokens that were sent to are ever reported invalid, each
    for a ticket of its own position that says so, and when Expo answers with
    one ticket per message every token counts as delivered or failed, once. *)
Theorem send_spec :
  let batches := batch_tokens tokens <$> seq 0 (n_batches tokens) in
  let total := send_total_of (batch_outcome net c title body data tokens <$> seq 0 (n_batches tokens)) in
  Send net c tokens title body data = Some total /\
  concat batches = tokens /\ Forall (fun b => 1 <= length b <= expoBatchSize) batches /\
  InvalidTokens total `sublist_of` tokens /\
  (answered_in_full net c title body data tokens -> Delivered total + Failed total = length tokens).
Proof.
  pose proof n_batches_bounds as Hn. split; [apply Send_run|]. split; [apply all_batches|]. split.
  - apply Forall_fmap, Forall_forall. intros n Hin%elem_of_seq. simpl. unfold batch_tokens.
    rewrite length_take, length_drop. change expoBatchSize with 100. lia.
  - split; [apply invalid_were_sent|apply all_accounted].
Qed.
End totals.

(** ** Registering a token *)

Section registering.
Context {H B : Type}.
Variable unicode_lower : rune -> rune.

Definition reg_token (req : registerReq) : string := TrimSpace (Reg_Token req).
Definition reg_platform (req : registerReq) : string := ToLower unicode_lower (TrimSpace (Reg_Platform req)).

(** An Expo push token and a platform the table knows. *)
Definition registration_ok (req : registerReq) : Prop :=
  reg_token req <> "" /\ (reg_platform req = "ios" \/ reg_platform req = "android") /\
  (HasPrefix (reg_token req) "ExponentPushToken[" = true \/ HasPrefix (reg_token req) "ExpoPushToken[" = true).

#[export] Instance registration_ok_dec req : Decision (registration_ok req).
Proof. apply _. Defined.

Lemma platform_ok_spec p : platform_ok p = true <-> p = "ios" \/ p = "android".
Proof. unfold platform_ok. by rewrite orb_true_iff, !bool_decide_eq_true. Qed.

Lemma Upsert_run u token platform k t (w : World H) :
  fault_free w -> platform_ok platform = true ->
  Upsert u token platform (set_db t (skip k w)) =
    if negb (pg_text_ok token) then (Fail (ErrPg bad_text), set_db t (skip (S k) w))
    else if has (t_users t) u
    then (Ok tt, set_db (set_push_tokens <[token := mkPushTokenRow u platform (clock (S k) w)]> t) (skip (S k) w))
    else (Fail (ErrPg foreign_key_violation), set_db t (skip (S k) w)).
Proof.
  intros Hw Hp. unfold Upsert. rewrite bind_unfold, check_run, Hp. cbn [negb]. cbn iota.
  rewrite exec_run by done. cbn [forallb].
  assert (pg_text_ok platform = true) as -> by (apply platform_ok_spec in Hp as [->| ->]; reflexivity).
  destruct (pg_text_ok token); [|done]. unfold upsert_token_sql. by destruct (has (t_users t) u).
Qed.

(** Registering a push token: without a user, with a body that does not
    decode, or with anything but an Expo token for one of the two platforms,
    the request is refused and nothing changes; otherwise the token's one row
    is for the calling user, whoever had it before, and no other changes. *)
Theorem save_spec ctx (req : decoded registerReq) (w : World H) :
  fault_free w ->
  obs (Save (B:=B) unicode_lower ctx req w) =
    match ctx with
    | None => refused (ErrAPI ErrUnauthorized) w
    | Some u =>
        match Decode req with
        | Some e => refused e w
        | None =>
            let r := dec_value req in
            if decide (registration_ok r) then
              if negb (pg_text_ok (reg_token r)) then refused (ErrPg bad_text) w
              else if has (t_users (w_db w)) (U_ID u) then
                (Ok NoContent,
                 set_push_tokens
                   <[reg_token r := mkPushTokenRow (U_ID u) (reg_platform r) (clock 1 w)]> (w_db w), w_rt w)
              else refused (ErrPg foreign_key_violation) w
            else
              refused (ErrAPI (Err 400 "invalid_token"
                (if bool_decide (reg_token r = "") || negb (platform_ok (reg_platform r))
                 then "token and platform required" else "expected Expo Push token"))) w
        end
    end.
Proof.
  intros Hw. unfold Save. rewrite serve_authorised. destruct ctx as [u|]; [|done].
  rewrite serve_decode. destruct (Decode req); [done|]. cbv zeta.
  fold (reg_token (dec_value req)). fold (reg_platform (dec_value req)).
  set (r := dec_value req). rewrite !serve_check.
  destruct (bool_decide (reg_token r = "")) eqn:Ht; cbn [orb].
  { rewrite decide_False; [done|]. intros (Hne & _). by apply bool_decide_eq_true in Ht. }
  destruct (platform_ok (reg_platform r)) eqn:Hp; cbn [negb].
  2:{ rewrite decide_False; [done|]. intros (_ & Hok & _). apply platform_ok_spec in Hok. congruence. }
  destruct (HasPrefix _ "ExponentPushToken[") eqn:H1, (HasPrefix _ "ExpoPushToken[") eqn:H2; cbn [negb andb].
  4:{ rewrite decide_False; [done|]. intros (_ & _ & [?|?]); congruence. }
  all: rewrite decide_True by (split; [by apply bool_decide_eq_false in Ht|]; split; [by apply platform_ok_spec|auto]).
  all: rewrite <-(set_db_skip 0 w) at 1; rewrite (serve_bind _ _ _ _ (Upsert_run _ _ _ _ _ _ Hw Hp)).
  all: destruct (pg_text_ok (reg_token r)); cbn [negb]; [|apply refused_skip].
  all: destruct (has (t_users (w_db w)) (U_ID u)); [|apply refused_skip].
  all: by apply (obs_serve _ _ w (Ok NoContent) _ 1).
Qed.
End registering.

(** ** A concrete registration *)

Definition phone : decoded registerReq :=
  mkDecoded (mkRegisterReq " ExponentPushToken[abc] " "iOS") None.
Definition ada_user : User := mkUser 1 "ada" None None None.
Definition bob_user : User := mkUser 2 "bob" None None None.

(** Bob signs in on the handset on which Ada was: the token is his now. *)
Definition phone_world := (Save (B:=unit) (fun r => r) (Some ada_user) phone start_world).2.

Lemma save_spec_witness :
  t_push_tokens (obs (Save (B:=unit) (fun r => r) (Some bob_user) phone phone_world)).1.2 =
    {["ExponentPushToken[abc]" := mkPushTokenRow 2 "ios" 2]}.
Proof.
  assert (fault_free phone_world) as Hw by (intros n; reflexivity).
  rewrite (save_spec (fun r => r) (Some bob_user) phone phone_world Hw). vm_compute. reflexivity.
Defined.

(** An empty answer counts nobody: the tokens of its batch are neither
    delivered nor failed. *)
Example send_short_answer :
  let net _ _ := Some (mkHttpResponse 200 (Some (Some (mkTickets [] [])))) in
  Send net (NewExpoClient "") ["a"; "b"] "t" "b" [] = Some (mkSendResult 0 0 []).
Proof. reflexivity. Qed.

(** A batch whose call fails, then one with a dead device. *)
Example send_two_batches :
  let gone := mkTicket "error" "" "" {["error" := JStr "DeviceNotRegistered"]} in
  let net n (_ : http_request) := if n =? 0 then None else
    Some (mkHttpResponse 200 (Some (Some (mkTickets [mkTicket "ok" "x" "" ∅; gone] [])))) in
  Send net (NewExpoClient "") (replicate 100 "a" ++ ["b"; "c"]) "t" "b" [] = Some (mkSendResult 1 101 ["c"]).
Proof. vm_compute. reflexivity. Qed.

(** The log never shows more than 18 bytes of a token. *)
Lemma maskToken_short t :
  15 <= go_len t -> maskToken t =
    of_bytes (take 14 (to_bytes t) ++ encode_rune 8230 ++ drop (go_len t - 4) (to_bytes t)) /\
  go_len (maskToken t) = 21.
Proof.
  intros Ht. unfold maskToken. fold (go_len t). destruct (Nat.leb_spec (go_len t) 14); [lia|].
  split; [done|]. unfold go_len at 1. rewrite to_of_bytes, !length_app, length_take, length_drop.
  fold (go_len t). change (length (encode_rune 8230)) with 3. lia.
Qed.
