(* ===== verification/Feedback.v ===== *)
(** * [internal/feedback]: what users write to the operators *)
From stdpp Require Import base gmap sets list strings sorting.
From Stdlib Require Import ZArith Lia.
From S2P Require Import Prelude.
From S2P Require Import GoString.
From S2P Require Import Httpx.
From S2P Require Import Types.
From S2P Require Import Db.
From S2P Require Import Store.
From S2P Require Import Auth.

Open Scope convoy_scope.

Definition maxFeedbackLen : nat := 2000.

Record Entry := mkEntry {
  E_ID : uuid;
  E_UserID : option uuid;
  E_AuthorName : string;
  E_Message : string;
  E_CreatedAt : time;
}.

Record submitReq := mkSubmitReq { Sub_Message : string }.

(** [LEFT JOIN users u ON u.id = f.user_id]. *)
Definition author (t : Tables) (f : FeedbackRow) : option UserRow :=
  u ← f_user_id f; t_users t !! u.

Definition entry_of_row (t : Tables) (p : uuid * FeedbackRow) : Entry :=
  mkEntry p.1 (f_user_id p.2) (default "" (u_display_name <$> author t p.2)) (f_message p.2) (f_created_at p.2).

Definition insert_feedback (user : uuid) (message : string) : Sql (uuid * FeedbackRow * option string) :=
  fun now id t =>
    let f := mkFeedbackRow (Some user) message now in
    if has (t_feedback t) id then inl unique_violation
    else if negb (has (t_users t) user) then inl foreign_key_violation
    else inr (id, f, u_display_name <$> author t f, set_feedback <[id := f]> t).

Definition invalid_datetime_format : string := "22007".

Section store.
Context {H : Type}.
(** The rows of equal times come in an order that the statement leaves open. *)
Variable heap : uuid -> N.
(** The input function of [timestamptz]. *)
Variable pg_timestamptz : string -> option time.

Definition FeedbackCreate (userID : uuid) (message : string) : M H Entry :=
  r <- exec [message] (insert_feedback userID message) ;;
  let '(id, f, displayName) := r in
  ret (mkEntry id (f_user_id f) (default "" displayName) (f_message f) (f_created_at f)).

(** [ORDER BY f.created_at DESC]. *)
Definition newer (a b : Entry) : bool :=
  (E_CreatedAt b <? E_CreatedAt a)%Z || ((E_CreatedAt a =? E_CreatedAt b)%Z && (heap (E_ID a) <=? heap (E_ID b))%N).

Definition older (before : option time) (e : Entry) : bool :=
  match before with Some b => (E_CreatedAt e <? b)%Z | None => true end.

Definition feedback_rows (before : option time) (t : Tables) : list Entry :=
  order_by newer
    (filter (fun e => older before e = true) (entry_of_row t <$> map_to_list (t_feedback t))).

Definition feedback_limit (limit : Z) : nat :=
  Z.to_nat (if (limit <=? 0)%Z || (200 <? limit)%Z then 50%Z else limit).

Definition FeedbackList (limit : Z) (before : option string) : M H (list Entry) :=
  let n := feedback_limit limit in
  match before with
  | Some b =>
      if bool_decide (b = "") then exec [] (select (fun t => take n (feedback_rows None t)))
      else exec [b] (fun _ _ t =>
             match pg_timestamptz b with
             | Some at_ => inr (take n (feedback_rows (Some at_) t), t)
             | None => inl invalid_datetime_format
             end)
  | None => exec [] (select (fun t => take n (feedback_rows None t)))
  end.

Definition FeedbackCount : M H nat := exec [] (select (fun t => size (t_feedback t))).

(** [Submit]. *)
Definition Submit (ctx : option User) (req : decoded submitReq) : M H (reply Entry) :=
  serve (
    user <- authorised ctx ;;
    req <- decode req ;;
    let msg := TrimSpace (Sub_Message req) in
    check (bool_decide (msg = "")) (ErrAPI (Err 400 "empty_message" "message is required")) ;;;
    let msg := if maxFeedbackLen <? go_len msg then byte_prefix maxFeedbackLen msg else msg in
    entry <- FeedbackCreate (U_ID user) msg ;;
    ret (JSON 201 entry)).
End store.
