(* ===== verification/FeedbackProps.v ===== *)
(** * What the feedback API does *)
From stdpp Require Import base gmap sets list strings sorting.
From Stdlib Require Import ZArith Lia.
From S2P Require Import Prelude.
From S2P Require Import GoString.
From S2P Require Import Httpx.
From S2P Require Import Types.
From S2P Require Import Db.
From S2P Require Import Store.
From S2P Require Import StoreFacts.
From S2P Require Import Broadcaster.
From S2P Require Import Service.
From S2P Require Import ServiceFacts.
From S2P Require Import Runs.
From S2P Require Import Samples.
From S2P Require Import Order.
From S2P Require Import Auth.
From S2P Require Import AuthFacts.
From S2P Require Import Feedback.

Open Scope convoy_scope.

(** ** Reading page by page *)

Section paging.
Variable heap : uuid -> N.

Lemma newer_spec a b :
  newer heap a b = true <->
  (E_CreatedAt b < E_CreatedAt a)%Z \/ E_CreatedAt a = E_CreatedAt b /\ (heap (E_ID a) <= heap (E_ID b))%N.
Proof. unfold newer. rewrite orb_true_iff, andb_true_iff, Z.ltb_lt, Z.eqb_eq, N.leb_le. done. Qed.

#[export] Instance newer_ordering : Ordering (newer heap).
Proof. split; intros *; rewrite !newer_spec; lia. Qed.

Definition entries (t : Tables) : list Entry := entry_of_row t <$> map_to_list (t_feedback t).

Lemma entries_id t x y : x ∈ entries t -> y ∈ entries t -> E_ID x = E_ID y -> x = y.
Proof.
  intros ([i f] & -> & Hf)%list_elem_of_fmap ([j g] & -> & Hg)%list_elem_of_fmap. simpl. intros <-.
  apply elem_of_map_to_list in Hf, Hg. simplify_eq. done.
Qed.

Lemma feedback_rows_all t : feedback_rows heap None t = order_by (newer heap) (entries t).
Proof.
  unfold feedback_rows. f_equal. fold (entries t). induction (entries t) as [|e l IH]; [done|].
  rewrite filter_cons, decide_True by done. by rewrite IH.
Qed.

Lemma filter_all {A} (P : A -> Prop) `{forall x, Decision (P x)} (l : list A) :
  filter P l = l <-> Forall P l.
Proof.
  split.
  - intros <-. apply Forall_forall. intros x Hx. by apply list_elem_of_filter in Hx as [? _].
  - induction 1 as [|x l Hx Hl IH]; [done|]. by rewrite filter_cons, decide_True, IH.
Qed.

Lemma filter_none {A} (P : A -> Prop) `{forall x, Decision (P x)} (l : list A) :
  Forall (fun x => ~ P x) l -> filter P l = [].
Proof. induction 1 as [|x l Hx Hl IH]; [done|]. by rewrite filter_cons, decide_False. Qed.

(** The list is every row with its author's name, newest first.  The page
    before the time of its [k]-th entry holds the strictly older ones: it is
    what comes after that entry exactly when no later entry has the same time;
    the cursor loses those that do. *)
Theorem feedback_paging t :
  Inj (=) (=) heap ->
  let all := feedback_rows heap None t in
  all ≡ₚ entries t /\ StronglySorted (fun a b => (E_CreatedAt b <= E_CreatedAt a)%Z) all /\
  forall k e, all !! k = Some e ->
    let page := feedback_rows heap (Some (E_CreatedAt e)) t in
    page = filter (fun x => older (Some (E_CreatedAt e)) x = true) all /\
    (page = drop (S k) all <->
     forall j x, k < j -> all !! j = Some x -> (E_CreatedAt x < E_CreatedAt e)%Z).
Proof.
  intros Hinj all. unfold all. rewrite feedback_rows_all.
  pose proof (order_by_sorted (newer heap) (entries t)) as Hs.
  assert (StronglySorted (fun a b => (E_CreatedAt b <= E_CreatedAt a)%Z) (order_by (newer heap) (entries t))) as Hdesc.
  { eapply StronglySorted_weaken; [|exact Hs]. intros a b Hab%Is_true_true%newer_spec. lia. }
  split; [apply order_by_perm|]. split; [exact Hdesc|]. intros k e Hk. cbv zeta.
  assert (feedback_rows heap (Some (E_CreatedAt e)) t =
          filter (fun x => older (Some (E_CreatedAt e)) x = true) (order_by (newer heap) (entries t))) as Hpage.
  { apply (order_by_filter (newer heap)). intros x y Hx Hy Hxy%newer_spec Hyx%newer_spec.
    apply (entries_id t); [done..|]. apply Hinj. lia. }
  split; [exact Hpage|]. rewrite Hpage. clear Hpage Hs. revert Hdesc Hk.
  generalize (order_by (newer heap) (entries t)). intros l Hdesc Hk.
  assert (filter (fun x => older (Some (E_CreatedAt e)) x = true) (take (S k) l) = []) as Hpre.
  { apply filter_none, Forall_forall. intros x (j & Hj)%list_elem_of_lookup Hx. apply lookup_take_Some in Hj as [Hj Hlt].
    apply Z.ltb_lt in Hx. destruct (decide (j = k)) as [->|Hne]; [rewrite Hk in Hj; injection Hj as ->; lia|].
    pose proof (StronglySorted_lookup _ l j k x e Hdesc Hj Hk ltac:(lia)) as Hle. simpl in Hle. lia. }
  rewrite <-(take_drop (S k) l) at 1. rewrite filter_app, Hpre, app_nil_l, filter_all, Forall_lookup. split.
  - intros Hall j x Hj Hx. apply Z.ltb_lt. apply (Hall (j - S k)). rewrite lookup_drop. by replace (S k + (j - S k)) with j by lia.
  - intros Hall j x Hx. rewrite lookup_drop in Hx. apply Z.ltb_lt, (Hall (S k + j)); [lia|done].
Qed.
End paging.

(** ** Submitting *)

Section submitting.
Context {H : Type}.

(** What is stored of a message: its first 2000 bytes. *)
Definition stored_message (req : submitReq) : string :=
  let msg := TrimSpace (Sub_Message req) in
  if 2000 <? go_len msg then byte_prefix 2000 msg else msg.

Lemma FeedbackCreate_run u msg k t (w : World H) row :
  fault_free w -> t_users t !! u = Some row -> has (t_feedback t) (fresh_id k w) = false ->
  let f := mkFeedbackRow (Some u) msg (clock (S k) w) in
  FeedbackCreate u msg (set_db t (skip k w)) =
    if pg_text_ok msg
    then (Ok (mkEntry (fresh_id k w) (Some u) (u_display_name row) msg (clock (S k) w)),
          set_db (set_feedback <[fresh_id k w := f]> t) (skip (S k) w))
    else (Fail (ErrPg bad_text), set_db t (skip (S k) w)).
Proof.
  intros Hw Hu Hid f. unfold FeedbackCreate. rewrite bind_unfold, exec_run by done. simpl.
  rewrite andb_true_r. destruct (pg_text_ok msg); [|done]. unfold insert_feedback, author. rewrite Hid.
  assert (has (t_users t) u = true) as -> by (apply has_spec; eauto). simpl. by rewrite Hu.
Qed.

(** Feedback from a signed-in user: a blank message is refused; otherwise
    its first 2000 bytes are one new row under a fresh identifier, with the
    user and the time, and the reply carries that row with the name the user
    has; nothing else changes.  When the text, or the cut through a letter, is
    not valid the request is answered 500 and nothing is stored. *)
Theorem submit_spec u row (req : decoded submitReq) (w : World H) :
  fault_free w -> t_users (w_db w) !! U_ID u = Some row -> has (t_feedback (w_db w)) (fresh_id 0 w) = false ->
  obs (Submit (Some u) req w) =
    match Decode req with
    | Some e => refused e w
    | None =>
        let msg := stored_message (dec_value req) in
        if bool_decide (TrimSpace (Sub_Message (dec_value req)) = "")
        then refused (ErrAPI (Err 400 "empty_message" "message is required")) w
        else if pg_text_ok msg then
          (Ok (JSON 201 (mkEntry (fresh_id 0 w) (Some (U_ID u)) (u_display_name row) msg (clock 1 w))),
           set_feedback <[fresh_id 0 w := mkFeedbackRow (Some (U_ID u)) msg (clock 1 w)]> (w_db w), w_rt w)
        else refused (ErrPg bad_text) w
    end.
Proof.
  intros Hw Hu Hid. unfold Submit. rewrite serve_authorised, serve_decode. destruct (Decode req); [done|].
  cbv zeta. rewrite serve_check. destruct (bool_decide _); [done|].
  fold (stored_message (dec_value req)). change maxFeedbackLen with 2000.
  fold (stored_message (dec_value req)). rewrite <-(set_db_skip 0 w) at 1.
  rewrite (serve_bind _ _ _ _ (FeedbackCreate_run _ _ 0 _ w row Hw Hu Hid)).
  destruct (pg_text_ok _); [|apply refused_skip].
  by apply (obs_serve _ _ w (Ok (JSON 201 _)) _ 1).
Qed.
End submitting.

(** The cut is by bytes: 667 letters of three bytes each are 2001 bytes, and
    the 2000th falls inside the last one. *)
Definition euros : string := of_bytes (mjoin (replicate 667 (encode_rune 8364))).

Lemma feedback_cut_refused :
  ValidString euros = true /\ RuneCountInString euros = 667 /\
  (Submit (Some (mkUser 1 "ada" None None None)) (mkDecoded (mkSubmitReq euros) None) start_world).1 =
    Ok (WriteErr (ErrPg bad_text)).
Proof. vm_compute. done. Qed.

Lemma submit_spec_witness :
  (obs (Submit (Some (mkUser 1 "ada" None None None)) (mkDecoded (mkSubmitReq " more maps ") None) start_world)).1.1 =
    Ok (JSON 201 (mkEntry 100 (Some 1%N) "ada" "more maps" 1)).
Proof.
  rewrite (submit_spec (mkUser 1 "ada" None None None) (person "ada")); [vm_compute; reflexivity| | |].
  - intros n. reflexivity.
  - reflexivity.
  - reflexivity.
Defined.

(** Three rows, two of one time: the page after the newest of those two is
    empty, though a row follows it. *)
Definition three_entries : Tables :=
  set_feedback (fun _ => <[1%N := mkFeedbackRow None "x" 10]> (<[2%N := mkFeedbackRow None "y" 20]>
    (<[3%N := mkFeedbackRow None "z" 10]> ∅))) empty_tables.

Lemma feedback_paging_witness :
  feedback_rows (fun i => i) (Some 10%Z) three_entries <> drop 2 (feedback_rows (fun i => i) None three_entries).
Proof.
  assert (Inj (=) (=) (fun i : uuid => i)) as Hinj by (intros x y E; exact E).
  destruct (feedback_paging (fun i => i) three_entries Hinj) as (_ & _ & Hp).
  destruct (Hp 1 (mkEntry 1 None "" "x" 10) eq_refl) as [_ [Hd _]]. intros E.
  specialize (Hd E 2 (mkEntry 3 None "" "z" 10) (le_n 2) eq_refl). cbv in Hd. discriminate Hd.
Defined.
