(* ===== verification/GoText.v ===== *)
(** * [strings.Split], [strings.Fields], [fmt] on integers

    More of Go's standard library on strings: splitting, and integers as
    [fmt.Sprintf] writes them with [%d] and [fmt.Sscanf] reads them. *)
From stdpp Require Import base list strings.
From Stdlib Require Import ZArith NArith Lia Ascii.
From S2P Require Import Prelude.
From S2P Require Import GoString.

(** ** Splitting *)

(** [strings.Split] on a separator of one byte. *)
Fixpoint split_bytes (sep : ascii) (b : bytes) : list bytes :=
  match b with
  | [] => [[]]
  | x :: b =>
      if bool_decide (x = sep) then [] :: split_bytes sep b
      else match split_bytes sep b with
           | [] => [[x]]
           | p :: ps => (x :: p) :: ps
           end
  end.

Definition Split (s : string) (sep : ascii) : list string := of_bytes <$> split_bytes sep (to_bytes s).

Lemma split_bytes_nonempty sep b : split_bytes sep b <> [].
Proof. destruct b as [|x b]; simpl; [done|]. case_bool_decide; [done|]. by destruct (split_bytes sep b). Qed.

Lemma split_bytes_whole sep b : sep ∉ b -> split_bytes sep b = [b].
Proof.
  induction b as [|x b IH]; [done|]. intros [Hx Hb]%not_elem_of_cons. simpl.
  rewrite bool_decide_eq_false_2 by done. by rewrite IH.
Qed.

Lemma split_bytes_app sep p b : sep ∉ p -> split_bytes sep (p ++ sep :: b) = p :: split_bytes sep b.
Proof.
  induction p as [|x p IH]; intros Hp; simpl.
  - by rewrite bool_decide_eq_true_2.
  - apply not_elem_of_cons in Hp as [Hx Hp]. rewrite bool_decide_eq_false_2 by done. by rewrite IH.
Qed.

Lemma split_bytes_parts sep b p : p ∈ split_bytes sep b -> sep ∉ p.
Proof.
  revert p. induction b as [|x b IH]; intros p; simpl.
  - intros ->%list_elem_of_singleton. apply not_elem_of_nil.
  - case_bool_decide as Hx.
    + intros [->|Hp]%elem_of_cons; [apply not_elem_of_nil|by apply IH].
    + destruct (split_bytes sep b) as [|q qs].
      * intros ->%list_elem_of_singleton. by rewrite list_elem_of_singleton.
      * intros [->|Hp]%elem_of_cons; [|apply IH; by right].
        apply not_elem_of_cons. split; [done|]. apply IH. by left.
Qed.

Definition join_bytes (sep : ascii) (ps : list bytes) : bytes :=
  match ps with
  | [] => []
  | p :: ps => p ++ concat ((fun q => sep :: q) <$> ps)
  end.

(** Splitting loses nothing. *)
Lemma split_bytes_join sep b : join_bytes sep (split_bytes sep b) = b.
Proof.
  induction b as [|x b IH]; [done|]. simpl. case_bool_decide as Hx; simpl.
  - subst x. rewrite <-IH at 2. unfold join_bytes. by destruct (split_bytes sep b) eqn:E; [by apply split_bytes_nonempty in E|].
  - destruct (split_bytes sep b) as [|p ps] eqn:E; [by apply split_bytes_nonempty in E|].
    simpl in *. by rewrite IH.
Qed.

(** [strings.Fields]: the maximal runs of bytes whose runes are not space;
    [skip] bytes of the present rune are left, and belong to the word or not. *)
Fixpoint fields_skip (skip : nat) (keep : bool) (cur : bytes) (b : bytes) : list bytes :=
  let flush := if bool_decide (cur = []) then [] else [cur] in
  match b with
  | [] => flush
  | c :: rest =>
      match skip with
      | S skip => fields_skip skip keep (if keep then cur ++ [c] else cur) rest
      | 0 =>
          let (r, w) := decode_rune b in
          if IsSpace r then flush ++ fields_skip (w - 1) false [] rest
          else fields_skip (w - 1) true (cur ++ [c]) rest
      end
  end.

Definition Fields (s : string) : list string := of_bytes <$> fields_skip 0 true [] (to_bytes s).

(** ** Integers *)

Definition digit_byte (d : N) : ascii := byte_of (48 + d).

(** The decimal digits of a number, the last one first. *)
Fixpoint digits_rev (fuel : nat) (n : N) : list N :=
  match fuel with
  | 0 => []
  | S fuel => if (n <? 10)%N then [n] else (n mod 10)%N :: digits_rev fuel (n / 10)%N
  end.

Definition format_nat (n : N) : bytes := digit_byte <$> reverse (digits_rev (S (N.to_nat (N.log2 n))) n).

(** [%d] of a signed integer. *)
Definition format_int (z : Z) : bytes :=
  if (z <? 0)%Z then byte_of 45 :: format_nat (Z.to_N (- z)) else format_nat (Z.to_N z).

Definition max_int64 : Z := 9223372036854775807.
Definition min_int64 : Z := -9223372036854775808.
Definition is_int64 (z : Z) : bool := (min_int64 <=? z)%Z && (z <=? max_int64)%Z.

(** [ss.SkipSpace] of [fmt]: a newline in the input is an error. *)
Fixpoint skip_space (rs : list rune) : option (list rune) :=
  match rs with
  | [] => Some []
  | r :: rest =>
      if (r =? 13)%N && bool_decide (head rest = Some 10%N) then skip_space rest
      else if (r =? 10)%N then None
      else if IsSpace r then skip_space rest
      else Some rs
  end.

Fixpoint scan_digits (acc : N) (rs : list rune) : N :=
  match rs with
  | r :: rs => if in_range 48 57 r then scan_digits (10 * acc + (r - 48)) rs else acc
  | [] => acc
  end.

Definition is_digit_rune (r : rune) : bool := in_range 48 57 r.

(** [fmt.Sscanf(s, "%d", &i)] with an [int64]. *)
Definition Sscanf_int64 (s : string) : option Z :=
  match skip_space (runes (to_bytes s)) with
  | None => None
  | Some rs =>
      let (neg, rs) := match rs with
                       | r :: rest => if (r =? 45)%N then (true, rest) else if (r =? 43)%N then (false, rest)
                                      else (false, rs)
                       | [] => (false, rs)
                       end in
      match rs with
      | r :: _ =>
          if is_digit_rune r then
            let n := Z.of_N (scan_digits 0 rs) in
            let z := if neg then (- n)%Z else n in
            if is_int64 z then Some z else None
          else None
      | [] => None
      end
  end.

(** ** Reading back what was written *)

Lemma digits_rev_value fuel n :
  (n < 10 ^ N.of_nat fuel)%N -> foldr (fun d acc => 10 * acc + d)%N 0%N (digits_rev fuel n) = n.
Proof.
  revert n. induction fuel as [|fuel IH]; intros n Hn.
  { simpl in Hn. simpl. lia. }
  cbn [digits_rev]. destruct (N.ltb_spec n 10); [simpl; lia|]. cbn [foldr].
  rewrite IH; [|]. { rewrite N.mul_comm, N.add_comm. pose proof (N.div_mod n 10). lia. }
  rewrite Nat2N.inj_succ, N.pow_succ_r' in Hn. apply N.Div0.div_lt_upper_bound. lia.
Qed.

Lemma digits_rev_range fuel n : Forall (fun d => d < 10)%N (digits_rev fuel n).
Proof.
  revert n. induction fuel as [|fuel IH]; intros n; [constructor|]. cbn [digits_rev].
  destruct (N.ltb_spec n 10); [by repeat constructor|].
  constructor; [apply N.mod_lt; lia|apply IH].
Qed.

Lemma log2_bound n : (n < 10 ^ N.of_nat (S (N.to_nat (N.log2 n))))%N.
Proof.
  rewrite Nat2N.inj_succ, N2Nat.id. destruct (decide (n = 0)%N) as [->|Hn]; [reflexivity|].
  eapply N.lt_le_trans; [apply N.log2_spec; lia|]. apply N.pow_le_mono_l. lia.
Qed.

Lemma scan_digits_spec (ds : list N) acc rest :
  Forall (fun d => d < 10)%N ds -> (forall r, head rest = Some r -> is_digit_rune r = false) ->
  scan_digits acc (((fun d => 48 + d)%N <$> ds) ++ rest) = foldl (fun acc d => 10 * acc + d)%N acc ds.
Proof.
  intros Hds Hrest. revert acc. induction Hds as [|d ds Hd Hds IH]; intros acc; simpl.
  - destruct rest as [|r rest]; simpl; [done|]. specialize (Hrest r eq_refl). unfold is_digit_rune in Hrest.
    by rewrite Hrest.
  - assert (in_range 48 57 (48 + d) = true) as -> by (apply in_range_true; lia). rewrite IH.
    f_equal. lia.
Qed.

(** The runes of ASCII bytes. *)
Lemma runes_ascii (ds : list N) : Forall (fun d => d < 128)%N ds -> runes (byte_of <$> ds) = ds.
Proof.
  induction 1 as [|d ds Hd Hds IH]; [done|]. cbn [fmap list_fmap]. rewrite runes_unfold by done.
  assert (forall s, decode_rune (byte_of d :: s) = (d, 1)) as Hdec.
  { intros s. unfold decode_rune. rewrite byte_val_of by lia.
    destruct (N.ltb_spec d 128); [done|lia]. }
  rewrite Hdec. simpl. rewrite ?drop_0. f_equal. exact IH.
Qed.

Definition nat_runes (n : N) : list rune := (fun d => 48 + d)%N <$> reverse (digits_rev (S (N.to_nat (N.log2 n))) n).

Lemma format_nat_runes n : format_nat n = byte_of <$> nat_runes n.
Proof. unfold format_nat, nat_runes. by rewrite <-list_fmap_compose. Qed.

Lemma nat_runes_digits n : Forall (fun r => is_digit_rune r = true) (nat_runes n).
Proof.
  apply Forall_fmap, Forall_reverse. eapply Forall_impl; [apply digits_rev_range|]. intros d Hd.
  change (in_range 48 57 (48 + d) = true). apply in_range_true. cbv beta in Hd. lia.
Qed.

Lemma nat_runes_nonempty n : nat_runes n <> [].
Proof.
  unfold nat_runes. intros E%fmap_nil_inv%(f_equal reverse). rewrite reverse_involutive in E. simpl in E.
  by destruct (n <? 10)%N.
Qed.

Lemma foldl_reversed {A B} (f : B -> A -> B) (l : list A) b :
  foldl f b (reverse l) = foldr (fun a b => f b a) b l.
Proof. induction l as [|a l IH]; [done|]. by rewrite reverse_cons, foldl_app, IH. Qed.

Lemma scan_nat_runes n rest :
  (forall r, head rest = Some r -> is_digit_rune r = false) -> scan_digits 0 (nat_runes n ++ rest) = n.
Proof.
  intros Hrest. unfold nat_runes. rewrite scan_digits_spec; [|apply Forall_reverse, digits_rev_range|done].
  rewrite foldl_reversed. apply digits_rev_value, log2_bound.
Qed.

Lemma digit_not_space r : is_digit_rune r = true -> IsSpace r = false.
Proof.
  unfold is_digit_rune. intros [? ?]%in_range_true. destruct (IsSpace r) eqn:E; [|done]. exfalso. revert E.
  unfold IsSpace, in_range. rewrite !orb_true_iff, !andb_true_iff, !N.eqb_eq, !N.leb_le. lia.
Qed.

(** What [%d] writes reads back as the integer. *)
Lemma Sscanf_format z : is_int64 z = true -> Sscanf_int64 (of_bytes (format_int z)) = Some z.
Proof.
  intros Hz. unfold Sscanf_int64. rewrite to_of_bytes.
  assert (forall n, skip_space (nat_runes n) = Some (nat_runes n) /\
    exists r rest, nat_runes n = r :: rest /\ is_digit_rune r = true /\ (r =? 45)%N = false /\ (r =? 43)%N = false) as Hn.
  { intros n. pose proof (nat_runes_digits n) as Hd. pose proof (nat_runes_nonempty n) as Hne.
    destruct (nat_runes n) as [|r rest]; [done|]. apply Forall_cons in Hd as [Hr _]. split.
    - simpl. apply in_range_true in Hr. destruct (N.eqb_spec r 13); [lia|]. destruct (N.eqb_spec r 10); [lia|].
      cbn [andb]. cbv iota. rewrite digit_not_space by (by apply in_range_true). done.
    - exists r, rest. pose proof Hr as Hr'. apply in_range_true in Hr'. repeat split; [done| |]; apply N.eqb_neq; lia. }
  assert (forall n, Forall (fun d => d < 128)%N (nat_runes n)) as Hlt.
  { intros n. eapply Forall_impl; [apply nat_runes_digits|]. intros r Hr%in_range_true. cbv beta. lia. }
  unfold format_int. destruct (Z.ltb_spec z 0) as [Hneg|Hpos].
  - rewrite format_nat_runes. change (byte_of 45 :: (byte_of <$> nat_runes (Z.to_N (- z)))) with
      (byte_of <$> (45%N :: nat_runes (Z.to_N (- z)))).
    rewrite runes_ascii by (constructor; [done|apply Hlt]).
    assert (forall l, skip_space (45%N :: l) = Some (45%N :: l)) as -> by reflexivity.
    cbn [N.eqb Pos.eqb]. cbv iota.
    destruct (Hn (Z.to_N (- z))) as (_ & r & rest & Hr & Hdig & _). rewrite Hr at 1. cbv iota. rewrite Hdig.
    rewrite <-(app_nil_r (nat_runes _)), scan_nat_runes by done. rewrite Z2N.id by lia.
    rewrite Z.opp_involutive, Hz. done.
  - rewrite format_nat_runes, runes_ascii by apply Hlt.
    destruct (Hn (Z.to_N z)) as (-> & r & rest & Hr & Hdig & H45 & H43). cbv iota. rewrite Hr at 1.
    cbv iota. rewrite H45, H43. cbv iota. rewrite Hr at 1. cbv iota. rewrite Hdig.
    rewrite <-(app_nil_r (nat_runes _)), scan_nat_runes by done. rewrite Z2N.id by lia. by rewrite Hz.
Qed.

Lemma format_int_chars z c : c ∈ format_int z -> byte_val c = 45%N \/ is_digit_rune (byte_val c) = true.
Proof.
  assert (forall n, c ∈ format_nat n -> is_digit_rune (byte_val c) = true) as Hn.
  { intros n. rewrite format_nat_runes. intros (r & -> & Hr)%list_elem_of_fmap.
    pose proof (nat_runes_digits n) as Hd. rewrite Forall_forall in Hd. specialize (Hd r Hr).
    rewrite byte_val_of; [done|]. apply in_range_true in Hd. lia. }
  unfold format_int. destruct (z <? 0)%Z; [|by right; eapply Hn].
  intros [->|Hc]%elem_of_cons; [by left|right; by eapply Hn].
Qed.

Example split_fields :
  Split "a,,b" (byte_of 44) = ["a"; ""; "b"] /\ Split "" (byte_of 44) = [""] /\
  Fields "  ada  king " = ["ada"; "king"] /\ Fields " " = [] /\
  Sscanf_int64 " -42x" = Some (-42)%Z /\ Sscanf_int64 "x" = None /\ Sscanf_int64 "9223372036854775808" = None.
Proof. vm_compute. done. Qed.
