(* ===== verification/Sha256.v ===== *)
(** * [crypto/sha256], [crypto/hmac], [encoding/base64]

    The parts of Go's standard library with which the dashboard signs its
    session cookie, executable: SHA-256 (FIPS 180-4) on 32-bit words, HMAC
    (RFC 2104) over it, and [base64.RawURLEncoding]. *)
From stdpp Require Import base list strings.
From Stdlib Require Import ZArith NArith Lia Ascii.
From S2P Require Import Prelude.
From S2P Require Import GoString.

(** ** 32-bit words *)

Definition word : Type := N.
Definition w32 (x : N) : word := N.land x 4294967295.
Definition add32 (x y : word) : word := w32 (x + y).
Definition not32 (x : word) : word := N.lxor x 4294967295.
Definition rotr (n : N) (x : word) : word := N.lor (N.shiftr x n) (w32 (N.shiftl x (32 - n))).

Definition Ch (x y z : word) : word := N.lxor (N.land x y) (N.land (not32 x) z).
Definition Maj (x y z : word) : word := N.lxor (N.lxor (N.land x y) (N.land x z)) (N.land y z).
Definition big_sigma0 (x : word) : word := N.lxor (N.lxor (rotr 2 x) (rotr 13 x)) (rotr 22 x).
Definition big_sigma1 (x : word) : word := N.lxor (N.lxor (rotr 6 x) (rotr 11 x)) (rotr 25 x).
Definition small_sigma0 (x : word) : word := N.lxor (N.lxor (rotr 7 x) (rotr 18 x)) (N.shiftr x 3).
Definition small_sigma1 (x : word) : word := N.lxor (N.lxor (rotr 17 x) (rotr 19 x)) (N.shiftr x 10).

(** The constants are the first 32 bits of the fractional parts of the cube
    roots and of the square roots of the first primes. *)
Definition is_prime (n : N) : bool :=
  (1 <? n)%N && forallb (fun d => negb (n mod N.of_nat d =? 0)%N) (seq 2 (N.to_nat n - 2)).
Definition primes : list N := filter (fun n => is_prime n = true) (N.of_nat <$> seq 0 312).

(** The integer cube root, bit by bit. *)
Definition cube_root (bits : nat) (n : N) : N :=
  foldl (fun r b => let r' := (r + N.shiftl 1 (N.of_nat b))%N in if (r' * r' * r' <=? n)%N then r' else r) 0%N
    (reverse (seq 0 bits)).

Definition round_constants : list word := Eval vm_compute in
  (fun p => w32 (cube_root 36 (N.shiftl p 96))) <$> primes.
Definition initial_hash : list word := Eval vm_compute in
  (fun p => w32 (N.sqrt (N.shiftl p 64))) <$> take 8 primes.

(** ** Blocks *)

Definition be_bytes (len : nat) (x : N) : list N :=
  (fun i => N.land (N.shiftr x (8 * N.of_nat (len - 1 - i))) 255) <$> seq 0 len.

Definition be_word (b : list N) : word := foldl (fun acc x => acc * 256 + x)%N 0%N b.

(** The message padded to whole blocks of 64 bytes. *)
Definition pad (m : list N) : list N :=
  let l := length m in
  let zeros := (119 - l mod 64) mod 64 in
  m ++ [128%N] ++ replicate zeros 0%N ++ be_bytes 8 (8 * N.of_nat l).

Fixpoint chunks (fuel n : nat) (l : list N) : list (list N) :=
  match fuel, l with
  | S fuel, _ :: _ => take n l :: chunks fuel n (drop n l)
  | _, _ => []
  end.

Definition block_words (block : list N) : list word := be_word <$> chunks 16 4 block.

(** The message schedule, its last 16 words in front: [t] words to go. *)
Fixpoint schedule (t : nat) (ws : list word) : list word :=
  match t with
  | 0 => []
  | S t =>
      let w := foldl add32 0%N [small_sigma1 (ws !!! 14); ws !!! 9; small_sigma0 (ws !!! 1); ws !!! 0] in
      w :: schedule t (drop 1 ws ++ [w])
  end.

Definition compress_step (st : list word) (kw : word * word) : list word :=
  match st with
  | [a; b; c; d; e; f; g; h] =>
      let t1 := foldl add32 h [big_sigma1 e; Ch e f g; kw.1; kw.2] in
      let t2 := add32 (big_sigma0 a) (Maj a b c) in
      [add32 t1 t2; a; b; c; add32 d t1; e; f; g]
  | _ => st
  end.

Definition compress (st : list word) (block : list N) : list word :=
  let ws := block_words block in
  zip_with add32 st (foldl compress_step st (zip round_constants (ws ++ schedule 48 ws))).

Definition sha256 (m : list N) : list N :=
  let p := pad m in
  mjoin (be_bytes 4 <$> foldl compress initial_hash (chunks (length p) 64 p)).

(** [hmac.New(sha256.New, key)] ... [Sum]. *)
Definition hmac_sha256 (key m : list N) : list N :=
  let k0 := if 64 <? length key then sha256 key else key in
  let k := k0 ++ replicate (64 - length k0) 0%N in
  sha256 ((N.lxor 92 <$> k) ++ sha256 ((N.lxor 54 <$> k) ++ m)).

(** ** Base64 without padding, with the alphabet for URLs *)

Definition base64url_char (x : N) : ascii :=
  byte_of (if (x <? 26)%N then x + 65 else if (x <? 52)%N then x + 71
           else if (x <? 62)%N then x - 4 else if (x =? 62)%N then 45 else 95)%N.

Fixpoint base64url (b : list N) : bytes :=
  match b with
  | x :: y :: z :: rest =>
      base64url_char (N.shiftr x 2) :: base64url_char (N.lor (N.shiftl (N.land x 3) 4) (N.shiftr y 4))
      :: base64url_char (N.lor (N.shiftl (N.land y 15) 2) (N.shiftr z 6)) :: base64url_char (N.land z 63)
      :: base64url rest
  | [x; y] =>
      [base64url_char (N.shiftr x 2); base64url_char (N.lor (N.shiftl (N.land x 3) 4) (N.shiftr y 4));
       base64url_char (N.shiftl (N.land y 15) 2)]
  | [x] => [base64url_char (N.shiftr x 2); base64url_char (N.shiftl (N.land x 3) 4)]
  | [] => []
  end.

(** ** Test vectors *)

Definition text (s : string) : list N := byte_val <$> to_bytes s.

Example sha256_empty :
  be_word (sha256 []) = 0xe3b0c44298fc1c149afbf4c8996fb92427ae41e4649b934ca495991b7852b855%N.
Proof. vm_compute. reflexivity. Qed.

Example sha256_abc :
  be_word (sha256 (text "abc")) = 0xba7816bf8f01cfea414140de5dae2223b00361a396177a9cb410ff61f20015ad%N.
Proof. vm_compute. reflexivity. Qed.

Example sha256_two_blocks :
  be_word (sha256 (text "abcdbcdecdefdefgefghfghighijhijkijkljklmklmnlmnomnopnopq")) =
    0x248d6a61d20638b8e5c026930c3e6039a33ce45964ff2167f6ecedd419db06c1%N.
Proof. vm_compute. reflexivity. Qed.

Example hmac_rfc4231 :
  be_word (hmac_sha256 (text "Jefe") (text "what do ya want for nothing?")) =
    0x5bdcc146bf60754e6a042426089575c75a003f089d2739839dec58b964ec3843%N.
Proof. vm_compute. reflexivity. Qed.

Example base64url_foobar :
  (fun s => of_bytes (base64url (text s))) <$> ["f"; "fo"; "foo"; "foobar"; "???"] =
    ["Zg"; "Zm8"; "Zm9v"; "Zm9vYmFy"; "Pz8_"].
Proof. vm_compute. reflexivity. Qed.

(** The alphabet has neither a dot nor a byte beyond ASCII. *)
Lemma base64url_char_dot x : base64url_char x <> byte_of 46.
Proof.
  unfold base64url_char. intros E. apply (f_equal byte_val) in E. revert E.
  destruct (N.ltb_spec x 26); [rewrite !byte_val_of by lia; lia|].
  destruct (N.ltb_spec x 52); [rewrite !byte_val_of by lia; lia|].
  destruct (N.ltb_spec x 62); [rewrite !byte_val_of by lia; lia|].
  destruct (x =? 62)%N; rewrite !byte_val_of by lia; lia.
Qed.

Lemma base64url_no_dot b : byte_of 46 ∉ base64url b.
Proof.
  induction b as [b IH] using (induction_ltof1 _ length). unfold ltof in IH.
  destruct b as [|x [|y [|z rest]]]; simpl; rewrite ?not_elem_of_cons; repeat split;
    try apply not_eq_sym, base64url_char_dot; try apply not_elem_of_nil.
  apply IH. simpl. lia.
Qed.
