(* ===== verification/AppConfig.v ===== *)
(** * [internal/config]: the process's settings and the runtime settings

    [config.go] reads the environment variables once; [appconfig.go] keeps the
    settings an operator changes at run time in a table.  [time.ParseDuration]
    is here as well, on nanoseconds. *)
From stdpp Require Import base gmap sets list strings.
From Stdlib Require Import ZArith Lia Ascii.
From S2P Require Import Prelude.
From S2P Require Import GoString.
From S2P Require Import GoText.
From S2P Require Import Httpx.
From S2P Require Import Types.
From S2P Require Import Db.
From S2P Require Import Store.
From S2P Require Import Livekit.
From S2P Require Import Handlers.

Open Scope convoy_scope.

(** ** [appconfig.go] *)

Definition KeyMinClientVersion : string := "min_client_version".

Record PublicConfig := mkPublicConfig { MinVersion : string; PublicEntitlements : list (string * json) }.

Definition ErrConfigNotFound : error := ErrText "app_config: not found".

Definition IsNotFound (e : error) : bool := bool_decide (e = ErrNoRows) || bool_decide (e = ErrConfigNotFound).

Definition set_config_sql (key value : string) : Sql unit :=
  fun now _ t => inr (tt, set_app_config <[key := mkConfigRow value now]> t).

Section store.
Context {H : Type}.

Definition Get (key : string) : M H string :=
  scan_row (exec [key] (select (fun t => cfg_value <$> t_app_config t !! key))).

Definition Set_ (key value : string) : M H unit := exec [key; value] (set_config_sql key value).

Definition MinClientVersion : M H string :=
  r <- try (Get KeyMinClientVersion) ;;
  ret (match r with
       | Fail _ => "0.0.0"
       | Ok v => if bool_decide (TrimSpace v = "") then "0.0.0" else TrimSpace v
       end).

Definition ConfigHandler : M H (reply PublicConfig) :=
  min <- MinClientVersion ;;
  ret (JSON 200 (mkPublicConfig min [])).
End store.

(** ** [time.ParseDuration] *)

Definition wrap64 (z : Z) : Z := ((z + 9223372036854775808) mod 18446744073709551616 - 9223372036854775808)%Z.
Definition two63 : N := 9223372036854775808.

(** [leadingInt]: the digits in front, refused beyond 2^63. *)
Fixpoint leadingInt (x : N) (b : bytes) : option (N * bytes) :=
  match b with
  | c :: rest =>
      match digit c with
      | Some d =>
          if (two63 / 10 <? x)%N then None else
          let x := (x * 10 + Z.to_N d)%N in
          if (two63 <? x)%N then None else leadingInt x rest
      | None => Some (x, b)
      end
  | [] => Some (x, [])
  end.

Definition float_of_N (n : N) : float64 := binary_normalize 53 1024 (Z.of_N n) 0 false.

(** [leadingFraction]: digits beyond the precision are read over. *)
Fixpoint leadingFraction (x : N) (scale : float64) (overflow : bool) (b : bytes) : N * float64 * bytes :=
  match b with
  | c :: rest =>
      match digit c with
      | Some d =>
          if overflow then leadingFraction x scale true rest else
          if ((two63 - 1) / 10 <? x)%N then leadingFraction x scale true rest else
          let y := (x * 10 + Z.to_N d)%N in
          if (two63 <? y)%N then leadingFraction x scale true rest
          else leadingFraction y (SFmul 53 1024 scale (float_of_N 10)) false rest
      | None => (x, scale, b)
      end
  | [] => (x, scale, [])
  end.

(** The conversion of a non-negative [float64] to [uint64]. *)
Definition float_trunc (f : float64) : N :=
  match f with
  | S754_finite _ m e => Z.to_N (Z.shiftl (Z.pos m) e)
  | _ => 0
  end.

Definition unitMap (u : string) : option N :=
  if bool_decide (u = "ns") then Some 1%N
  else if bool_decide (u = "us") || bool_decide (u = "µs") || bool_decide (u = "μs") then Some 1000%N
  else if bool_decide (u = "ms") then Some 1000000%N
  else if bool_decide (u = "s") then Some 1000000000%N
  else if bool_decide (u = "m") then Some 60000000000%N
  else if bool_decide (u = "h") then Some 3600000000000%N
  else None.

(** The bytes of a unit: up to a dot or a digit. *)
Fixpoint unit_span (b : bytes) : bytes * bytes :=
  match b with
  | c :: rest =>
      if bool_decide (c = byte_of 46) || bool_decide (is_Some (digit c)) then ([], b)
      else let (u, r) := unit_span rest in (c :: u, r)
  | [] => ([], [])
  end.

(** One number with its unit: nanoseconds, and the rest. *)
Definition duration_group (b : bytes) : option (N * bytes) :=
  match b with
  | [] => None
  | c :: _ =>
      if negb (bool_decide (c = byte_of 46) || bool_decide (is_Some (digit c))) then None else
      match leadingInt 0 b with
      | None => None
      | Some (v, b1) =>
          let pre := negb (length b =? length b1) in
          let '(f, scale, b2, post) :=
            match b1 with
            | c1 :: b1' =>
                if bool_decide (c1 = byte_of 46) then
                  let '(f, scale, b2) := leadingFraction 0 (float_of_N 1) false b1' in
                  (f, scale, b2, negb (length b1' =? length b2))
                else (0%N, float_of_N 1, b1, false)
            | [] => (0%N, float_of_N 1, b1, false)
            end in
          if negb pre && negb post then None else
          let (u, b3) := unit_span b2 in
          if bool_decide (u = []) then None else
          match unitMap (of_bytes u) with
          | None => None
          | Some unit =>
              if (two63 / unit <? v)%N then None else
              let v := (v * unit)%N in
              let v := if (0 <? f)%N
                       then (v + float_trunc (SFmul 53 1024 (float_of_N f) (SFdiv 53 1024 (float_of_N unit) scale)))%N
                       else v in
              if (0 <? f)%N && (two63 <? v)%N then None else Some (v, b3)
          end
      end
  end.

(** The loop over the groups, in [uint64]; the outer [None] is the fuel. *)
Fixpoint duration_loop (fuel : nat) (d : N) (b : bytes) : option (option N) :=
  match b with
  | [] => Some (Some d)
  | _ =>
      match fuel with
      | 0 => None
      | S fuel =>
          match duration_group b with
          | None => Some None
          | Some (v, b) =>
              let d := ((d + v) mod 18446744073709551616)%N in
              if (two63 <? d)%N then Some None else duration_loop fuel d b
          end
      end
  end.

Definition ParseDuration (s : string) : option Z :=
  let b := to_bytes s in
  let (neg, b) := match b with
                  | c :: rest => if bool_decide (c = byte_of 45) then (true, rest)
                                 else if bool_decide (c = byte_of 43) then (false, rest) else (false, b)
                  | [] => (false, b)
                  end in
  if bool_decide (of_bytes b = "0") then Some 0%Z else
  if bool_decide (b = []) then None else
  match duration_loop (length b) 0 b with
  | Some (Some d) =>
      if neg then Some (wrap64 (- wrap64 (Z.of_N d)))
      else if (two63 - 1 <? d)%N then None else Some (Z.of_N d)
  | _ => None
  end.

(** ** [config.go] *)

Definition second : Z := 1000000000.
Definition hour : Z := 3600000000000.

(** [getenv] and the others read the environment [env]; an unset variable
    reads as empty. *)
Definition getenv (env : string -> string) (k fallback : string) : string :=
  if bool_decide (env k = "") then fallback else env k.

Definition splitCSV (s : string) : list string :=
  if bool_decide (s = "") then []
  else filter (fun p => p <> "") (TrimSpace <$> Split s (byte_of 44)).

Definition getDuration (env : string -> string) (k : string) (fallback : Z) : Z :=
  let v := env k in
  if bool_decide (v = "") then fallback else
  match Atoi v with
  | Some n => wrap64 (n * second)
  | None => match ParseDuration v with Some d => d | None => fallback end
  end.

Record ServerConfig := mkServerConfig {
  Port : string;
  DatabaseURL : string;
  JWTSecret : string;
  JWTTTL : Z;
  AllowedOrigins : list string;
  WSWriteTimeout : Z;
  WSReadTimeout : Z;
  WSPingInterval : Z;
  LiveKitURL : string;
  LiveKitAPIKey : string;
  LiveKitAPISecret : string;
  AdminPassword : string;
  AdminCookieSecret : string;
  ExpoAccessToken : string;
  GoogleClientIDs : list string;
  AppleClientIDs : list string;
  PrivacyContactEmail : string;
  PrivacyEffectiveDate : string;
  AppName : string;
}.

(** [Load], after [godotenv.Load]; [today] is the current date as
    [time.Format] writes it. *)
Definition Load_ (env : string -> string) (today : string) : ServerConfig + error :=
  let c := mkServerConfig
    (getenv env "PORT" "8080") (env "DATABASE_URL") (env "JWT_SECRET")
    (getDuration env "JWT_TTL" (30 * 24 * hour)) ["*"]
    (getDuration env "WS_WRITE_TIMEOUT" (10 * second)) (getDuration env "WS_READ_TIMEOUT" (60 * second))
    (getDuration env "WS_PING_INTERVAL" (25 * second))
    (env "LIVEKIT_URL") (env "LIVEKIT_API_KEY") (env "LIVEKIT_API_SECRET")
    (env "ADMIN_PASSWORD") (env "ADMIN_COOKIE_SECRET") (env "EXPO_ACCESS_TOKEN")
    (splitCSV (env "GOOGLE_CLIENT_IDS")) (splitCSV (env "APPLE_CLIENT_IDS"))
    (env "PRIVACY_CONTACT_EMAIL") (getenv env "PRIVACY_EFFECTIVE_DATE" today) (getenv env "APP_NAME" "Convoy") in
  if bool_decide (DatabaseURL c = "") then inr (ErrText "DATABASE_URL is required")
  else if go_len (JWTSecret c) <? 16 then inr (ErrText "JWT_SECRET must be at least 16 characters")
  else inl c.

Example ParseDuration_values :
  ParseDuration <$> ["1h30m"; "1.5h"; "-2m"; "300ms"; "1us"; "1µs"; "1μs"; "0"; "+0"; ".5s"; "1.s"; "0.1s"; "2562047h47m16.854775807s"] =
    (Some <$> [5400000000000; 5400000000000; -120000000000; 300000000; 1000; 1000; 1000; 0; 0; 500000000;
               1000000000; 100000000; 9223372036854775807]%Z) /\
  ParseDuration <$> [""; "-"; "1"; "s"; "."; ".s"; "1x"; "1h "; "9223372036854775808ns"; "1d"] = replicate 10 None.
Proof. vm_compute. done. Qed.
