(* ===== verification/Admin.v ===== *)
(** * [internal/admin]: the operators' dashboard

    Sessions, the login, the pages and what they do to the tables.  A page is
    the template's name and the data it is given; rendering it is not
    modelled. *)
From stdpp Require Import base gmap sets list strings sorting.
From Stdlib Require Import ZArith Lia Ascii.
From S2P Require Import Prelude.
From S2P Require Import GoString.
From S2P Require Import GoText.
From S2P Require Import Sha256.
From S2P Require Import Httpx.
From S2P Require Import Types.
From S2P Require Import Db.
From S2P Require Import Store.
From S2P Require Import Auth.
From S2P Require Import Push.
From S2P Require Import Feedback.
From S2P Require Import AppConfig.

Open Scope convoy_scope.

(** ** The module *)

(** [Config], its stores being the tables; [AppCfg] may be missing. *)
Record AdminConfig := mkAdminConfig {
  Password : string;
  CookieSecret : string;
  HasPool : bool;
  Expo : ExpoClient;
  HasAppCfg : bool;
}.

Record Module_ := mkModule { m_cfg : AdminConfig }.

Definition cookieName : string := "convoy_admin".
Definition sessionVersion : string := "v1".
Definition loginRedirectURL : string := "/admin/".
(** Seconds. *)
Definition sessionLifetime : Z := 604800.

(** [New]; [parsed] is what parsing the embedded templates came to. *)
Definition New (cfg : AdminConfig) (parsed : option error) : Module_ + error :=
  if bool_decide (TrimSpace (Password cfg) = "") then inr (ErrText "ADMIN_PASSWORD not set")
  else if go_len (CookieSecret cfg) <? 16 then inr (ErrText "ADMIN_COOKIE_SECRET must be at least 16 bytes")
  else if negb (HasPool cfg) then inr (ErrText "admin: pool is required")
  else match parsed with Some e => inr e | None => inl (mkModule cfg) end.

(** ** Sessions *)

Definition dot : ascii := byte_of 46.

(** The signature of a payload. *)
Definition mac (secret : string) (payload : bytes) : bytes :=
  base64url (hmac_sha256 (byte_val <$> to_bytes secret) (byte_val <$> payload)).

Definition session_payload (issuedAt : Z) : bytes := to_bytes sessionVersion ++ dot :: format_int issuedAt.

Definition signSession (m : Module_) (issuedAt : Z) : string :=
  let payload := session_payload issuedAt in
  of_bytes (payload ++ dot :: mac (CookieSecret (m_cfg m)) payload).

(** [time.Unix(sec, 0)] in microseconds: the seconds are kept since the year 1
    in 64 bits. *)
Definition unix_time (sec : Z) : time := ((wrap64 (sec + 62135596800) - 62135596800) * 1000000)%Z.

(** [time.Since] saturates beyond 292 years, on the same side of the bound. *)
Definition verifySession (m : Module_) (value : string) (now : time) : bool :=
  match Split value dot with
  | [p0; p1; p2] =>
      if negb (bool_decide (p0 = sessionVersion)) then false else
      let payload := to_bytes p0 ++ dot :: to_bytes p1 in
      if negb (bool_decide (mac (CookieSecret (m_cfg m)) payload = to_bytes p2)) then false else
      match Sscanf_int64 p1 with
      | None => false
      | Some issued => negb (sessionLifetime * 1000000 <? now - unix_time issued)%Z
      end
  | _ => false
  end.

Record cookie := mkCookie {
  ck_Name : string;
  ck_Value : string;
  ck_Path : string;
  ck_HttpOnly : bool;
  ck_Secure : bool;
  ck_SameSiteStrict : bool;
  ck_Expires : option time;
  ck_MaxAge : Z;
}.

(** What a handler looks at of a request: its session cookie, the HTMX header,
    and how it came in. *)
Record admin_request := mkAdminRequest {
  ar_cookie : option string;
  ar_htmx : string;
  ar_tls : bool;
  ar_forwarded_proto : string;
}.

Definition isHTMX (r : admin_request) : bool := bool_decide (ar_htmx r = "true").

(** [strings.EqualFold] with lower-case ASCII letters: besides their capitals,
    the long s and the Kelvin sign fold into them. *)
Definition folds_to (r c : rune) : bool :=
  (lower_ascii r =? c)%N || ((c =? 115)%N && (r =? 383)%N) || ((c =? 107)%N && (r =? 8490)%N).
Fixpoint equal_fold (rs cs : list rune) : bool :=
  match rs, cs with
  | [], [] => true
  | r :: rs, c :: cs => folds_to r c && equal_fold rs cs
  | _, _ => false
  end.

Definition secure (r : admin_request) : bool :=
  ar_tls r || equal_fold (runes (to_bytes (ar_forwarded_proto r))) (runes (to_bytes "https")).

(** [setSession]; the two readings of the clock are its arguments. *)
Definition setSession (m : Module_) (r : admin_request) (now now' : time) : cookie :=
  mkCookie cookieName (signSession m (Unix now)) "/admin" true (secure r) true
    (Some (now' + sessionLifetime * 1000000)%Z) 0.

Definition clearSession (r : admin_request) : cookie :=
  mkCookie cookieName "" "/admin" true (secure r) true None (-1).

(** ** Broadcasts: the store *)

Record Broadcast := mkBroadcast {
  Br_ID : uuid;
  Br_Title : string;
  Br_Body : string;
  Br_SentAt : time;
  Br_Recipients : Z;
  Br_Delivered : Z;
  Br_Failed : Z;
}.

Definition broadcast_of_row (p : uuid * BroadcastRow) : Broadcast :=
  mkBroadcast p.1 (b_title p.2) (b_body p.2) (b_sent_at p.2) (b_recipients p.2) (b_delivered p.2) (b_failed p.2).

Definition insert_broadcast (title body : string) (recipients delivered failed : nat) :
    Sql (uuid * BroadcastRow) :=
  fun now id t =>
    let b := mkBroadcastRow title body now (Z.of_nat recipients) (Z.of_nat delivered) (Z.of_nat failed) in
    if (max_int32 <? Z.of_nat (recipients `max` (delivered `max` failed)))%Z then inl out_of_range
    else if has (t_broadcasts t) id then inl unique_violation
    else inr (id, b, set_broadcasts <[id := b]> t).

(** ** Users: rows and statements *)

Record userRow := mkUserPageRow {
  UR_ID : uuid;
  UR_DisplayName : string;
  UR_Email : string;
  UR_AvatarURL : string;
  UR_CreatedAt : time;
  UR_DeletedAt : option time;
  UR_Providers : list string;
  UR_ActiveRooms : nat;
  UR_JoinedRooms : nat;
}.

Record identity := mkIdentityView { Iv_Provider : string; Iv_Subject : string; Iv_Email : string; Iv_CreatedAt : time }.

(** [array_agg(DISTINCT provider)]. *)
Definition providers_of (id : uuid) (t : Tables) : list string :=
  elements (list_to_set (C:=gset string)
    (i_provider ∘ snd <$> filter (fun p => i_user_id p.2 = id) (map_to_list (t_identities t)))).

Definition user_page_row (t : Tables) (p : uuid * UserRow) : userRow :=
  mkUserPageRow p.1 (u_display_name p.2) (default "" (u_email p.2)) (default "" (u_avatar_url p.2))
    (u_created_at p.2) (u_deleted_at p.2) (providers_of p.1 t)
    (length (filter (fun r => r_owner_id r.2 = p.1 /\ room_active r.2 = true) (map_to_list (t_rooms t))))
    (length (filter (fun m => m.1.2 = p.1 /\ member_present m.2 = true) (map_to_list (t_members t)))).

Definition clear_deleted (u : UserRow) : UserRow :=
  mkUserRow (u_display_name u) (u_avatar_url u) (u_created_at u) (u_email u) (u_entitlements u) None.

Definition restore_user (id : uuid) : Sql unit := fun _ _ t => inr (tt, set_users (alter clear_deleted id) t).

(** [DELETE FROM users WHERE id = $1]. PostgreSQL fires the triggers of the
    foreign keys in rounds: first those of the row that goes - the rows that
    belong to the user go, feedback stays without its author - and only then
    those of the rows that went with it. *)
Definition user_actions (id : uuid) (t : Tables) : Tables :=
  mkTables
    (delete id (t_users t))
    (filter (fun kv => r_owner_id kv.2 <> id) (t_rooms t))
    (filter (fun kv => kv.1.2 <> id) (t_members t))
    (filter (fun kv => kv.1.2 <> id) (t_markers t))
    (t_stops t)
    (filter (fun kv => g_user_id kv.2 <> id) (t_messages t))
    (filter (fun kv => i_user_id kv.2 <> id) (t_identities t))
    (filter (fun kv => p_user_id kv.2 <> id) (t_push_tokens t))
    ((fun f => if bool_decide (f_user_id f = Some id) then mkFeedbackRow None (f_message f) (f_created_at f) else f)
       <$> t_feedback t)
    (t_broadcasts t) (t_app_config t).

(** The second round: what is in the rooms that went, and nothing else refers
    to a room. *)
Definition room_gone (id : uuid) (t : Tables) (r : uuid) : bool :=
  match t_rooms t !! r with Some row => bool_decide (r_owner_id row = id) | None => false end.

Definition room_actions (gone : uuid -> bool) (t : Tables) : Tables :=
  mkTables
    (t_users t) (t_rooms t)
    (filter (fun kv => gone kv.1.1 = false) (t_members t))
    (filter (fun kv => gone kv.1.1 = false) (t_markers t))
    (filter (fun kv => gone (s_room_id kv.2) = false) (t_stops t))
    (filter (fun kv => gone (g_room_id kv.2) = false) (t_messages t))
    (t_identities t) (t_push_tokens t) (t_feedback t) (t_broadcasts t) (t_app_config t).

Definition cascade_user (id : uuid) (t : Tables) : Tables :=
  room_actions (room_gone id t) (user_actions id t).

(** [rooms.dest_set_by] and [room_stops.created_by] have no action: they are
    checked in the first round, and the statement fails when a row refers to
    the user then. The rooms the user owned are gone by that time, for their
    constraint is the older one; the stops in them are not. *)
Definition user_referred (id : uuid) (t : Tables) : bool :=
  existsb (fun kv => bool_decide (r_dest_set_by kv.2 = Some id)) (map_to_list (t_rooms t))
  || existsb (fun kv => bool_decide (s_created_by kv.2 = Some id)) (map_to_list (t_stops t)).

Definition hard_delete_user (id : uuid) : Sql unit :=
  fun _ _ t =>
    match t_users t !! id with
    | None => inr (tt, t)
    | Some _ => if user_referred id (user_actions id t) then inl foreign_key_violation
                else inr (tt, cascade_user id t)
    end.

(** ** Pages and replies *)

Inductive page :=
| LoginPage (err : string)
| DashboardPage (feedback tokens broadcasts users deleted : nat) (recent : list Entry)
| FeedbackPage (entries : list Entry)
| BroadcastsPage (items : list Broadcast)
| BroadcastNewPage (count : nat)
| BroadcastErrorPage (err : string)
| BroadcastResultPage (recipients delivered failed pruned : nat)
| RecipientCountPage (count : nat)
| UsersPage (users : list userRow) (query : string)
| UserDetailPage (user : userRow) (providers : list identity)
| SettingsPage (min flash err : string).

Inductive admin_reply :=
| HttpError (status : Z)
| Redirect (url : string)
| HXRedirect (status : Z) (url : string)
| Render (name : string) (p : page).

(** A reply, and the cookie it sets. *)
Record admin_response := mkAdminResponse { rp_reply : admin_reply; rp_cookie : option cookie }.

Definition reply_with {H} (r : admin_reply) : M H admin_response := ret (mkAdminResponse r None).

(** The value of a call whose error the code ignores. *)
Definition or_zero {H A} (zero : A) (m : M H A) : M H A :=
  r <- try m ;; ret (match r with Ok a => a | Fail _ => zero end).

(** [if err != nil { http.Error(w, err.Error(), 500); return }]. *)
Definition or_500 {H A} (m : M H A) (k : A -> M H admin_response) : M H admin_response :=
  r <- try m ;; match r with Ok a => k a | Fail _ => reply_with (HttpError 500) end.

Section handlers.
Context {H : Type}.
Variable heap_id : uuid -> N.
Variable heap_token : string -> N.
Variable pg_timestamptz : string -> option time.
Variable net : nat -> http_request -> option http_response.
(** [ILIKE] of the database. *)
Variable ilike : string -> string -> bool.
Variable uuid_String : uuid -> string.
Variable uuid_Parse : string -> option uuid.
Variable m : Module_.

(** *** [broadcasts.go] *)

Definition BroadcastInsert (title body : string) (recipients delivered failed : nat) : M H Broadcast :=
  p <- exec [title; body] (insert_broadcast title body recipients delivered failed) ;; ret (broadcast_of_row p).

Definition sent_later (a b : Broadcast) : bool :=
  (Br_SentAt b <? Br_SentAt a)%Z || ((Br_SentAt a =? Br_SentAt b)%Z && (heap_id (Br_ID a) <=? heap_id (Br_ID b))%N).

Definition BroadcastList (limit : nat) : M H (list Broadcast) :=
  exec [] (select (fun t => take limit (order_by sent_later (broadcast_of_row <$> map_to_list (t_broadcasts t))))).

Definition BroadcastCount : M H nat := exec [] (select (fun t => size (t_broadcasts t))).

Definition broadcastList : M H admin_response :=
  or_500 (BroadcastList 100) (fun items => reply_with (Render "broadcasts.html" (BroadcastsPage items))).

Definition broadcastNewForm : M H admin_response :=
  n <- or_zero 0 PushCount ;; reply_with (Render "broadcast_new.html" (BroadcastNewPage n)).

(** [if len(s) > n { s = s[:n] }]. *)
Definition clip (n : nat) (s : string) : string := if n <? go_len s then byte_prefix n s else s.

(** [broadcastSend]; the form, when it parses. *)
Definition broadcastSend (form : option (string * string)) : M H admin_response :=
  match form with
  | None => reply_with (HttpError 400)
  | Some (title, body) =>
      let title := TrimSpace title in
      let body := TrimSpace body in
      if bool_decide (title = "") || bool_decide (body = "")
      then reply_with (Render "broadcast_result.html" (BroadcastErrorPage "Title and body are required.")) else
      let title := clip 80 title in
      let body := clip 240 body in
      or_500 (AllTokens heap_token) (fun tokens =>
        if bool_decide (tokens = []) then reply_with (Render "broadcast_result.html" (BroadcastErrorPage "No devices registered yet.")) else
        let res := default (mkSendResult 0 0 [])
                     (Send net (Expo (m_cfg m)) tokens title body [("type", JStr "broadcast")]) in
        (if bool_decide (InvalidTokens res = []) then ret (Ok tt) else try (DeleteTokens (InvalidTokens res))) ;;;
        or_500 (BroadcastInsert title body (length tokens) (Delivered res) (Failed res)) (fun _ =>
          reply_with (Render "broadcast_result.html" (BroadcastResultPage (length tokens) (Delivered res) (Failed res)
                                (length (InvalidTokens res))))))
  end.

(** *** [users.go] *)

Definition newer_user (a b : userRow) : bool :=
  (UR_CreatedAt b <? UR_CreatedAt a)%Z ||
  ((UR_CreatedAt a =? UR_CreatedAt b)%Z && (heap_id (UR_ID a) <=? heap_id (UR_ID b))%N).

Definition user_matches (q : string) (u : UserRow) : bool :=
  if bool_decide (q = "") then true
  else let pattern := "%" +:+ q +:+ "%" in
       ilike (u_display_name u) pattern ||
       match u_email u with Some e => ilike e pattern | None => false end.

Definition queryUsers (q : string) (limit : nat) : M H (list userRow) :=
  exec (if bool_decide (q = "") then [] else ["%" +:+ q +:+ "%"])
    (select (fun t => take limit (order_by newer_user
       (user_page_row t <$> filter (fun p => user_matches q p.2 = true) (map_to_list (t_users t)))))).

Definition older_identity (a b : uuid * IdentityRow) : bool :=
  (i_created_at a.2 <? i_created_at b.2)%Z ||
  ((i_created_at a.2 =? i_created_at b.2)%Z && (heap_id a.1 <=? heap_id b.1)%N).

Definition fetchUser (id : uuid) : M H (userRow * list identity) :=
  r <- scan_row (exec [] (select (fun t => u ← t_users t !! id; Some (user_page_row t (id, u))))) ;;
  ids <- exec [] (select (fun t =>
           (fun p => mkIdentityView (i_provider p.2) (i_subject p.2) (default "" (i_email p.2)) (i_created_at p.2)) <$>
           order_by older_identity (filter (fun p => i_user_id p.2 = id) (map_to_list (t_identities t))))) ;;
  ret (r, ids).

Definition usersList (q : string) : M H admin_response :=
  let q := TrimSpace q in
  or_500 (queryUsers q 200) (fun rows => reply_with (Render "users.html" (UsersPage rows q))).

Definition with_id (p : string) (k : uuid -> M H admin_response) : M H admin_response :=
  match uuid_Parse p with Some id => k id | None => reply_with (HttpError 400) end.

Definition userDetail (p : string) : M H admin_response :=
  with_id p (fun id =>
    r <- try (fetchUser id) ;;
    match r with
    | Ok rp => reply_with (Render "user_detail.html" (UserDetailPage rp.1 rp.2))
    | Fail ErrNoRows => reply_with (HttpError 404)
    | Fail _ => reply_with (HttpError 500)
    end).

Definition userHardDelete (r : admin_request) (p : string) : M H admin_response :=
  with_id p (fun id =>
    or_500 (exec [] (hard_delete_user id)) (fun _ =>
      reply_with (if isHTMX r then HXRedirect 200 "/admin/users" else Redirect "/admin/users"))).

Definition user_url (id : uuid) : string := "/admin/users/" +:+ uuid_String id.

(** The three statements of [HandleDeleteAccount], each on its own. *)
Definition userSoftDelete (p : string) : M H admin_response :=
  with_id p (fun id =>
    or_500 (exec [] (delete_user id)) (fun _ =>
    or_500 (exec [] (end_owned_rooms id)) (fun _ =>
    or_500 (exec [] (drop_memberships id)) (fun _ =>
    reply_with (Redirect (user_url id)))))).

Definition userRestore (p : string) : M H admin_response :=
  with_id p (fun id =>
    or_500 (exec [] (restore_user id)) (fun _ => reply_with (Redirect (user_url id)))).

(** *** [settings.go] *)

(** [semverRE]: three runs of digits with dots between them. *)
Definition all_digits (b : bytes) : bool :=
  bool_decide (b <> []) && forallb (fun c => in_range 48 57 (byte_val c)) b.
Definition semver (x : string) : bool :=
  match Split x dot with
  | [a; b; c] => all_digits (to_bytes a) && all_digits (to_bytes b) && all_digits (to_bytes c)
  | _ => false
  end.

Definition settingsPage (flash err : string) : M H admin_response :=
  if negb (HasAppCfg (m_cfg m)) then reply_with (HttpError 500) else
  min <- MinClientVersion ;; reply_with (Render "settings.html" (SettingsPage min flash err)).

Definition settingsSubmit (form : option string) : M H admin_response :=
  if negb (HasAppCfg (m_cfg m)) then reply_with (HttpError 500) else
  match form with
  | None => reply_with (Redirect "/admin/settings?err=bad_form")
  | Some v =>
      let min := TrimSpace v in
      if negb (semver min) then reply_with (Redirect "/admin/settings?err=bad_version") else
      r <- try (Set_ KeyMinClientVersion min) ;;
      match r with
      | Fail _ => reply_with (Redirect "/admin/settings?err=db")
      | Ok _ => reply_with (Redirect "/admin/settings?flash=saved")
      end
  end.

(** *** [admin.go] *)

(** [requireAuth]; the time is when the middleware looks. *)
Definition requireAuth (r : admin_request) (now : time) (next : M H admin_response) : M H admin_response :=
  if match ar_cookie r with Some v => verifySession m v now | None => false end then next
  else if isHTMX r then reply_with (HXRedirect 401 "/admin/login")
  else reply_with (Redirect "/admin/login").

Definition loginPage (r : admin_request) (now : time) (err : string) : M H admin_response :=
  if match ar_cookie r with Some v => verifySession m v now | None => false end
  then reply_with (Redirect loginRedirectURL)
  else reply_with (Render "login.html" (LoginPage err)).

(** [loginSubmit]; the form's password, when it parses. *)
Definition loginSubmit (r : admin_request) (now now' : time) (form : option string) : M H admin_response :=
  match form with
  | None => reply_with (Redirect "/admin/login?err=bad_request")
  | Some pw =>
      if negb (bool_decide (pw = Password (m_cfg m))) then reply_with (Redirect "/admin/login?err=invalid")
      else ret (mkAdminResponse (Redirect loginRedirectURL) (Some (setSession m r now now')))
  end.

Definition logout (r : admin_request) : M H admin_response :=
  ret (mkAdminResponse (Redirect "/admin/login") (Some (clearSession r))).

Definition countUsers : M H (nat * nat) :=
  or_zero (0, 0) (exec [] (select (fun t =>
    (length (filter (fun p => user_live p.2 = true) (map_to_list (t_users t))),
     length (filter (fun p => user_live p.2 = false) (map_to_list (t_users t))))))).

Definition dashboard : M H admin_response :=
  feedbackCount <- or_zero 0 FeedbackCount ;;
  tokenCount <- or_zero 0 PushCount ;;
  broadcastCount <- or_zero 0 BroadcastCount ;;
  recent <- or_zero [] (FeedbackList heap_id pg_timestamptz 5 None) ;;
  users <- countUsers ;;
  reply_with (Render "dashboard.html" (DashboardPage feedbackCount tokenCount broadcastCount users.1 users.2 recent)).

Definition feedbackList : M H admin_response :=
  or_500 (FeedbackList heap_id pg_timestamptz 200 None) (fun entries => reply_with (Render "feedback.html" (FeedbackPage entries))).

Definition recipientCount : M H admin_response :=
  n <- or_zero 0 PushCount ;; reply_with (Render "_recipient_count.html" (RecipientCountPage n)).

(** *** The routes *)

(** The routes behind [requireAuth]. *)
Inductive admin_action :=
| GetDashboard
| GetFeedback
| GetBroadcasts
| GetBroadcastNew
| PostBroadcast (form : option (string * string))
| GetRecipientCount
| GetUsers (q : string)
| GetUser (id : string)
| PostSoftDelete (id : string)
| PostRestore (id : string)
| PostHardDelete (id : string)
| GetSettings (flash err : string)
| PostSettings (form : option string).

Inductive admin_route :=
| GetLogin (err : string)
| PostLogin (now' : time) (form : option string)
| PostLogout
| Protected (a : admin_action).

Definition perform (r : admin_request) (a : admin_action) : M H admin_response :=
  match a with
  | GetDashboard => dashboard
  | GetFeedback => feedbackList
  | GetBroadcasts => broadcastList
  | GetBroadcastNew => broadcastNewForm
  | PostBroadcast form => broadcastSend form
  | GetRecipientCount => recipientCount
  | GetUsers q => usersList q
  | GetUser id => userDetail id
  | PostSoftDelete id => userSoftDelete id
  | PostRestore id => userRestore id
  | PostHardDelete id => userHardDelete r id
  | GetSettings flash err => settingsPage flash err
  | PostSettings form => settingsSubmit form
  end.

Definition Mount (r : admin_request) (now : time) (route : admin_route) : M H admin_response :=
  match route with
  | GetLogin err => loginPage r now err
  | PostLogin now' form => loginSubmit r now now' form
  | PostLogout => logout r
  | Protected a => requireAuth r now (perform r a)
  end.
End handlers.

(** [initials], the template function: the first bytes of the first and the
    last word. *)
Definition initials (unicode_upper : rune -> rune) (name : string) : string :=
  let name := TrimSpace name in
  if bool_decide (name = "") then "?" else
  match Fields name with
  | [] => "" (* not reached: a name that is not blank has a word *)
  | [p] => ToUpper unicode_upper (byte_prefix 1 p)
  | p :: rest => ToUpper unicode_upper (byte_prefix 1 p +:+ byte_prefix 1 (default "" (last rest)))
  end.
