(* ===== verification/AdminFacts.v ===== *)
(** * Facts about the dashboard's statements

    What deleting a user row leaves, and the invariants it keeps. *)
From stdpp Require Import base gmap sets list strings sorting.
From Stdlib Require Import ZArith Lia.
From S2P Require Import Prelude.
From S2P Require Import GoString.
From S2P Require Import GoText.
From S2P Require Import Httpx.
From S2P Require Import Types.
From S2P Require Import Db.
From S2P Require Import Store.
From S2P Require Import StoreFacts.
From S2P Require Import Broadcaster.
From S2P Require Import Service.
From S2P Require Import ServiceFacts.
From S2P Require Import Runs.
From S2P Require Import Auth.
From S2P Require Import AuthFacts.
From S2P Require Import Push.
From S2P Require Import Feedback.
From S2P Require Import AppConfig.
From S2P Require Import Admin.

Open Scope convoy_scope.

(** ** The invariant of the other tables *)

(** A token is for a platform and a user that exist; feedback keeps no author
    who does not. *)
Record side_wf (t : Tables) : Prop := {
  sw_tokens : forall k r, t_push_tokens t !! k = Some r ->
              is_Some (t_users t !! p_user_id r) /\ platform_ok (p_platform r) = true;
  sw_feedback : forall i f u, t_feedback t !! i = Some f -> f_user_id f = Some u -> is_Some (t_users t !! u);
}.

Definition all_wf (t : Tables) : Prop := full_wf t /\ side_wf t.

Lemma side_more_users t f :
  (forall u, is_Some (t_users t !! u) -> is_Some (f (t_users t) !! u)) -> side_wf t -> side_wf (set_users f t).
Proof.
  intros Hf [Ht Hb]. split; simpl.
  - intros k r Hk. destruct (Ht k r Hk). auto.
  - intros i x u Hi Hu. apply Hf. by eapply Hb.
Qed.

(** ** Deleting a user row *)

Lemma user_referred_false id t :
  user_referred id t = false <->
  (forall r x, t_rooms t !! r = Some x -> r_dest_set_by x <> Some id) /\
  (forall i s, t_stops t !! i = Some s -> s_created_by s <> Some id).
Proof.
  unfold user_referred. rewrite orb_false_iff. split.
  - intros [Hr Hs]. split.
    + intros r x Hx Hid. assert (Exists (fun kv => bool_decide (r_dest_set_by kv.2 = Some id) = true) (map_to_list (t_rooms t))) as He.
      { apply Exists_exists. exists (r, x). split; [by apply elem_of_map_to_list|by apply bool_decide_eq_true]. }
      apply not_true_iff_false in Hr. apply Hr, existsb_exists. apply Exists_exists in He as (kv & Hin & ?).
      exists kv. split; [by apply list_elem_of_In|done].
    + intros r x Hx Hid. apply not_true_iff_false in Hs. apply Hs, existsb_exists. exists (r, x).
      split; [by apply list_elem_of_In, elem_of_map_to_list|by apply bool_decide_eq_true].
  - intros [Hr Hs]. split; apply not_true_iff_false; intros (kv & Hin & Hk)%existsb_exists;
      apply list_elem_of_In in Hin; destruct kv as [i x]; apply elem_of_map_to_list in Hin;
      apply bool_decide_eq_true in Hk; simpl in Hk.
    + by eapply Hr.
    + by eapply Hs.
Qed.

Lemma room_gone_false id t r row :
  t_rooms t !! r = Some row -> room_gone id t r = false <-> r_owner_id row <> id.
Proof. unfold room_gone. intros ->. apply bool_decide_eq_false. Qed.

Section cascade.
Variables (id : uuid) (t : Tables).
Hypothesis Hwf : all_wf t.
Hypothesis Hfree : user_referred id (user_actions id t) = false.

Let t' := cascade_user id t.

Lemma cascade_user_stays u : u <> id -> is_Some (t_users t !! u) -> is_Some (t_users t' !! u).
Proof. intros Hne Hu. simpl. by rewrite lookup_delete_ne. Qed.

Lemma cascade_room r x : t_rooms t' !! r = Some x <-> t_rooms t !! r = Some x /\ r_owner_id x <> id.
Proof. simpl. rewrite map_lookup_filter_Some. done. Qed.

Lemma cascade_room_stays r : is_Some (t_rooms t !! r) -> room_gone id t r = false -> is_Some (t_rooms t' !! r).
Proof.
  intros [x Hx] Hg. exists x. apply cascade_room. split; [done|]. by apply (room_gone_false _ _ _ _ Hx).
Qed.

Lemma cascade_wf : all_wf t'.
Proof.
  destruct Hwf as [[[Hr Hc Hm Ho Hk Hs Hp Hg] [Hu Hi]] [Ht Hb]]. apply user_referred_false in Hfree as [Hdest Hstop].
  split; [split; [split|split]|split].
  - intros r x Hx. pose proof Hx as [Hx0 Hown]%cascade_room. destruct (Hr r x Hx0) as [Ho' Hd' Hok]. split; [|  |done].
    + by apply cascade_user_stays.
    + intros u Hset. apply cascade_user_stays; [|by apply Hd']. intros ->. by apply (Hdest r x).
  - intros i1 i2 x1 x2 [H1 _]%cascade_room [H2 _]%cascade_room. by apply Hc.
  - intros r u m Hm'. simpl in Hm'. apply map_lookup_filter_Some in Hm' as [[Hm0 Hne]%map_lookup_filter_Some Hgone]. simpl in Hne, Hgone.
    destruct (Hm r u m Hm0) as [Hu' Hkick (x & Hx & Hrole)]. split; [by apply cascade_user_stays|done|].
    exists x. split; [|done]. apply cascade_room. split; [done|]. by apply (room_gone_false _ _ _ _ Hx).
  - intros r x [Hx Hown]%cascade_room. destruct (Ho r x Hx) as [m Hmem]. exists m. simpl.
    rewrite !map_lookup_filter_Some. split; [done|]. by apply (room_gone_false _ _ _ _ Hx).
  - intros r u k Hk'. simpl in Hk'. apply map_lookup_filter_Some in Hk' as [[Hk0 Hne]%map_lookup_filter_Some Hgone]. simpl in Hne, Hgone.
    destruct (Hk r u k Hk0). split; [by apply cascade_room_stays|by apply cascade_user_stays].
  - intros i s Hs'. pose proof Hs' as Hs0. simpl in Hs0. apply map_lookup_filter_Some in Hs0 as [Hs0 Hgone]. simpl in Hgone.
    destruct (Hs i s Hs0) as (Hroom & (u & Hby & Hu') & Hpos). split; [by apply cascade_room_stays|]. split; [|done].
    exists u. split; [done|]. apply cascade_user_stays; [|done]. intros ->. by apply (Hstop i s).
  - intros i1 i2 s1 s2 H1 H2. simpl in H1, H2. apply map_lookup_filter_Some in H1 as [H1 _], H2 as [H2 _]. by apply Hp.
  - intros i g Hg'. simpl in Hg'. apply map_lookup_filter_Some in Hg' as [[Hg0 Hne]%map_lookup_filter_Some Hgone]. simpl in Hne, Hgone.
    destruct (Hg i g Hg0). split; [by apply cascade_room_stays|by apply cascade_user_stays].
  - intros i x Hx. simpl in Hx. apply map_lookup_filter_Some in Hx as [Hx Hne]. apply cascade_user_stays; [done|by eapply Hu].
  - intros i j x y Hx Hy. simpl in Hx, Hy. apply map_lookup_filter_Some in Hx as [Hx _], Hy as [Hy _]. by apply Hi.
  - intros k r Hk'. simpl in Hk'. apply map_lookup_filter_Some in Hk' as [Hk0 Hne]. destruct (Ht k r Hk0).
    split; [by apply cascade_user_stays|done].
  - intros i f u Hf Hfu. simpl in Hf. apply lookup_fmap_Some in Hf as (f0 & Hf0 & Hlk). case_bool_decide as Hid; subst f.
    + done.
    + apply cascade_user_stays; [congruence|by eapply Hb].
Qed.
End cascade.

(** ** What each statement keeps *)

(** The tables the invariant of rooms and accounts speaks of. *)
Lemma full_wf_same t t' :
  t_users t' = t_users t -> t_rooms t' = t_rooms t -> t_members t' = t_members t -> t_markers t' = t_markers t ->
  t_stops t' = t_stops t -> t_messages t' = t_messages t -> t_identities t' = t_identities t ->
  full_wf t -> full_wf t'.
Proof.
  intros Eu Er Em Ek Es Eg Ei [[Hr Hc Hm Ho Hk Hs Hp Hg] [Hu Hi]].
  split; split; unfold next_position in *; rewrite ?Eu, ?Er, ?Em, ?Ek, ?Es, ?Eg, ?Ei; try done.
Qed.

Lemma side_wf_same t t' :
  t_users t' = t_users t -> t_push_tokens t' = t_push_tokens t -> t_feedback t' = t_feedback t ->
  side_wf t -> side_wf t'.
Proof. intros Eu Et Ef [Ht Hf]. split; rewrite ?Eu, ?Et, ?Ef; done. Qed.

Section statements.
Context {H : Type}.

Lemma stmt_all_wf {A} tick params (f : Sql A) :
  preserves (H:=H) full_wf (stmt tick params f) ->
  (forall now id t a t', all_wf t -> f now id t = inr (a, t') -> side_wf t') ->
  preserves (H:=H) all_wf (stmt tick params f).
Proof.
  intros Hfull Hside w Hw. split; [by apply Hfull, Hw|].
  destruct (stmt_db tick params f w) as [->|(now & id & a & t & E & ->)]; [apply Hw|by eapply Hside].
Qed.

Lemma delete_user_all tick id : preserves (H:=H) all_wf (stmt tick [] (delete_user id)).
Proof.
  apply stmt_all_wf; [apply delete_user_wf|]. intros now x t a t' [_ Hs]. unfold delete_user.
  destruct (t_users t !! id) as [u|]; [destruct (user_live u)|]; intros [= <- <-]; try done.
  apply side_more_users; [|done]. intros v. rewrite lookup_insert. by case_decide.
Qed.

Lemma end_owned_rooms_all tick id : preserves (H:=H) all_wf (stmt tick [] (end_owned_rooms id)).
Proof.
  apply stmt_all_wf; [apply end_owned_rooms_wf|]. intros now x t a t' [_ Hs] [= <- <-]. by apply (side_wf_same t).
Qed.

Lemma drop_memberships_all tick id : preserves (H:=H) all_wf (stmt tick [] (drop_memberships id)).
Proof.
  apply stmt_all_wf; [apply drop_memberships_wf|]. intros now x t a t' [_ Hs] [= <- <-]. by apply (side_wf_same t).
Qed.

Lemma restore_user_all tick id : preserves (H:=H) all_wf (stmt tick [] (restore_user id)).
Proof.
  apply stmt_preserves. intros now x t a t' [Hf Hs] [= <- <-].
  assert (forall v, is_Some (t_users t !! v) -> is_Some (alter clear_deleted id (t_users t) !! v)) as Hmore.
  { intros v. rewrite lookup_alter. case_decide; [subst; by rewrite fmap_is_Some|done]. }
  split; [by apply wf_more_users|by apply side_more_users].
Qed.

Lemma hard_delete_user_all tick id : preserves (H:=H) all_wf (stmt tick [] (hard_delete_user id)).
Proof.
  apply stmt_preserves. intros now x t a t' Hwf. unfold hard_delete_user.
  destruct (t_users t !! id); [|by intros [= <- <-]].
  destruct (user_referred _ _) eqn:Hr; [done|]. intros [= <- <-]. by apply cascade_wf.
Qed.

Lemma insert_broadcast_all tick params ti bo re de fa :
  preserves (H:=H) all_wf (stmt tick params (insert_broadcast ti bo re de fa)).
Proof.
  apply stmt_preserves. intros now x t a t' [Hf Hs]. unfold insert_broadcast. cbv zeta.
  destruct (_ <? _)%Z; [done|]. destruct (has _ _); [done|]. intros [= <- <-].
  split; [by apply (full_wf_same t)|by apply (side_wf_same t)].
Qed.

Lemma set_config_all tick params k v : preserves (H:=H) all_wf (stmt tick params (set_config_sql k v)).
Proof.
  apply stmt_preserves. intros now x t a t' [Hf Hs] [= <- <-].
  split; [by apply (full_wf_same t)|by apply (side_wf_same t)].
Qed.

Lemma delete_tokens_all tick params l : preserves (H:=H) all_wf (stmt tick params (delete_tokens_sql l)).
Proof.
  apply stmt_preserves. intros now x t a t' [Hf [Ht Hb]] [= <- <-]. split; [by apply (full_wf_same t)|].
  split; [|done]. simpl. intros k r [Hk _]%map_lookup_filter_Some. by apply (Ht k).
Qed.

Lemma upsert_token_all tick params u tok p :
  platform_ok p = true -> preserves (H:=H) all_wf (stmt tick params (upsert_token_sql u tok p)).
Proof.
  intros Hp. apply stmt_preserves. intros now x t a t' [Hf [Ht Hb]]. unfold upsert_token_sql.
  destruct (has (t_users t) u) eqn:Hu; [|done]. intros [= <- <-]. split; [by apply (full_wf_same t)|].
  split; [|done]. simpl. intros k r. rewrite lookup_insert. case_decide; [|by apply Ht].
  intros [= <-]. split; [by apply has_spec|done].
Qed.

Lemma insert_feedback_all tick params u msg : preserves (H:=H) all_wf (stmt tick params (insert_feedback u msg)).
Proof.
  apply stmt_preserves. intros now x t a t' [Hf [Ht Hb]]. unfold insert_feedback. cbv zeta.
  destruct (has (t_feedback t) x); [done|]. destruct (has (t_users t) u) eqn:Hu; [|done].
  intros [= <- <-]. split; [by apply (full_wf_same t)|]. split; [done|]. simpl.
  intros i f v. rewrite lookup_insert. case_decide; [|by apply Hb]. intros [= <-] [= <-]. by apply has_spec.
Qed.
End statements.

#[export] Hint Resolve delete_user_all end_owned_rooms_all drop_memberships_all restore_user_all
  hard_delete_user_all insert_broadcast_all set_config_all delete_tokens_all insert_feedback_all : auth_wf.

(** ** Operations of the dashboard and of its neighbours *)

Section operations.
Context {H : Type}.

Lemma reply_with_preserves P r : preserves (H:=H) P (reply_with r).
Proof. by intros w. Qed.

Lemma or_500_preserves {A} P (m : M H A) k :
  preserves P m -> (forall a, preserves P (k a)) -> preserves P (or_500 m k).
Proof.
  intros Hm Hk. apply bind_preserves; [by apply try_preserves|]. intros [a|e]; [apply Hk|apply reply_with_preserves].
Qed.

Lemma or_zero_preserves {A} P (z : A) (m : M H A) : preserves P m -> preserves P (or_zero z m).
Proof. intros Hm. apply bind_preserves; [by apply try_preserves|]. intros r. by intros w. Qed.

Lemma Save_all {B} low ctx req : preserves (H:=H) all_wf (Save (B:=B) low ctx req).
Proof.
  unfold Save. apply serve_preserves, bind_preserves; [apply authorised_preserves|]. intros u.
  apply bind_preserves; [apply decode_preserves|]. intros r. cbv zeta.
  apply bind_preserves; [apply check_preserves|]. intros _. apply bind_preserves; [apply check_preserves|]. intros _.
  apply bind_preserves; [|by intros _ w]. unfold Upsert.
  destruct (platform_ok _) eqn:Hp; [|by intros w].
  apply bind_preserves; [by intros w|]. intros _. by apply upsert_token_all.
Qed.

Lemma Submit_all ctx req : preserves (H:=H) all_wf (Submit ctx req).
Proof.
  unfold Submit, FeedbackCreate. keeps_wf.
Qed.
End operations.

#[export] Hint Resolve reply_with_preserves : auth_wf.

Ltac keeps_all :=
  unfold exec, tx_exec; cbv zeta;
  repeat (intros;
    lazymatch goal with
    | |- preserves _ (or_500 _ _) => apply or_500_preserves
    | |- preserves _ (or_zero _ _) => apply or_zero_preserves
    | |- preserves _ (bind _ _) => apply bind_preserves
    | |- preserves _ (catch _ _) => apply catch_preserves
    | |- preserves _ (scan_row _) => apply scan_row_preserves
    | |- preserves _ (try _) => apply try_preserves
    | |- preserves _ (match _ with _ => _ end) => case_goal
    | |- _ => solve [eauto with auth_wf]
    end).
