(* ===== verification/AdminProps.v ===== *)
(** * What the dashboard guarantees

    Sessions, the gate in front of the pages, what the operators' actions
    leave of the accounts, broadcasts and settings. *)
From stdpp Require Import base gmap sets list strings sorting.
From Stdlib Require Import ZArith Lia Ascii.
From S2P Require Import Prelude.
From S2P Require Import GoString.
From S2P Require Import GoText.
From S2P Require Import Sha256.
From S2P Require Import Httpx.
From S2P Require Import Types.
From S2P Require Import Db.
From S2P Require Import Store.
From S2P Require Import StoreFacts.
From S2P Require Import Broadcaster.
From S2P Require Import Service.
From S2P Require Import ServiceFacts.
From S2P Require Import Runs.
From S2P Require Import Samples.
From S2P Require Import Auth.
From S2P Require Import AuthFacts.
From S2P Require Import AuthProps.
From S2P Require Import RouteProps.
From S2P Require Import Push.
From S2P Require Import PushProps.
From S2P Require Import Feedback.
From S2P Require Import AppConfig.
From S2P Require Import ConfigProps.
From S2P Require Import Admin.
From S2P Require Import AdminFacts.

Open Scope convoy_scope.

(** ** Sessions *)

Lemma format_int_no_dot z : dot ∉ format_int z.
Proof. by intros [Hc|Hc]%format_int_chars. Qed.

(** The text of a cookie with a payload that is signed. *)
Definition session_text (secret : string) (p : bytes) : bytes :=
  let payload := to_bytes sessionVersion ++ dot :: p in payload ++ dot :: mac secret payload.

Lemma split_session secret p :
  dot ∉ p -> Split (of_bytes (session_text secret p)) dot =
    [sessionVersion; of_bytes p; of_bytes (mac secret (to_bytes sessionVersion ++ dot :: p))].
Proof.
  intros Hp. unfold Split, session_text. rewrite to_of_bytes, <-app_assoc. cbn [app].
  assert (dot ∉ to_bytes sessionVersion) as Hv 
    by (apply (bool_decide_unpack _); vm_compute; exact I).
  rewrite split_bytes_app by exact Hv. cbn [app]. rewrite split_bytes_app by exact Hp.
  rewrite split_bytes_whole by apply base64url_no_dot. cbn [fmap list_fmap]. by rewrite of_to_bytes.
Qed.

(** C30 The sessions that count: a cookie is accepted exactly when it is the
    version, a text without a dot that starts with a number of seconds, and the
    HMAC-SHA256 of both under the server's secret, and the number is at most
    seven days back.  In particular a cookie the server signed is accepted
    until seven days after the second it was signed in. *)
Theorem admin_session m now :
  (forall v, verifySession m v now = true <->
     exists p issued, v = of_bytes (session_text (CookieSecret (m_cfg m)) p) /\ (dot ∉ p) /\
       Sscanf_int64 (of_bytes p) = Some issued /\ (now - unix_time issued <= sessionLifetime * 1000000)%Z) /\
  (forall t, is_int64 t = true -> (t + 62135596800 <= max_int64)%Z ->
     verifySession m (signSession m t) now = bool_decide (now - t * 1000000 <= sessionLifetime * 1000000)%Z).
Proof.
  split.
  - intros v. split.
    + unfold verifySession. intros Hv. destruct (Split v dot) as [|p0 [|p1 [|p2 [|]]]] eqn:Hs; try done.
      destruct (bool_decide (p0 = sessionVersion)) eqn:H0; [|done]. apply bool_decide_eq_true in H0 as ->.
      destruct (bool_decide (mac _ _ = _)) eqn:Hm; [|done]. apply bool_decide_eq_true in Hm. cbn [negb] in Hv.
      destruct (Sscanf_int64 p1) as [issued|] eqn:Hi; [|done]. exists (to_bytes p1), issued.
      rewrite of_to_bytes. apply negb_true_iff, Z.ltb_ge in Hv. split; [|split; [|done]].
      * rewrite <-(of_to_bytes v). f_equal. unfold session_text. rewrite Hm. unfold Split in Hs.
        rewrite <-(split_bytes_join dot (to_bytes v)). destruct (split_bytes dot (to_bytes v)) as [|q0 [|q1 [|q2 [|]]]]; try done.
        injection Hs as <- <- <-. rewrite !to_of_bytes. simpl. by rewrite app_nil_r, <-app_assoc.
      * assert (p1 ∈ Split v dot) as Hin by (rewrite Hs; set_solver). unfold Split in Hin.
        apply list_elem_of_fmap in Hin as (q & -> & Hq). rewrite to_of_bytes. by eapply split_bytes_parts.
    + intros (p & issued & -> & Hp & Hi & Ht). unfold verifySession. rewrite split_session by done.
      rewrite bool_decide_eq_true_2 by done. cbn [negb]. rewrite !to_of_bytes, bool_decide_eq_true_2 by done. cbn [negb].
      rewrite Hi. apply negb_true_iff, Z.ltb_ge. done.
  - intros t Ht Hmax. unfold verifySession.
    assert (signSession m t = of_bytes (session_text (CookieSecret (m_cfg m)) (format_int t))) as -> by done. rewrite split_session by apply format_int_no_dot.
    rewrite bool_decide_eq_true_2 by done. cbn [negb]. rewrite !to_of_bytes, bool_decide_eq_true_2 by done. cbn [negb].
    rewrite Sscanf_format by done. unfold unix_time.
    apply andb_true_iff in Ht as [H1%Z.leb_le H2%Z.leb_le]. unfold min_int64, max_int64 in *.
    rewrite wrap64_small by (unfold min_int64, max_int64; lia).
    replace (t + 62135596800 - 62135596800)%Z with t by lia.
    destruct (Z.ltb_spec (sessionLifetime * 1000000) (now - t * 1000000)); symmetry; simpl;
      [apply bool_decide_eq_false|apply bool_decide_eq_true]; lia.
Qed.

(** ** The routes *)

Section routes.
Context {H : Type}.
Variable heap_id : uuid -> N.
Variable heap_token : string -> N.
Variable pg_timestamptz : string -> option time.
Variable net : nat -> http_request -> option http_response.
Variable ilike : string -> string -> bool.
Variable uuid_String : uuid -> string.
Variable uuid_Parse : string -> option uuid.
Variable m : Module_.

Abbreviation admin := (Mount (H:=H) heap_id heap_token pg_timestamptz net ilike uuid_String uuid_Parse m).
Abbreviation act := (perform (H:=H) heap_id heap_token pg_timestamptz net ilike uuid_String uuid_Parse m).

(** The request carries a session that counts. *)
Definition signed_in (r : admin_request) (now : time) : bool :=
  match ar_cookie r with Some v => verifySession m v now | None => false end.

(** C29 Nothing behind the login runs without a session that counts: the reply
    sends to the login, and the world is as it was; with one, the action runs
    as it is.  A session is handed out for the password and for nothing else,
    and what is handed out counts; signing in and out touches nothing. *)
Theorem admin_gate r now route (w : World H) :
  match route with
  | Protected a =>
      if signed_in r now then admin r now route w = act r a w
      else admin r now route w =
        (Ok (mkAdminResponse (if isHTMX r then HXRedirect 401 "/admin/login" else Redirect "/admin/login") None), w)
  | PostLogin now' form =>
      exists reply cookie, admin r now route w = (Ok (mkAdminResponse reply cookie), w) /\
      (is_Some cookie <-> form = Some (Password (m_cfg m))) /\
      forall c, cookie = Some c -> (0 <= now < 100000000000000000)%Z -> verifySession m (ck_Value c) now = true
  | GetLogin _ => exists reply, admin r now route w = (Ok (mkAdminResponse reply None), w)
  | PostLogout => exists c, admin r now route w = (Ok (mkAdminResponse (Redirect "/admin/login") (Some c)), w) /\
                            verifySession m (ck_Value c) now = false
  end.
Proof.
  destruct route as [err|now' form| |a]; cbn [Mount].
  - unfold loginPage. destruct (match ar_cookie r with Some _ => _ | None => _ end); by eexists.
  - unfold loginSubmit. destruct form as [pw|]; [|eexists _, None; split; [reflexivity|]; split; [split; [by intros []|done]|done]].
    destruct (decide (pw = Password (m_cfg m))) as [->|Hne].
    + rewrite bool_decide_eq_true_2 by done. eexists _, (Some _). split; [reflexivity|].
      split; [split; intros _; [reflexivity|eexists; reflexivity]|].
      intros c [= <-] Hnow. cbn [ck_Value setSession]. destruct (admin_session m now) as [_ Hs]. unfold Unix.
      pose proof (Z.mul_div_le now 1000000). pose proof (Z.mul_succ_div_gt now 1000000).
      rewrite Hs; [apply bool_decide_eq_true; unfold sessionLifetime; lia| |unfold max_int64; lia].
      apply andb_true_iff. rewrite !Z.leb_le. unfold min_int64, max_int64. lia.
    + rewrite bool_decide_eq_false_2 by done. eexists _, None. split; [reflexivity|]. split; [|done].
      split; [by intros []|congruence].
  - eexists. split; [reflexivity|]. reflexivity.
  - unfold requireAuth. fold (signed_in r now). destruct (signed_in r now); [done|]. by destruct (isHTMX r).
Qed.

Lemma perform_all r a : preserves (H:=H) all_wf (act r a).
Proof.
  destruct a; cbn [perform]; unfold dashboard, countUsers, feedbackList, broadcastList, broadcastNewForm,
    broadcastSend, recipientCount, usersList, userDetail, userSoftDelete, userRestore, userHardDelete, settingsPage,
    settingsSubmit, with_id, BroadcastList, BroadcastCount, BroadcastInsert, queryUsers, fetchUser, PushCount,
    AllTokens, DeleteTokens, FeedbackCount, FeedbackList, MinClientVersion, Get, Set_; keeps_all.
Qed.

Lemma Mount_all r now route : preserves (H:=H) all_wf (admin r now route).
Proof.
  intros w Hw. destruct route as [err|now' form| |a]; cbn [Mount]; [| |done|].
  - unfold loginPage. by destruct (match ar_cookie r with Some _ => _ | None => _ end).
  - unfold loginSubmit. destruct form as [pw|]; [|done]. by destruct (negb _).
  - unfold requireAuth. destruct (match ar_cookie r with Some _ => _ | None => _ end); [by apply perform_all|].
    by destruct (isHTMX r).
Qed.

(** Whatever an operator does, and whatever statements fail, the tables stay
    well-formed: rooms with their owner among their members, one active room
    per code, references that lead somewhere, one account per identity, push
    tokens and feedback of users who exist. *)
Theorem admin_keeps_schema r now route (w : World H) :
  all_wf (w_db w) -> all_wf (w_db (admin r now route w).2).
Proof. apply Mount_all. Qed.

(** ** Deleting and restoring accounts *)

Lemma or_500_run {A} (x : M H A) k w p :
  x w = p -> or_500 x k w = match p with (Ok a, w') => k a w' | (Fail _, w') => (Ok (mkAdminResponse (HttpError 500) None), w') end.
Proof. intros <-. unfold or_500, bind, try. by destruct (x w) as [[a|e] w']. Qed.

(** The rooms of a user. *)
Definition owned (id : uuid) (t : Tables) (r : uuid) : Prop :=
  exists x, t_rooms t !! r = Some x /\ r_owner_id x = id.

(** What is left when the row of a user was deleted: of every table exactly
    the rows that are neither the user's nor in a room of the user's. *)
Record user_erased (id : uuid) (t t' : Tables) : Prop := {
  ue_users : t_users t' = delete id (t_users t);
  ue_rooms : forall r x, t_rooms t' !! r = Some x <-> t_rooms t !! r = Some x /\ r_owner_id x <> id;
  ue_members : forall r u m, t_members t' !! (r, u) = Some m <->
                 t_members t !! (r, u) = Some m /\ u <> id /\ ~ owned id t r;
  ue_markers : forall r u k, t_markers t' !! (r, u) = Some k <->
                 t_markers t !! (r, u) = Some k /\ u <> id /\ ~ owned id t r;
  ue_stops : forall i s, t_stops t' !! i = Some s <-> t_stops t !! i = Some s /\ ~ owned id t (s_room_id s);
  ue_messages : forall i g, t_messages t' !! i = Some g <->
                  t_messages t !! i = Some g /\ g_user_id g <> id /\ ~ owned id t (g_room_id g);
  ue_identities : forall i x, t_identities t' !! i = Some x <-> t_identities t !! i = Some x /\ i_user_id x <> id;
  ue_tokens : forall k r, t_push_tokens t' !! k = Some r <-> t_push_tokens t !! k = Some r /\ p_user_id r <> id;
  ue_feedback : forall i, t_feedback t' !! i =
                  (fun f => mkFeedbackRow (if bool_decide (f_user_id f = Some id) then None else f_user_id f)
                              (f_message f) (f_created_at f)) <$> t_feedback t !! i;
  ue_broadcasts : t_broadcasts t' = t_broadcasts t;
  ue_app_config : t_app_config t' = t_app_config t;
}.

Lemma room_gone_owned id t r : room_gone id t r = false <-> ~ owned id t r.
Proof.
  unfold room_gone, owned. destruct (t_rooms t !! r) as [x|]; [|split; [by intros _ (? & [=] & _)|done]].
  rewrite bool_decide_eq_false. split; [by intros ? (? & [= <-] & ?)|intros Hno Ho; apply Hno; eauto].
Qed.

Lemma cascade_erased id t : user_erased id t (cascade_user id t).
Proof.
  split; simpl; intros; rewrite ?map_lookup_filter_Some; simpl; rewrite ?room_gone_owned; try done.
  1-3: split; [intros [[? ?] ?]|intros (? & ? & ?)]; done.
  rewrite lookup_fmap. destruct (t_feedback t !! i) as [[? ? ?]|]; simpl; [|done]. by case_bool_decide.
Qed.

Lemma referred_spec id t :
  user_referred id (user_actions id t) = true <->
  (exists r x, t_rooms t !! r = Some x /\ r_owner_id x <> id /\ r_dest_set_by x = Some id) \/
  (exists i s, t_stops t !! i = Some s /\ s_created_by s = Some id).
Proof.
  unfold user_referred. rewrite orb_true_iff, !existsb_exists. simpl. split.
  - intros [([i x] & Hin & Hk)|([i s] & Hin & Hk)]; apply list_elem_of_In, elem_of_map_to_list in Hin;
      apply bool_decide_eq_true in Hk; simpl in *; [left|right; eauto].
    apply map_lookup_filter_Some in Hin as [Hin Hc]. eauto.
  - intros [(i & x & Hx & Hne & Hk)|(i & s & Hx & Hk)]; [left|right]; eexists (i, _);
      (split; [apply list_elem_of_In, elem_of_map_to_list|by apply bool_decide_eq_true]); [|done].
    by apply map_lookup_filter_Some.
Qed.

Lemma hard_delete_run r p id u (w : World H) :
  fault_free w -> uuid_Parse p = Some id -> t_users (w_db w) !! id = Some u ->
  obs (act r (PostHardDelete p) w) =
    if user_referred id (user_actions id (w_db w)) then (Ok (mkAdminResponse (HttpError 500) None), w_db w, w_rt w)
    else (Ok (mkAdminResponse (if isHTMX r then HXRedirect 200 "/admin/users" else Redirect "/admin/users") None),
          cascade_user id (w_db w), w_rt w).
Proof.
  intros Hw Hp Hu. cbn [perform]. unfold userHardDelete, with_id. rewrite Hp. rewrite <-(set_db_skip 0 w) at 1.
  erewrite or_500_run by (apply exec_run; done). cbn [forallb]. unfold hard_delete_user at 1. rewrite Hu.
  destruct (user_referred id _); apply obs_set_db.
Qed.

(** C32 Removing a user for good: it fails with 500, and changes nothing,
    exactly when a destination the user set is in a room that somebody else
    owns, or a stop the user added is still in any room, one of the user's own
    included - those references have no action on deletion, and are checked
    before the rooms' own rows go; otherwise the account, its rooms and all
    that was in them, its memberships, markers, messages, identities and tokens
    are gone, its feedback stays without an author, and nothing else changes. *)
Theorem hard_delete_spec r p id (w : World H) :
  fault_free w -> uuid_Parse p = Some id -> is_Some (t_users (w_db w) !! id) ->
  let t := w_db w in
  let blocked :=
    (exists r x, t_rooms t !! r = Some x /\ r_owner_id x <> id /\ r_dest_set_by x = Some id) \/
    (exists i s, t_stops t !! i = Some s /\ s_created_by s = Some id) in
  exists reply t', obs (act r (PostHardDelete p) w) = (Ok (mkAdminResponse reply None), t', w_rt w) /\
    (blocked -> reply = HttpError 500 /\ t' = t) /\
    (~ blocked ->
       reply = (if isHTMX r then HXRedirect 200 "/admin/users" else Redirect "/admin/users") /\
       user_erased id t t').
Proof.
  intros Hw Hp [u Hu] t blocked. pose proof (referred_spec id t) as Href. fold blocked in Href.
  rewrite (hard_delete_run r p id u w) by done. fold t.
  destruct (user_referred id (user_actions id t)); eexists _, _; (split; [reflexivity|]).
  - split; [done|]. intros []. by apply Href.
  - split; [by intros ?%Href|]. intros _. split; [done|]. apply cascade_erased.
Qed.

(** The tables after a soft deletion, with the times its statements see. *)
Lemma soft_delete_run p id (w : World H) :
  fault_free w -> uuid_Parse p = Some id ->
  obs (userSoftDelete uuid_String uuid_Parse p w) =
    (Ok (mkAdminResponse (Redirect (user_url uuid_String id)) None),
     account_deleted (clock 1 w) (clock 2 w) (clock 3 w) id (w_db w), w_rt w).
Proof.
  intros Hw Hp. unfold userSoftDelete, with_id. rewrite Hp. rewrite <-(set_db_skip 0 w) at 1.
  erewrite or_500_run by (apply exec_run; done). cbn [forallb]. unfold delete_user at 1, account_deleted.
  destruct (t_users (w_db w) !! id) as [u|]; [destruct (user_live u)|];
    (erewrite or_500_run by (apply exec_run; done); cbn [forallb]; unfold end_owned_rooms at 1;
     erewrite or_500_run by (apply exec_run; done); cbn [forallb]; unfold drop_memberships at 1; apply obs_set_db).
Qed.

Lemma restore_run p id (w : World H) :
  fault_free w -> uuid_Parse p = Some id ->
  obs (userRestore uuid_String uuid_Parse p w) =
    (Ok (mkAdminResponse (Redirect (user_url uuid_String id)) None), set_users (alter clear_deleted id) (w_db w), w_rt w).
Proof.
  intros Hw Hp. unfold userRestore, with_id. rewrite Hp. rewrite <-(set_db_skip 0 w) at 1.
  erewrite or_500_run by (apply exec_run; done). cbn [forallb]. apply obs_set_db.
Qed.

(** C35 Taking an account offline and restoring it at once: the account of a live user
    is gone in between, as after the user's own deletion, and afterwards its
    row is what it was; its rooms stay ended and its memberships left, which
    the restoration does not undo. *)
Theorem soft_delete_restored p id u (w w' : World H) :
  fault_free w -> fault_free w' -> uuid_Parse p = Some id ->
  t_users (w_db w) !! id = Some u -> u_deleted_at u = None ->
  let t := w_db w in
  let t1 := (obs (userSoftDelete uuid_String uuid_Parse p w)).1.2 in
  w_db w' = t1 ->
  let t2 := (obs (userRestore uuid_String uuid_Parse p w')).1.2 in
  account_gone id t t1 /\ select_user id t1 = None /\
  t_users t2 = t_users t /\ t_rooms t2 = t_rooms t1 /\ t_members t2 = t_members t1 /\
  (forall r x, t_rooms t2 !! r = Some x -> r_owner_id x = id -> r_ended_at x <> None) /\
  (forall r m, t_members t2 !! (r, id) = Some m -> m_left_at m <> None).
Proof.
  intros Hw Hw' Hp Hu Hl t t1 Ht1 t2. unfold t2, t1 in *. rewrite (soft_delete_run p id w) in * by done.
  rewrite (restore_run p id w') by done. simpl in Ht1. rewrite Ht1. cbn [fst snd].
  pose proof (account_deleted_gone (clock 1 w) (clock 2 w) (clock 3 w) id t ltac:(by eexists)) as Hg.
  split; [exact Hg|]. split; [apply deleted_select, (ag_user _ _ _ Hg)|]. split.
  - unfold account_deleted. unfold t in *. rewrite Hu. unfold user_live. rewrite bool_decide_eq_true_2 by done.
    simpl. apply map_eq. intros v. rewrite lookup_alter. case_decide as Hv; [subst v|].
    + rewrite lookup_insert_eq. simpl. rewrite Hu. f_equal. destruct u. simpl in *. by subst.
    + by rewrite lookup_insert_ne.
  - split; [done|]. split; [done|]. split; [apply (ag_rooms _ _ _ Hg)|apply (ag_members _ _ _ Hg)].
Qed.

(** ** Broadcasts *)

Definition broadcast_data : list (string * json) := [("type", JStr "broadcast")].

Lemma token_rows_perm t : token_rows heap_token t ≡ₚ (map_to_list (t_push_tokens t)).*1.
Proof. apply merge_sort_Permutation. Qed.

Lemma token_rows_in t k : k ∈ token_rows heap_token t <-> is_Some (t_push_tokens t !! k).
Proof.
  rewrite token_rows_perm, list_elem_of_fmap. split.
  - intros ([k' r] & -> & Hin%elem_of_map_to_list). by eexists.
  - intros [r Hr]. exists (k, r). split; [done|]. by apply elem_of_map_to_list.
Qed.

Lemma token_rows_length t : length (token_rows heap_token t) = size (t_push_tokens t).
Proof. rewrite token_rows_perm, length_fmap. apply length_map_to_list. Qed.

(** Deleting the invalid tokens of a result, or not asking when there is none. *)
Lemma prune_run toks k t w :
  fault_free w -> Forall (fun x => pg_text_ok x = true) toks ->
  exists j, k <= j <= S k /\
  (if bool_decide (toks = []) then ret (Ok tt) else try (DeleteTokens toks)) (set_db t (skip k w)) =
    (Ok (Ok tt), set_db (set_push_tokens (filter (fun kv => kv.1 ∉ toks)) t) (skip j w) : World H).
Proof.
  intros Hw Ht. case_bool_decide as He.
  - subst toks. exists k. split; [lia|]. unfold ret. f_equal. f_equal. unfold set_push_tokens. destruct t. f_equal.
    simpl. symmetry. apply map_filter_id. intros i x _. simpl. apply not_elem_of_nil.
  - exists (S k). split; [lia|]. unfold try, DeleteTokens. rewrite bool_decide_eq_false_2 by done.
    unfold catch. rewrite exec_run by done.
    assert (forallb pg_text_ok toks = true) as -> by (apply forallb_forall; rewrite Forall_forall in Ht; intros x Hx; apply Ht, list_elem_of_In, Hx).
    done.
Qed.

(** C31 A broadcast goes to every registered device, when Expo answers each batch
    with one ticket per message, as it documents: the devices Expo reports as
    gone are forgotten, the others stay, and one row records the texts, the
    number of devices and what became of them.  The texts are the first 80 and
    240 bytes of the form's; when that cut leaves no valid text the devices
    have been notified, but the reply is 500 and no row is stored. *)
Theorem broadcast_spec r title body (w : World H) :
  fault_free w ->
  let t := w_db w in
  let ti := clip 80 (TrimSpace title) in let bo := clip 240 (TrimSpace body) in
  let tokens := token_rows heap_token t in
  TrimSpace title <> "" -> TrimSpace body <> "" -> t_push_tokens t <> ∅ ->
  (forall k, is_Some (t_push_tokens t !! k) -> pg_text_ok k = true) ->
  (Z.of_nat (size (t_push_tokens t)) <= max_int32)%Z ->
  (forall n, has (t_broadcasts t) (fresh_id n w) = false) ->
  answered_in_full net (Expo (m_cfg m)) ti bo broadcast_data tokens ->
  exists res id now, Send net (Expo (m_cfg m)) tokens ti bo broadcast_data = Some res /\
    Delivered res + Failed res = size (t_push_tokens t) /\
    let t1 := set_push_tokens (filter (fun kv => kv.1 ∉ InvalidTokens res)) t in
    obs (act r (PostBroadcast (Some (title, body))) w) =
      if pg_text_ok ti && pg_text_ok bo then
        (Ok (mkAdminResponse (Render "broadcast_result.html" (BroadcastResultPage (size (t_push_tokens t)) (Delivered res) (Failed res)
                                        (length (InvalidTokens res)))) None),
         set_broadcasts <[id := mkBroadcastRow ti bo now (Z.of_nat (size (t_push_tokens t)))
                                  (Z.of_nat (Delivered res)) (Z.of_nat (Failed res))]> t1, w_rt w)
      else (Ok (mkAdminResponse (HttpError 500) None), t1, w_rt w).
Proof.
  intros Hw t ti bo tokens Hti Hbo Hne Htext Hmax Hfresh Hfull.
  destruct (send_counts net (Expo (m_cfg m)) tokens ti bo broadcast_data) as (res & Hsend & Hsub & Hcount).
  specialize (Hcount Hfull). rewrite <-token_rows_length in Hmax |- *. fold tokens in Hmax, Hcount |- *.
  exists res. cbn [perform]. unfold broadcastSend. rewrite !bool_decide_eq_false_2 by done. cbn [orb]. cbv zeta.
  fold ti bo broadcast_data. 
  assert (tokens <> []) as Htok.
  { intros E. apply Hne, map_empty. intros k. apply eq_None_not_Some. intros Hk%token_rows_in. fold tokens in Hk.
    rewrite E in Hk. by apply not_elem_of_nil in Hk. }
  assert (Forall (fun x => pg_text_ok x = true) (InvalidTokens res)) as Hinv.
  { apply Forall_forall. intros x Hx. apply Htext, token_rows_in. fold tokens. by eapply elem_of_sublist. }
  destruct (prune_run (InvalidTokens res) 1 t w Hw Hinv) as (j & Hj & Hprune).
  exists (fresh_id j w), (clock (S j) w). split; [done|]. split; [done|].
  rewrite <-(set_db_skip 0 w) at 1. unfold AllTokens. erewrite or_500_run by (apply exec_run; done).
  cbn [forallb]. unfold select at 1. fold t tokens. rewrite bool_decide_eq_false_2 by done. rewrite Hsend. cbn [default].
  unfold id. rewrite bind_unfold, Hprune. unfold BroadcastInsert. set (t1 := set_push_tokens _ t).
  erewrite or_500_run by (rewrite bind_unfold, exec_run by done; reflexivity).
  cbn [forallb]. rewrite andb_true_r. destruct (pg_text_ok ti && pg_text_ok bo); [|apply obs_set_db].
  unfold insert_broadcast. cbv zeta. change (t_broadcasts t1) with (t_broadcasts t). rewrite Hfresh.
  assert ((max_int32 <? Z.of_nat (length tokens `max` (Delivered res `max` Failed res)))%Z = false) as ->.
  { apply Z.ltb_ge. lia. }
  apply obs_set_db.
Qed.

(** ** Settings *)

(** A text of digits and dots is one that the database takes and that has
    nothing to trim. *)
Definition version_byte (c : ascii) : bool := in_range 48 57 (byte_val c) || bool_decide (c = dot).

Lemma version_runes x :
  forallb version_byte (to_bytes x) = true ->
  to_bytes x = encode_runes (byte_val <$> to_bytes x) /\
  Forall (fun r => valid_rune r = true /\ IsSpace r = false /\ r <> 0%N) (byte_val <$> to_bytes x).
Proof.
  induction (to_bytes x) as [|c b IH]; [done|]. cbn [forallb fmap list_fmap].
  intros [Hc Hb]%andb_true_iff. destruct (IH Hb) as [E Hall].
  assert ((byte_val c < 128)%N /\ valid_rune (byte_val c) = true /\ IsSpace (byte_val c) = false /\ byte_val c <> 0%N)
    as (Hlt & Hrune).
  { unfold version_byte in Hc. apply orb_true_iff in Hc as [Hd|Hd].
    - pose proof Hd as [? ?]%in_range_true. split; [lia|]. split; [|split; [by apply digit_not_space|lia]].
      unfold valid_rune, is_surrogate, in_range, MaxRune. apply andb_true_iff. split; [apply N.leb_le; lia|].
      apply negb_true_iff, andb_false_iff. left. apply N.leb_gt. lia.
    - apply bool_decide_eq_true in Hd as ->. split; [reflexivity|]. vm_compute. done. }
  split; [|by constructor]. rewrite encode_runes_cons, <-E.
  assert (encode_rune (byte_val c) = [c]) as ->; [|done].
  rewrite encode_rune_valid by apply Hrune. unfold encode_valid. destruct (N.ltb_spec (byte_val c) 128); [|lia].
  by rewrite byte_of_val.
Qed.

Lemma version_text x :
  forallb version_byte (to_bytes x) = true -> pg_text_ok x = true /\ TrimSpace x = x.
Proof.
  intros Hx. destruct (version_runes x Hx) as [E Hall]. split.
  - unfold pg_text_ok, ValidString. rewrite E at 1. rewrite valid_encode_runes. cbn [andb].
    apply bool_decide_eq_true. intros Hin. rewrite Forall_forall in Hall.
    destruct (Hall (byte_val (ascii_of_N 0))) as (_ & _ & Hne); [apply list_elem_of_fmap; by eexists|]. by apply Hne.
  - assert (TrimSpace x = of_bytes (trim_space (encode_runes (byte_val <$> to_bytes x)))) as ->
      by (unfold TrimSpace; by rewrite <-E).
    rewrite trim_space_encode by (eapply Forall_impl; [exact Hall|]; by intros r [? _]).
    assert (trim_runes (byte_val <$> to_bytes x) = byte_val <$> to_bytes x) as ->.
    { assert (forall rs, Forall (fun r => valid_rune r = true /\ IsSpace r = false /\ r <> 0%N) rs -> drop_spaces rs = rs) as Hd.
      { intros [|r rs] Hr; [done|]. apply drop_spaces_fix. intros q [= <-]. apply Forall_cons in Hr. apply Hr. }
      unfold trim_runes. rewrite (Hd _ Hall), Hd by (by apply Forall_reverse). apply reverse_involutive. }
    by rewrite <-E, of_to_bytes.
Qed.

Lemma semver_bytes x : semver x = true -> forallb version_byte (to_bytes x) = true /\ x <> "".
Proof.
  unfold semver, Split. intros Hs. rewrite <-(split_bytes_join dot (to_bytes x)).
  assert (x <> "") as Hne by (intros ->; vm_compute in Hs; done).
  destruct (split_bytes dot (to_bytes x)) as [|a [|b [|c [|]]]]; try done. split; [|done].
  cbn [fmap list_fmap] in Hs. rewrite !to_of_bytes in Hs. apply andb_true_iff in Hs as [[Ha Hb]%andb_true_iff Hc].
  assert (forall p, all_digits p = true -> forallb version_byte p = true) as Hdig.
  { intros p [_ Hp]%andb_true_iff. rewrite forallb_forall in Hp |- *. intros z Hz. unfold version_byte. by rewrite Hp. }
  simpl. rewrite app_nil_r. rewrite !forallb_app. cbn [forallb]. rewrite forallb_app. cbn [forallb].
  rewrite !Hdig by done. done.
Qed.

Lemma Set_run key v k t (w : World H) :
  fault_free w -> pg_text_ok key = true -> pg_text_ok v = true ->
  Set_ key v (set_db t (skip k w)) =
    (Ok tt, set_db (set_app_config <[key := mkConfigRow v (clock (S k) w)]> t) (skip (S k) w)).
Proof. intros Hw Hk Hv. unfold Set_. rewrite exec_run by done. simpl. by rewrite Hk, Hv. Qed.

Lemma ConfigHandler_run k t (w : World H) :
  fault_free w ->
  ConfigHandler (set_db t (skip k w)) =
    (Ok (JSON 200 (mkPublicConfig
       (match t_app_config t !! KeyMinClientVersion with
        | Some row => if bool_decide (TrimSpace (cfg_value row) = "") then "0.0.0" else TrimSpace (cfg_value row)
        | None => "0.0.0"
        end) [])), set_db t (skip (S k) w)).
Proof.
  intros Hw. unfold ConfigHandler, MinClientVersion, Get, try, scan_row. rewrite !bind_unfold, exec_run by done.
  cbn [forallb]. assert (pg_text_ok KeyMinClientVersion = true) as -> by reflexivity. cbn [andb]. unfold select.
  by destruct (t_app_config t !! KeyMinClientVersion).
Qed.

Lemma settingsSubmit_run v (w : World H) :
  fault_free w -> HasAppCfg (m_cfg m) = true ->
  obs (settingsSubmit m (Some v) w) =
    if semver (TrimSpace v)
    then (Ok (mkAdminResponse (Redirect "/admin/settings?flash=saved") None),
          set_app_config <[KeyMinClientVersion := mkConfigRow (TrimSpace v) (clock 1 w)]> (w_db w), w_rt w)
    else (Ok (mkAdminResponse (Redirect "/admin/settings?err=bad_version") None), w_db w, w_rt w).
Proof.
  intros Hw Hcfg. unfold settingsSubmit. rewrite Hcfg. cbn [negb]. cbv zeta.
  destruct (semver (TrimSpace v)) eqn:Hs; [|done]. cbn [negb]. pose proof (semver_bytes _ Hs) as [Hb _].
  destruct (version_text _ Hb) as [Htext _].
  rewrite <-(set_db_skip 0 w) at 1. rewrite bind_unfold. unfold try. rewrite Set_run by done. apply obs_set_db.
Qed.

(** C34 The minimum version an operator submits is what the clients are told
    for as long as the setting stands: a text of three runs of digits, its
    surrounding space removed, is stored, and every read of the public
    configuration that finds the row of that setting as it was stored,
    whatever else has changed since, carries exactly it; anything else changes
    nothing. *)
Theorem settings_round_trip r v (w : World H) :
  fault_free w -> HasAppCfg (m_cfg m) = true ->
  let min := TrimSpace v in
  let '(res, t', h) := obs (act r (PostSettings (Some v)) w) in
  if semver min then
    res = Ok (mkAdminResponse (Redirect "/admin/settings?flash=saved") None) /\ h = w_rt w /\
    t' = set_app_config <[KeyMinClientVersion := mkConfigRow min (clock 1 w)]> (w_db w) /\
    forall w' : World H, fault_free w' ->
      t_app_config (w_db w') !! KeyMinClientVersion = t_app_config t' !! KeyMinClientVersion ->
      obs (ConfigHandler w') = (Ok (JSON 200 (mkPublicConfig min [])), w_db w', w_rt w')
  else res = Ok (mkAdminResponse (Redirect "/admin/settings?err=bad_version") None) /\ h = w_rt w /\ t' = w_db w.
Proof.
  intros Hw Hcfg min. cbn [perform]. rewrite settingsSubmit_run by done. fold min.
  destruct (semver min) eqn:Hs; [|done]. pose proof (semver_bytes _ Hs) as [Hb Hne].
  destruct (version_text _ Hb) as [_ Htrim]. do 3 (split; [done|]). intros w' Hw' Hrow.
  rewrite <-(set_db_skip 0 w') at 1. rewrite ConfigHandler_run by done. rewrite Hrow. simpl t_app_config.
  rewrite lookup_insert_eq. cbn [cfg_value]. rewrite Htrim, bool_decide_eq_false_2 by done. apply obs_set_db.
Qed.
End routes.

(** ** A concrete dashboard *)

Definition console : Module_ :=
  mkModule (mkAdminConfig "hunter2" "0123456789abcdef" true (NewExpoClient "") true).

(** The hour is 2024-01-01; the operator signed in a day before. *)
Definition new_year : time := 1704067200000000.
Definition operator : admin_request := mkAdminRequest (Some (signSession console 1703980800)) "" true "".
Definition htmx_stranger : admin_request := mkAdminRequest (Some "v1.1703980800.AAAA") "true" false "HTTPS".

(** Expo knows every device but the one whose token ends in [[x]]. *)
Definition expo_net (_ : nat) (rq : http_request) : option http_response :=
  Some (mkHttpResponse 200 (Some (Some (mkTickets
    ((fun msg => if bool_decide (To msg = "ExpoPushToken[x]")
                 then mkTicket "error" "" "" {["error" := JStr "DeviceNotRegistered"]} else mkTicket "ok" "1" "" ∅)
       <$> rq_body rq) [])))).

Abbreviation console_serves := (Mount (H:=list rt_call) (fun i => i) (fun _ => 0%N) (fun _ => None) expo_net
  (fun _ _ => false) plain_String plain_Parse console).
Abbreviation console_does := (perform (H:=list rt_call) (fun i => i) (fun _ => 0%N) (fun _ => None) expo_net
  (fun _ _ => false) plain_String plain_Parse console).

Example sessions :
  signed_in console operator new_year = true /\ signed_in console operator (new_year + 604800000000) = false /\
  signed_in console htmx_stranger new_year = false /\ secure htmx_stranger = true.
Proof. vm_compute. done. Qed.

(** Two devices are registered. *)
Definition devices_world : World (list rt_call) :=
  set_db (set_push_tokens (fun _ => <["ExpoPushToken[x]" := mkPushTokenRow 1 "ios" 0]>
    (<["ExpoPushToken[y]" := mkPushTokenRow 2 "android" 0]> ∅)) (w_db start_world)) start_world.

Lemma devices_side : all_wf (w_db devices_world).
Proof.
  split; [by apply (full_wf_same (w_db start_world)); [..|apply start_wf]|]. split; simpl.
  - intros k r. rewrite !lookup_insert, lookup_empty. repeat case_decide; [| |done]; intros [= <-]; vm_compute; eauto.
  - intros i f u. by rewrite lookup_empty.
Qed.

Lemma admin_keeps_schema_witness :
  all_wf (w_db devices_world) /\
  all_wf (w_db (console_serves operator new_year (Protected (PostHardDelete "2")) devices_world).2).
Proof.
  split; [apply devices_side|]. apply admin_keeps_schema. apply devices_side.
Defined.

(** Ada set the destination and added stops, then handed the room to Bob:
    nobody can remove her for good. *)
Definition handed_over : World (list rt_call) :=
  run_service (Some trace_broadcaster) (fun r => r) [SvcOwner (OpTransferOwnership 2) 101 1] route_world.

Lemma obs_answer {H A} {p : result A * World H} {a t h} : obs p = (a, t, h) -> p.1 = a.
Proof. by intros [= -> _ _]. Qed.
Lemma obs_tables {H A} {p : result A * World H} {a t h} : obs p = (a, t, h) -> w_db p.2 = t.
Proof. by intros [= _ -> _]. Qed.

Lemma obs_db {H A} (p : result A * World H) : (obs p).1.2 = w_db p.2.
Proof. done. Qed.

(** Nobody set a destination or added a stop for user 3; of the convoy of
    [route_world] user 1 is the owner and added the stops in the own room. *)
Lemma hard_delete_spec_witness :
  (console_does operator (PostHardDelete "1") handed_over).1 = Ok (mkAdminResponse (HttpError 500) None) /\
  (console_does operator (PostHardDelete "1") route_world).1 = Ok (mkAdminResponse (HttpError 500) None) /\
  t_users (w_db (console_does operator (PostHardDelete "3") handed_over).2) !! 3%N = None.
Proof.
  assert (fault_free handed_over) as Hw by (intros n; vm_compute; reflexivity).
  split; [|split].
  - destruct (hard_delete_spec (fun i => i) (fun _ => 0%N) (fun _ => None) expo_net (fun _ _ => false) plain_String
      plain_Parse console operator "1" 1 handed_over Hw) as (reply & t' & Hobs & Hb & _);
      [vm_compute; reflexivity|vm_compute; eexists; reflexivity|].
    destruct Hb as [-> _]; [|exact (obs_answer Hobs)]. apply referred_spec. vm_compute. reflexivity.
  - destruct (hard_delete_spec (fun i => i) (fun _ => 0%N) (fun _ => None) expo_net (fun _ _ => false) plain_String
      plain_Parse console operator "1" 1 route_world route_world_calm) as (reply & t' & Hobs & Hb & _);
      [vm_compute; reflexivity|vm_compute; eexists; reflexivity|].
    destruct Hb as [-> _]; [|exact (obs_answer Hobs)]. apply referred_spec. vm_compute. reflexivity.
  - destruct (hard_delete_spec (fun i => i) (fun _ => 0%N) (fun _ => None) expo_net (fun _ _ => false) plain_String
      plain_Parse console operator "3" 3 handed_over Hw) as (reply & t' & Hobs & _ & Hf);
      [vm_compute; reflexivity|vm_compute; eexists; reflexivity|].
    destruct Hf as [_ He].
    + intros Hb%referred_spec. vm_compute in Hb. discriminate Hb.
    + rewrite (obs_tables Hobs), (ue_users _ _ _ He). apply lookup_delete_eq.
Defined.

Lemma soft_delete_restored_witness :
  let w1 := (userSoftDelete plain_String plain_Parse "1" route_world).2 in
  let t2 := (obs (userRestore plain_String plain_Parse "1" w1)).1.2 in
  t_users t2 = t_users (w_db route_world) /\ (r_ended_at <$> t_rooms t2 !! 101%N) <> Some None.
Proof.
  cbv zeta. pose proof (soft_delete_restored plain_String plain_Parse "1" 1 (person "ada") route_world
    (userSoftDelete plain_String plain_Parse "1" route_world).2) as Hs.
  cbv zeta in Hs. destruct Hs as (_ & _ & Hu & _ & _ & Hr & _);
    [apply route_world_calm|intros n; vm_compute; reflexivity|vm_compute; reflexivity..|symmetry; apply obs_db|].
  split; [exact Hu|]. intros E. destruct (t_rooms _ !! 101%N) as [x|] eqn:Hx in E; [|done].
  apply (Hr 101%N x Hx); [|by injection E]. vm_compute in Hx. injection Hx as <-. reflexivity.
Defined.

Lemma broadcast_spec_witness :
  (console_does operator (PostBroadcast (Some (" Hello ", "World"))) devices_world).1 =
    Ok (mkAdminResponse (Render "broadcast_result.html" (BroadcastResultPage 2 1 1 1)) None).
Proof.
  destruct (broadcast_spec (fun i => i) (fun _ => 0%N) (fun _ => None) expo_net (fun _ _ => false) plain_String
    plain_Parse console operator " Hello " "World" devices_world) as (res & id & now & Hsend & _ & Hobs).
  - intros n. reflexivity.
  - vm_compute. discriminate.
  - vm_compute. discriminate.
  - vm_compute. discriminate.
  - intros k. simpl. rewrite !lookup_insert, lookup_empty. repeat case_decide; subst; [reflexivity..|by intros []].
  - vm_compute. discriminate.
  - intros n. reflexivity.
  - intros n tks. unfold send. destruct (marshal_ok _); [|done]. simpl. intros [= <-]. cbn [Tks_Data].
    rewrite length_fmap. unfold batch_messages. apply length_fmap.
  - vm_compute in Hsend. injection Hsend as <-.
    refine (eq_trans (f_equal (fun x => x.1.1) Hobs) _). vm_compute. reflexivity.
Defined.

(** After the operator has set the version, a guest registers; then the app
    asks. *)
Lemma settings_round_trip_witness :
  let w1 := (console_does operator (PostSettings (Some " 1.20.3 ")) start_world).2 in
  let w2 := (HandleGuest plain_String plain_sign desk 0 0 (guest_body "Dee") w1).2 in
  (obs (ConfigHandler w2)).1.1 = Ok (JSON 200 (mkPublicConfig "1.20.3" [])).
Proof.
  cbv zeta.
  pose proof (settings_round_trip (fun i => i) (fun _ => 0%N) (fun _ => None) expo_net (fun _ _ => false) plain_String
    plain_Parse console operator " 1.20.3 " start_world) as Hs.
  assert (semver (TrimSpace " 1.20.3 ") = true) as E by (vm_compute; reflexivity).
  cbv zeta in Hs. destruct (obs (console_does operator (PostSettings (Some " 1.20.3 ")) start_world)) as [[res t'] h] eqn:Ho.
  rewrite E in Hs. destruct Hs as (_ & _ & Ht' & Hget); [intros n; reflexivity|reflexivity|].
  rewrite Hget; [vm_compute; reflexivity|intros n; vm_compute; reflexivity|].
  rewrite Ht'. vm_compute. reflexivity.
Defined.

(** A title of 79 letters and an accented one is cut inside the last letter:
    the device that is gone is forgotten, so the messages went out, but the
    reply is 500 and nothing is recorded. *)
Definition long_title : string := of_bytes (replicate 79 (byte_of 97)) +:+ "é".

Example broadcast_cut_unrecorded :
  let '(res, w') := console_does operator (PostBroadcast (Some (long_title, "World"))) devices_world in
  res = Ok (mkAdminResponse (HttpError 500) None) /\ t_broadcasts (w_db w') = ∅ /\
  (map_to_list (t_push_tokens (w_db w'))).*1 = ["ExpoPushToken[y]"].
Proof. vm_compute. done. Qed.

(** The statements of [userSoftDelete] are not a transaction: when the second
    fails the account is gone and its room goes on. *)
Definition second_fails : Env :=
  mkEnv (fun n => mkStmtIn (if n =? 1 then FailBefore else NoFault) 1 (500 + N.of_nat n)) (fun _ => None).

Example soft_delete_partial :
  let w := mkWorld (w_db route_world) 0 second_fails 0 0 ([] : list rt_call) in
  let '(res, w') := userSoftDelete plain_String plain_Parse "1" w in
  res = Ok (mkAdminResponse (HttpError 500) None) /\ select_user 1 (w_db w') = None /\
  (r_ended_at <$> t_rooms (w_db w') !! 101%N) = Some None.
Proof. vm_compute. done. Qed.

(** The initials of a name outside of ASCII are no text: [initials] takes the
    first byte. *)
Example initials_of_bytes :
  initials (fun r => r) "Ada Lovelace" = "AL" /\ initials (fun r => r) "Élan" = of_bytes (encode_rune 65533).
Proof. vm_compute. done. Qed.
