(* ===== verification/AdminPages.v ===== *)
(** * The pages of the dashboard: [parsePages] and [render]

    Which templates [internal/admin/admin.go] parses at the start, which set
    of them each page is executed with, and what reaches the browser when a
    template fails.  The text of the templates is not modelled: a set of
    templates maps the names it defines to the files they come from, and
    [execute] is what executing one writes. *)
From stdpp Require Import base gmap sets list strings.
From Stdlib Require Import ZArith Lia Ascii.
From S2P Require Import Prelude.
From S2P Require Import GoString.
From S2P Require Import Httpx.
From S2P Require Import Types.
From S2P Require Import Db.
From S2P Require Import StoreFacts.
From S2P Require Import Auth.
From S2P Require Import Push.
From S2P Require Import Feedback.
From S2P Require Import AppConfig.
From S2P Require Import Admin.

Open Scope convoy_scope.

(** ** Template sets *)

Definition template_set := gmap string string.

(** The templates that the files under [templates/] define, besides the one
    with the file's own name. *)
Definition template_defines (file : string) : list string :=
  if bool_decide (file = "layout.html") then ["layout"; "content"]
  else if bool_decide (file ∈ ["dashboard.html"; "feedback.html"; "broadcasts.html"; "broadcast_new.html"; "users.html";
                               "user_detail.html"; "settings.html"]) then ["content"]
  else [].

Definition withLayout : list string :=
  ["dashboard.html"; "feedback.html"; "broadcasts.html"; "broadcast_new.html"; "users.html"; "user_detail.html"; "settings.html"].

Definition standalone : list string := ["login.html"; "broadcast_result.html"; "_recipient_count.html"].

Definition newline : string := String (ascii_of_nat 10) EmptyString.

Section pages.
(** [err.Error()]. *)
Variable error_text : error -> string.
(** What parsing a file comes to, and executing the template of that name in a
    set: the bytes written before it ended, and its error. *)
Variable parse : string -> option error.
Variable execute : template_set -> string -> page -> string * option error.

(** [ParseFS] adds the file's templates to the set; a name defined again is
    replaced. *)
Definition ParseFS (t : template_set) (file : string) : template_set + (string * error) :=
  match parse file with
  | Some e => inr (file, e)
  | None => inl (foldl (fun t name => <[name := file]> t) t (file :: template_defines file))
  end.

(** One of the two loops of [parsePages]: each file on top of [base]. *)
Fixpoint parse_each (base : template_set) (files : list string) (pages : gmap string template_set)
    : gmap string template_set + (string * error) :=
  match files with
  | [] => inl pages
  | name :: files' =>
      match ParseFS base name with
      | inr e => inr e
      | inl t => parse_each base files' (<[name := t]> pages)
      end
  end.

Definition parsePages : gmap string template_set + (string * error) :=
  match ParseFS ∅ "layout.html" with
  | inr e => inr e
  | inl layout =>
      match parse_each layout withLayout ∅ with
      | inr e => inr e
      | inl pages => parse_each ∅ standalone pages
      end
  end.

(** What [parsePages] tells [New]; the text that goes around the error is left
    out. *)
Definition parse_error : option error :=
  match parsePages with inr (_, e) => Some e | inl _ => None end.

(** ** [render] *)

(** What has been written: the status once it is sent, the type, the body. *)
Record written := mkWritten { wr_status : option Z; wr_type : string; wr_body : string }.

Definition nothing_written : written := mkWritten None "" "".

(** [Write]: the first one sends status 200. *)
Definition write_body (s : string) (w : written) : written :=
  if bool_decide (s = "") then w else mkWritten (Some (default 200%Z (wr_status w))) (wr_type w) (wr_body w +:+ s).

(** [http.Error]: the status and the type count only when none was sent. *)
Definition http_Error (msg : string) (code : Z) (w : written) : written :=
  match wr_status w with
  | None => mkWritten (Some code) "text/plain; charset=utf-8" (wr_body w +:+ msg +:+ newline)
  | Some st => mkWritten (Some st) (wr_type w) (wr_body w +:+ msg +:+ newline)
  end.

Definition lookupLayout (t : template_set) : bool := bool_decide (is_Some (t !! "layout")).

Definition render (pages : gmap string template_set) (name : string) (data : page) (w : written) : written :=
  match pages !! name with
  | None => http_Error ("unknown template: " +:+ name) 500 w
  | Some t =>
      let w := mkWritten (wr_status w) "text/html; charset=utf-8" (wr_body w) in
      let '(out, err) := execute t (if lookupLayout t then "layout" else name) data in
      match err with
      | Some e => http_Error (error_text e) 500 (write_body out w)
      | None => write_body out w
      end
  end.

(** ** What is rendered *)

(** The set a page is executed with. *)
Definition page_set (file : string) : template_set :=
  if bool_decide (file ∈ withLayout)
  then <["content" := file]> (<[file := file]> {["content" := "layout.html"; "layout" := "layout.html"; "layout.html" := "layout.html"]})
  else {[file := file]}.

(** What [ParseFS] makes of a set when the file parses. *)
Definition added (t : template_set) (file : string) : template_set :=
  foldl (fun t name => <[name := file]> t) t (file :: template_defines file).

(** Each file with its set, for a list of files. *)
Definition set_page (pages : gmap string template_set) (file : string) : gmap string template_set :=
  <[file := page_set file]> pages.

Lemma parsed_lookup files pages f :
  f ∈ files -> foldl set_page pages files !! f = Some (page_set f).
Proof.
  revert pages. induction files as [|f' files IH] using rev_ind; intros pages Hf; [by apply elem_of_nil in Hf|].
  rewrite foldl_app. cbn [foldl]. unfold set_page at 1. destruct (decide (f = f')) as [->|Hne]; [by rewrite lookup_insert_eq|].
  rewrite lookup_insert_ne by done. apply IH. set_solver.
Qed.

(** A loop over files: the first that fails, or a set for each of them. *)
Lemma parse_each_spec base files pages :
  (forall f, f ∈ files -> added base f = page_set f) ->
  match parse_each base files pages with
  | inl pages' => (forall f, f ∈ files -> parse f = None) /\ pages' = foldl set_page pages files
  | inr (f, e) => f ∈ files /\ parse f = Some e
  end.
Proof.
  revert pages. induction files as [|f files IH]; intros pages Hb; cbn [parse_each foldl].
  { split; [|done]. intros f Hf%elem_of_nil. done. }
  unfold ParseFS at 1. destruct (parse f) as [e|] eqn:Hf; [split; [by left|done]|].
  fold (added base f). rewrite Hb by (by left).
  specialize (IH (set_page pages f) (fun f' Hf' => Hb f' (list_elem_of_further _ _ _ Hf'))).
  destruct (parse_each base files _) as [pages'|[f' e]].
  - destruct IH as [Hall ->]. split; [|done]. intros f' [->|Hf']%elem_of_cons; auto.
  - destruct IH as [Hin He]. split; [by right|done].
Qed.

Lemma added_page_set :
  (forall f, f ∈ withLayout -> added (added ∅ "layout.html") f = page_set f) /\
  (forall f, f ∈ standalone -> added ∅ f = page_set f).
Proof. split; apply Forall_forall, (bool_decide_unpack _); vm_compute; exact I. Qed.

Lemma page_sets f :
  f ∈ withLayout ++ standalone ->
  lookupLayout (page_set f) = bool_decide (f ∈ withLayout) /\
  page_set f !! (if bool_decide (f ∈ withLayout) then "content" else f) = Some f.
Proof. revert f. apply Forall_forall, (bool_decide_unpack _). vm_compute. exact I. Qed.

Lemma parsePages_spec :
  match parsePages with
  | inl pages => (forall f, f ∈ "layout.html" :: withLayout ++ standalone -> parse f = None) /\
      forall f, f ∈ withLayout ++ standalone -> pages !! f = Some (page_set f)
  | inr (f, e) => f ∈ "layout.html" :: withLayout ++ standalone /\ parse f = Some e
  end.
Proof.
  destruct added_page_set as [Hl Hs]. unfold parsePages, ParseFS at 1.
  destruct (parse "layout.html") as [e|] eqn:Hlay; [split; [by left|done]|].
  fold (added ∅ "layout.html").
  pose proof (parse_each_spec _ withLayout ∅ Hl) as H1. destruct (parse_each _ withLayout ∅) as [pages|[f e]].
  2: { destruct H1 as [Hf He]. split; [|done]. right. by apply elem_of_app; left. }
  destruct H1 as [Hall1 ->].
  pose proof (parse_each_spec _ standalone (foldl set_page ∅ withLayout) Hs) as H2.
  destruct (parse_each ∅ standalone _) as [pages|[f e]].
  - destruct H2 as [Hall2 ->]. split.
    + intros f [->|[?|?]%elem_of_app]%elem_of_cons; auto.
    + intros f Hf. rewrite <-foldl_app. by apply parsed_lookup.
  - destruct H2 as [Hf He]. split; [|done]. right. by apply elem_of_app; right.
Qed.

(** The page a request gets, when it gets one, is one of those parsed. *)
Definition renders_known (res : admin_response) : Prop :=
  forall f p, rp_reply res = Render f p -> f ∈ withLayout ++ standalone.
End pages.

(** ** What the handlers render *)

(** Whenever [m] answers, the answer is as [Q] says. *)
Definition answers_with {H A} (Q : A -> Prop) (m : M H A) : Prop :=
  forall w a w', m w = (Ok a, w') -> Q a.

Lemma bind_answers {H A B} Q (m : M H A) (k : A -> M H B) :
  (forall a, answers_with Q (k a)) -> answers_with Q (bind m k).
Proof. intros Hk w b w' (a & w1 & _ & Hb)%bind_ok. by eapply Hk. Qed.

Lemma ret_answers {H A} (Q : A -> Prop) a : Q a -> answers_with (H:=H) Q (ret a).
Proof. by intros Ha w b w' [= <- _]. Qed.

Create HintDb renders.
#[export] Hint Extern 2 (renders_known _) =>
  (intros ? ? [= <- <-]; apply (bool_decide_unpack _); vm_compute; exact I) : renders.
#[export] Hint Extern 2 (renders_known _) => (intros ? ? [=]) : renders.

Ltac renders_tac :=
  repeat (intros;
    lazymatch goal with
    | |- answers_with _ (match ?x with _ => _ end) => destruct x
    | |- answers_with _ (reply_with _) => apply ret_answers
    | |- answers_with _ (ret _) => apply ret_answers
    | |- answers_with _ (or_500 _ _) => unfold or_500
    | |- answers_with _ (bind _ _) => apply bind_answers
    | |- renders_known (mkAdminResponse (if ?b then _ else _) _) => destruct b
    | |- renders_known _ => solve [auto with renders]
    | |- _ => progress cbv zeta
    end).

Section routes.
Context {H : Type}.
Variable heap_id : uuid -> N.
Variable heap_token : string -> N.
Variable pg_timestamptz : string -> option time.
Variable net : nat -> http_request -> option http_response.
Variable ilike : string -> string -> bool.
Variable uuid_String : uuid -> string.
Variable uuid_Parse : string -> option uuid.
Variable m : Module_.
Abbreviation admin r now route := (Mount (H:=H) heap_id heap_token pg_timestamptz net ilike uuid_String uuid_Parse m r now route).

Lemma Mount_renders r now route : answers_with renders_known (admin r now route).
Proof.
  destruct route as [err|now' form| |a]; cbn [Mount].
  - unfold loginPage. renders_tac.
  - unfold loginSubmit. renders_tac.
  - unfold logout. renders_tac.
  - unfold requireAuth. destruct a; cbn [perform]; unfold dashboard, feedbackList, broadcastList, broadcastNewForm,
      broadcastSend, recipientCount, usersList, userDetail, userSoftDelete, userRestore, userHardDelete, settingsPage,
      settingsSubmit, with_id; renders_tac.
Qed.
End routes.

Section rendering.
Context {H : Type}.
Variable heap_id : uuid -> N.
Variable heap_token : string -> N.
Variable pg_timestamptz : string -> option time.
Variable net : nat -> http_request -> option http_response.
Variable ilike : string -> string -> bool.
Variable uuid_String : uuid -> string.
Variable uuid_Parse : string -> option uuid.
Variable error_text : error -> string.
Variable parse : string -> option error.
Variable execute : template_set -> string -> page -> string * option error.
Abbreviation admin m r now route := (Mount (H:=H) heap_id heap_token pg_timestamptz net ilike uuid_String uuid_Parse m r now route).

(** C33 What each request to the dashboard gets. The dashboard starts exactly
    when it is configured and the layout and each of the ten pages parse: a
    missing or malformed template keeps it from starting. Every page that a
    request gets is one of those ten, and is executed with its own content, in
    the layout exactly for the seven pages that have one; when executing it
    fails after it has written something, the reply still says 200, with the
    error's text after the half page. *)
Theorem render_spec :
  (forall cfg, (exists m, New cfg (parse_error parse) = inl m) <->
     TrimSpace (Password cfg) <> "" /\ 16 <= go_len (CookieSecret cfg) /\ HasPool cfg = true /\
     forall f, f ∈ "layout.html" :: withLayout ++ standalone -> parse f = None) /\
  (forall m r now route (w w' : World H) f p c,
     admin m r now route w = (Ok (mkAdminResponse (Render f p) c), w') -> f ∈ withLayout ++ standalone) /\
  match parsePages parse with
  | inr (f, e) => f ∈ "layout.html" :: withLayout ++ standalone /\ parse f = Some e
  | inl pages => forall f p, f ∈ withLayout ++ standalone ->
      let '(out, err) := execute (page_set f) (if bool_decide (f ∈ withLayout) then "layout" else f) p in
      page_set f !! (if bool_decide (f ∈ withLayout) then "content" else f) = Some f /\
      render error_text execute pages f p nothing_written =
        match err with
        | None => if bool_decide (out = "") then mkWritten None "text/html; charset=utf-8" ""
                  else mkWritten (Some 200%Z) "text/html; charset=utf-8" out
        | Some e => if bool_decide (out = "") then mkWritten (Some 500%Z) "text/plain; charset=utf-8" (error_text e +:+ newline)
                    else mkWritten (Some 200%Z) "text/html; charset=utf-8" (out +:+ error_text e +:+ newline)
        end
  end.
Proof.
  pose proof (parsePages_spec parse) as Hs. split; [|split].
  - intros cfg. unfold New, parse_error. case_bool_decide as Hp; [split; [by intros [? [=]]|by intros [? _]]|].
    destruct (Nat.ltb_spec (go_len (CookieSecret cfg)) 16); [split; [by intros [? [=]]|lia]|].
    destruct (HasPool cfg); [|split; [by intros [? [=]]|by intros (_ & _ & [=] & _)]]. cbn [negb].
    destruct (parsePages parse) as [pages|[f e]].
    + destruct Hs as [Hall _]. split; [done|]. intros _. by eexists.
    + destruct Hs as [Hf He]. split; [by intros [? [=]]|]. intros (_ & _ & _ & Hall).
      rewrite (Hall f Hf) in He. discriminate He.
  - intros m r now route w w' f p c Hm. by eapply (Mount_renders heap_id heap_token pg_timestamptz net ilike
      uuid_String uuid_Parse m r now route w _ _ Hm).
  - destruct (parsePages parse) as [pages|[f e]]; [|exact Hs]. destruct Hs as [_ Hs]. intros f p Hf.
    unfold render. rewrite Hs by done. destruct (page_sets f Hf) as [-> ->].
    destruct (execute _ _ p) as [out err]. split; [done|].
    unfold write_body, http_Error, nothing_written. cbn [wr_status wr_type wr_body].
    destruct err as [e|]; case_bool_decide; done.
Qed.
End rendering.
