(* ===== verification/Overlap.v ===== *)
(** * Requests to rooms overlapping with everything else the server does

    [RequestProps] lets the statements of requests to the rooms service fall
    between one another while the other tables move; here every statement of
    the other packages may fall in between too, those that end rooms and remove
    members and users among them. *)
From stdpp Require Import base gmap sets list strings relations.
From Stdlib Require Import ZArith Lia.
From S2P Require Import Prelude.
From S2P Require Import GoString.
From S2P Require Import Httpx.
From S2P Require Import Types.
From S2P Require Import Db.
From S2P Require Import Store.
From S2P Require Import StoreFacts.
From S2P Require Import Broadcaster.
From S2P Require Import Service.
From S2P Require Import ServiceFacts.
From S2P Require Import Runs.
From S2P Require Import Samples.
From S2P Require Import Steps.
From S2P Require Import Requests.
From S2P Require Import RequestFacts.
From S2P Require Import RequestProps.
From S2P Require Import Providers.
From S2P Require Import Auth.
From S2P Require Import AuthFacts.
From S2P Require Import Push.
From S2P Require Import Feedback.
From S2P Require Import AppConfig.
From S2P Require Import Admin.
From S2P Require Import AdminFacts.
From S2P Require Import AdminProps.

Open Scope convoy_scope.

(** ** The statements of the other packages *)

(** What they send that is not part of a transaction, reads included; the
    removal of a user row is apart. *)
Inductive other_stmt : forall A : Type, Sql A -> Prop :=
| os_select A (f : Tables -> A) : other_stmt A (select f)
| os_insert_user name avatar email : other_stmt _ (insert_user name avatar email)
| os_display_name id name : other_stmt _ (update_display_name id name)
| os_delete_user id : other_stmt _ (delete_user id)
| os_end_rooms id : other_stmt _ (end_owned_rooms id)
| os_drop_members id : other_stmt _ (drop_memberships id)
| os_restore id : other_stmt _ (restore_user id)
| os_upsert_token u token p : other_stmt _ (upsert_token_sql u token p)
| os_delete_tokens l : other_stmt _ (delete_tokens_sql l)
| os_feedback u msg : other_stmt _ (insert_feedback u msg)
| os_broadcast ti bo re de fa : other_stmt _ (insert_broadcast ti bo re de fa)
| os_set_config k v : other_stmt _ (set_config_sql k v).

(** ** What they keep *)

(** Nothing the rooms' tables say changes, and no user is gone. *)
Record quiet (t t' : Tables) : Prop := {
  qt_rooms : t_rooms t' = t_rooms t;
  qt_members : t_members t' = t_members t;
  qt_markers : t_markers t' = t_markers t;
  qt_stops : t_stops t' = t_stops t;
  qt_messages : t_messages t' = t_messages t;
  qt_users : forall u, is_Some (t_users t !! u) -> is_Some (t_users t' !! u);
}.

Lemma quiet_refl t : quiet t t.
Proof. by split. Qed.

Lemma quiet_users t f :
  (forall u, is_Some (t_users t !! u) -> is_Some (f (t_users t) !! u)) -> quiet t (set_users f t).
Proof. by split. Qed.

Lemma quiet_user t id x : quiet t (set_users <[id := x]> t).
Proof. apply quiet_users. intros u. rewrite lookup_insert. by case_decide. Qed.

Lemma quiet_wf t t' : quiet t t' -> db_wf t -> db_wf t'.
Proof.
  intros [E1 E2 E3 E4 E5 Hu] [Hr Hc Hm Ho Hk Hs Hp Hg]. split; rewrite ?E1, ?E2, ?E3, ?E4, ?E5; try done.
  - intros rid r Hrid. destruct (Hr _ _ Hrid) as [H1 H2 H3]. split; auto.
  - intros rid uid m Hm'. destruct (Hm _ _ _ Hm') as [H1 H2 H3]. split; auto.
  - intros rid uid k Hk'. destruct (Hk _ _ _ Hk'). auto.
  - intros sid s Hs'. destruct (Hs _ _ Hs') as (? & (u & ? & ?) & ?). eauto 6.
  - intros gid g Hg'. destruct (Hg _ _ Hg'). auto.
Qed.

Create HintDb quiet.
#[export] Hint Resolve quiet_refl quiet_user : quiet.

(** A property of the rooms that an account's end keeps. *)
Class RoomProp (P : Tables -> Prop) : Prop := {
  rp_quiet : forall t t', quiet t t' -> P t -> P t';
  rp_end : forall now id t, P t -> P (set_rooms (fmap (end_owned now id)) t);
  rp_drop : forall now id t, P t -> P (set_members (map_imap (fun k m => Some (drop_member now id k m))) t);
}.

Section room_props.
Context {H : Type}.
Variable P : Tables -> Prop.
Context `{!RoomProp P}.

Lemma quiet_stmt {A} tick params (f : Sql A) :
  (forall now id t a t', f now id t = inr (a, t') -> quiet t t') -> preserves (H:=H) P (stmt tick params f).
Proof. intros Hf. apply stmt_preserves. intros now id t a t' HP E. eapply rp_quiet; [by eapply Hf|done]. Qed.

Ltac quiet_tac :=
  apply quiet_stmt; intros ?now ?id ?t ?a ?t';
  unfold select, insert_user, update_display_name, update_email, insert_identity, delete_user, upsert_token_sql,
    delete_tokens_sql, insert_feedback, insert_broadcast, set_config_sql;
  cbv zeta; repeat case_match; intros; simplify_eq; auto with quiet; by split.

Lemma other_stmt_keeps A (f : Sql A) tick params : other_stmt A f -> preserves (H:=H) P (stmt tick params f).
Proof.
  intros [ | | | |i|i|i| | | | | ]; try solve [quiet_tac].
  - apply stmt_preserves. intros now x t a t' HP [= <- <-]. by apply rp_end.
  - apply stmt_preserves. intros now x t a t' HP [= <- <-]. by apply rp_drop.
  - apply quiet_stmt. intros now x t a t' [= <- <-]. apply quiet_users. intros v. rewrite lookup_alter.
    case_decide; [subst; by rewrite fmap_is_Some|done].
Qed.

#[export] Instance room_prop_stable : AuthStable (H:=H) P.
Proof.
  split; intros; try solve [quiet_tac]; (apply other_stmt_keeps; constructor).
Qed.
End room_props.

(** *** The schema *)

(** The invariant of the rooms does not look at the other tables. *)
Definition rooms_only (t : Tables) : Tables :=
  set_feedback (fun _ => ∅) (set_push_tokens (fun _ => ∅) (set_identities (fun _ => ∅) t)).

Lemma rooms_only_wf t : db_wf t -> all_wf (rooms_only t).
Proof.
  intros [Hr Hc Hm Ho Hk Hs Hp Hg]. split; [split; [by split|]|]; split; simpl; intros *; by rewrite lookup_empty.
Qed.

#[export] Instance db_wf_prop : RoomProp db_wf.
Proof.
  split.
  - apply quiet_wf.
  - intros now id t Hwf. destruct (wf_end_rooms (rooms_only t) now id (proj1 (rooms_only_wf t Hwf))) as [[] _]. by split.
  - intros now id t Hwf. destruct (wf_drop_members (rooms_only t) now id (proj1 (rooms_only_wf t Hwf))) as [[] _]. by split.
Qed.


(** *** The role of an owner *)

#[export] Instance owner_row_prop r a : RoomProp (owner_row r a).
Proof.
  split.
  - intros t t' [_ E _ _ _ _] (m & Hm & Hr). exists m. by rewrite E.
  - done.
  - intros now id t (m & Hm & Hr). exists (drop_member now id (r, a) m). simpl. rewrite map_lookup_imap, Hm.
    split; [done|]. unfold drop_member. by destruct (_ && _).
Qed.


(** ** The server *)

Section server.
Context {H : Type}.
Variable rt : option (Broadcaster H).
Variable unicode_upper : rune -> rune.

Abbreviation sys_step := (sys_step rt unicode_upper).







End server.

(** Ada hands over to Bob while she removes Cy, as in [RequestProps]; then Cy's
    account is deleted and removed for good, and Bob's is taken offline, which
    ends his room. *)
Abbreviation handed := (schedule (Some trace_broadcaster) (fun r => r) handing_over (mkSystem convoy_world [])).
Abbreviation cy_gone := (stmt true [] (hard_delete_user 3)
  (HandleDeleteAccount (B:=unit) (Some (mkUser 3 "cy" None None None)) (sy_world handed)).2).2.
Abbreviation bob_offline := (stmt true [] (end_owned_rooms 2) cy_gone).2.


Abbreviation after_all := (mkSystem bob_offline (sy_requests handed)).

