(* ===== verification/ServerFacts.v ===== *)
(** * Facts about the server's operations

    What every request keeps of the realtime state, and what the rooms
    service leaves alone in the tables. *)
From stdpp Require Import base gmap sets list strings sorting.
From Stdlib Require Import ZArith Lia.
From S2P Require Import Prelude.
From S2P Require Import GoString.
From S2P Require Import Httpx.
From S2P Require Import Types.
From S2P Require Import Db.
From S2P Require Import Store.
From S2P Require Import StoreFacts.
From S2P Require Import Broadcaster.
From S2P Require Import Service.
From S2P Require Import ServiceFacts.
From S2P Require Import MarkerProps.
From S2P Require Import Providers.
From S2P Require Import Auth.
From S2P Require Import AuthFacts.
From S2P Require Import AuthProps.
From S2P Require Import Livekit.
From S2P Require Import Handlers.
From S2P Require Import Push.
From S2P Require Import Feedback.
From S2P Require Import AppConfig.
From S2P Require Import Admin.
From S2P Require Import AdminFacts.

Open Scope convoy_scope.

(** ** What is kept of the realtime state *)

Definition rt_keeps {H A} (Q : H -> Prop) (m : M H A) : Prop := forall w, Q (w_rt w) -> Q (w_rt (m w).2).

Section combinators.
Context {H : Type} (Q : H -> Prop).

Lemma silent_keeps {A} (m : M H A) : rt_silent m -> rt_keeps Q m.
Proof. intros Hm w. by rewrite Hm. Qed.

Lemma bind_keeps {A B} (m : M H A) (k : A -> M H B) :
  rt_keeps Q m -> (forall a, rt_keeps Q (k a)) -> rt_keeps Q (bind m k).
Proof.
  intros Hm Hk w HQ. unfold bind. specialize (Hm w HQ). destruct (m w) as [[a|e] w']; [by apply Hk|done].
Qed.

Lemma catch_keeps {A} (m : M H A) h : rt_keeps Q m -> (forall e, rt_keeps Q (h e)) -> rt_keeps Q (catch m h).
Proof.
  intros Hm Hh w HQ. unfold catch. specialize (Hm w HQ). destruct (m w) as [[a|e] w']; [done|by apply Hh].
Qed.

Lemma try_keeps {A} (m : M H A) : rt_keeps Q m -> rt_keeps Q (try m).
Proof. intros Hm w HQ. by apply (Hm w). Qed.

Lemma in_tx_rt_keeps {A} (body : M H A) : rt_keeps Q body -> rt_keeps Q (in_tx body).
Proof.
  intros Hb w HQ. unfold in_tx. pose proof (stmt_rt (H:=H) true [] (select (fun _ => tt)) w) as Hs.
  destruct (stmt true [] _ w) as [[[]|e] w1]; simpl in *; [|by rewrite Hs].
  assert (Q (w_rt (body w1).2)) as Hb1 by (apply Hb; by rewrite Hs).
  destruct (body w1) as [[a|e] w2]; [|exact Hb1]. by destruct (si_fault _).
Qed.

Lemma stmt_keeps {A} tick params (f : Sql A) : rt_keeps Q (stmt tick params f).
Proof. apply silent_keeps, stmt_rt. Qed.
Lemma ret_keeps {A} (a : A) : rt_keeps Q (ret a).
Proof. by intros w. Qed.
Lemma throw_keeps {A} e : rt_keeps Q (throw (A:=A) e).
Proof. by intros w. Qed.
Lemma rand_keeps n : rt_keeps Q (rand_int n).
Proof. apply silent_keeps, read_only_rt_silent, rand_int_read_only. Qed.
Lemma rt_get_keeps {A} (f : H -> A) : rt_keeps Q (rt_get f).
Proof. by intros w. Qed.
Lemma rt_do_keeps (f : H -> H) : (forall h, Q h -> Q (f h)) -> rt_keeps Q (rt_do f).
Proof. intros Hf w. apply Hf. Qed.
Lemma gen_bytes_keeps n : rt_keeps Q (gen_bytes n).
Proof. apply silent_keeps, read_only_rt_silent, gen_bytes_read_only. Qed.
End combinators.

Create HintDb rt_keeps.
#[export] Hint Resolve stmt_keeps ret_keeps throw_keeps rand_keeps rt_get_keeps gen_bytes_keeps : rt_keeps.

(** Follows the composition of an operation down to what touches the state. *)
Ltac rt_tac :=
  unfold serve, on_error, scan_row, exec, tx_exec, check, decode, authorised, throw_err, or_500, or_zero, reply_with; cbv zeta;
  repeat (intros;
    lazymatch goal with
    | |- rt_keeps _ (bind _ _) => apply bind_keeps
    | |- rt_keeps _ (catch _ _) => apply catch_keeps
    | |- rt_keeps _ (try _) => apply try_keeps
    | |- rt_keeps _ (in_tx _) => apply in_tx_rt_keeps
    | |- rt_keeps _ (match _ with _ => _ end) => case_goal
    | |- _ => solve [eauto with rt_keeps]
    end).

(** ** The rooms API *)

(** What the service may tell a realtime side that keeps [Q]. *)
Class BroadcasterKeeps {H} (b : Broadcaster H) (Q : H -> Prop) : Prop := {
  bk_joined : forall r m h, Q h -> Q (BroadcastMemberJoined b r m h);
  bk_left : forall r u h, Q h -> Q (BroadcastMemberLeft b r u h);
  bk_mute : forall r u m a h, Q h -> Q (BroadcastMute b r u m a h);
  bk_kick : forall r u a h, Q h -> Q (KickConnection b r u a h);
  bk_ended : forall r h, Q h -> Q (BroadcastRoomEnded b r h);
  bk_destination : forall r d h, Q h -> Q (BroadcastDestination b r d h);
  bk_stops : forall r l h, Q h -> Q (BroadcastStops b r l h);
  bk_owner : forall r n o h, Q h -> Q (BroadcastOwnerChanged b r n o h);
  bk_renamed : forall r n h, Q h -> Q (BroadcastRoomRenamed b r n h);
  bk_chat : forall r m h, Q h -> Q (BroadcastChatMessage b r m h);
  bk_disconnect : forall r u h, Q h -> Q (DisconnectUser b r u h);
}.

Ltac tells :=
  apply rt_do_keeps; intros;
  first [ by apply bk_joined | by apply bk_left | by apply bk_mute | by apply bk_kick | by apply bk_ended
        | by apply bk_destination | by apply bk_stops | by apply bk_owner | by apply bk_renamed
        | by apply bk_chat | by apply bk_disconnect ].
#[export] Hint Extern 1 (rt_keeps _ (rt_do _)) => tells : rt_keeps.

Section rooms.
Context {H : Type} (b : Broadcaster H) (Q : H -> Prop) `{!BroadcasterKeeps b Q}.
Variable unicode_upper : rune -> rune.

Lemma create_loop_keeps n o name : rt_keeps Q (create_loop n o name).
Proof.
  induction n as [|n IH]; simpl; [by intros w|]. unfold generateCode, CreateRoom. rt_tac.
Qed.

#[local] Hint Resolve create_loop_keeps : rt_keeps.

Lemma Detail_keeps r v : rt_keeps Q (Detail (Some b) r v).
Proof. apply silent_keeps, read_only_rt_silent, Detail_read_only. Qed.

Lemma owner_op_keeps op r a : rt_keeps Q (run_owner_op (Some b) op r a).
Proof.
  destruct op; simpl; unfold discard, SetDestination, UpdateDestinationMeta, ClearDestination, AddStop,
    UpdateStopLabel, RemoveStop, ClearStops, Rename, TransferOwnership, Mute, Kick, End_, requireOwner, AssertMember,
    ActiveMembership, StoreSetDestination, StoreUpdateDestinationMeta, StoreClearDestination, StoreAddStop,
    StoreUpdateStopLabel, StoreRemoveStop, StoreClearStops, UpdateName, StoreTransferOwnership, SetMuted, StoreKick,
    EndRoom, GetDestination, UpsertPersonalMarker, broadcastStops, ListStops, notify, affected, scan_dest, scan_stop; rt_tac.
Qed.
End rooms.

Section service.
Context {H : Type} (b : Broadcaster H) (Q : H -> Prop) `{!BroadcasterKeeps b Q}.
Variable unicode_upper : rune -> rune.

Lemma member_op_keeps op r u : rt_keeps Q (run_member_op (Some b) op r u).
Proof.
  destruct op; simpl; unfold discard, SetPersonalMarker, ClearPersonalMarker, PostMessage, ListMessages, AssertMember,
    ActiveMembership, UpsertPersonalMarker, Store.DeletePersonalMarker, CreateMessage, StoreListMessages, notify; rt_tac.
Qed.

(** A request to the service keeps what every announcement keeps. *)
Lemma service_op_keeps op : rt_keeps Q (run_service_op (Some b) unicode_upper op).
Proof.
  destruct op; cbn [run_service_op]; [| | | | |by apply owner_op_keeps|apply member_op_keeps];
    unfold discard, Create, Join, Leave, GetActiveByCode, UpsertMember, GetMember, MarkLeft, notify.
  - pose proof (@create_loop_keeps H Q). rt_tac.
  - rt_tac.
  - rt_tac.
  - pose proof (Detail_keeps b Q room viewer). rt_tac.
  - apply silent_keeps, read_only_rt_silent, bind_read_only; [apply ListActiveForUser_read_only|done].
Qed.
End service.

(** ** From the service to its API *)

(** A property of computations that the handlers' plumbing keeps. *)
Class Compositional {H} (K : forall A, M H A -> Prop) : Prop := {
  co_read_only : forall A (m : M H A), read_only m -> K A m;
  co_bind : forall A B (m : M H A) (k : A -> M H B), K A m -> (forall a, K B (k a)) -> K B (bind m k);
  co_catch : forall A (m : M H A) h, K A m -> (forall e, K A (h e)) -> K A (catch m h);
  co_discard : forall A (m : M H A), K unit (discard m) -> K A m;
}.

Lemma discard_world {H A} (m : M H A) w : (discard m w).2 = (m w).2.
Proof. unfold discard, bind. by destruct (m w) as [[a|e] w']. Qed.

#[export] Instance preserves_compositional {H} P : Compositional (H:=H) (fun A m => preserves P m).
Proof.
  split.
  - intros A m. apply read_only_preserves.
  - intros A B m k. apply bind_preserves.
  - intros A m h. apply catch_preserves.
  - intros A m Hm w. rewrite <-discard_world. apply Hm.
Qed.

#[export] Instance keeps_compositional {H} Q : Compositional (H:=H) (fun A m => rt_keeps Q m).
Proof.
  split.
  - intros A m Hm. apply silent_keeps, read_only_rt_silent, Hm.
  - intros A B m k. apply bind_keeps.
  - intros A m h. apply catch_keeps.
  - intros A m Hm w. rewrite <-discard_world. apply Hm.
Qed.

Section api.
Context {H : Type} (K : forall A, M H A -> Prop) `{!Compositional K}.
Variable rt : option (Broadcaster H).
Variable unicode_upper : rune -> rune.
Variable uuid_String : uuid -> string.
Variable uuid_Parse : string -> option uuid.
Variable ToJWT : string -> string -> grant -> option string.
Variable livekit : Livekit.Config.

Lemma co_ret {A} (x : A) : K A (ret x).
Proof. by apply co_read_only. Qed.
Lemma co_throw {A} e : K A (throw e).
Proof. by apply co_read_only. Qed.

Hypothesis service_op : forall op, K unit (run_service_op rt unicode_upper op).

Lemma co_owner op r a : K unit (run_owner_op rt op r a).
Proof. apply (service_op (SvcOwner op r a)). Qed.
Lemma co_member op r u : K unit (run_member_op rt op r u).
Proof. apply (service_op (SvcMember op r u)). Qed.

(** An operation of the service, whatever it answers. *)
Ltac by_op :=
  lazymatch goal with
  | |- K _ (ClearDestination _ ?r ?u) => exact (co_owner OpClearDestination r u)
  | |- K _ (ClearStops _ ?r ?u) => exact (co_owner OpClearStops r u)
  | |- K _ (End_ _ ?r ?u) => exact (co_owner OpEnd r u)
  | |- K _ (RemoveStop _ ?r ?u ?x) => exact (co_owner (OpRemoveStop x) r u)
  | |- K _ (TransferOwnership _ ?r ?u ?x) => exact (co_owner (OpTransferOwnership x) r u)
  | |- K _ (Mute _ ?r ?u ?x ?y) => exact (co_owner (OpMute x y) r u)
  | |- K _ (Kick _ ?r ?u ?x) => exact (co_owner (OpKick x) r u)
  | |- K _ (ClearPersonalMarker ?r ?u) => exact (co_member OpClearPersonalMarker r u)
  | |- K _ (Leave _ ?r ?u) => exact (service_op (SvcLeave r u))
  | |- K _ (SetDestination _ ?r ?u ?x ?y ?n ?d) => apply co_discard; exact (co_owner (OpSetDestination x y n d) r u)
  | |- K _ (UpdateDestinationMeta _ ?r ?u ?n ?d) => apply co_discard; exact (co_owner (OpUpdateDestinationMeta n d) r u)
  | |- K _ (AddStop _ ?r ?u ?x ?y ?l) => apply co_discard; exact (co_owner (OpAddStop x y l) r u)
  | |- K _ (UpdateStopLabel _ ?r ?u ?x ?l) => apply co_discard; exact (co_owner (OpUpdateStopLabel x l) r u)
  | |- K _ (Rename _ ?r ?u ?n) => apply co_discard; exact (co_owner (OpRename n) r u)
  | |- K _ (SetPersonalMarker ?r ?u ?x ?y ?l) => apply co_discard; exact (co_member (OpSetPersonalMarker x y l) r u)
  | |- K _ (PostMessage _ ?r ?u ?b) => apply co_discard; exact (co_member (OpPostMessage b) r u)
  | |- K _ (ListMessages ?r ?u ?b ?n) => apply co_discard; exact (co_member (OpListMessages b n) r u)
  | |- K _ (Create ?u ?n) => apply co_discard; exact (service_op (SvcCreate u n))
  | |- K _ (Join _ _ ?u ?c) => apply co_discard; exact (service_op (SvcJoin u c))
  | |- K _ (ListActiveForUser _ ?u) => apply co_discard; exact (service_op (SvcListActive u))
  end.

Ltac handler_tac :=
  unfold serve, on_error, path_uuid, query_before, decode, check, path_uuid; cbv zeta;
  repeat (intros;
    lazymatch goal with
    | |- K _ (bind _ _) => apply co_bind
    | |- K _ (catch _ _) => apply co_catch
    | |- K _ (ret _) => apply co_ret
    | |- K _ (throw _) => apply co_throw
    | |- K _ (match _ with _ => _ end) => case_goal
    | |- K _ (AssertMember _ _) => apply co_read_only, AssertMember_read_only
    | |- K _ (Detail _ _ _) => apply co_read_only, Detail_read_only
    | |- _ => by_op
    end).

(** What every operation of the service has, every request to its API has. *)
Lemma Routes_compositional ctx rq : K _ (Routes rt unicode_upper uuid_String uuid_Parse ToJWT livekit ctx rq).
Proof.
  destruct rq as [|req|req|room rq]; [..|destruct rq]; cbn [Routes route_room];
    unfold listActive, create, join, get, rename, leave, putDestination, patchDestination, deleteDestination,
      putPersonalMarker, deletePersonalMarker, addStop, clearStops, patchStop, removeStop, listMessages, postMessage,
      mute, kick, transferOwner, end_, voiceToken; handler_tac.
Qed.
End api.

(** ** The accounts, which the rooms service leaves alone *)

(** A property of users, identities, push tokens and feedback. *)
Definition about_accounts (P : Tables -> Prop) : Prop :=
  forall t t', t_users t' = t_users t -> t_identities t' = t_identities t ->
    t_push_tokens t' = t_push_tokens t -> t_feedback t' = t_feedback t -> P t -> P t'.

Section accounts.
Context {H : Type} (P : Tables -> Prop) (HP : about_accounts P).
Variable rt : option (Broadcaster H).
Variable unicode_upper : rune -> rune.

Ltac same := intros; simplify_eq; by (eapply HP; [..|eassumption]).
Ltac rooms_tac :=
  preserves_tac; intros ?now ?id ?t ?a ?t' ?Ht;
  unfold select, set_owner_sql, set_dest_sql, upsert_member_sql, insert_room, insert_member, update_room, update_member, add_stop_sql, remove_stop_sql,
    update_label_sql, create_message_sql, upsert_marker_sql;
  repeat case_match; same.

Lemma create_loop_accounts n o name : preserves (H:=H) P (create_loop n o name).
Proof.
  induction n as [|n IH]; simpl; [by intros w|].
  apply bind_preserves; [apply read_only_preserves, generateCode_read_only|]. intros code.
  apply bind_preserves; [apply try_preserves, in_tx_keeps; rooms_tac|].
  intros [room|[]]; try (by intros w). destruct (bool_decide _); [done|by intros w].
Qed.

Lemma owner_op_accounts op r a : preserves P (run_owner_op rt op r a).
Proof.
  destruct op; simpl; try apply discard_preserves; unfold SetDestination, UpdateDestinationMeta, ClearDestination,
    AddStop, UpdateStopLabel, RemoveStop, ClearStops, Rename, TransferOwnership, Mute, Kick, End_, StoreSetDestination,
    StoreUpdateDestinationMeta, StoreClearDestination, StoreAddStop, StoreUpdateStopLabel, StoreRemoveStop,
    StoreClearStops, UpdateName, SetMuted, StoreKick, EndRoom, UpsertPersonalMarker.
  9: { preserves_tac; [intros ? ? ? ? ? ?; unfold upsert_marker_sql; repeat case_match; same|].
       apply in_tx_keeps. unfold StoreTransferOwnership, affected, check. rooms_tac. }
  all: rooms_tac.
Qed.

Lemma member_op_accounts op r u : preserves (H:=H) P (run_member_op rt op r u).
Proof.
  destruct op; simpl; try apply discard_preserves; unfold SetPersonalMarker, ClearPersonalMarker, PostMessage,
    ListMessages, CreateMessage, UpsertPersonalMarker, Store.DeletePersonalMarker.
  1-3: rooms_tac.
  preserves_tac.
Qed.

Lemma service_op_accounts op : preserves (H:=H) P (run_service_op rt unicode_upper op).
Proof.
  destruct op; cbn [run_service_op]; [apply discard_preserves, create_loop_accounts|apply discard_preserves| | | |
    apply owner_op_accounts|apply member_op_accounts]; unfold Join, UpsertMember, Leave, MarkLeft.
  - rooms_tac.
  - rooms_tac.
  - apply discard_preserves, read_only_preserves, Detail_read_only.
  - apply discard_preserves, read_only_preserves, ListActiveForUser_read_only.
Qed.
End accounts.
