(* ===== verification/Server.v ===== *)
(** * [cmd/server/main.go]: the server put together

    What [main] builds from the configuration, the CORS middleware, the route
    table, and the whole server as a program over the tables and the hub.
    The start and the end of the process are in [Boot] and [Lifecycle]. *)
From stdpp Require Import base gmap sets list strings.
From Stdlib Require Import ZArith Lia.
From S2P Require Import Prelude.
From S2P Require Import GoString.
From S2P Require Import Httpx.
From S2P Require Import Types.
From S2P Require Import Db.
From S2P Require Import Store.
From S2P Require Import Broadcaster.
From S2P Require Import Messages.
From S2P Require Import Hub.
From S2P Require Import HubBroadcaster.
From S2P Require Import Providers.
From S2P Require Import Auth.
From S2P Require Import Livekit.
From S2P Require Import Handlers.
From S2P Require Import Session.
From S2P Require Import Push.
From S2P Require Import Feedback.
From S2P Require Import AppConfig.
From S2P Require Import Admin.

Open Scope convoy_scope.

(** ** CORS *)

Definition header := (string * string)%type.

Definition cors_origin (allowed : list string) (origin : string) : list header :=
  if bool_decide (allowed = ["*"]) then [("Access-Control-Allow-Origin", "*")]
  else if bool_decide (origin ∈ allowed) then [("Access-Control-Allow-Origin", origin)] else [].

(** [corsMiddleware]: the headers it sets, and the reply, which is the next
    handler's unless the method is [OPTIONS]. *)
Definition corsMiddleware {A} (allowed : list string) (method origin : string)
    (preflight : A) (next : A) : list header * A :=
  (cors_origin allowed origin ++
     [("Access-Control-Allow-Methods", "GET, POST, PUT, PATCH, DELETE, OPTIONS");
      ("Access-Control-Allow-Headers", "Authorization, Content-Type");
      ("Access-Control-Max-Age", "300")],
   if bool_decide (method = "OPTIONS") then preflight else next).

(** ** The legal pages: [internal/policy/policy.go] *)

Record PolicyConfig := mkPolicyConfig { PolicyAppName : string; ContactEmail : string; EffectiveDate : string }.

(** [New]: the module is its configuration, with the defaults filled in;
    [parsed] is what parsing the embedded templates came to. *)
Definition PolicyNew (cfg : PolicyConfig) (parsed : option error) : PolicyConfig + error :=
  let name := if bool_decide (TrimSpace (PolicyAppName cfg) = "") then "Convoy" else PolicyAppName cfg in
  if bool_decide (TrimSpace (ContactEmail cfg) = "") then inr (ErrText "policy: ContactEmail is required") else
  let date := if bool_decide (TrimSpace (EffectiveDate cfg) = "") then "today" else EffectiveDate cfg in
  match parsed with Some e => inr e | None => inl (mkPolicyConfig name (ContactEmail cfg) date) end.

(** A page: its headers, its template and what the template is given. *)
Record legal_page := mkLegalPage { lp_header : list header; lp_template : string; lp_data : PolicyConfig }.

Definition policy_render (m : PolicyConfig) (name : string) : legal_page :=
  mkLegalPage [("Content-Type", "text/html; charset=utf-8"); ("Cache-Control", "public, max-age=3600")] name m.

Definition PolicyHandler (m : PolicyConfig) : legal_page := policy_render m "privacy.html".
Definition DeleteAccountHandler (m : PolicyConfig) : legal_page := policy_render m "delete_account.html".

(** ** What [main] builds *)

Section wiring.
Context {Keyfunc : Type}.

Record app := mkApp {
  app_auth : Service (Keyfunc:=Keyfunc);
  app_livekit : Livekit.Config;
  app_policy : option PolicyConfig;
  app_admin : option Module_;
}.

(** [googleKeys] and [appleKeys] are what fetching the providers' keys came
    to, [legal] and [parsed] what parsing the templates of the legal pages and of
    the dashboard did. *)
Definition with_google (ids : list string) (keys : option Keyfunc) (s : Service) : Service :=
  if bool_decide (ids = []) then s else
  match NewGoogleVerifier keys ids with inl v => WithGoogleVerifier (Some v) s | inr _ => s end.

Definition with_apple (ids : list string) (keys : option Keyfunc) (s : Service) : Service :=
  if bool_decide (ids = []) then s else
  match NewAppleVerifier keys ids with inl v => WithAppleVerifier (Some v) s | inr _ => s end.

Definition wire (cfg : ServerConfig) (googleKeys appleKeys : option Keyfunc) (legal parsed : option error) : app :=
  let s := NewService (JWTSecret cfg) (JWTTTL cfg) in
  let s := with_google (GoogleClientIDs cfg) googleKeys s in
  let s := with_apple (AppleClientIDs cfg) appleKeys s in
  mkApp s (Livekit.mkConfig (LiveKitURL cfg) (LiveKitAPIKey cfg) (LiveKitAPISecret cfg))
    (if bool_decide (PrivacyContactEmail cfg = "") then None else
     match PolicyNew (mkPolicyConfig (AppName cfg) (PrivacyContactEmail cfg) (PrivacyEffectiveDate cfg)) legal with
     | inl m => Some m
     | inr _ => None
     end)
    match Admin.New (mkAdminConfig (AdminPassword cfg) (AdminCookieSecret cfg) true
                       (NewExpoClient (ExpoAccessToken cfg)) true) parsed with
    | inl m => Some m
    | inr _ => None
    end.
End wiring.

(** ** The routes *)

(** The routes behind the authentication middleware. *)
Inductive user_route :=
| GetMe
| PatchMe (req : decoded updateProfileRequest)
| DeleteAccount
| Rooms (rq : room_request)
| PostFeedback (req : decoded submitReq)
| PostPushToken (req : decoded registerReq).

(** All of them, with what each reads of the request; a user's route comes
    with the [Authorization] header and the time of its verification, an
    operator's with what Expo answers to each batch of a broadcast. *)
Inductive server_route :=
| GetHealthz
| GetRoot
| GetConfig
| GetPolicy
| GetDeleteAccount
| PostGuest (now now' : time) (req : decoded guestRequest)
| PostGoogle (now now' : time) (req : decoded oauthRequest)
| PostApple (now now' : time) (req : decoded oauthRequest)
| AsUser (authorization : string) (now : time) (u : user_route)
| AdminPages (r : admin_request) (now : time) (net : nat -> http_request -> option http_response) (a : admin_route)
| WebSocket (room token : string) (now : time) (accepted : bool).

(** What is written back. *)
Inductive server_reply :=
| HealthR
| RootR
| LegalR (p : legal_page)
| ConfigR (r : reply PublicConfig)
| TokenR (r : reply tokenResponse)
| UserR (r : reply User)
| EmptyR (r : reply unit)
| RoomR (r : reply room_json)
| EntryR (r : reply Entry)
| AdminR (r : admin_response)
| NotMounted
| SocketR (o : opened).

Section server.
Variable unicode_upper unicode_lower : rune -> rune.
Variable uuid_String : uuid -> string.
Variable uuid_Parse : string -> option uuid.
Variable jwt_SignedString : signing_method -> string -> MapClaims -> option string.
Variable jwt_Parse : string -> (signing_method -> option string) -> time -> option MapClaims.
Context {Keyfunc : Type}.
Variable ParseWithClaims : Keyfunc -> list string -> time -> string -> option MapClaims.
Variable GetExpirationTime : MapClaims -> option time.
Variable ToJWT : string -> string -> grant -> option string.
Variable heap_id : uuid -> N.
Variable heap_token : string -> N.
Variable pg_timestamptz : string -> option time.
Variable ilike : string -> string -> bool.
Variable a : app (Keyfunc:=Keyfunc).

Definition answers {A} (f : A -> server_reply) (m : M Hub A) : M Hub server_reply := x <- m ;; ret (f x).

(** The routes of the group, with the user the middleware put in the context. *)
Definition user_routes (authorization : string) (now : time) (u : user_route) : M Hub server_reply :=
  match u with
  | GetMe => answers UserR (Middleware uuid_Parse jwt_Parse (app_auth a) authorization now HandleMe)
  | PatchMe req =>
      answers UserR (Middleware uuid_Parse jwt_Parse (app_auth a) authorization now (fun ctx => HandlePatchMe ctx req))
  | DeleteAccount => answers EmptyR (Middleware uuid_Parse jwt_Parse (app_auth a) authorization now HandleDeleteAccount)
  | Rooms rq =>
      answers RoomR (Middleware uuid_Parse jwt_Parse (app_auth a) authorization now (fun ctx =>
        Routes (Some hub_broadcaster) unicode_upper uuid_String uuid_Parse ToJWT (app_livekit a) ctx rq))
  | PostFeedback req =>
      answers EntryR (Middleware uuid_Parse jwt_Parse (app_auth a) authorization now (fun ctx => Submit ctx req))
  | PostPushToken req =>
      answers EmptyR (Middleware uuid_Parse jwt_Parse (app_auth a) authorization now (fun ctx => Save unicode_lower ctx req))
  end.

Definition serve_route (rq : server_route) : M Hub server_reply :=
  match rq with
  | GetHealthz => ret HealthR
  | GetRoot => ret RootR
  | GetConfig => answers ConfigR ConfigHandler
  | GetPolicy => ret (match app_policy a with Some m => LegalR (PolicyHandler m) | None => NotMounted end)
  | GetDeleteAccount => ret (match app_policy a with Some m => LegalR (DeleteAccountHandler m) | None => NotMounted end)
  | PostGuest now now' req => answers TokenR (HandleGuest uuid_String jwt_SignedString (app_auth a) now now' req)
  | PostGoogle now now' req =>
      answers TokenR (HandleGoogle uuid_String jwt_SignedString ParseWithClaims GetExpirationTime (app_auth a) now now' req)
  | PostApple now now' req =>
      answers TokenR (HandleApple uuid_String jwt_SignedString ParseWithClaims GetExpirationTime (app_auth a) now now' req)
  | AsUser authorization now u => user_routes authorization now u
  | AdminPages r now net page =>
      match app_admin a with
      | Some m =>
          answers AdminR (Mount heap_id heap_token pg_timestamptz net ilike uuid_String uuid_Parse m r now page)
      | None => ret NotMounted
      end
  | WebSocket room token now accepted =>
      answers SocketR (ServeHTTP uuid_Parse jwt_Parse (app_auth a) room token now accepted)
  end.
End server.
