(* ===== verification/ServerProps.v ===== *)
(** * The server as a whole

    The invariant of the running server, and what being removed from a room
    means across the API and the sockets. *)
From stdpp Require Import base gmap sets list strings sorting.
From Stdlib Require Import ZArith Lia.
From S2P Require Import Prelude.
From S2P Require Import GoString.
From S2P Require Import Httpx.
From S2P Require Import Types.
From S2P Require Import Db.
From S2P Require Import Store.
From S2P Require Import StoreFacts.
From S2P Require Import Broadcaster.
From S2P Require Import Service.
From S2P Require Import ServiceFacts.
From S2P Require Import Runs.
From S2P Require Import Samples.
From S2P Require Import RoomsProps.
From S2P Require Import Messages.
From S2P Require Import Client.
From S2P Require Import Hub.
From S2P Require Import HubFacts.
From S2P Require Import Presence.
From S2P Require Import HubProps.
From S2P Require Import HubBroadcaster.
From S2P Require Import Providers.
From S2P Require Import Auth.
From S2P Require Import AuthFacts.
From S2P Require Import AuthProps.
From S2P Require Import Livekit.
From S2P Require Import Handlers.
From S2P Require Import HandlersProps.
From S2P Require Import Session.
From S2P Require Import SessionProps.
From S2P Require Import Push.
From S2P Require Import Feedback.
From S2P Require Import AppConfig.
From S2P Require Import Admin.
From S2P Require Import AdminFacts.
From S2P Require Import AdminProps.
From S2P Require Import ServerFacts.
From S2P Require Import Server.

Open Scope convoy_scope.

(** ** The hub under the service's announcements *)

Lemma good_quiet op h : quiet_op op = true -> good h -> good (hub_exec op h).2.
Proof. intros Hq. apply step_good, step_announce, Hq. Qed.

#[export] Instance hub_keeps_good : BroadcasterKeeps hub_broadcaster good.
Proof.
  split; intros; simpl; try (by apply good_broadcast).
  - by apply (good_quiet (OpKickConnection r u a)).
  - by apply (good_quiet (OpRoomEnded r)).
  - by apply (good_quiet (Presence.OpDisconnect r u)).
Qed.

(** ** Every request *)

Lemma more_users_all t f :
  (forall u, is_Some (t_users t !! u) -> is_Some (f (t_users t) !! u)) ->
  full_wf (set_users f t) -> all_wf t -> all_wf (set_users f t).
Proof. intros Hf Hwf [_ Hs]. split; [done|by apply side_more_users]. Qed.

Lemma insert_more {A} (m : gmap uuid A) k x u : is_Some (m !! u) -> is_Some (<[k:=x]> m !! u).
Proof. rewrite lookup_insert. by case_decide. Qed.

#[export] Instance all_wf_stable {H} : AuthStable (H:=H) all_wf.
Proof.
  split; intros; [| | | |apply delete_user_all|apply end_owned_rooms_all|apply drop_memberships_all];
    (apply stmt_all_wf; [by apply full_wf_stable|]); intros now x t a t' [_ Hs].
  - unfold insert_user. destruct (has _ _); [done|]. intros [= <- <-]. apply side_more_users; [|done].
    intros ?. apply insert_more.
  - unfold update_display_name. repeat case_match; intros [= <- <-]; try done.
    apply side_more_users; [|done]. intros ?. apply insert_more.
  - unfold update_email. repeat case_match; intros [= <- <-]; try done.
    apply side_more_users; [|done]. intros ?. apply insert_more.
  - unfold insert_identity. repeat case_match; intros [= <- <-]; try done. by apply (side_wf_same t).
Qed.

(** Being about accounts, the invariant beside that of the rooms. *)
Lemma all_wf_split t : all_wf t <-> db_wf t /\ accounts_wf t /\ side_wf t.
Proof. unfold all_wf, full_wf. tauto. Qed.

Lemma accounts_about : about_accounts (fun t => accounts_wf t /\ side_wf t).
Proof.
  intros t t' Eu Ei Et Ef [[Hu Hi] Hs]. split; [split; rewrite ?Eu, ?Ei; done|by apply (side_wf_same t)].
Qed.

Lemma service_op_all {H} (rt : option (Broadcaster H)) up op : preserves all_wf (run_service_op rt up op).
Proof.
  intros w [Hwf Hacc]%all_wf_split. apply all_wf_split. split; [by apply service_op_wf|].
  by apply (service_op_accounts _ accounts_about).
Qed.


(** The handler of the sockets only reads the tables. *)
Lemma ServeHTTP_reads {Keyfunc} uuid_Parse jwt_Parse (s : Service (Keyfunc:=Keyfunc)) P room token now ok :
  preserves P (ServeHTTP uuid_Parse jwt_Parse s room token now ok).
Proof.
  unfold ServeHTTP, snapshot, LoadUser, scan_user. repeat (intros; lazymatch goal with
    | |- preserves _ (match _ with _ => _ end) => case_goal
    | |- preserves _ (bind _ _) => apply bind_preserves
    | |- preserves _ (try _) => apply try_preserves
    | |- preserves _ (on_error _ _) => apply on_error_preserves
    | |- preserves _ (scan_row _) => apply scan_row_preserves
    | |- preserves _ (rt_do _) => apply rt_do_preserves
    | |- preserves _ (exec _ _) => apply select_preserves
    | |- preserves _ _ => first [by intros w | apply read_only_preserves; auto with store_ro]
    end).
Qed.

Section requests.
Variable unicode_upper unicode_lower : rune -> rune.
Variable uuid_String : uuid -> string.
Variable uuid_Parse : string -> option uuid.
Variable jwt_SignedString : signing_method -> string -> MapClaims -> option string.
Variable jwt_Parse : string -> (signing_method -> option string) -> time -> option MapClaims.
Context {Keyfunc : Type}.
Variable ParseWithClaims : Keyfunc -> list string -> time -> string -> option MapClaims.
Variable GetExpirationTime : MapClaims -> option time.
Variable ToJWT : string -> string -> grant -> option string.
Variable heap_id : uuid -> N.
Variable heap_token : string -> N.
Variable pg_timestamptz : string -> option time.
Variable ilike : string -> string -> bool.
Variable a : app (Keyfunc:=Keyfunc).

Abbreviation server := (serve_route unicode_upper unicode_lower uuid_String uuid_Parse jwt_SignedString jwt_Parse
  ParseWithClaims GetExpirationTime ToJWT heap_id heap_token pg_timestamptz ilike a).

Lemma answers_preserves {A} P (f : A -> server_reply) m : preserves P m -> preserves P (answers f m).
Proof. intros Hm. apply bind_preserves; [done|]. intros x. apply ret_preserves. Qed.

Lemma ConfigHandler_all {H} : preserves (H:=H) all_wf ConfigHandler.
Proof. unfold ConfigHandler, MinClientVersion, Get. keeps_all. Qed.

Lemma server_all rq : preserves all_wf (server rq).
Proof.
  destruct rq; cbn [serve_route].
  - by intros w.
  - by intros w.
  - apply answers_preserves, ConfigHandler_all.
  - by intros w.
  - by intros w.
  - by apply answers_preserves, HandleGuest_stable, _.
  - unfold HandleGoogle. apply answers_preserves. case_goal; [by apply handleOAuth_stable, _|apply ret_preserves].
  - unfold HandleApple. apply answers_preserves. case_goal; [by apply handleOAuth_stable, _|apply ret_preserves].
  - destruct u; apply answers_preserves; (apply Middleware_stable); intros ctx.
    + unfold HandleMe. keeps_wf.
    + apply HandlePatchMe_stable, _.
    + apply HandleDeleteAccount_stable, _.
    + apply (Routes_compositional (fun A m => preserves all_wf m)). intros op. apply service_op_all.
    + apply Submit_all.
    + apply Save_all.
  - case_goal; [apply answers_preserves, Mount_all|by intros w].
  - apply answers_preserves, ServeHTTP_reads.
Qed.

(** ** The hub *)

Lemma answers_keeps {A} Q (f : A -> server_reply) m : rt_keeps Q m -> rt_keeps Q (answers f m).
Proof. intros Hm. apply bind_keeps; [done|]. intros x. apply ret_keeps. Qed.

Lemma LoadUser_keeps Q id : rt_keeps (H:=Hub) Q (LoadUser id).
Proof. unfold LoadUser, scan_user. rt_tac. Qed.

Lemma Middleware_keeps {B} Q header now (next : option User -> M Hub (reply B)) :
  (forall ctx, rt_keeps Q (next ctx)) -> rt_keeps Q (Middleware uuid_Parse jwt_Parse (app_auth a) header now next).
Proof. intros Hnext. pose proof (LoadUser_keeps Q). unfold Middleware. rt_tac. Qed.

Lemma handleOAuth_keeps Q verify now now' req :
  rt_keeps (H:=Hub) Q (handleOAuth uuid_String jwt_SignedString (app_auth a) verify now now' req).
Proof.
  unfold handleOAuth, upsertOAuthUser, refresh_user, register_user, tx_load, scan_user. rt_tac.
Qed.

Lemma Mount_keeps Q m r now net page :
  rt_keeps (H:=Hub) Q (Mount heap_id heap_token pg_timestamptz net ilike uuid_String uuid_Parse m r now page).
Proof.
  destruct page as [err|now' form| |act]; cbn [Mount]; unfold loginPage, loginSubmit, logout, requireAuth; [rt_tac..|].
  destruct act; cbn [perform]; unfold dashboard, countUsers, feedbackList, broadcastList, broadcastNewForm,
    broadcastSend, recipientCount, usersList, userDetail, userSoftDelete, userRestore, userHardDelete, settingsPage,
    settingsSubmit, with_id, BroadcastList, BroadcastCount, BroadcastInsert, queryUsers, fetchUser, PushCount,
    AllTokens, DeleteTokens, FeedbackCount, FeedbackList, MinClientVersion, Get, Set_; rt_tac.
Qed.

Lemma good_roomFor r h : good h -> good (roomFor r true h).2.
Proof.
  intros Hg. pose proof Hg as [Hwf _]. destruct (roomFor_view r h Hwf) as (l & h' & -> & Hwf' & _ & _ & _ & Hv).
  by apply (good_silent h).
Qed.

Lemma enter_keeps r u : rt_keeps good (Session.rt_call (enter r u)).
Proof. intros w. apply good_enter. Qed.

Lemma ServeHTTP_keeps room token now ok :
  rt_keeps good (ServeHTTP uuid_Parse jwt_Parse (app_auth a) room token now ok).
Proof.
  pose proof (LoadUser_keeps good). pose proof enter_keeps.
  assert (forall r, rt_keeps good (rt_do (fun h => (roomFor r true h).2))).
  { intros r. apply rt_do_keeps, good_roomFor. }
  assert (forall c t p, rt_keeps good (rt_do (sendTo c t p))).
  { intros c t p. apply rt_do_keeps. intros h. apply good_sendTo. }
  assert (forall r u, rt_keeps good (rt_do (BroadcastMemberPresent r u))).
  { intros r u. apply rt_do_keeps. intros h. apply good_broadcast. }
  unfold ServeHTTP, snapshot, GetByID, ActiveMembership, ListMembers, GetDestination, ListStops, scan_dest, scan_stop.
  rt_tac.
Qed.

Lemma server_good rq : rt_keeps good (server rq).
Proof.
  destruct rq; cbn [serve_route].
  - by intros w.
  - by intros w.
  - apply answers_keeps. unfold ConfigHandler, MinClientVersion, Get. rt_tac.
  - by intros w.
  - by intros w.
  - apply answers_keeps. unfold HandleGuest, scan_user. rt_tac.
  - unfold HandleGoogle. apply answers_keeps. pose proof (handleOAuth_keeps good). rt_tac.
  - unfold HandleApple. apply answers_keeps. pose proof (handleOAuth_keeps good). rt_tac.
  - destruct u; apply answers_keeps, Middleware_keeps; intros ctx.
    + unfold HandleMe. rt_tac.
    + unfold HandlePatchMe, scan_user. rt_tac.
    + unfold HandleDeleteAccount. rt_tac.
    + apply (Routes_compositional (fun A m => rt_keeps good m)). intros op. by apply service_op_keeps, _.
    + unfold Submit, FeedbackCreate. rt_tac.
    + unfold Save, Upsert. rt_tac.
  - case_goal; [apply answers_keeps, Mount_keeps|by intros w].
  - apply answers_keeps, ServeHTTP_keeps.
Qed.

(** ** What the configuration turns on *)

(** What [main] mounts: a sign-in is offered only for providers with client
    identifiers whose keys could be fetched, and is then checked against
    exactly these; the legal pages need a contact address that is not blank;
    the dashboard needs a password that is not blank and a secret of sixteen
    bytes. *)
Theorem wire_spec cfg googleKeys appleKeys legal parsed :
  let x := wire (Keyfunc:=Keyfunc) cfg googleKeys appleKeys legal parsed in
  secret (app_auth x) = JWTSecret cfg /\ ttl (app_auth x) = JWTTTL cfg /\
  (forall v, google (app_auth x) = Some v <->
     GoogleClientIDs cfg <> [] /\ gv_audiences v = GoogleClientIDs cfg /\ googleKeys = Some (gv_keyfunc v)) /\
  (forall v, apple (app_auth x) = Some v <->
     AppleClientIDs cfg <> [] /\ av_audiences v = AppleClientIDs cfg /\ appleKeys = Some (av_keyfunc v)) /\
  (is_Some (app_policy x) <-> TrimSpace (PrivacyContactEmail cfg) <> "" /\ legal = None) /\
  (is_Some (app_admin x) <->
     TrimSpace (AdminPassword cfg) <> "" /\ 16 <= go_len (AdminCookieSecret cfg) /\ parsed = None).
Proof.
  intros x.
  assert (forall s, secret (with_google (GoogleClientIDs cfg) googleKeys s) = secret s /\
    ttl (with_google (GoogleClientIDs cfg) googleKeys s) = ttl s /\
    apple (with_google (GoogleClientIDs cfg) googleKeys s) = apple s /\
    (google s = None -> forall v, google (with_google (GoogleClientIDs cfg) googleKeys s) = Some v <->
     GoogleClientIDs cfg <> [] /\ gv_audiences v = GoogleClientIDs cfg /\ googleKeys = Some (gv_keyfunc v))) as Hg.
  { intros s. unfold with_google, NewGoogleVerifier. destruct (decide (GoogleClientIDs cfg = [])) as [E|E].
    - rewrite bool_decide_eq_true_2 by done. split_and!; [done..|]. intros ->. by split; [|intros [? _]].
    - rewrite !bool_decide_eq_false_2 by done. destruct googleKeys as [k|]; (split_and!; [done..|]); intros Hn v; simpl.
      + split; [by intros [= <-]|]. destruct v. simpl. intros (_ & -> & [= ->]). done.
      + rewrite Hn. split; [done|by intros (_ & _ & ?)]. }
  assert (forall s, secret (with_apple (AppleClientIDs cfg) appleKeys s) = secret s /\
    ttl (with_apple (AppleClientIDs cfg) appleKeys s) = ttl s /\
    google (with_apple (AppleClientIDs cfg) appleKeys s) = google s /\
    (apple s = None -> forall v, apple (with_apple (AppleClientIDs cfg) appleKeys s) = Some v <->
     AppleClientIDs cfg <> [] /\ av_audiences v = AppleClientIDs cfg /\ appleKeys = Some (av_keyfunc v))) as Ha.
  { intros s. unfold with_apple, NewAppleVerifier. destruct (decide (AppleClientIDs cfg = [])) as [E|E].
    - rewrite bool_decide_eq_true_2 by done. split_and!; [done..|]. intros ->. by split; [|intros [? _]].
    - rewrite !bool_decide_eq_false_2 by done. destruct appleKeys as [k|]; (split_and!; [done..|]); intros Hn v; simpl.
      + split; [by intros [= <-]|]. destruct v. simpl. intros (_ & -> & [= ->]). done.
      + rewrite Hn. split; [done|by intros (_ & _ & ?)]. }
  destruct (Hg (NewService (JWTSecret cfg) (JWTTTL cfg))) as (Hg1 & Hg2 & Hg3 & Hg4).
  destruct (Ha (with_google (GoogleClientIDs cfg) googleKeys (NewService (JWTSecret cfg) (JWTTTL cfg)))) as (Ha1 & Ha2 & Ha3 & Ha4).
  unfold x, wire. cbn [app_auth app_policy app_admin].
  split; [by rewrite Ha1|]. split; [by rewrite Ha2|]. split; [rewrite Ha3; by apply Hg4|]. split; [apply Ha4; by rewrite Hg3|].
  split.
  - unfold PolicyNew. cbn [ContactEmail]. destruct (decide (TrimSpace (PrivacyContactEmail cfg) = "")) as [E|E].
    + rewrite (bool_decide_eq_true_2 (TrimSpace (PrivacyContactEmail cfg) = "")) by done.
      destruct (bool_decide (PrivacyContactEmail cfg = "")); (split; [by intros [? ?]|by intros [? _]]).
    + rewrite (bool_decide_eq_false_2 (TrimSpace (PrivacyContactEmail cfg) = "")) by done.
      rewrite bool_decide_eq_false_2 by (intros E'; apply E; by rewrite E').
      destruct legal; [split; [by intros [? ?]|by intros [_ ?]]|by split; [|by eexists]].
  - unfold New. cbn [Password CookieSecret HasPool negb]. destruct (decide (TrimSpace (AdminPassword cfg) = "")) as [E|E].
    + rewrite bool_decide_eq_true_2 by done. split; [by intros [? ?]|by intros [? _]].
    + rewrite bool_decide_eq_false_2 by done. destruct (Nat.ltb_spec (go_len (AdminCookieSecret cfg)) 16).
      * split; [by intros [? ?]|intros (_ & ? & _); lia].
      * destruct parsed; [split; [by intros [? ?]|by intros (_ & _ & ?)]|by split; [|by eexists]].
Qed.

(** ** The running server *)

Definition set_rt (h : Hub) (w : World Hub) : World Hub :=
  mkWorld (w_db w) (w_now w) (w_env w) (w_pos w) (w_rpos w) h.

(** A request is served, or something happens on a socket. *)
Inductive server_step : World Hub -> World Hub -> Prop :=
| step_request rq w : server_step w (server rq w).2
| step_socket w h : hub_step (w_rt w) h -> server_step w (set_rt h w).

Inductive running : World Hub -> Prop :=
| run_start w : all_wf (w_db w) -> w_rt w = NewHub -> running w
| run_step w w' : running w -> server_step w w' -> running w'.

Lemma NewHub_good : good NewHub.
Proof. apply reachable_good, reach_start. Qed.

Lemma running_good w : running w -> all_wf (w_db w) /\ good (w_rt w).
Proof.
  induction 1 as [w Hwf ->|w w' _ [Hwf Hg] Hstep]; [split; [done|apply NewHub_good]|].
  destruct Hstep as [rq w|w h Hh].
  - split; [by apply server_all|by apply server_good].
  - split; [done|]. by eapply step_good.
Qed.

(** C1 However requests to every route, served one at a time, and events on
    the sockets follow each other, and whatever statements fail, as long as frames come from current sockets:
    the tables stay well-formed - every
    room's owner is among its members, one active room per code, every
    reference leads somewhere, one account per identity - the hub's structures
    stay coherent, and a room never shows an emergency or a location of
    somebody who is not connected to it. *)
Theorem server_invariant w :
  running w ->
  db_wf (w_db w) /\ accounts_wf (w_db w) /\ side_wf (w_db w) /\ hub_wf (w_rt w) /\
  forall r u,
    (u ∈ EmergencyUserIDs r (w_rt w) -> IsPresent r u (w_rt w) = true) /\
    (forall self ms d st, let snap := snapshot_of r self ms d st (w_rt w) in
       (is_Some (SP_Locations snap !! u) -> u ∈ SP_PresentUserIDs snap) /\
       (u ∈ SP_EmergencyUserIDs snap -> u ∈ SP_PresentUserIDs snap)).
Proof.
  intros [(Hdb & Hacc & Hside)%all_wf_split Hg]%running_good.
  split; [done|]. split; [done|]. split; [done|]. split; [apply Hg|]. by apply good_alarms.
Qed.
End requests.

(** ** The door to the sockets *)

Section door.
Variable uuid_Parse : string -> option uuid.
Variable jwt_Parse : string -> (signing_method -> option string) -> time -> option MapClaims.
Context {Keyfunc : Type}.
Variable s : Service (Keyfunc:=Keyfunc).

Abbreviation ws := (ServeHTTP uuid_Parse jwt_Parse s).

Lemma GetByID_any id (w : World Hub) :
  GetByID id w =
    (if decide (next_ok w) then
       match t_rooms (w_db w) !! id with Some row => Ok (room_of_row id row) | None => Fail RoomsErrNotFound end
     else Fail ErrConn, advance true w).
Proof.
  unfold GetByID, on_error, catch, scan_row, bind. rewrite exec_select_run.
  destruct (decide (next_ok w)); [|done]. by destruct (t_rooms (w_db w) !! id).
Qed.

Lemma LoadUser_any id (w : World Hub) :
  exists r, LoadUser id w = (r, advance true w) /\
    forall u, r = Ok u -> U_ID u = id /\ is_Some (select_user id (w_db w)).
Proof.
  unfold LoadUser, on_error, catch, scan_row, scan_user. rewrite !bind_unfold, exec_select_run.
  destruct (decide (next_ok w)); [|eexists; split; [reflexivity|by intros u]].
  destruct (select_user id (w_db w)) as [[i row]|] eqn:Hs; [|eexists; split; [reflexivity|by intros u]].
  assert (i = id) as -> by (unfold select_user in Hs; destruct (t_users (w_db w) !! id) as [x|]; [|done];
    simpl in Hs; destruct (user_live x); [by injection Hs|done]).
  cbn [ret fst snd]. destruct (Auth.Scan (Some (u_entitlements row))) as [e|]; eexists;
    (split; [reflexivity|]); [by intros u [= <-]|by intros u].
Qed.

(** The socket [c] is the one [u] has in [r]. *)
Definition connected (r u : uuid) (c : cid) (h : Hub) : Prop := hub_wf h /\ client_of r u h = Some c.

Lemma connected_enter r u h : good h -> connected r u (enter r u h).1.1 (enter r u h).2.
Proof.
  intros Hg. pose proof (good_enter r u h Hg) as [Hwf' _]. destruct Hg as (Hwf & p & Hp & _).
  split; [done|]. unfold enter in *. pose proof (alloc_wf u r h Hwf) as Hwf1. pose proof (alloc_socket r u h) as Hs.
  destruct (alloc_client u r h) as [c h1] eqn:Hal. simpl in *.
  assert (refines h1 p) as Hp1.
  { apply (refines_silent h); [|done]. intros r'. injection Hal as <- <-. done. }
  destruct (join_refines r u c h1 p Hwf1 Hp1 Hs) as (_ & Hp2 & _). destruct (Hub.join r c h1) as [b h2]. simpl in *.
  rewrite <-(rf_current _ _ Hp2). simpl. by rewrite lookup_insert_eq.
Qed.

Lemma connected_roomFor r u c r' h : connected r u c h -> connected r u c (roomFor r' true h).2.
Proof.
  intros [Hwf Hc]. destruct (roomFor_spec r' h Hwf) as (l & h' & -> & Hwf' & Hl & _ & Hs & Hv). split; [done|].
  unfold client_of in *. simpl. destruct (decide (r = r')) as [->|Hne]; [|by rewrite Hv].
  unfold room_state at 1. rewrite Hl. simpl. rewrite Hs. by destruct (room_state r' h).
Qed.

Lemma snapshot_connected r u c r' u' : rt_keeps (connected r u c) (snapshot r' u').
Proof.
  assert (rt_keeps (connected r u c) (rt_do (fun h => (roomFor r' true h).2))).
  { apply rt_do_keeps, connected_roomFor. }
  unfold snapshot, ListMembers, GetDestination, ListStops, scan_dest, scan_stop. rt_tac.
Qed.

Lemma greeting_connected r u c d t p h : connected r u c h -> connected r u c (sendTo d t p h).
Proof. intros [Hwf Hc]. split; [by apply sendTo_wf|]. unfold client_of. by rewrite sendTo_view. Qed.

Lemma present_connected r u c r' u' h : connected r u c h -> connected r u c (BroadcastMemberPresent r' u' h).
Proof.
  intros [Hwf Hc]. split; [by apply broadcast_wf|]. unfold BroadcastMemberPresent. by rewrite client_of_broadcast.
Qed.

(** The reply when no socket is opened. *)
Definition turned_away (o : opened) : Prop := match o with Opened _ => False | _ => True end.

(** What follows the join: the snapshot and the announcement. *)
Lemma welcome_run r u c (b : bool) (w w' : World Hub) res :
  (snap <- try (snapshot r u) ;;
   match snap with
   | Ok p => rt_do (sendTo c MsgSnapshot (Some (SnapshotP p)))
   | Fail _ => ret tt
   end ;;;
   (if b then rt_do (BroadcastMemberPresent r u) else ret tt) ;;;
   ret (Opened c)) w = (res, w') ->
  res = Ok (Opened c) /\ (forall c', connected r u c' (w_rt w) -> connected r u c' (w_rt w')).
Proof.
  rewrite bind_unfold. unfold try. cbn [fst snd].
  pose proof (fun c' => snapshot_connected r u c' r u w) as Hs. destruct (snapshot r u w) as [snap w1].
  cbn [fst snd] in *. destruct snap as [p|e], b; intros [= <- <-]; (split; [reflexivity|]); intros c' Hc; simpl.
  - by apply present_connected, greeting_connected, Hs.
  - by apply greeting_connected, Hs.
  - by apply present_connected, Hs.
  - by apply Hs.
Qed.

Ltac turned := intros [= <- <-]; right; eexists; (split; [reflexivity|]); split; [exact I|reflexivity].

(** C16 Who gets a socket: under every pattern of failing statements, only a
    live user with a valid token who is an active member of a room that has
    not ended, and then they are connected through it; in every other case
    the answer is an error and neither the tables nor the hub change. *)
Theorem websocket_gate room token now accepted (w : World Hub) :
  good (w_rt w) ->
  let '(res, w') := ws room token now accepted w in
  w_db w' = w_db w /\
  ((exists c r u row, res = Ok (Opened c) /\ uuid_Parse room = Some r /\
      Verify uuid_Parse jwt_Parse s token now = Some u /\
      t_rooms (w_db w) !! r = Some row /\ r_ended_at row = None /\
      is_member (w_db w) r u = true /\ is_Some (select_user u (w_db w)) /\
      client_of r u (w_rt w') = Some c /\ IsPresent r u (w_rt w') = true) \/
   (exists o, res = Ok o /\ turned_away o /\ w_rt w' = w_rt w)).
Proof.
  intros Hg. destruct (ws room token now accepted w) as [res w'] eqn:Hrun. split.
  { pose proof (ServeHTTP_reads uuid_Parse jwt_Parse s (fun t => t = w_db w) room token now accepted w eq_refl) as Hdb.
    by rewrite Hrun in Hdb. }
  revert Hrun. unfold ServeHTTP.
  destruct (uuid_Parse room) as [r|]; [|turned].
  destruct (Verify uuid_Parse jwt_Parse s token now) as [u|]; [|turned].
  rewrite bind_unfold. unfold try at 1. rewrite GetByID_any. cbn [fst snd].
  destruct (decide (next_ok w)); [|turned].
  destruct (t_rooms (w_db w) !! r) as [row|] eqn:Hr; [|turned]. cbn [room_of_row Room_EndedAt].
  case_bool_decide as He; [turned|].
  rewrite bind_unfold. unfold try at 1. rewrite ActiveMembership_run. cbn [fst snd].
  destruct (decide _); [|turned].
  cbn [w_db advance]. destruct (t_members (w_db w) !! (r, u)) as [m|] eqn:Hm; [|turned]. destruct (member_active m) eqn:Ha; [|turned].
  rewrite bind_unfold. unfold try at 1. destruct (LoadUser_any u (advance true (advance true w))) as (lu & -> & Hu).
  cbn [fst snd]. destruct lu as [user|e]; [|turned]. destruct (Hu user eq_refl) as [Hid Hsel].
  destruct accepted; [|turned]. cbn [negb]. rewrite bind_unfold. unfold Session.rt_call. cbn [fst snd]. rewrite Hid.
  pose proof (connected_enter r u (w_rt w) Hg) as Hc. cbn [w_rt advance].
  set (cb := enter r u (w_rt w)) in *. intros Hrun.
  apply welcome_run in Hrun as [-> Hw]. destruct (Hw _ Hc) as [Hwf Hco].
  left. exists cb.1.1, r, u, row. split; [done|]. split; [done|]. split; [done|]. split; [done|]. split; [done|].
  split; [unfold is_member; by rewrite Hm|]. split; [exact Hsel|]. split; [done|].
  unfold IsPresent, client_of in *. destruct (room_state r (w_rt w')) as [rs|]; [|done]. simpl in Hco.
  rewrite Hco. by apply bool_decide_eq_true.
Qed.

(** ** Being removed *)

Variable unicode_upper : rune -> rune.
Variable uuid_String : uuid -> string.
Variable ToJWT : string -> string -> grant -> option string.
Variable livekit : Config.
Abbreviation api := (Routes (Some hub_broadcaster) unicode_upper uuid_String uuid_Parse ToJWT livekit).

Lemma closed_after_close reason k : c_closed (close_ reason k) = true.
Proof. unfold close_. by destruct (c_closed k) eqn:E. Qed.

(** Somebody who is not an active member of a running room is told 403. *)
Lemma websocket_forbidden room token now accepted r u row (w : World Hub) :
  fault_free w -> uuid_Parse room = Some r -> Verify uuid_Parse jwt_Parse s token now = Some u ->
  t_rooms (w_db w) !! r = Some row -> r_ended_at row = None -> is_member (w_db w) r u = false ->
  obs (ws room token now accepted w) = (Ok (HTTPError 403 "forbidden"), w_db w, w_rt w).
Proof.
  intros Hw Hp Hv Hr He Hm. unfold ServeHTTP. rewrite Hp, Hv. rewrite bind_unfold. unfold try at 1. rewrite GetByID_any.
  cbn [fst snd]. rewrite decide_True by apply (fault_free_next 0 w Hw). rewrite Hr. cbn [room_of_row Room_EndedAt].
  rewrite bool_decide_eq_false_2 by (by intros []). rewrite bind_unfold. unfold try at 1. rewrite ActiveMembership_run.
  cbn [fst snd w_db advance]. rewrite decide_True by apply (fault_free_next 1 w Hw). unfold is_member in Hm.
  destruct (t_members (w_db w) !! (r, u)) as [m|]; [rewrite Hm|]; done.
Qed.

(** C17 Kicked is out, across the API and the sockets. After the owner's request
    is answered, the socket the target had in the room is closed, and when it
    was open with room in its queue of 32 the news of the kick is its last frame
    and its reason. For as long as the membership stays as the kick left it,
    whatever else happens, opening another socket to the running room is
    answered 403, and so is every request on the room but to leave it, unless
    it is refused for its form. (Joining the room again by its code is not
    refused: [join_spec].) *)
Theorem kicked_is_out room member r u actor m (w : World Hub) :
  fault_free w -> good (w_rt w) -> uuid_Parse room = Some r -> uuid_Parse member = Some u ->
  is_owner (w_db w) r (U_ID actor) = true -> U_ID actor <> u ->
  t_members (w_db w) !! (r, u) = Some m -> member_present m = true ->
  let '(res, w1) := Handlers.kick (Some hub_broadcaster) uuid_Parse (Some actor) room member w in
  res = Ok NoContent /\
  (forall c k, client_of r u (w_rt w) = Some c -> h_clients (w_rt w) !! c = Some k ->
     exists k', h_clients (w_rt w1) !! c = Some k' /\ c_closed k' = true /\
       (length (c_send k) < sendBuffer -> c_closed k = false ->
        c_reason k' = "kicked" /\ c_send k' = c_send k ++ [kicked_frame u (U_ID actor)])) /\
  forall w' : World Hub, fault_free w' -> t_members (w_db w') !! (r, u) = t_members (w_db w1) !! (r, u) ->
    (forall token now accepted row,
       Verify uuid_Parse jwt_Parse s token now = Some u ->
       t_rooms (w_db w') !! r = Some row -> r_ended_at row = None ->
       obs (ws room token now accepted w') = (Ok (HTTPError 403 "forbidden"), w_db w', w_rt w')) /\
    (forall ctx rq, U_ID (context_user ctx) = u -> rq <> PostLeave ->
       obs (api ctx (OnRoom room rq) w') =
         (Ok (WriteErr (default (ErrAPI ErrForbidden) (room_request_error uuid_Parse livekit room rq))), w_db w', w_rt w')).
Proof.
  intros Hw [Hwf _] Hroom Hmember Ho Hne Hm Hpres.
  pose proof (Kick_run (Some hub_broadcaster) r (U_ID actor) u w Hw) as Hkick. cbv zeta in Hkick.
  rewrite Ho, Hm, Hpres, bool_decide_eq_false_2 in Hkick by done. cbn [negb announce] in Hkick.
  unfold Handlers.kick. rewrite serve_path, Hroom, serve_path, Hmember, serve_run, bind_unfold.
  change (U_ID (context_user (Some actor))) with (U_ID actor).
  destruct (Kick _ r (U_ID actor) u w) as [res w1]. unfold obs in Hkick. cbn [fst snd] in Hkick.
  injection Hkick as -> Hdb Hrt. simpl. split; [done|]. split.
  - intros c k Hc Hk. rewrite Hrt. cbn [hub_broadcaster Broadcaster.KickConnection].
    rewrite KickConnection_clients, Hk by done. rewrite bool_decide_eq_true_2 by done.
    eexists. split; [reflexivity|]. split; [apply closed_after_close|]. intros Hlen Hopen. by apply farewell.
  - intros w' Hw' Emem. assert (is_member (w_db w') r u = false) as Hout.
    { unfold is_member. rewrite Emem, Hdb. simpl. rewrite lookup_insert_eq. unfold mark_kicked, member_active, member_present.
      by rewrite bool_decide_eq_false_2. }
    split; [intros token now accepted row Hv Hrow He; by apply (websocket_forbidden room token now accepted r u row)|].
    intros ctx rq Hctx Hleave. rewrite <-Hctx in Hout.
    pose proof (outsider_run (Some hub_broadcaster) unicode_upper uuid_String uuid_Parse ToJWT livekit ctx room r rq w'
      Hroom Hout Hleave) as Hr. unfold route in Hr.
    cbn [Routes] in Hr |- *. destruct (route_room _ _ _ _ _ ctx room rq w') as [res w2]. destruct Hr as (-> & Hdb2 & Hrt2). unfold obs. simpl.
    rewrite Hdb2, Hrt2. unfold refusal. by rewrite decide_True by apply (fault_free_next 0 w' Hw').
Qed.
End door.

(** ** A concrete server *)

(** The convoy's tables, a hub without sockets. *)
Definition live_world : World Hub :=
  mkWorld (w_db convoy_world) (w_now convoy_world) calm_env (w_pos convoy_world) 0 NewHub.

Lemma live_all : all_wf (w_db live_world).
Proof.
  change (w_db live_world) with (w_db convoy_world). split; [split; [exact convoy_world_wf|]|].
  - assert (t_identities (w_db convoy_world) = ∅) as E by (vm_compute; reflexivity).
    split; [intros i x|intros i j x y]; by rewrite E, lookup_empty.
  - assert (t_push_tokens (w_db convoy_world) = ∅) as Et by (vm_compute; reflexivity).
    assert (t_feedback (w_db convoy_world) = ∅) as Ef by (vm_compute; reflexivity).
    split; [intros k r; by rewrite Et, lookup_empty|intros i f u; by rewrite Ef, lookup_empty].
Qed.

(** Bob connects to room 101 with his token. *)
Definition bob_connected : World Hub := (ServeHTTP plain_Parse plain_jwt desk "101" "key2" 5 true live_world).2.

Lemma websocket_gate_witness :
  good (w_rt live_world) /\ (ServeHTTP plain_Parse plain_jwt desk "101" "key2" 5 true live_world).1 = Ok (Opened 0) /\
  (ServeHTTP plain_Parse plain_jwt desk "101" "key2" 5 true live_world).2 = bob_connected /\
  IsPresent 101 2 (w_rt bob_connected) = true.
Proof.
  split; [exact NewHub_good|]. split; [vm_compute; reflexivity|]. split; [reflexivity|].
  pose proof (websocket_gate plain_Parse plain_jwt desk "101" "key2" 5 true live_world NewHub_good) as Hg.
  unfold bob_connected. destruct (ServeHTTP plain_Parse plain_jwt desk "101" "key2" 5 true live_world) as [res w'] eqn:E.
  destruct Hg as [_ [(c & r & u & row & _ & Hr & Hu & _ & _ & _ & _ & _ & Hp)|(o & Ho & Ht & _)]].
  - vm_compute in Hr, Hu. injection Hr as <-. injection Hu as <-. exact Hp.
  - exfalso. assert (res = Ok (Opened 0)) as Hres by (apply (f_equal fst) in E; simpl in E; rewrite <-E; vm_compute; reflexivity).
    rewrite Hres in Ho. injection Ho as <-. exact Ht.
Defined.

(** Ada removes Bob; he tries to come back. *)
Definition ada_kicks : World Hub :=
  (Handlers.kick (Some hub_broadcaster) plain_Parse (Some ada) "101" "2" bob_connected).2.

Lemma bob_good : good (w_rt bob_connected).
Proof. apply (ServeHTTP_keeps plain_Parse plain_jwt (mkApp desk no_voice None None)), NewHub_good. Qed.

Lemma ada_kicks_calm : fault_free ada_kicks.
Proof. intros n. vm_compute. reflexivity. Qed.

Lemma kicked_is_out_witness :
  obs (ServeHTTP plain_Parse plain_jwt desk "101" "key2" 6 true ada_kicks) =
    (Ok (HTTPError 403 "forbidden"), w_db ada_kicks, w_rt ada_kicks) /\
  obs (Routes (Some hub_broadcaster) (fun r => r) plain_String plain_Parse (fun _ _ _ => None) no_voice
         (Some (mkUser 2 "bob" None None None)) (OnRoom "101" DeleteRoom) ada_kicks) =
    (Ok (WriteErr (ErrAPI ErrForbidden)), w_db ada_kicks, w_rt ada_kicks) /\
  (c_reason <$> h_clients (w_rt ada_kicks) !! 0%N) = Some "kicked".
Proof.
  assert (exists m, t_members (w_db bob_connected) !! (101%N, 2%N) = Some m /\ member_present m = true) as (m & Hm & Hp)
    by (eexists; vm_compute; split; reflexivity).
  assert (exists row, t_rooms (w_db ada_kicks) !! 101%N = Some row /\ r_ended_at row = None) as (row & Hrow & He)
    by (eexists; vm_compute; split; reflexivity).
  assert (exists k, h_clients (w_rt bob_connected) !! 0%N = Some k /\ length (c_send k) < sendBuffer /\ c_closed k = false)
    as (k & Hk & Hlen & Hopen) by (eexists; vm_compute; split; [reflexivity|split; [lia|reflexivity]]).
  pose proof (kicked_is_out plain_Parse plain_jwt desk (fun r => r) plain_String (fun _ _ _ => None) no_voice
    "101" "2" 101 2 ada m bob_connected) as Hs.
  specialize (Hs (fun n => ltac:(vm_compute; reflexivity)) bob_good ltac:(vm_compute; reflexivity)
    ltac:(vm_compute; reflexivity) ltac:(vm_compute; reflexivity) ltac:(discriminate) Hm Hp).
  rewrite (surjective_pairing (Handlers.kick _ _ _ _ _ bob_connected)) in Hs.
  destruct Hs as (_ & Hsock & Hout). destruct (Hout ada_kicks ada_kicks_calm eq_refl) as [Hws Hapi].
  assert (client_of 101 2 (w_rt bob_connected) = Some 0%N) as Hc by (vm_compute; reflexivity).
  destruct (Hsock 0%N k Hc Hk) as (k' & Hk' & _ & Hr). split; [|split].
  - apply (Hws "key2" 6%Z true row); [vm_compute; reflexivity|exact Hrow|exact He].
  - exact (Hapi (Some (mkUser 2 "bob" None None None)) DeleteRoom eq_refl ltac:(discriminate)).
  - unfold ada_kicks. rewrite Hk'. cbn [fmap option_fmap option_map]. by rewrite (proj1 (Hr Hlen Hopen)).
Defined.

Definition live_app : app (Keyfunc:=unit) := mkApp desk no_voice None (Some console).

Abbreviation live_server := (serve_route (fun r => r) (fun r => r) plain_String plain_Parse plain_sign plain_jwt
  (fun _ _ _ _ => None) (fun _ => None) (fun _ _ _ => None) (fun i => i) (fun _ => 0%N) (fun _ => None)
  (fun _ _ => false) live_app).

(** Bob connects, then Ada removes him for good from the dashboard. *)
Definition busy_server : World Hub :=
  (live_server (AdminPages operator new_year expo_net (Protected (PostHardDelete "2")))
     (live_server (WebSocket "101" "key2" 5 true) live_world).2).2.

Lemma server_invariant_witness :
  t_users (w_db busy_server) !! 2%N = None /\ t_members (w_db busy_server) !! (101%N, 2%N) = None /\
  side_wf (w_db busy_server).
Proof.
  split; [vm_compute; reflexivity|]. split; [vm_compute; reflexivity|].
  apply (server_invariant (fun r => r) (fun r => r) plain_String plain_Parse plain_sign plain_jwt
    (fun _ _ _ _ => None) (fun _ => None) (fun _ _ _ => None) (fun i => i) (fun _ => 0%N) (fun _ => None)
    (fun _ _ => false) live_app busy_server).
  eapply run_step; [eapply run_step; [apply run_start; [exact live_all|reflexivity]|apply step_request]|apply step_request].
Defined.
