(* ===== verification/Migrations.v ===== *)
(** * [internal/db]: the connection pool and the migrations

    [Connect] and [Migrate] of [db.go], over the pool and the embedded files as
    parameters, and the migration scripts as the statements they consist of,
    with what these do to a schema. *)
From stdpp Require Import base gmap sets list strings sorting.
From Stdlib Require Import ZArith Lia.
From S2P Require Import Prelude.
From S2P Require Import Httpx.
From S2P Require Import Types.
From S2P Require Import Db.
From S2P Require Import Store.

Open Scope convoy_scope.

(** ** [Connect] *)

Section connect.
Context {Parsed Pool : Type}.

(** The configuration of a pool: what the URL says and what [Connect] sets;
    the lifetime is in nanoseconds. *)
Record PoolConfig := mkPoolConfig { pc_url : Parsed; MaxConns : Z; MinConns : Z; MaxConnLifetime : Z }.

Variable ParseConfig : string -> Parsed + error.
Variable NewWithConfig : PoolConfig -> Pool + error.
Variable Ping : Pool -> option error.

Inductive connect_error := ParseURL (e : error) | ConnectDB (e : error) | PingDB (e : error).

(** The pool or an error, and the pool that was closed. *)
Definition Connect (url : string) : (Pool + connect_error) * option Pool :=
  match ParseConfig url with
  | inr e => (inr (ParseURL e), None)
  | inl cfg =>
      match NewWithConfig (mkPoolConfig cfg 20 2 3600000000000) with
      | inr e => (inr (ConnectDB e), None)
      | inl pool =>
          match Ping pool with
          | Some e => (inr (PingDB e), Some pool)
          | None => (inl pool, None)
          end
      end
  end.
End connect.

(** ** [Migrate] *)

Record dir_entry := mkDirEntry { entry_name : string; IsDir : bool }.

(** [strings.HasSuffix]. *)
Definition HasSuffix (s suffix : string) : bool :=
  (String.length suffix <=? String.length s) &&
  bool_decide (String.substring (String.length s - String.length suffix) (String.length suffix) s = suffix).

(** [sort.Strings] orders strings by their bytes. *)
Definition sort_strings (l : list string) : list string := order_by String.leb l.

Inductive migrate_error := ReadMigrations (e : error) | ReadScript (name : string) (e : error) | ApplyScript (name : string) (e : error).

(** The names of the scripts. *)
Definition migration_names (entries : list dir_entry) : list string :=
  sort_strings (omap (fun e => if negb (IsDir e) && HasSuffix (entry_name e) ".sql" then Some (entry_name e) else None) entries).

Section migrate.
Context {Script T : Type}.
Variable ReadDir : string -> list dir_entry + error.
Variable ReadFile : string -> Script + error.
Variable Exec : Script -> T -> option error * T.

(** The scripts one after the other. *)
Fixpoint apply_scripts (names : list string) (t : T) : option migrate_error * T :=
  match names with
  | [] => (None, t)
  | name :: names' =>
      match ReadFile (String.append "migrations/" name) with
      | inr e => (Some (ReadScript name e), t)
      | inl raw =>
          match Exec raw t with
          | (Some e, t') => (Some (ApplyScript name e), t')
          | (None, t') => apply_scripts names' t'
          end
      end
  end.

Definition Migrate (t : T) : option migrate_error * T :=
  match ReadDir "migrations" with
  | inr e => (Some (ReadMigrations e), t)
  | inl entries => apply_scripts (migration_names entries) t
  end.
End migrate.

(** ** The statements of the scripts *)

(** A column: its name, its type with its constraints and default, and the
    table it refers to with what happens when the row there is deleted. *)
Record column := mkColumn { col_name : string; col_type : string; col_refs : option (string * string) }.

Record table := mkTable { tb_columns : list column; tb_constraints : list string }.

(** An index: its columns, each with whether it is descending, and its condition. *)
Record index := mkIndex { ix_unique : bool; ix_table : string; ix_columns : list (string * bool); ix_where : string }.

Inductive ddl :=
| CreateExtensionIfNotExists (name : string)
| CreateTableIfNotExists (name : string) (cols : list column) (constraints : list string)
| CreateIndexIfNotExists (name : string) (ix : index)
| AddColumnsIfNotExists (name : string) (cols : list column)
| DropTableIfExists (name : string)
| InsertConfigOnConflictDoNothing (key value : string).

(** The schema, and the rows of [app_config]. *)
Record schema := mkSchema {
  sc_extensions : gset string;
  sc_tables : gmap string table;
  sc_indexes : gmap string index;
  sc_config : gmap string string;
}.

#[export] Instance column_eq_dec : EqDecision column.
Proof. solve_decision. Defined.
#[export] Instance table_eq_dec : EqDecision table.
Proof. solve_decision. Defined.
#[export] Instance index_eq_dec : EqDecision index.
Proof. solve_decision. Defined.
#[export] Instance schema_eq_dec : EqDecision schema.
Proof. solve_decision. Defined.

Definition no_schema : schema := mkSchema ∅ ∅ ∅ ∅.

Definition set_tables (m : gmap string table) (s : schema) : schema :=
  mkSchema (sc_extensions s) m (sc_indexes s) (sc_config s).

Definition undefined_table : error := ErrPg "42P01".
Definition undefined_column : error := ErrPg "42703".
Definition dependent_objects : error := ErrPg "2BP01".

(** What a column refers to exists, or is the table itself. *)
Definition refs_ok (name : string) (s : schema) (c : column) : bool :=
  match col_refs c with
  | Some (t, _) => bool_decide (t = name) || bool_decide (is_Some (sc_tables s !! t))
  | None => true
  end.

Definition has_column (name : string) (t : table) : bool :=
  existsb (fun c => bool_decide (col_name c = name)) (tb_columns t).

Definition add_column (t : table) (c : column) : table :=
  if has_column (col_name c) t then t else mkTable (tb_columns t ++ [c]) (tb_constraints t).

Definition refers_to (name : string) (t : table) : bool :=
  existsb (fun c => bool_decide (fst <$> col_refs c = Some name)) (tb_columns t).

Definition exec_ddl (d : ddl) (s : schema) : schema + error :=
  match d with
  | CreateExtensionIfNotExists name =>
      inl (mkSchema ({[name]} ∪ sc_extensions s) (sc_tables s) (sc_indexes s) (sc_config s))
  | CreateTableIfNotExists name cols constraints =>
      match sc_tables s !! name with
      | Some _ => inl s
      | None =>
          if forallb (refs_ok name s) cols then inl (set_tables (<[name := mkTable cols constraints]> (sc_tables s)) s)
          else inr undefined_table
      end
  | CreateIndexIfNotExists name ix =>
      match sc_tables s !! ix_table ix with
      | None => inr undefined_table
      | Some t =>
          if bool_decide (is_Some (sc_indexes s !! name)) then inl s else
          if forallb (fun c => has_column c.1 t) (ix_columns ix) then
            inl (mkSchema (sc_extensions s) (sc_tables s) (<[name := ix]> (sc_indexes s)) (sc_config s))
          else inr undefined_column
      end
  | AddColumnsIfNotExists name cols =>
      match sc_tables s !! name with
      | None => inr undefined_table
      | Some t =>
          if forallb (fun c => has_column (col_name c) t || refs_ok name s c) cols then
            inl (set_tables (<[name := foldl add_column t cols]> (sc_tables s)) s)
          else inr undefined_table
      end
  | DropTableIfExists name =>
      if existsb (fun kt => negb (bool_decide (kt.1 = name)) && refers_to name kt.2) (map_to_list (sc_tables s))
      then inr dependent_objects
      else inl (mkSchema (sc_extensions s) (delete name (sc_tables s))
                  (filter (fun kv => ix_table kv.2 <> name) (sc_indexes s))
                  (if bool_decide (name = "app_config") then ∅ else sc_config s))
  | InsertConfigOnConflictDoNothing key value =>
      match sc_tables s !! "app_config" with
      | None => inr undefined_table
      | Some _ =>
          inl (mkSchema (sc_extensions s) (sc_tables s) (sc_indexes s)
                 (match sc_config s !! key with Some _ => sc_config s | None => <[key := value]> (sc_config s) end))
      end
  end.

Fixpoint exec_all (ds : list ddl) (s : schema) : schema + error :=
  match ds with
  | [] => inl s
  | d :: ds' => match exec_ddl d s with inl s' => exec_all ds' s' | inr e => inr e end
  end.

(** What a script does: its statements are one implicit transaction. *)
Definition exec_script (ds : list ddl) (s : schema) : option error * schema :=
  match exec_all ds s with inl s' => (None, s') | inr e => (Some e, s) end.

(** [pool.Exec] of a script. The calls use up a list of faults, of which there
    are none once it is empty: the call may fail before the script was run, or
    its answer may be lost. *)
Definition pool_Exec (ds : list ddl) (db : schema * list fault) : option error * (schema * list fault) :=
  let '(s, faults) := db in
  match hd NoFault faults with
  | NoFault => let '(res, s') := exec_script ds s in (res, (s', tl faults))
  | FailBefore => (Some ErrConn, (s, tl faults))
  | FailAfter => (Some ErrConn, ((exec_script ds s).2, tl faults))
  end.

(** ** The scripts *)

Abbreviation uuid_pk := "UUID PRIMARY KEY DEFAULT gen_random_uuid()".
Abbreviation timestamp_now := "TIMESTAMPTZ NOT NULL DEFAULT now()".

Definition plain_col (name type : string) : column := mkColumn name type None.
Definition ref_col (name type to on_delete : string) : column := mkColumn name type (Some (to, on_delete)).

Definition m0001_init : list ddl :=
  [CreateExtensionIfNotExists "pgcrypto";
   CreateTableIfNotExists "users"
     [plain_col "id" uuid_pk; plain_col "display_name" "TEXT NOT NULL"; plain_col "avatar_url" "TEXT";
      plain_col "created_at" timestamp_now] [];
   CreateTableIfNotExists "rooms"
     [plain_col "id" uuid_pk; plain_col "code" "TEXT NOT NULL"; plain_col "name" "TEXT";
      ref_col "owner_id" "UUID NOT NULL" "users" "CASCADE"; plain_col "created_at" timestamp_now;
      plain_col "ended_at" "TIMESTAMPTZ"] [];
   CreateIndexIfNotExists "rooms_code_active_uniq" (mkIndex true "rooms" [("code", false)] "ended_at IS NULL");
   CreateTableIfNotExists "room_members"
     [ref_col "room_id" "UUID NOT NULL" "rooms" "CASCADE"; ref_col "user_id" "UUID NOT NULL" "users" "CASCADE";
      plain_col "role" "TEXT NOT NULL DEFAULT 'member' CHECK (role IN ('owner','member'))";
      plain_col "muted" "BOOLEAN NOT NULL DEFAULT FALSE"; plain_col "kicked" "BOOLEAN NOT NULL DEFAULT FALSE";
      plain_col "joined_at" timestamp_now; plain_col "left_at" "TIMESTAMPTZ"] ["PRIMARY KEY (room_id, user_id)"];
   CreateIndexIfNotExists "room_members_user_active_idx" (mkIndex false "room_members" [("user_id", false)] "left_at IS NULL")].

Definition m0002_waypoints : list ddl :=
  [CreateTableIfNotExists "waypoints"
     [plain_col "id" uuid_pk; ref_col "room_id" "UUID NOT NULL" "rooms" "CASCADE";
      ref_col "created_by" "UUID NOT NULL" "users" "CASCADE"; plain_col "lat" "DOUBLE PRECISION NOT NULL";
      plain_col "lng" "DOUBLE PRECISION NOT NULL"; plain_col "label" "TEXT"; plain_col "created_at" timestamp_now] [];
   CreateIndexIfNotExists "waypoints_room_idx" (mkIndex false "waypoints" [("room_id", false)] "")].

Definition m0003_room_destination : list ddl :=
  [AddColumnsIfNotExists "rooms"
     [plain_col "dest_lat" "DOUBLE PRECISION"; plain_col "dest_lng" "DOUBLE PRECISION";
      plain_col "dest_set_at" "TIMESTAMPTZ"; ref_col "dest_set_by" "UUID" "users" "NO ACTION"];
   DropTableIfExists "waypoints"].

Definition m0004_feedback_push_broadcasts : list ddl :=
  [CreateTableIfNotExists "feedback"
     [plain_col "id" uuid_pk; ref_col "user_id" "UUID" "users" "SET NULL"; plain_col "message" "TEXT NOT NULL";
      plain_col "created_at" timestamp_now] [];
   CreateIndexIfNotExists "feedback_created_at_idx" (mkIndex false "feedback" [("created_at", true)] "");
   CreateTableIfNotExists "push_tokens"
     [plain_col "token" "TEXT PRIMARY KEY"; ref_col "user_id" "UUID NOT NULL" "users" "CASCADE";
      plain_col "platform" "TEXT NOT NULL CHECK (platform IN ('ios','android'))"; plain_col "updated_at" timestamp_now] [];
   CreateIndexIfNotExists "push_tokens_user_idx" (mkIndex false "push_tokens" [("user_id", false)] "");
   CreateTableIfNotExists "broadcasts"
     [plain_col "id" uuid_pk; plain_col "title" "TEXT NOT NULL"; plain_col "body" "TEXT NOT NULL";
      plain_col "sent_at" timestamp_now; plain_col "recipients" "INT NOT NULL DEFAULT 0";
      plain_col "delivered" "INT NOT NULL DEFAULT 0"; plain_col "failed" "INT NOT NULL DEFAULT 0"] [];
   CreateIndexIfNotExists "broadcasts_sent_at_idx" (mkIndex false "broadcasts" [("sent_at", true)] "")].

Definition m0005_oauth_and_account_deletion : list ddl :=
  [AddColumnsIfNotExists "users"
     [plain_col "email" "TEXT"; plain_col "entitlements" "JSONB NOT NULL DEFAULT '{}'::JSONB";
      plain_col "deleted_at" "TIMESTAMPTZ"];
   CreateTableIfNotExists "user_identities"
     [plain_col "id" uuid_pk; ref_col "user_id" "UUID NOT NULL" "users" "CASCADE";
      plain_col "provider" "TEXT NOT NULL CHECK (provider IN ('google','apple','guest'))";
      plain_col "subject" "TEXT NOT NULL"; plain_col "email" "TEXT"; plain_col "created_at" timestamp_now]
     ["UNIQUE (provider, subject)"];
   CreateIndexIfNotExists "user_identities_user_idx" (mkIndex false "user_identities" [("user_id", false)] "");
   CreateTableIfNotExists "app_config"
     [plain_col "key" "TEXT PRIMARY KEY"; plain_col "value" "TEXT NOT NULL"; plain_col "updated_at" timestamp_now] [];
   InsertConfigOnConflictDoNothing "min_client_version" "0.0.0"].

Definition m0006_messages : list ddl :=
  [CreateTableIfNotExists "messages"
     [plain_col "id" uuid_pk; ref_col "room_id" "UUID NOT NULL" "rooms" "CASCADE";
      ref_col "user_id" "UUID NOT NULL" "users" "CASCADE"; plain_col "body" "TEXT NOT NULL";
      plain_col "created_at" timestamp_now] [];
   CreateIndexIfNotExists "messages_room_created_idx" (mkIndex false "messages" [("room_id", false); ("created_at", true); ("id", true)] "")].

Definition m0007_personal_markers : list ddl :=
  [CreateTableIfNotExists "personal_markers"
     [ref_col "room_id" "UUID NOT NULL" "rooms" "CASCADE"; ref_col "user_id" "UUID NOT NULL" "users" "CASCADE";
      plain_col "lat" "DOUBLE PRECISION NOT NULL"; plain_col "lng" "DOUBLE PRECISION NOT NULL";
      plain_col "label" "TEXT"; plain_col "updated_at" timestamp_now] ["PRIMARY KEY (room_id, user_id)"]].

Definition m0008_room_stops : list ddl :=
  [CreateTableIfNotExists "room_stops"
     [plain_col "id" uuid_pk; ref_col "room_id" "UUID NOT NULL" "rooms" "CASCADE";
      plain_col "lat" "DOUBLE PRECISION NOT NULL"; plain_col "lng" "DOUBLE PRECISION NOT NULL";
      plain_col "label" "TEXT"; plain_col "position" "INTEGER NOT NULL DEFAULT 0";
      ref_col "created_by" "UUID" "users" "NO ACTION"; plain_col "created_at" timestamp_now] [];
   CreateIndexIfNotExists "room_stops_room_position_idx" (mkIndex false "room_stops" [("room_id", false); ("position", false); ("created_at", false)] "")].

Definition m0009_destination_meta : list ddl :=
  [AddColumnsIfNotExists "rooms" [plain_col "dest_name" "TEXT"; plain_col "dest_notes" "TEXT"]].

(** The directory that is embedded. *)
Definition migrationFiles : list (string * list ddl) :=
  [("0001_init.sql", m0001_init); ("0002_waypoints.sql", m0002_waypoints);
   ("0003_room_destination.sql", m0003_room_destination);
   ("0004_feedback_push_broadcasts.sql", m0004_feedback_push_broadcasts);
   ("0005_oauth_and_account_deletion.sql", m0005_oauth_and_account_deletion);
   ("0006_messages.sql", m0006_messages); ("0007_personal_markers.sql", m0007_personal_markers);
   ("0008_room_stops.sql", m0008_room_stops); ("0009_destination_meta.sql", m0009_destination_meta)].

Definition embed_ReadDir (dir : string) : list dir_entry + error :=
  if bool_decide (dir = "migrations") then inl ((fun f => mkDirEntry f.1 false) <$> migrationFiles)
  else inr (ErrText "file does not exist").

Definition embed_ReadFile (path : string) : list ddl + error :=
  match list_find (fun f => String.append "migrations/" f.1 = path) migrationFiles with
  | Some (_, f) => inl f.2
  | None => inr (ErrText "file does not exist")
  end.
