(* ===== verification/MigrationProps.v ===== *)
(** * The migrations bring every deployment to the same schema *)
From stdpp Require Import base gmap sets list strings sorting.
From Stdlib Require Import ZArith Lia Ascii.
From S2P Require Import Prelude.
From S2P Require Import Httpx.
From S2P Require Import Types.
From S2P Require Import Db.
From S2P Require Import Store.
From S2P Require Import Order.
From S2P Require Import Migrations.

Open Scope convoy_scope.

(** ** The order of the scripts *)

Lemma leb_cons a b s t :
  String.leb (String a s) (String b t) =
    match Ascii.compare a b with Lt => true | Gt => false | Eq => String.leb s t end.
Proof. unfold String.leb. simpl. by destruct (Ascii.compare a b). Qed.

Lemma leb_trans s t u : String.leb s t = true -> String.leb t u = true -> String.leb s u = true.
Proof.
  revert t u. induction s as [|a s IH]; intros [|b t] [|c u]; try done.
  rewrite !leb_cons. unfold Ascii.compare.
  destruct (N.compare_spec (N_of_ascii a) (N_of_ascii b)); destruct (N.compare_spec (N_of_ascii b) (N_of_ascii c));
    destruct (N.compare_spec (N_of_ascii a) (N_of_ascii c)); try done; try lia; eauto.
Qed.

#[export] Instance string_ordering : Ordering String.leb.
Proof. split; [apply String.leb_total|apply leb_trans]. Qed.

Lemma substring_0_all s n : String.length s <= n -> String.substring 0 n s = s.
Proof. revert n. induction s as [|c s IH]; intros [|n] Hn; simpl in *; try done; [lia|]. f_equal. apply IH. lia. Qed.

Lemma substring_from s k :
  k <= String.length s -> exists p, String.append p (String.substring k (String.length s - k) s) = s.
Proof.
  revert k. induction s as [|c s IH]; intros [|k] Hk; simpl in *; try lia.
  - by exists "".
  - exists "". by apply (f_equal (String c)), substring_0_all.
  - destruct (IH k) as [p Hp]; [lia|]. exists (String c p). by apply (f_equal (String c)).
Qed.

Lemma substring_after p s : String.substring (String.length p) (String.length s) (String.append p s) = s.
Proof. induction p as [|c p IH]; [by apply substring_0_all|exact IH]. Qed.

Lemma append_length p s : String.length (String.append p s) = String.length p + String.length s.
Proof. induction p as [|c p IH]; [done|by apply (f_equal S)]. Qed.

Lemma HasSuffix_spec s suffix : HasSuffix s suffix = true <-> exists stem, s = String.append stem suffix.
Proof.
  unfold HasSuffix. rewrite andb_true_iff, Nat.leb_le, bool_decide_eq_true. split.
  - intros [Hle Hsub]. destruct (substring_from s (String.length s - String.length suffix)) as [p Hp]; [lia|].
    exists p. replace (String.length s - (String.length s - String.length suffix)) with (String.length suffix) in Hp by lia.
    by rewrite Hsub in Hp.
  - intros [p ->]. rewrite append_length. split; [lia|].
    replace (String.length p + String.length suffix - String.length suffix) with (String.length p) by lia.
    apply substring_after.
Qed.

#[export] Instance ends_in_sql_dec name : Decision (exists stem, name = String.append stem ".sql").
Proof.
  destruct (HasSuffix name ".sql") eqn:Hs; [left; by apply HasSuffix_spec|right]. intros He%HasSuffix_spec. congruence.
Defined.

Lemma migration_names_perm entries :
  migration_names entries ≡ₚ
  entry_name <$> filter (fun e => IsDir e = false /\ exists stem, entry_name e = String.append stem ".sql") entries.
Proof.
  unfold migration_names, sort_strings. rewrite order_by_perm. induction entries as [|[n d] entries IH]; [done|].
  rewrite filter_cons. cbn [omap list_omap entry_name IsDir].
  destruct (negb d && HasSuffix n ".sql") eqn:E.
  - apply andb_true_iff in E as [Hd Hs]. rewrite decide_True by (split; [by destruct d|by apply HasSuffix_spec]).
    cbn [fmap list_fmap entry_name]. by f_equiv.
  - rewrite decide_False; [exact IH|]. intros [Hd Hs%HasSuffix_spec]. simpl in Hd. subst d. by rewrite Hs in E.
Qed.

Section migrate.
Context {Script T : Type}.
Variable ReadDir : string -> list dir_entry + error.
Variable ReadFile : string -> Script + error.
Variable Exec : Script -> T -> option error * T.

(** The scripts were read and executed one after the other. *)
Inductive applied : list string -> T -> T -> Prop :=
| applied_none t : applied [] t t
| applied_next name names raw t t' t'' :
    ReadFile (String.append "migrations/" name) = inl raw -> Exec raw t = (None, t') ->
    applied names t' t'' -> applied (name :: names) t t''.

Lemma apply_scripts_spec names t :
  let '(res, t') := apply_scripts ReadFile Exec names t in
  match res with
  | None => applied names t t'
  | Some e => exists before name after t1, names = before ++ name :: after /\ applied before t t1 /\
      ((exists err, e = ReadScript name err /\ t' = t1 /\ ReadFile (String.append "migrations/" name) = inr err) \/
       (exists err raw, e = ApplyScript name err /\ ReadFile (String.append "migrations/" name) = inl raw /\
          Exec raw t1 = (Some err, t')))
  end.
Proof.
  revert t. induction names as [|name names IH]; intros t; cbn [apply_scripts]; [constructor|].
  destruct (ReadFile _) as [raw|err] eqn:Hr.
  2:{ exists [], name, names, t. split; [done|]. split; [constructor|]. left. by exists err. }
  destruct (Exec raw t) as [[err|] t1] eqn:Hx.
  { exists [], name, names, t. split; [done|]. split; [constructor|]. right. by exists err, raw. }
  specialize (IH t1). destruct (apply_scripts ReadFile Exec names t1) as [[e|] t'].
  - destruct IH as (before & n & after & t2 & -> & Ha & He). exists (name :: before), n, after, t2.
    split; [done|]. split; [by econstructor|done].
  - by econstructor.
Qed.

(** C40 [Migrate] runs the files of the directory whose names end in ".sql",
    each as often as the directory lists it and in the order of the names; it
    stops at the first that cannot be read or applied, names it, and runs none
    after it. *)
Theorem migrate_spec t :
  let '(res, t') := Migrate ReadDir ReadFile Exec t in
  match ReadDir "migrations" with
  | inr e => res = Some (ReadMigrations e) /\ t' = t
  | inl entries =>
      exists names scripts,
        scripts = filter (fun e => IsDir e = false /\ exists stem, entry_name e = String.append stem ".sql") entries /\
        names ≡ₚ entry_name <$> scripts /\
        StronglySorted (fun a b => Is_true (String.leb a b)) names /\
        match res with
        | None => applied names t t'
        | Some e => exists before name after t1, names = before ++ name :: after /\ applied before t t1 /\
            ((exists err, e = ReadScript name err /\ t' = t1 /\ ReadFile (String.append "migrations/" name) = inr err) \/
             (exists err raw, e = ApplyScript name err /\ ReadFile (String.append "migrations/" name) = inl raw /\
                Exec raw t1 = (Some err, t')))
        end
  end.
Proof.
  unfold Migrate. destruct (ReadDir "migrations") as [entries|e]; [|done].
  pose proof (apply_scripts_spec (migration_names entries) t) as Hs.
  destruct (apply_scripts _ _ _ t) as [res t']. eexists (migration_names entries), _. split; [reflexivity|].
  split; [apply migration_names_perm|]. split; [apply (order_by_sorted String.leb)|done].
Qed.
End migrate.

(** ** The scripts of the repository *)

Definition migrate_schema : schema -> option migrate_error * schema :=
  Migrate embed_ReadDir embed_ReadFile exec_script.

(** A boot that gets through the first [k] scripts. *)
Definition boot_until (k : nat) (s : schema) : schema :=
  (apply_scripts embed_ReadFile exec_script (take k (migration_names ((fun f => mkDirEntry f.1 false) <$> migrationFiles))) s).2.

Definition set_config (m : gmap string string) (s : schema) : schema :=
  mkSchema (sc_extensions s) (sc_tables s) (sc_indexes s) m.

(** Without the rows of [app_config]. *)
Definition strip (s : schema) : schema := set_config ∅ s.

(** The databases the server can find: boots, complete or cut off, and
    settings changed in between. *)
Inductive deployed : schema -> Prop :=
| deployed_new : deployed no_schema
| deployed_boot k s : deployed s -> deployed (boot_until k s)
| deployed_setting m s : deployed s -> deployed (set_config m s).

(** What a script inserts into [app_config]. *)
Definition config_defaults (ds : list ddl) : gmap string string :=
  foldr (fun d m => match d with InsertConfigOnConflictDoNothing k v => <[k := v]> m | _ => m end) ∅ ds.

Definition drops_config (d : ddl) : bool :=
  match d with DropTableIfExists name => bool_decide (name = "app_config") | _ => false end.

(** The rows of [app_config] do not matter to the rest, and are kept. *)
Lemma exec_ddl_strip d s :
  match exec_ddl d s, exec_ddl d (strip s) with
  | inl s', inl t' => strip s' = strip t' /\
      (drops_config d = false -> sc_config s' = sc_config s ∪ config_defaults [d])
  | inr e, inr e' => e = e'
  | _, _ => False
  end.
Proof.
  destruct s as [ex tb ix cf]. unfold strip, set_config.
  destruct d; cbn [exec_ddl sc_extensions sc_tables sc_indexes sc_config set_tables config_defaults foldr drops_config];
    unfold refs_ok; cbn [sc_tables]; repeat case_match; simplify_eq; try done;
    (split; [done|]); intros _; cbn [sc_config set_tables]; rewrite ?(right_id_L ∅ (∪)); try done.
  - apply map_eq. intros i. rewrite lookup_union, lookup_insert, lookup_empty. case_decide; [subst i|].
    + by rewrite H1.
    + by destruct (cf !! i).
  - by rewrite <-insert_union_r, (right_id_L ∅ (∪)).
Qed.

Lemma config_defaults_cons d ds : config_defaults (d :: ds) = config_defaults [d] ∪ config_defaults ds.
Proof.
  destruct d; cbn [config_defaults foldr]; rewrite ?(left_id_L ∅ (∪)); try done.
  by rewrite <-insert_union_l, (left_id_L ∅ (∪)).
Qed.

Lemma config_defaults_app ds ds' : config_defaults (ds ++ ds') = config_defaults ds ∪ config_defaults ds'.
Proof.
  induction ds as [|d ds IH]; cbn [app]; [symmetry; apply (left_id_L ∅ (∪))|].
  by rewrite config_defaults_cons, (config_defaults_cons d ds), IH, (assoc_L (∪)).
Qed.

(** Schemas that differ in their settings only stay so. *)
Lemma exec_all_strip ds s t :
  forallb (fun d => negb (drops_config d)) ds = true -> strip s = strip t ->
  match exec_all ds s, exec_all ds t with
  | inl s', inl t' => strip s' = strip t' /\ sc_config s' = sc_config s ∪ config_defaults ds
  | inr e, inr e' => e = e'
  | _, _ => False
  end.
Proof.
  revert s t. induction ds as [|d ds IH]; intros s t Hds Hst.
  { simpl. by rewrite (right_id_L ∅ (∪)). }
  simpl in Hds. apply andb_true_iff in Hds as [Hd%negb_true_iff Hds]. cbn [exec_all].
  pose proof (exec_ddl_strip d s) as H1. pose proof (exec_ddl_strip d t) as H2. rewrite <-Hst in H2.
  destruct (exec_ddl d (strip s)) as [z|e]; destruct (exec_ddl d s) as [s1|], (exec_ddl d t) as [t1|]; try done; [|by subst].
  destruct H1 as [E1 C1], H2 as [E2 _]. specialize (IH s1 t1 Hds). rewrite E1, E2 in IH. specialize (IH eq_refl).
  rewrite config_defaults_cons, (assoc_L (∪)), <-C1 by done. done.
Qed.

Lemma exec_script_strip ds s t :
  forallb (fun d => negb (drops_config d)) ds = true -> strip s = strip t ->
  (exec_script ds s).1 = (exec_script ds t).1 /\ strip (exec_script ds s).2 = strip (exec_script ds t).2 /\
  ((exec_script ds s).1 = None -> sc_config (exec_script ds s).2 = sc_config s ∪ config_defaults ds).
Proof.
  intros Hds Hst. pose proof (exec_all_strip ds s t Hds Hst) as H. unfold exec_script.
  destruct (exec_all ds s), (exec_all ds t); try done; [by destruct H|by subst].
Qed.

(** The scripts of the directory with these names. *)
Definition scripts_named (names : list string) : list (string * list ddl) :=
  omap (fun name => match embed_ReadFile (String.append "migrations/" name) with inl ds => Some (name, ds) | inr _ => None end) names.

Lemma apply_scripts_strip names s t :
  forallb (fun f => forallb (fun d => negb (drops_config d)) f.2) (scripts_named names) = true -> strip s = strip t ->
  let r1 := apply_scripts embed_ReadFile exec_script names s in
  let r2 := apply_scripts embed_ReadFile exec_script names t in
  r1.1 = r2.1 /\ strip r1.2 = strip r2.2 /\
  (r1.1 = None -> sc_config r1.2 = sc_config s ∪ config_defaults (concat (scripts_named names).*2)).
Proof.
  revert s t. induction names as [|name names IH]; intros s t Hn Hst; cbv zeta.
  { simpl. split; [done|]. split; [done|]. intros _. by rewrite (right_id_L ∅ (∪)). }
  cbn [apply_scripts]. unfold scripts_named in *. cbn [omap list_omap] in *.
  destruct (embed_ReadFile _) as [ds|e]; [|done]. cbn in Hn. apply andb_true_iff in Hn as [Hd Hn].
  destruct (exec_script_strip ds s t Hd Hst) as (E1 & E2 & Ec).
  destruct (exec_script ds s) as [o1 s1], (exec_script ds t) as [o2 t1]. simpl in E1, E2, Ec. subst o2.
  destruct o1 as [e|]; [done|]. destruct (IH s1 t1 Hn E2) as (F1 & F2 & F3). cbv zeta in *.
  split; [done|]. split; [done|]. intros Hr. rewrite (F3 Hr), (Ec eq_refl), <-(assoc_L (∪)), <-config_defaults_app. done.
Qed.

(** ** Where the boots can lead *)

Definition all_names : list string := migration_names ((fun f => mkDirEntry f.1 false) <$> migrationFiles).

Lemma all_names_value : all_names = migrationFiles.*1.
Proof. vm_compute. reflexivity. Qed.

Lemma migrate_schema_all s : migrate_schema s = apply_scripts embed_ReadFile exec_script all_names s.
Proof. reflexivity. Qed.

Lemma boot_until_names k s : boot_until k s = (apply_scripts embed_ReadFile exec_script (take k all_names) s).2.
Proof. reflexivity. Qed.

Lemma boot_until_all k s : 9 <= k -> boot_until k s = boot_until 9 s.
Proof. intros Hk. rewrite !boot_until_names, !take_ge; [done|vm_compute; lia|rewrite all_names_value; simpl; lia]. Qed.

Lemma names_keep_config k :
  forallb (fun f => forallb (fun d => negb (drops_config d)) f.2) (scripts_named (take k all_names)) = true.
Proof.
  rewrite all_names_value. do 9 (destruct k as [|k]; [vm_compute; reflexivity|]).
  rewrite take_ge by (simpl; lia). vm_compute. reflexivity.
Qed.

Definition prefixes (s : schema) : list schema := (fun k => strip (boot_until k s)) <$> seq 0 10.

(** Every schema, settings aside, that boots can leave behind. *)
Definition stages : list schema := no_schema :: remove_dups (prefixes no_schema ≫= prefixes).

Lemma stages_closed : forallb (fun s => forallb (fun t => bool_decide (t ∈ stages)) (prefixes s)) stages = true.
Proof. vm_compute. reflexivity. Qed.

Lemma stage_boot s k : s ∈ stages -> strip (boot_until k s) ∈ stages.
Proof.
  intros Hs. assert (exists j, j < 10 /\ boot_until k s = boot_until j s) as (j & Hj & ->).
  { destruct (decide (k < 10)) as [Hk|Hk]; [by exists k|]. exists 9. split; [lia|]. apply boot_until_all. lia. }
  pose proof stages_closed as Hc. rewrite forallb_forall in Hc. specialize (Hc s ltac:(by apply list_elem_of_In)).
  rewrite forallb_forall in Hc. apply (bool_decide_eq_true (strip (boot_until j s) ∈ stages)), Hc, list_elem_of_In.
  apply list_elem_of_fmap. exists j. split; [done|]. apply elem_of_seq. lia.
Qed.

Lemma deployed_stage s : deployed s -> strip s ∈ stages.
Proof.
  induction 1 as [|k s _ IH|m s _ IH].
  - left.
  - rewrite boot_until_names.
    destruct (apply_scripts_strip (take k all_names) s (strip s) (names_keep_config k) eq_refl) as (_ & -> & _).
    rewrite <-boot_until_names. by apply stage_boot.
  - exact IH.
Qed.

Definition final_schema : schema := strip (migrate_schema no_schema).2.

(** The tables the server works on. *)
Definition table_names : list string :=
  ["users"; "rooms"; "room_members"; "messages"; "personal_markers"; "room_stops"; "user_identities"; "push_tokens";
   "feedback"; "broadcasts"; "app_config"].

Lemma final_dom : dom (sc_tables final_schema) = list_to_set table_names.
Proof. vm_compute. reflexivity. Qed.

Lemma stages_migrate :
  forallb (fun s => match migrate_schema s with
                    | (None, s') => bool_decide (strip s' = final_schema)
                    | (Some _, _) => false
                    end) stages = true.
Proof. vm_compute. reflexivity. Qed.

Lemma migrate_any s :
  deployed s ->
  let '(err, s') := migrate_schema s in
  err = None /\ strip s' = final_schema /\ dom (sc_tables s') = list_to_set table_names /\
  sc_config s' = sc_config s ∪ {["min_client_version" := "0.0.0"]}.
Proof.
  intros Hs%deployed_stage. pose proof stages_migrate as Hm. rewrite forallb_forall in Hm.
  specialize (Hm (strip s) ltac:(by apply list_elem_of_In)). rewrite !migrate_schema_all in *.
  pose proof (names_keep_config 9) as Hn. rewrite take_ge in Hn by (rewrite all_names_value; simpl; lia).
  destruct (apply_scripts_strip all_names s (strip s) Hn eq_refl) as (E1 & E2 & Ec).
  destruct (apply_scripts embed_ReadFile exec_script all_names s) as [err s'].
  destruct (apply_scripts embed_ReadFile exec_script all_names (strip s)) as [err2 s2]. cbn [fst snd] in E1, E2, Ec. subst err2.
  destruct err; [discriminate|]. apply bool_decide_eq_true in Hm. split; [done|]. split; [by rewrite E2|].
  split; [rewrite <-final_dom, <-Hm, <-E2; reflexivity|].
  rewrite (Ec eq_refl).
  assert (config_defaults (concat (scripts_named all_names).*2) = {["min_client_version" := "0.0.0"]}) as -> by (vm_compute; reflexivity).
  done.
Qed.

(** Outages: a run that gets through is the run without them; one that does
    not leaves what a boot that was cut off leaves. *)
Lemma apply_scripts_outages names s faults :
  let '(res, db) := apply_scripts embed_ReadFile pool_Exec names (s, faults) in
  match res with
  | None => apply_scripts embed_ReadFile exec_script names s = (None, db.1)
  | Some _ =>
      (exists k, db.1 = (apply_scripts embed_ReadFile exec_script (take k names) s).2) /\
      ((apply_scripts embed_ReadFile exec_script names s).1 = None -> Exists (fun f => f <> NoFault) (take (length names) faults))
  end.
Proof.
  revert s faults. induction names as [|name names IH]; intros s faults; [done|]. cbn [apply_scripts].
  destruct (embed_ReadFile _) as [ds|e] eqn:Hread; [|split; [by exists 0|done]].
  unfold pool_Exec at 1. destruct (exec_script ds s) as [err s1] eqn:Hx.
  assert (forall k, (apply_scripts embed_ReadFile exec_script (take (S k) (name :: names)) s).2 =
            match err with Some _ => s1 | None => (apply_scripts embed_ReadFile exec_script (take k names) s1).2 end) as Hk.
  { intros k. cbn [take apply_scripts]. rewrite Hread, Hx. by destruct err. }
  destruct faults as [|[] faults]; cbn [hd tl].
  1-2: destruct err as [err|]; [split; [by exists 1; rewrite (Hk 0)|done]|].
  1: specialize (IH s1 []).
  2: specialize (IH s1 faults).
  1-2: destruct (apply_scripts embed_ReadFile pool_Exec names _) as [[e|] db]; [|exact IH];
    destruct IH as [[k ->] IH]; (split; [exists (S k); by rewrite Hk|]); intros Hnone.
  1: by apply IH in Hnone; rewrite take_nil, Exists_nil in Hnone.
  1: cbn [length take]; right; by apply IH.
  1: split; [by exists 0|]; intros _; by left.
  split; [|intros _; by left]. exists 1. rewrite (Hk 0). by destruct err.
Qed.

(** C39 Whatever boots the database has been through - complete ones, ones cut
    off after any script, restarts, settings changed in between - the next
    [Migrate] succeeds and leaves the same schema, of the eleven tables the server works on (a restart makes the table of
    waypoints again and drops it again), and the settings an operator made
    stay. *)
Theorem migrations_converge s :
  deployed s ->
  let '(err, s') := migrate_schema s in
  err = None /\ strip s' = final_schema /\ dom (sc_tables s') = list_to_set table_names /\
  sc_config s' = sc_config s ∪ {["min_client_version" := "0.0.0"]}.
Proof. apply migrate_any. Qed.

(** A second boot cut off after the table of waypoints was made again. *)
Definition second_boot : schema := boot_until 2 (set_config {["min_client_version" := "2.0.0"]} (boot_until 9 no_schema)).

Lemma second_deployed : deployed second_boot.
Proof. apply deployed_boot, deployed_setting, deployed_boot, deployed_new. Qed.

Lemma migrations_converge_witness :
  is_Some (sc_tables second_boot !! "waypoints") /\ sc_tables (migrate_schema second_boot).2 !! "waypoints" = None /\
  sc_config (migrate_schema second_boot).2 !! "min_client_version" = Some "2.0.0".
Proof.
  pose proof (migrations_converge second_boot second_deployed) as Hm. split; [vm_compute; by eexists|].
  destruct (migrate_schema second_boot) as [err s']. destruct Hm as (_ & Hf & _ & Hc). cbn [snd]. split.
  - change (sc_tables s') with (sc_tables (strip s')). rewrite Hf. vm_compute. reflexivity.
  - rewrite Hc. vm_compute. reflexivity.
Defined.

(** The tables it has, with their columns: those of the records of [Db]. *)
Example final_tables :
  (fun n => (fun t => col_name <$> tb_columns t) <$> sc_tables final_schema !! n) <$>
    table_names =
  (Some <$>
    [["id"; "display_name"; "avatar_url"; "created_at"; "email"; "entitlements"; "deleted_at"];
     ["id"; "code"; "name"; "owner_id"; "created_at"; "ended_at"; "dest_lat"; "dest_lng"; "dest_set_at"; "dest_set_by";
      "dest_name"; "dest_notes"];
     ["room_id"; "user_id"; "role"; "muted"; "kicked"; "joined_at"; "left_at"];
     ["id"; "room_id"; "user_id"; "body"; "created_at"];
     ["room_id"; "user_id"; "lat"; "lng"; "label"; "updated_at"];
     ["id"; "room_id"; "lat"; "lng"; "label"; "position"; "created_by"; "created_at"];
     ["id"; "user_id"; "provider"; "subject"; "email"; "created_at"];
     ["token"; "user_id"; "platform"; "updated_at"];
     ["id"; "user_id"; "message"; "created_at"];
     ["id"; "title"; "body"; "sent_at"; "recipients"; "delivered"; "failed"];
     ["key"; "value"; "updated_at"]]).
Proof. vm_compute. done. Qed.
