(* ===== verification/Boot.v ===== *)
(** * [cmd/server/main.go]: the start of the process

    From the environment to a server that listens, or to an exit. *)
From stdpp Require Import base gmap sets list strings.
From Stdlib Require Import ZArith Lia.
From S2P Require Import Prelude.
From S2P Require Import GoString.
From S2P Require Import Httpx.
From S2P Require Import Types.
From S2P Require Import Db.
From S2P Require Import Providers.
From S2P Require Import Auth.
From S2P Require Import AppConfig.
From S2P Require Import Admin.
From S2P Require Import Server.
From S2P Require Import Migrations.
From S2P Require Import MigrationProps.

Open Scope convoy_scope.

Section boot.
Context {Parsed Pool Keyfunc : Type}.
Variable ParseConfig : string -> Parsed + error.
Variable NewWithConfig : PoolConfig (Parsed:=Parsed) -> Pool + error.
Variable Ping : Pool -> option error.
(** What fetching the providers' keys and parsing the templates come to. *)
Variables googleKeys appleKeys : option Keyfunc.
Variables legal parsed : option error.

Inductive start :=
| Exit (code : Z) (log : string)
| Serves (addr : string) (x : app (Keyfunc:=Keyfunc)).

(** [main] up to [ListenAndServe], on the database's schema and the faults of
    the calls that migrate it. *)
Definition main (env : string -> string) (today : string) (s : schema) (faults : list fault) : start * schema :=
  match Load_ env today with
  | inr _ => (Exit 1 "config", s)
  | inl cfg =>
      match (Connect ParseConfig NewWithConfig Ping (DatabaseURL cfg)).1 with
      | inr _ => (Exit 1 "db connect", s)
      | inl pool =>
          match Migrate embed_ReadDir embed_ReadFile pool_Exec (s, faults) with
          | (Some _, (s', _)) => (Exit 1 "db migrate", s')
          | (None, (s', _)) => (Serves (String.append ":" (Port cfg)) (wire cfg googleKeys appleKeys legal parsed), s')
          end
      end
  end.

(** The pool a server uses: of the configured size, and answering. *)
Definition connects (url : string) : Prop :=
  exists cfg pool, ParseConfig url = inl cfg /\
    NewWithConfig (mkPoolConfig cfg 20 2 3600000000000) = inl pool /\ Ping pool = None.

Lemma Connect_spec url :
  match Connect ParseConfig NewWithConfig Ping url with
  | (inl _, closed) => connects url /\ closed = None
  | (inr (PingDB e), closed) => ~ connects url /\ exists pool, closed = Some pool /\ Ping pool = Some e
  | (inr _, closed) => ~ connects url /\ closed = None
  end.
Proof.
  unfold Connect, connects. destruct (ParseConfig url) as [cfg|e]; [|split; [by intros (? & ? & ? & _)|done]].
  destruct (NewWithConfig _) as [pool|e] eqn:Hn; [|split; [|done]].
  - destruct (Ping pool) as [e|] eqn:Hp; [|split; [by exists cfg, pool|done]]. split; [|by exists pool].
    intros (cfg' & pool' & [= <-] & Hn' & Hp'). rewrite Hn in Hn'. injection Hn' as <-. by rewrite Hp in Hp'.
  - intros (cfg' & pool' & [= <-] & Hn' & _). by rewrite Hn in Hn'.
Qed.

Lemma wire_secret cfg : secret (app_auth (wire cfg googleKeys appleKeys legal parsed)) = JWTSecret cfg.
Proof.
  unfold wire, with_google, with_apple. cbn [app_auth]. repeat case_match; done.
Qed.

(** The migrations of a start, whatever calls fail. *)
Lemma Migrate_outages s faults :
  deployed s ->
  let '(res, db) := Migrate embed_ReadDir embed_ReadFile pool_Exec (s, faults) in
  match res with
  | None => strip db.1 = final_schema /\ sc_config db.1 = sc_config s ∪ {["min_client_version" := "0.0.0"]}
  | Some _ => deployed db.1 /\ Exists (fun f => f <> NoFault) (take (length migrationFiles) faults)
  end.
Proof.
  intros Hs. pose proof (migrate_any s Hs) as Hm. rewrite migrate_schema_all in Hm.
  pose proof (apply_scripts_outages all_names s faults) as Ho.
  change (Migrate embed_ReadDir embed_ReadFile pool_Exec (s, faults))
    with (apply_scripts embed_ReadFile pool_Exec all_names (s, faults)).
  destruct (apply_scripts embed_ReadFile pool_Exec all_names (s, faults)) as [[e|] db].
  - destruct Ho as [[k ->] Ho]. split; [rewrite <-boot_until_names; by apply deployed_boot|].
    destruct (apply_scripts embed_ReadFile exec_script all_names s) as [err s']. destruct Hm as [-> _].
    rewrite all_names_value in Ho. by apply Ho.
  - destruct (apply_scripts embed_ReadFile exec_script all_names s) as [err s']. destruct Hm as (_ & Hf & _ & Hc).
    injection Ho as _ Hdb. rewrite <-Hdb. exact (conj Hf Hc).
Qed.

(** C38 Starting the server on any database earlier boots can have left: with a
    database address, a token secret of sixteen bytes and a database that
    answers it serves, on the migrated schema, with the settings kept and
    tokens signed with that secret; without one of them it exits with code 1
    and has not touched the schema.  The migrations never keep it from starting
    but by a call of theirs that fails for want of a connection: then it exits
    with code 1, and has left a database that the next start can migrate. *)
Theorem boot_spec env today s faults :
  deployed s ->
  let '(r, s') := main env today s faults in
  match r with
  | Serves addr x =>
      env "DATABASE_URL" <> "" /\ 16 <= go_len (env "JWT_SECRET") /\ connects (env "DATABASE_URL") /\
      strip s' = final_schema /\ sc_config s' = sc_config s ∪ {["min_client_version" := "0.0.0"]} /\
      secret (app_auth x) = env "JWT_SECRET" /\ addr = String.append ":" (getenv env "PORT" "8080")
  | Exit code log =>
      code = 1%Z /\
      ((s' = s /\ (env "DATABASE_URL" = "" \/ go_len (env "JWT_SECRET") < 16 \/ ~ connects (env "DATABASE_URL"))) \/
       (log = "db migrate" /\ deployed s' /\ Exists (fun f => f <> NoFault) (take (length migrationFiles) faults)))
  end.
Proof.
  intros Hs. unfold main, Load_. cbv zeta. cbn [DatabaseURL JWTSecret].
  case_bool_decide as Hu; [split; [reflexivity|left; auto]|].
  destruct (Nat.ltb_spec (go_len (env "JWT_SECRET")) 16) as [Hj|Hj]; [split; [reflexivity|left; auto]|].
  cbn [DatabaseURL Port]. pose proof (Connect_spec (env "DATABASE_URL")) as Hc.
  destruct (Connect _ _ _ _) as [[pool|e] closed]; cbn [fst].
  2:{ split; [done|]. left. split; [done|]. right. right. by destruct e, Hc. }
  destruct Hc as [Hc _]. pose proof (Migrate_outages s faults Hs) as Hm.
  destruct (Migrate _ _ _ (s, faults)) as [[err|] [s' rest]].
  { destruct Hm as [Hd Hf]. split; [reflexivity|]. right. split; [reflexivity|]. exact (conj Hd Hf). }
  destruct Hm as [Hf Hcfg]. do 3 (split; [done|]). split; [exact Hf|]. split; [exact Hcfg|].
  split; [apply wire_secret|reflexivity].
Qed.
End boot.

(** A server on a database whose last boot was cut off. *)
Definition plain_env (k : string) : string :=
  if bool_decide (k = "DATABASE_URL") then "postgres://db" else if bool_decide (k = "JWT_SECRET") then "0123456789abcdef" else "".

Abbreviation plain_main := (main (fun url => inl url) (fun cfg => inl (pc_url cfg)) (fun _ : string => None)
  (None : option unit) None None None plain_env "2026-01-01" second_boot).

Lemma plain_connects : connects (fun url => inl url) (fun cfg => inl (pc_url cfg)) (fun _ : string => None) (plain_env "DATABASE_URL").
Proof. eexists _, _. split; [reflexivity|]. split; reflexivity. Qed.

(** It serves; when the third script loses its connection it exits instead. *)
Lemma boot_spec_witness :
  (exists x s', plain_main [] = (Serves ":8080" x, s') /\ strip s' = final_schema) /\
  exists s', plain_main [NoFault; NoFault; FailAfter] = (Exit 1 "db migrate", s') /\ deployed s'.
Proof.
  split.
  - pose proof (boot_spec (fun url => inl url) (fun cfg => inl (pc_url cfg)) (fun _ : string => None) (None : option unit)
      None None None plain_env "2026-01-01" second_boot [] second_deployed) as Hb.
    destruct (plain_main []) as [[code log|addr x] s'] eqn:E.
    + exfalso. destruct Hb as (_ & [(_ & [Hb|[Hb|Hb]])|(_ & _ & Hb)]);
        [vm_compute in Hb; discriminate|vm_compute in Hb; lia|by apply Hb, plain_connects|]. by apply Exists_nil in Hb.
    + destruct Hb as (_ & _ & _ & Hf & _ & _ & Ha). exists x, s'. split; [|exact Hf]. f_equal. f_equal. rewrite Ha.
      vm_compute. reflexivity.
  - pose proof (boot_spec (fun url => inl url) (fun cfg => inl (pc_url cfg)) (fun _ : string => None) (None : option unit)
      None None None plain_env "2026-01-01" second_boot [NoFault; NoFault; FailAfter] second_deployed) as Hb.
    assert ((plain_main [NoFault; NoFault; FailAfter]).1 = Exit 1 "db migrate") as E by (vm_compute; reflexivity).
    destruct (plain_main [NoFault; NoFault; FailAfter]) as [r s']. cbn [fst] in E. subst r.
    exists s'. split; [reflexivity|]. destruct Hb as (_ & [(_ & [Hb|[Hb|Hb]])|(_ & Hd & _)]);
      [vm_compute in Hb; discriminate|vm_compute in Hb; lia|exfalso; by apply Hb, plain_connects|exact Hd].
Defined.
