(* ===== verification/Lifecycle.v ===== *)
(** * [cmd/server/main.go]: requests on their way, and the end of the process

    What the request logger records, what a legal page comes to when its
    template fails, and [main] after it listens: signals, the listener's
    failure, [srv.Shutdown] with its ten seconds, and the deferred
    [pool.Close]. *)
From stdpp Require Import base gmap sets list strings relations.
From Stdlib Require Import ZArith Lia.
From S2P Require Import Prelude.
From S2P Require Import Httpx.
From S2P Require Import Types.
From S2P Require Import AdminPages.
From S2P Require Import Server.

Open Scope Z_scope.

(** ** The request logger *)

Record log_entry := mkLogEntry { le_method : string; le_path : string; le_status : Z; le_dur_ms : Z }.

(** [requestLogger]: the next handler's writes go through; [Status] is zero
    until a status is sent. *)
Definition requestLogger (method path : string) (start finish : time) (next : written) : log_entry * written :=
  (mkLogEntry method path (default 0 (wr_status next)) ((finish - start) / 1000000), next).

(** ** The legal pages *)

(** [render]: the template is executed onto the response; an error comes after
    what was written before it. *)
Definition write_legal (error_text : error -> string) (execute : string -> PolicyConfig -> string * option error)
    (p : legal_page) (w : written) : written :=
  let w := mkWritten (wr_status w) "text/html; charset=utf-8" (wr_body w) in
  let '(out, err) := execute (lp_template p) (lp_data p) in
  match err with
  | Some e => http_Error (error_text e) 500 (write_body out w)
  | None => write_body out w
  end.

(** ** The process *)

(** Handlers that run, those of them that hold a connection of the pool,
    sockets that were taken over from the HTTP server, whether [ctx] is done,
    the deadline of [Shutdown] once it was called, whether it has returned, and
    the exit code. *)
Record process := mkProcess {
  pr_now : time;
  pr_accepting : bool;
  pr_handlers : gset nat;
  pr_conns : gset nat;
  pr_sockets : gset nat;
  pr_done : bool;
  pr_deadline : option time;
  pr_closing : bool;
  pr_exit : option Z;
}.

Definition second : Z := 1000000000.
Definition shutdownTimeout : Z := 10 * second.

Inductive listen_error := ErrServerClosed | ErrListen (what : string).

(** [net/http] and [pgxpool] as they are documented: [Shutdown] closes the
    listener and waits for the handlers but not for connections that were
    hijacked; [Close] refuses new acquisitions and waits for those held. *)
Inductive proc_step : process -> process -> Prop :=
| ps_accept now hs cs ss d i :
    i ∉ hs -> proc_step (mkProcess now true hs cs ss d None false None) (mkProcess now true ({[i]} ∪ hs) cs ss d None false None)
| ps_finish now acc hs cs ss d dl cl i :
    i ∈ hs -> i ∉ cs ->
    proc_step (mkProcess now acc hs cs ss d dl cl None) (mkProcess now acc (hs ∖ {[i]}) cs ss d dl cl None)
| ps_acquire now acc hs cs ss d dl i :
    i ∈ hs -> proc_step (mkProcess now acc hs cs ss d dl false None) (mkProcess now acc hs ({[i]} ∪ cs) ss d dl false None)
| ps_release now acc hs cs ss d dl cl i :
    i ∈ cs -> proc_step (mkProcess now acc hs cs ss d dl cl None) (mkProcess now acc hs (cs ∖ {[i]}) ss d dl cl None)
| ps_hijack now acc hs cs ss d dl cl i :
    i ∈ hs -> i ∉ cs ->
    proc_step (mkProcess now acc hs cs ss d dl cl None) (mkProcess now acc (hs ∖ {[i]}) cs ({[i]} ∪ ss) d dl cl None)
| ps_hangup now acc hs cs ss d dl cl i :
    proc_step (mkProcess now acc hs cs ss d dl cl None) (mkProcess now acc hs cs (ss ∖ {[i]}) d dl cl None)
| ps_signal now acc hs cs ss d dl cl :
    proc_step (mkProcess now acc hs cs ss d dl cl None) (mkProcess now acc hs cs ss true dl cl None)
| ps_listen_returns now acc hs cs ss d dl cl e :
    (e = ErrServerClosed -> acc = false) ->
    proc_step (mkProcess now acc hs cs ss d dl cl None)
      (mkProcess now false hs cs ss (match e with ErrServerClosed => d | ErrListen _ => true end) dl cl None)
| ps_tick now acc hs cs ss d dl cl dt :
    0 <= dt -> proc_step (mkProcess now acc hs cs ss d dl cl None) (mkProcess (now + dt) acc hs cs ss d dl cl None)
| ps_shutdown now acc hs cs ss :
    proc_step (mkProcess now acc hs cs ss true None false None)
      (mkProcess now false hs cs ss true (Some (now + shutdownTimeout)) false None)
| ps_shutdown_returns now acc hs cs ss d dl :
    hs = ∅ \/ dl <= now ->
    proc_step (mkProcess now acc hs cs ss d (Some dl) false None) (mkProcess now acc hs cs ss d (Some dl) true None)
| ps_exit now acc hs ss d dl :
    proc_step (mkProcess now acc hs ∅ ss d dl true None) (mkProcess now acc hs ∅ ss d dl true (Some 0)).

(** A server that has just begun to listen. *)
Definition listening (now : time) : process := mkProcess now true ∅ ∅ ∅ false None false None.

(** Only handlers hold connections; [Shutdown] is called once [ctx] is done and
    returns when its wait is over; the process ends with every connection back. *)
Record process_ok (s : process) : Prop := {
  pk_conns : pr_conns s ⊆ pr_handlers s;
  pk_done : pr_done s = true \/ (pr_deadline s = None /\ pr_closing s = false);
  pk_accepting : pr_accepting s = true -> pr_deadline s = None;
  pk_closing : pr_closing s = true -> exists dl, pr_deadline s = Some dl /\ (pr_handlers s = ∅ \/ dl <= pr_now s);
  pk_exit : forall c, pr_exit s = Some c -> c = 0 /\ pr_closing s = true /\ pr_conns s = ∅;
}.

Lemma process_step_ok s s' : proc_step s s' -> process_ok s -> process_ok s'.
Proof.
  intros Hs [H1 H2 H3 H4 H5]. destruct Hs; cbn in *; split; cbn; try done; auto.
  all: try match goal with |- _ ⊆ _ => clear H2 H3 H4 H5; set_solver end.
  all: try (intros Hc; destruct (H4 Hc) as (dl' & Hd & [Hh|Hh]); exists dl'; (split; [done|]);
            first [right; lia|left; clear -Hh; set_solver]).
  - destruct e; [done|by left].
  - destruct H2 as [->|[? ?]]; [by left|done].
  - intros _. by exists dl.
  - by intros c [= <-].
Qed.

(** The end: a server that has listened ends only after a signal or the
    failure of its listener, takes no request any more, has waited for the
    requests under way - all of them, or ten seconds from when it was told -
    and for every connection to the database; its exit code is 0, whatever
    ended it. *)
Theorem shutdown_spec now s c :
  rtc proc_step (listening now) s -> pr_exit s = Some c ->
  c = 0 /\ pr_done s = true /\ pr_accepting s = false /\ pr_conns s = ∅ /\
  exists dl, pr_deadline s = Some dl /\ (pr_handlers s = ∅ \/ dl <= pr_now s).
Proof.
  intros Hs He. assert (process_ok s) as [H1 H2 H3 H4 H5].
  { assert (process_ok (listening now)) as H0 by (split; cbn; naive_solver).
    clear He. induction Hs; eauto using process_step_ok. }
  destruct (H5 _ He) as (-> & Hcl & Hc). destruct (H4 Hcl) as (dl & Hd & Hw).
  split; [done|]. split; [destruct H2 as [?|[? ?]]; congruence|].
  split; [destruct (pr_accepting s); [|done]; specialize (H3 eq_refl); congruence|]. split; [done|]. by exists dl.
Qed.

(** A port that is taken: the listener fails, and the process reports success. *)
Example failed_listener_exits_0 :
  exists s, rtc proc_step (listening 0) s /\ pr_exit s = Some 0 /\ pr_now s = 0.
Proof.
  eexists. split; [|split].
  - eapply rtc_l; [apply (ps_listen_returns _ _ _ _ _ _ _ _ (ErrListen "address already in use")); done|].
    eapply rtc_l; [apply ps_shutdown|]. eapply rtc_l; [by apply ps_shutdown_returns; left|].
    eapply rtc_l; [apply ps_exit|]. apply rtc_refl.
  - reflexivity.
  - reflexivity.
Qed.

(** A signal with a handler that never gives its connection back: ten seconds
    bound [Shutdown], not the process. *)
Lemma held_connection_waits now s i :
  rtc proc_step (listening now) s -> i ∈ pr_conns s -> pr_exit s = None.
Proof.
  intros Hs Hi. destruct (pr_exit s) as [c|] eqn:He; [|done].
  destruct (shutdown_spec _ _ _ Hs He) as (_ & _ & _ & Hc & _). rewrite Hc in Hi. set_solver.
Qed.
